(* ===== verification/_CoqProject ===== *)
-Q . S2P
Prelude.v
CLib.v
TitanRegMap.v
Packets.v
Pm4.v
Pm4Proofs.v
Pm4States.v
CmdBuf.v
CmdBufProofs.v
Vma.v
VmaProofs.v
RegFields.v
Preamble.v
SiPreamble.v
RasterProofs.v
PreambleProofs.v
SiPreambleProofs.v
ShadowRegs.v
ShadowProofs.v
TrackedRegs.v
TrackedProofs.v
HashTable.v
HashTableProofs.v
HashTableMap.v
HashTableSpec.v
IdAlloc.v
IdAllocProofs.v
IdAllocSpec.v
Blob.v
BlobProofs.v
BlobSpec.v
BigMath.v
FastDiv.v
FastDivProofs.v
FastSdivProofs.v
Nir.v
NirProofs.v
IdivConst.v
IdivConstProofs.v
InstanceDivisor.v
