(* ===== verification/Prelude.v ===== *)
(** * Register programming, allocators and containers of radeonsi for the Xclipse 530

    The repository is Mesa's radeonsi driver ported to the Samsung Xclipse 530 (TITAN), an RDNA
    part whose registers are not where the public headers put them.  This library models the
    path from "set register R to v" to the dwords the command processor reads, with the
    preamble that programs a whole context, and the allocators and containers of [src/util]
    that the driver rests on.

    ** The program and its model

    A register write enters at [ac_pm4_set_reg] (states built once) or at
    [radeon_set_reg_seq] (draws).  Both ask the TITAN map for the offset to emit, both emit PM4
    packets, and the IB parser reads packets back when a command buffer is dumped.

    - [TitanRegMap]: [amd/common/ac_titan_kmap.h], [ac_titan_regmap.h] and the validator,
      override parser and activation of [ac_gpu_info.c].  The globals of the source are the
      record [titan]; the environment is an argument [getenv].
    - [Packets]: the PKT3 macros of [sid.h] and the SET_*_REG cases of [ac_parse_ib.c].
    - [Pm4]: [ac_pm4.c]; the state structure is the record [ac_pm4_state], with its 16-bit
      fields and its array.  [Pm4Proofs] has its invariant, [Pm4States] whole states.
    - [CmdBuf], [CmdBufProofs]: the emission macros of [ac_cmdbuf.h] and the register helpers
      of [radeonsi/si_build_pm4.h], with the tracked registers.
    - [RegFields]: addresses, fields and values from [amd/registers/*.json].
    - [Preamble]: the preambles of [ac_cmdbuf.c], the harvested raster configurations and the
      CU masks ([ac_gpu_info.c], [ac_shader_util.c]), each function as the list of calls it
      makes.  [RasterProofs] is about the masks, [PreambleProofs] bounds and classifies calls.
    - [SiPreamble], [SiPreambleProofs]: the preamble of [radeonsi/si_state.c] with the context
      table of [ac_xclipse_ctxinit.h].
    - [Vma], [VmaProofs]: [util/vma.c]; a heap is the list of its holes, high to low.
    - [HashTable]: [util/hash_table.c] and [fast_urem_by_const.h].  [HashTableProofs] has the
      arithmetic of probing, [HashTableMap] the invariant of the slots, [HashTableSpec] the
      refinement; keys and their hash are the class [KeyLaws] there.
    - [IdAlloc], [IdAllocProofs], [IdAllocSpec]: [util/u_idalloc.c], the plain, thread-safe and
      segmented id allocators.
    - [Blob], [BlobProofs], [BlobSpec]: [util/blob.c], the writer and the reader.
    - [CLib]: [strtoul], [strtol], [atoi] and [ffs] as the C library defines them, and the
      bit-field macros of [util/macros.h].
    - this file: the result type of code that can fault, machine integers, arrays, and the
      lemmas and tactics the components share.

    Integers are [Z] with the wrap of their C type written out ([u8] to [u64]).  A failed
    assertion, an access out of bounds, a null dereference and an exhausted fuel are the
    values [Fault _] of [res]: every theorem that says [= Ok _] says that none happens.

    ** What the theorems show

    - Register programming: a sequence of register writes, on any GPU and with any active map,
      is built without a fault and decodes to exactly the writes asked for, at the mapped
      offsets ([Pm4States.set_regs_roundtrip]); with packed packets, whose padding repeats
      writes, to the same register file ([set_regs_reg_file]).  The parser inverts the
      packet encoding ([Packets.parse_encode_packets]).  The radeonsi preamble fits its array
      and programs what its text asks on every supported GPU, and on the Xclipse
      ([SiPreambleProofs]).  Splitting a run and leaving out known values do not change the
      registers ([CmdBufProofs]).
    - The TITAN map: activation never leaves a map that sends two moved registers to one
      offset or a register out of its space; the built-in levels are accepted; what the
      validator counts ([TitanRegMap]).
    - Allocators and containers: each refines an abstract one and ends without a fault: the
      address allocator the set of free addresses, with alignment and boundary constraints
      ([VmaProofs]); the hash table a finite map, through growth, deletion and rehashing
      ([HashTableSpec]); the id allocator a finite set of ids with smallest-first choice
      ([IdAllocSpec]); a blob the list of its bytes, read back as written, measured exactly,
      and never written past ([BlobSpec]).
    - Behaviours the code does not intend, each as a theorem at a concrete or general input:
      packed packets that overflow the capacity check or restore a stale value, a state reused
      after a clear, two colliding overrides that pass the validator, allocations across a
      boundary, a register clobbered on the Xclipse, harvested engines, an inverted queue
      flag, lost hash entries after a failed growth, an id returned twice.

    ** Bounds and fuel

    - PM4 states hold fewer than 0x4000 dwords, the range of a packet's count; the bound
      [lay_size + 6] leaves room for the padding and the closing of one open packet.  The
      arrays of the preambles are those of the source (214, 300 on GFX12, 48 without graphics,
      2048 on the Xclipse) and the class [Frugal] bounds their calls by 148 to 2042 dwords.
    - [cmd_end_rec] has fuel 2: the padding of a packed packet makes its size even, so the
      nested call appends nothing.  Loops over arrays have the length of the array, or what is
      left of it, as fuel; probing has the table size.
    - The hash table theorem covers 2^30 calls, which stay below size index 27: there
      the sum of two addresses fits 32 bits (at the last size it does not,
      [HashTableProofs.last_size_wraps]).
    - The id allocator keeps its array within 2^27 words, the 2^32 ids ([room]); blobs stay
      below 2^62 bytes.

    ** Not modelled

    - The shader compilers (NIR, ACO, GLSL, SPIR-V), the OpenGL and Vulkan runtimes, the
      gallium front ends and the draw and shader state of radeonsi: programs of their own, whose
      register values come from compiled shaders.  The helpers through which they emit are
      modelled.
    - [ac_surface.c] (a wrapper of the vendored addrlib), the winsys and DRM calls, video,
      performance counters and traces, logging and the run-time diagnostics of the port.
    - In the modelled files: printing and log output, freeing of memory and destructors, the
      paired register macros of GFX11 and GFX12, the packets of the IB parser that are not
      register writes (a parameter), the 64-bit-key wrapper and the random entry of the hash
      table, the iterators that allow deletion.  The generated register-name table
      ([is_pgm_lo]), the success of [realloc] and the contents of fresh memory are parameters.

    ** Plan

    Next: the tracked-register clear states and the streamout flush of [ac_cmdbuf.c],
    [_mesa_hash_table_clone_into], the MessagePack writer [ac_msgpack.c], the object name table
    [mesa/main/hash.c] over the segmented id allocator, [util/u_range_remap.c], [util/dag.c],
    [util/rb_tree.c] and [util/fast_idiv_by_const.c]. *)


From Stdlib Require Export ZArith Lia Bool ZifyNat.
From stdpp Require Export base numbers list option gmap.

#[global] Open Scope Z_scope.

(** ** Faulting computations

A C function that contains [assert] or indexes an array either produces a
value or stops: [Fault AssertFail] is a failed [assert] (a build without
[NDEBUG]), [Fault OutOfBounds] an access outside an array and
[Fault NullDeref] a dereference of a null pointer; [Fault OutOfFuel] marks a
recursion cut short by its fuel, which the theorems exclude. *)

Inductive fault : Set :=
| AssertFail
| OutOfBounds
| NullDeref
| Undefined
| OutOfFuel.

#[global] Instance fault_eq_dec : EqDecision fault.
Proof. solve_decision. Defined.

Inductive res (A : Type) : Type :=
| Ok (a : A)
| Fault (f : fault).
Arguments Ok {A} a.
Arguments Fault {A} f.

#[global] Instance Ok_inj {A} : Inj (=) (=) (@Ok A).
Proof. by intros x y [= ->]. Qed.

#[global] Instance res_eq_dec `{EqDecision A} : EqDecision (res A).
Proof. solve_decision. Defined.

Definition res_bind {A B} (m : res A) (k : A -> res B) : res B :=
  match m with Ok a => k a | Fault f => Fault f end.

Definition assert_ (b : bool) : res unit :=
  if b then Ok tt else Fault AssertFail.

Definition is_ok {A} (m : res A) : Prop := exists a, m = Ok a.

Declare Scope res_scope.
Delimit Scope res_scope with res.
Notation "'let*' x ':=' m 'in' k" :=
  (res_bind m (fun x => k)) (at level 10, x pattern, m at level 100, k at level 200) : res_scope.
Notation "'assert!' b 'in' k" :=
  (res_bind (assert_ b) (fun _ => k)) (at level 10, b at level 100, k at level 200) : res_scope.
#[global] Open Scope res_scope.

Section Res.
Context {A B : Type}.

Lemma res_bind_ok (m : res A) (k : A -> res B) b :
  res_bind m k = Ok b <-> exists a, m = Ok a /\ k a = Ok b.
Proof. destruct m as [a|f]; naive_solver. Qed.

Lemma assert_ok (b : bool) u : assert_ b = Ok u <-> b = true.
Proof. destruct b, u; naive_solver. Qed.

Lemma assert_bind_true (b : bool) (k : unit -> res B) :
  b = true -> res_bind (assert_ b) k = k tt.
Proof. by intros ->. Qed.
End Res.

(** Runs through a hypothesis [... = Ok _], exposing each step. *)
Ltac inv_res :=
  repeat match goal with
  | H : res_bind ?m ?k = Ok ?b |- _ =>
      apply res_bind_ok in H as (? & ? & H)
  | H : assert_ ?b = Ok ?u |- _ => apply assert_ok in H
  | H : Ok ?a = Ok ?b |- _ => injection H as H
  | H : Fault _ = Ok _ |- _ => discriminate H
  | H : Ok _ = Fault _ |- _ => discriminate H
  end.

(** Discharges the assertion at the head of the goal. *)
Ltac step_assert :=
  rewrite assert_bind_true; [ cbn beta | ].

(** ** Machine integers *)

Definition u8 (x : Z) : Z := x mod 2 ^ 8.
Definition u16 (x : Z) : Z := x mod 2 ^ 16.
Definition u32 (x : Z) : Z := x mod 2 ^ 32.
Definition u64 (x : Z) : Z := x mod 2 ^ 64.

Definition in_u8 (x : Z) : Prop := 0 <= x < 2 ^ 8.
Definition in_u16 (x : Z) : Prop := 0 <= x < 2 ^ 16.
Definition in_u32 (x : Z) : Prop := 0 <= x < 2 ^ 32.
Definition in_u64 (x : Z) : Prop := 0 <= x < 2 ^ 64.

Lemma u32_small x : in_u32 x -> u32 x = x.
Proof. apply Z.mod_small. Qed.
Lemma u64_small x : in_u64 x -> u64 x = x.
Proof. apply Z.mod_small. Qed.
Lemma u16_small x : in_u16 x -> u16 x = x.
Proof. apply Z.mod_small. Qed.
Lemma u8_small x : in_u8 x -> u8 x = x.
Proof. apply Z.mod_small. Qed.
Lemma u32_range x : in_u32 (u32 x).
Proof. apply Z.mod_pos_bound; lia. Qed.
Lemma u64_range x : in_u64 (u64 x).
Proof. apply Z.mod_pos_bound; lia. Qed.
Lemma u64_neg x : - 2 ^ 64 <= x < 0 -> u64 x = x + 2 ^ 64.
Proof.
  intros ?. unfold u64. symmetry.
  apply (Z.mod_unique _ _ (-1)); lia.
Qed.
Lemma u64_over x : 2 ^ 64 <= x < 2 * 2 ^ 64 -> u64 x = x - 2 ^ 64.
Proof. intros ?. unfold u64. symmetry. apply (Z.mod_unique _ _ 1); lia. Qed.

Create HintDb uints.
#[export] Hint Resolve u32_range u64_range : uints.

(** ** Arrays

A C array is the list of its elements; an index outside it is a fault. *)

Definition arr_get {A} (l : list A) (i : Z) : res A :=
  if i <? 0 then Fault OutOfBounds
  else match l !! Z.to_nat i with Some x => Ok x | None => Fault OutOfBounds end.

Definition arr_set {A} (l : list A) (i : Z) (x : A) : res (list A) :=
  if (i <? 0) || (Z.of_nat (length l) <=? i) then Fault OutOfBounds
  else Ok (<[Z.to_nat i := x]> l).

Section Arrays.
Context {A : Type}.
Implicit Types (l : list A) (x : A).

Lemma arr_get_ok l i x :
  arr_get l i = Ok x <-> 0 <= i /\ l !! Z.to_nat i = Some x.
Proof.
  unfold arr_get. destruct (Z.ltb_spec i 0).
  - split; [discriminate|lia].
  - destruct (l !! Z.to_nat i); naive_solver.
Qed.

Lemma arr_get_nth l (n : nat) x : l !! n = Some x -> arr_get l (Z.of_nat n) = Ok x.
Proof. intros ?. apply arr_get_ok. by rewrite Nat2Z.id; split; [lia|]. Qed.

Lemma arr_set_ok l i x l' :
  arr_set l i x = Ok l' <->
  0 <= i < Z.of_nat (length l) /\ l' = <[Z.to_nat i := x]> l.
Proof.
  unfold arr_set.
  destruct (Z.ltb_spec i 0), (Z.leb_spec (Z.of_nat (length l)) i); naive_solver lia.
Qed.

Lemma arr_get_in_range l i :
  0 <= i < Z.of_nat (length l) -> exists x, arr_get l i = Ok x /\ l !! Z.to_nat i = Some x.
Proof.
  intros ?. destruct (lookup_lt_is_Some_2 l (Z.to_nat i)) as [x Hx]; [lia|].
  exists x. split; [|done]. apply arr_get_ok. split; [lia|done].
Qed.
End Arrays.

(** ** Switches over constants

[switch_opt tbl x] is a C [switch] whose cases are the rows of [tbl] and whose
default falls through; [switch] is one whose default returns [x] itself. *)

Fixpoint switch_opt (tbl : list (Z * Z)) (x : Z) : option Z :=
  match tbl with
  | [] => None
  | (k, v) :: tbl' => if x =? k then Some v else switch_opt tbl' x
  end.

Definition switch (tbl : list (Z * Z)) (x : Z) : Z := default x (switch_opt tbl x).

Section Switch.
Implicit Types tbl : list (Z * Z).

Lemma switch_opt_None tbl x : switch_opt tbl x = None <-> x ∉ tbl.*1.
Proof.
  induction tbl as [|[k v] tbl IH]; simpl; [by rewrite elem_of_nil; naive_solver|].
  rewrite not_elem_of_cons. destruct (Z.eqb_spec x k); naive_solver.
Qed.

Lemma switch_opt_Some tbl x y : switch_opt tbl x = Some y -> (x, y) ∈ tbl.
Proof.
  induction tbl as [|[k v] tbl IH]; simpl; [done|].
  rewrite elem_of_cons. destruct (Z.eqb_spec x k); naive_solver.
Qed.

Lemma switch_not_in tbl x : x ∉ tbl.*1 -> switch tbl x = x.
Proof. intros ?%switch_opt_None. unfold switch. by rewrite H. Qed.

Lemma switch_moved tbl x : switch tbl x <> x -> (x, switch tbl x) ∈ tbl.
Proof.
  unfold switch. destruct (switch_opt tbl x) eqn:E; simpl; [|done].
  intros _. by apply switch_opt_Some.
Qed.

Lemma switch_moved_injective tbl x y :
  NoDup tbl.*2 -> switch tbl x <> x -> switch tbl y <> y ->
  switch tbl x = switch tbl y -> x = y.
Proof.
  intros Hnd Hx%switch_moved Hy%switch_moved E. rewrite E in Hx.
  apply list_elem_of_lookup in Hx as [i Hi], Hy as [j Hj].
  assert (i = j) as ->; [|congruence].
  eapply NoDup_lookup; [done|by rewrite list_lookup_fmap, Hi|by rewrite list_lookup_fmap, Hj].
Qed.

Lemma switch_opt_ge tbl b x :
  forallb (fun p => p.1 <? b) tbl = true -> b <= x -> switch_opt tbl x = None.
Proof.
  intros H Hx. apply switch_opt_None. intros ([k v] & -> & Hp)%list_elem_of_fmap.
  apply (forallb_forall _ _) with (x := (k, v)) in H; [|by apply list_elem_of_In].
  simpl in *. lia.
Qed.
End Switch.

(** ** Finite checks

A statement about every element of a list, decided by evaluation. *)

Lemma forallb_elem {A} (f : A -> bool) (l : list A) x :
  forallb f l = true -> x ∈ l -> f x = true.
Proof. intros H ?%list_elem_of_In. by eapply forallb_forall in H. Qed.

Lemma forallb_seqZ (f : Z -> bool) m n x :
  forallb f (seqZ m n) = true -> m <= x < m + n -> f x = true.
Proof. intros H ?. eapply forallb_elem; [done|]. apply elem_of_seqZ. lia. Qed.

(** Induction over a [for (x = 0; x < n; x++)] loop. *)
Lemma foldl_seqZ_ind {A} (P : Z -> A -> Prop) (f : A -> Z -> A) (a : A) n :
  0 <= n -> P 0 a ->
  (forall k a, 0 <= k < n -> P k a -> P (k + 1) (f a k)) ->
  P n (foldl f a (seqZ 0 n)).
Proof.
  intros Hn H0 Hstep. rewrite <- (Z2Nat.id n) by done.
  assert (Z.of_nat (Z.to_nat n) <= n) as Hle by lia. revert Hle.
  generalize (Z.to_nat n) as m. induction m as [|m IH]; intros Hle; [done|].
  rewrite Nat2Z.inj_succ, <- Z.add_1_r, seqZ_app, foldl_app by lia.
  simpl. rewrite Z.add_0_l. apply Hstep; [lia|]. apply IH. lia.
Qed.

(** A decidable property that holds below a bound has a least witness. *)
Lemma least_Z (P : Z -> Prop) `{!forall x, Decision (P x)} x :
  0 <= x -> P x -> exists y, 0 <= y <= x /\ P y /\ forall z, 0 <= z < y -> ~ P z.
Proof.
  intros Hx. pattern x. apply Zlt_0_ind; [|done]. clear x Hx.
  intros x IH Hx HP.
  destruct (decide (Exists P (seqZ 0 x))) as [He|Hne].
  - apply Exists_exists in He as (z & Hz%elem_of_seqZ & HPz).
    destruct (IH z) as (y & ? & ? & ?); [lia|done|]. exists y. split; [lia|done].
  - exists x. split_and!; [lia|lia|done|]. intros z Hz HPz. apply Hne, Exists_exists.
    exists z. split; [apply elem_of_seqZ; lia|done].
Qed.

(** ** Bit fields *)

Lemma lor_disjoint_add a b n :
  0 <= n -> 0 <= b < 2 ^ n -> Z.lor (a * 2 ^ n) b = a * 2 ^ n + b.
Proof.
  intros Hn Hb. pose proof (Z.add_lor_land (a * 2 ^ n) b).
  enough (Z.land (a * 2 ^ n) b = 0) by lia.
  apply Z.bits_inj'. intros i Hi. rewrite Z.land_spec, Z.bits_0.
  destruct (Z.lt_ge_cases i n).
  - by rewrite Z.mul_pow2_bits_low.
  - rewrite <- (Z.mod_small b (2 ^ n)) by done.
    rewrite Z.mod_pow2_bits_high by lia. apply andb_false_r.
Qed.

Lemma land_mask_mod x n m : 0 <= n -> m = 2 ^ n - 1 -> Z.land x m = x mod 2 ^ n.
Proof. intros Hn ->. rewrite <- Z.land_ones, Z.ones_equiv, <- Z.sub_1_r by done. done. Qed.

Lemma shiftl_mul x n : 0 <= n -> Z.shiftl x n = x * 2 ^ n.
Proof. apply Z.shiftl_mul_pow2. Qed.

Lemma shiftr_div x n : 0 <= n -> Z.shiftr x n = x / 2 ^ n.
Proof. apply Z.shiftr_div_pow2. Qed.

(** Linear goals about [/] and [mod] by constants. *)
Ltac zdivmod := zify; Z.div_mod_to_equations; lia.
