(* ===== verification/CLib.v ===== *)
(** The C library functions the modelled sources call on strings: [strtoul],
    [strtol] and [atoi] for the bases they use (10, 16 and 0), on a platform with
    64-bit [long] and 32-bit [int]; and the bit-field macros of [util/macros.h]. *)

From Stdlib Require Import Ascii.
From stdpp Require Import strings.
From S2P Require Import Prelude.

(** [isspace] in the C locale. *)
Definition isspace (c : Ascii.ascii) : bool :=
  let n := Z.of_N (Ascii.N_of_ascii c) in ((9 <=? n) && (n <=? 13)) || (n =? 32).

(** The value of an alphanumeric character as a digit. *)
Definition digit_of (c : Ascii.ascii) : option Z :=
  let n := Z.of_N (Ascii.N_of_ascii c) in
  if (48 <=? n) && (n <=? 57) then Some (n - 48)
  else if (97 <=? n) && (n <=? 122) then Some (n - 87)
  else if (65 <=? n) && (n <=? 90) then Some (n - 55)
  else None.

Definition is_digit (base : Z) (c : Ascii.ascii) : bool :=
  match digit_of c with Some d => d <? base | None => false end.

Fixpoint skip_spaces (s : string) : string :=
  match s with
  | String.String c s' => if isspace c then skip_spaces s' else s
  | String.EmptyString => s
  end.

(** The maximal run of digits at the head of [s], accumulated onto [acc]. *)
Fixpoint take_digits (base acc : Z) (s : string) : Z * string :=
  match s with
  | String.String c s' =>
      match digit_of c with
      | Some d => if d <? base then take_digits base (acc * base + d) s' else (acc, s)
      | None => (acc, s)
      end
  | String.EmptyString => (acc, s)
  end.

Definition starts_digit (base : Z) (s : string) : bool :=
  match s with String.String c _ => is_digit base c | String.EmptyString => false end.

Definition take_sign (s : string) : bool * string :=
  match s with
  | String.String "-"%char s' => (true, s')
  | String.String "+"%char s' => (false, s')
  | _ => (false, s)
  end.

(** The optional [0x] prefix (accepted for base 16 and base 0 when a hexadecimal
    digit follows) and the base that base 0 stands for. *)
Definition take_prefix (base : Z) (s : string) : Z * string :=
  match s with
  | String.String "0"%char (String.String c s') =>
      if (bool_decide (c = "x"%char) || bool_decide (c = "X"%char)) &&
         ((base =? 16) || (base =? 0)) && starts_digit 16 s'
      then (16, s')
      else ((if base =? 0 then 8 else base), s)
  | String.String "0"%char String.EmptyString => ((if base =? 0 then 8 else base), s)
  | _ => ((if base =? 0 then 10 else base), s)
  end.

(** The subject sequence: [None] when no conversion can be performed, else its sign,
    its magnitude and the rest of the string. *)
Definition scan_int (base : Z) (s : string) : option (bool * Z * string) :=
  let '(neg, s1) := take_sign (skip_spaces s) in
  let '(base', s2) := take_prefix base s1 in
  if starts_digit base' s2
  then let '(v, rest) := take_digits base' 0 s2 in Some (neg, v, rest)
  else None.

(** [strtoul(s, &end, base)]: the value and what [end] points to ([s] itself when
    nothing is converted). *)
Definition strtoul (base : Z) (s : string) : Z * string :=
  match scan_int base s with
  | None => (0, s)
  | Some (neg, v, rest) =>
      if 2 ^ 64 <=? v then (2 ^ 64 - 1, rest)
      else ((if neg then u64 (- v) else v), rest)
  end.

(** [strtol(s, &end, base)]: values outside [long] are clamped. *)
Definition strtol (base : Z) (s : string) : Z * string :=
  match scan_int base s with
  | None => (0, s)
  | Some (neg, v, rest) =>
      (Z.max (- 2 ^ 63) (Z.min (2 ^ 63 - 1) (if neg then - v else v)), rest)
  end.

(** Conversion to [int]. *)
Definition to_int (x : Z) : Z := (x + 2 ^ 31) mod 2 ^ 32 - 2 ^ 31.

Definition atoi (s : string) : Z := to_int (fst (strtol 10 s)).

(** [*s == c] for a character [c] other than the terminator: the rest of the string. *)
Definition strip_char (c : Ascii.ascii) (s : string) : option string :=
  match s with
  | String.String c' s' => if bool_decide (c' = c) then Some s' else None
  | String.EmptyString => None
  end.

(** [e && e[0]]: the variable is set and not empty. *)
Definition nonempty (e : option string) : option string :=
  match e with
  | Some (String.String c s) => Some (String.String c s)
  | _ => None
  end.

Example strtoul_hex : strtoul 16 " 0x3fFz" = (0x3ff, "z").
Proof. vm_compute. reflexivity. Qed.

Example strtoul_no_digits : strtoul 16 "0xg" = (0, "xg") /\ strtoul 16 ":" = (0, ":").
Proof. vm_compute. auto. Qed.

Example strtoul_octal_neg : strtoul 0 "-010" = (2 ^ 64 - 8, "").
Proof. vm_compute. reflexivity. Qed.

Example atoi_examples : atoi "12ab" = 12 /\ atoi "-3" = -3 /\ atoi "x" = 0.
Proof. vm_compute. auto. Qed.

Lemma digit_of_nonneg c d : digit_of c = Some d -> 0 <= d.
Proof.
  unfold digit_of. intros H. repeat case_match; simplify_eq; lia.
Qed.

Lemma take_digits_nonneg base acc s :
  0 <= base -> 0 <= acc -> 0 <= fst (take_digits base acc s).
Proof.
  intros Hb. revert acc. induction s as [|c s IH]; intros acc Ha; simpl; [done|].
  destruct (digit_of c) as [d|] eqn:E; [|done]. apply digit_of_nonneg in E.
  destruct (d <? base); [|done]. apply IH. nia.
Qed.

Lemma take_prefix_nonneg base s : 0 <= base -> 0 <= fst (take_prefix base s).
Proof.
  intros Hb. unfold take_prefix. repeat case_match; simpl; lia.
Qed.

Lemma strtoul_range base s : 0 <= base -> 0 <= fst (strtoul base s) < 2 ^ 64.
Proof.
  intros Hb. unfold strtoul, scan_int.
  destruct (take_sign (skip_spaces s)) as [neg s1].
  pose proof (take_prefix_nonneg base s1 Hb).
  destruct (take_prefix base s1) as [base' s2]. simpl in *.
  destruct (starts_digit base' s2); [|simpl; lia].
  pose proof (take_digits_nonneg base' 0 s2).
  destruct (take_digits base' 0 s2) as [v rest]. simpl in *.
  destruct (Z.leb_spec (2 ^ 64) v); simpl; [lia|].
  destruct neg; simpl; [apply u64_range|lia].
Qed.

(** ** Bit-field macros of [util/macros.h] *)

Definition BITFIELD_BIT (b : Z) : Z := u32 (Z.shiftl 1 b).
Definition BITFIELD_MASK (b : Z) : Z :=
  if b =? 32 then 2 ^ 32 - 1 else BITFIELD_BIT (Z.land b 31) - 1.
Definition BITFIELD64_BIT (b : Z) : Z := u64 (Z.shiftl 1 b).
Definition BITFIELD64_MASK (b : Z) : Z :=
  if b =? 64 then 2 ^ 64 - 1 else BITFIELD64_BIT (Z.land b 63) - 1.

(** [util_bitcount64]. *)
Definition util_bitcount64 (n : Z) : Z :=
  Z.of_nat (length (filter (fun i => Z.testbit n i = true) (seqZ 0 64))).

(** [fui] of a float that is a natural number below 2^24: the bits of its IEEE single. *)
Definition fui (n : Z) : Z :=
  if n =? 0 then 0
  else let e := Z.log2 n in Z.shiftl (127 + e) 23 + (Z.shiftl n (23 - e) - 2 ^ 23).

(** [ffs]: one plus the index of the lowest set bit of a 32-bit integer, 0 when there is none. *)
Definition ffs (x : Z) : Z :=
  match list_find (fun i => Z.testbit x i = true) (seqZ 0 32) with
  | Some (_, i) => i + 1
  | None => 0
  end.

Lemma ffs_spec x :
  0 < x < 2 ^ 32 ->
  0 <= ffs x - 1 < 32 /\ Z.testbit x (ffs x - 1) = true /\
  forall j, 0 <= j < ffs x - 1 -> Z.testbit x j = false.
Proof.
  intros Hx. unfold ffs.
  destruct (list_find _ (seqZ 0 32)) as [[n i]|] eqn:E.
  - apply list_find_Some in E as (Hn & Hi & Hlt).
    apply lookup_seqZ in Hn as [-> Hn]. split_and!; [lia|lia|by replace (0 + Z.of_nat n + 1 - 1) with (0 + Z.of_nat n) by lia|].
    intros j Hj. apply not_true_iff_false. apply (Hlt (Z.to_nat j) j); [|lia].
    apply lookup_seqZ. lia.
  - apply list_find_None in E. exfalso.
    assert (0 <= Z.log2 x < 32) as Hl.
    { split; [apply Z.log2_nonneg|]. apply Z.log2_lt_pow2; lia. }
    assert (Z.log2 x ∈ seqZ 0 32) as Hin by (apply elem_of_seqZ; lia).
    rewrite Forall_forall in E. apply (E _ Hin). apply Z.bit_log2. lia.
Qed.
