(* ===== verification/TitanRegMap.v ===== *)
(** TITAN register map: the Xclipse 530 (TITAN, MGFX1) lays out its registers
    differently from GFX10_3, and every register offset the driver emits goes
    through [ac_titan_remap_dw].  This file models [ac_titan_kmap.h] (the map
    generated from the vendor kernel), [ac_titan_regmap.h] (the hand-recovered
    table, its levels, the environment overrides, the run-splitting test) and the
    validator, the override parser and [ac_titan_regmap_set_level] of
    [ac_gpu_info.c]. *)

From Stdlib Require Import Ascii.
From stdpp Require Import strings.
From S2P Require Import Prelude.
From S2P Require Import CLib.

(** ** Register spaces, in bytes ([sid.h]) *)

Definition SI_CONFIG_REG_OFFSET : Z := 0x8000.
Definition SI_CONFIG_REG_END : Z := 0xB000.
Definition SI_SH_REG_OFFSET : Z := 0xB000.
Definition SI_SH_REG_END : Z := 0xC000.
Definition SI_CONTEXT_REG_OFFSET : Z := 0x28000.
Definition SI_CONTEXT_REG_END : Z := 0x30000.
Definition CIK_UCONFIG_REG_OFFSET : Z := 0x30000.
Definition CIK_UCONFIG_REG_END : Z := 0x40000.

(** ** The kernel's map ([ac_titan_kmap.h])

The one [switch] of [ac_titan_kmap_ctx], in four consecutive pieces. *)

Definition kmap_ctx_db : list (Z * Z) :=
  [(0x000, 0x019); (0x002, 0x016); (0x004, 0x017); (0x005, 0x00e); (0x007, 0x00f);
   (0x00f, 0x007); (0x016, 0x002); (0x017, 0x004); (0x018, 0x2af); (0x019, 0x000);
   (0x01a, 0x01f); (0x01b, 0x023); (0x01c, 0x022); (0x01f, 0x01a); (0x08e, 0x37a);
   (0x08f, 0x37b); (0x0b4, 0x117); (0x0b5, 0x118); (0x0b6, 0x11f); (0x0b7, 0x120);
   (0x0b8, 0x127); (0x0b9, 0x128); (0x0ba, 0x12f); (0x0bb, 0x130); (0x0bc, 0x137);
   (0x0bd, 0x138); (0x0be, 0x13f); (0x0bf, 0x140); (0x0c0, 0x147); (0x0c1, 0x148);
   (0x0c2, 0x14f); (0x0c3, 0x150); (0x0c4, 0x157); (0x0c5, 0x158); (0x0c6, 0x15f);
   (0x0c7, 0x160); (0x0c8, 0x167); (0x0c9, 0x168); (0x0ca, 0x16f); (0x0cb, 0x170);
   (0x0cc, 0x177); (0x0cd, 0x178); (0x0ce, 0x17f); (0x0cf, 0x180); (0x0d0, 0x187);
   (0x0d1, 0x188); (0x0d2, 0x18f); (0x0d3, 0x190); (0x10a, 0x379); (0x10b, 0x201);
   (0x10c, 0x0fa); (0x10d, 0x0fb)].

Definition kmap_ctx_vport : list (Z * Z) :=
  [(0x10f, 0x111); (0x110, 0x112); (0x111, 0x113); (0x112, 0x114); (0x113, 0x115);
   (0x114, 0x116); (0x115, 0x119); (0x116, 0x11a); (0x117, 0x11b); (0x118, 0x11c);
   (0x119, 0x11d); (0x11a, 0x11e); (0x11b, 0x121); (0x11c, 0x122); (0x11d, 0x123);
   (0x11e, 0x124); (0x11f, 0x125); (0x120, 0x126); (0x121, 0x129); (0x122, 0x12a);
   (0x123, 0x12b); (0x124, 0x12c); (0x125, 0x12d); (0x126, 0x12e); (0x127, 0x131);
   (0x128, 0x132); (0x129, 0x133); (0x12a, 0x134); (0x12b, 0x135); (0x12c, 0x136);
   (0x12d, 0x139); (0x12e, 0x13a); (0x12f, 0x13b); (0x130, 0x13c); (0x131, 0x13d);
   (0x132, 0x13e); (0x133, 0x141); (0x134, 0x142); (0x135, 0x143); (0x136, 0x144);
   (0x137, 0x145); (0x138, 0x146); (0x139, 0x149); (0x13a, 0x14a); (0x13b, 0x14b);
   (0x13c, 0x14c); (0x13d, 0x14d); (0x13e, 0x14e); (0x13f, 0x151); (0x140, 0x152);
   (0x141, 0x153); (0x142, 0x154); (0x143, 0x155); (0x144, 0x156); (0x145, 0x159);
   (0x146, 0x15a); (0x147, 0x15b); (0x148, 0x15c); (0x149, 0x15d); (0x14a, 0x15e);
   (0x14b, 0x161); (0x14c, 0x162); (0x14d, 0x163); (0x14e, 0x164); (0x14f, 0x165);
   (0x150, 0x166); (0x151, 0x169); (0x152, 0x16a); (0x153, 0x16b); (0x154, 0x16c);
   (0x155, 0x16d); (0x156, 0x16e); (0x157, 0x171); (0x158, 0x172); (0x159, 0x173);
   (0x15a, 0x174); (0x15b, 0x175); (0x15c, 0x176); (0x15d, 0x179); (0x15e, 0x17a);
   (0x15f, 0x17b); (0x160, 0x17c); (0x161, 0x17d); (0x162, 0x17e); (0x163, 0x181);
   (0x164, 0x182); (0x165, 0x183); (0x166, 0x184); (0x167, 0x185); (0x168, 0x186);
   (0x169, 0x189); (0x16a, 0x18a); (0x16b, 0x18b); (0x16c, 0x18c); (0x16d, 0x18d);
   (0x16e, 0x18e); (0x16f, 0x0b4); (0x170, 0x0b5); (0x171, 0x0b6); (0x172, 0x0b7);
   (0x173, 0x0b8); (0x174, 0x0b9); (0x175, 0x0ba); (0x176, 0x0bb); (0x177, 0x0bc);
   (0x178, 0x0bd); (0x179, 0x0be); (0x17a, 0x0bf); (0x17b, 0x0c0); (0x17c, 0x0c1);
   (0x17d, 0x0c2); (0x17e, 0x0c3); (0x17f, 0x0c4); (0x180, 0x0c5); (0x181, 0x0c6);
   (0x182, 0x0c7); (0x183, 0x0c8); (0x184, 0x0c9); (0x185, 0x0ca); (0x186, 0x0cb);
   (0x187, 0x0cc); (0x188, 0x0cd)].

Definition kmap_ctx_spi_vgt : list (Z * Z) :=
  [(0x191, 0x199); (0x192, 0x19a); (0x193, 0x19b); (0x194, 0x19c); (0x195, 0x19d);
   (0x196, 0x19e); (0x197, 0x19f); (0x198, 0x1a0); (0x199, 0x1a1); (0x19a, 0x1a2);
   (0x19b, 0x1a3); (0x19c, 0x1a4); (0x19d, 0x1a5); (0x19e, 0x1a6); (0x19f, 0x1a7);
   (0x1a0, 0x1a8); (0x1a1, 0x1a9); (0x1a2, 0x1aa); (0x1a3, 0x1ab); (0x1a4, 0x1ac);
   (0x1a5, 0x1ad); (0x1a6, 0x1ae); (0x1a7, 0x1af); (0x1a8, 0x1b0); (0x1a9, 0x1b1);
   (0x1aa, 0x1b2); (0x1ab, 0x1b3); (0x1ac, 0x1b4); (0x1ad, 0x1b5); (0x1ae, 0x1b6);
   (0x1af, 0x1b7); (0x1b0, 0x1b8); (0x1b1, 0x1c3); (0x1b3, 0x197); (0x1b4, 0x198);
   (0x1b5, 0x191); (0x1b6, 0x1c4); (0x1b7, 0x1c2); (0x1b8, 0x196); (0x1c2, 0x192);
   (0x1c3, 0x193); (0x1c4, 0x194); (0x1c5, 0x195); (0x201, 0x01b); (0x202, 0x378);
   (0x204, 0x205); (0x205, 0x204); (0x291, 0x2a9); (0x292, 0x310); (0x2a1, 0x2a5);
   (0x2a6, 0x2a8); (0x2aa, 0x2db); (0x2ab, 0x2d0); (0x2ad, 0x2a7); (0x2af, 0x018);
   (0x2d5, 0x2a6); (0x2db, 0x2aa); (0x2dc, 0x01c); (0x2e4, 0x2cf); (0x2f5, 0x2fc);
   (0x2f6, 0x2fd); (0x2fa, 0x10d); (0x2fb, 0x10e); (0x2fc, 0x10f); (0x2fd, 0x110);
   (0x310, 0x316)].

Definition kmap_ctx_cb : list (Z * Z) :=
  [(0x313, 0x315); (0x315, 0x313); (0x31b, 0x319); (0x31c, 0x360); (0x31d, 0x31a);
   (0x31e, 0x31b); (0x31f, 0x31c); (0x321, 0x31d); (0x323, 0x368); (0x324, 0x369);
   (0x325, 0x31e); (0x327, 0x321); (0x32a, 0x322); (0x32b, 0x361); (0x32c, 0x323);
   (0x32d, 0x324); (0x32e, 0x325); (0x330, 0x326); (0x332, 0x36a); (0x333, 0x36b);
   (0x334, 0x327); (0x336, 0x32a); (0x339, 0x32b); (0x33a, 0x362); (0x33b, 0x32c);
   (0x33c, 0x32d); (0x33d, 0x32e); (0x33f, 0x32f); (0x341, 0x36c); (0x342, 0x36d);
   (0x343, 0x330); (0x345, 0x333); (0x348, 0x334); (0x349, 0x363); (0x34a, 0x335);
   (0x34b, 0x336); (0x34c, 0x337); (0x34e, 0x338); (0x350, 0x36e); (0x351, 0x36f);
   (0x352, 0x339); (0x354, 0x33c); (0x357, 0x33d); (0x358, 0x364); (0x359, 0x33e);
   (0x35a, 0x33f); (0x35b, 0x340); (0x35d, 0x341); (0x35f, 0x370); (0x360, 0x371);
   (0x361, 0x342); (0x363, 0x345); (0x366, 0x346); (0x367, 0x365); (0x368, 0x347);
   (0x369, 0x348); (0x36a, 0x349); (0x36c, 0x34a); (0x36e, 0x372); (0x36f, 0x373);
   (0x370, 0x34b); (0x372, 0x34e); (0x375, 0x34f); (0x376, 0x366); (0x377, 0x350);
   (0x378, 0x351); (0x379, 0x352); (0x37b, 0x353); (0x37d, 0x374); (0x37e, 0x375);
   (0x37f, 0x354); (0x381, 0x357); (0x384, 0x358); (0x385, 0x367); (0x386, 0x359);
   (0x387, 0x35a); (0x388, 0x35b); (0x38a, 0x35c); (0x38c, 0x376); (0x38d, 0x377);
   (0x38e, 0x35d); (0x3b0, 0x31f); (0x3b1, 0x328); (0x3b2, 0x331); (0x3b3, 0x33a);
   (0x3b4, 0x343); (0x3b5, 0x34c); (0x3b6, 0x355); (0x3b7, 0x35e); (0x3b8, 0x320);
   (0x3b9, 0x329); (0x3ba, 0x332); (0x3bb, 0x33b); (0x3bc, 0x344); (0x3bd, 0x34d);
   (0x3be, 0x356); (0x3bf, 0x35f)].

Definition kmap_ctx_table : list (Z * Z) :=
  kmap_ctx_db ++ kmap_ctx_vport ++ kmap_ctx_spi_vgt ++ kmap_ctx_cb.

Definition ac_titan_kmap_ctx (dw : Z) : Z := switch kmap_ctx_table dw.

Definition kmap_sh_table : list (Z * Z) :=
  [(0x007, 0x000); (0x081, 0x08b); (0x087, 0x08a); (0x08a, 0x084); (0x08b, 0x085);
   (0x0c8, 0x086); (0x0c9, 0x087); (0x101, 0x10b); (0x107, 0x10a); (0x10a, 0x104);
   (0x10b, 0x105); (0x148, 0x106); (0x149, 0x107)].

Definition ac_titan_kmap_sh (dw : Z) : Z := switch kmap_sh_table dw.

Definition ac_titan_kmap_ucfg (dw : Z) : Z :=
  switch [(0x261, 0x262); (0x262, 0x261)] dw.

(** ** The globals of the map ([ac_titan_regmap.h], [ac_gpu_info.c]) *)

Record titan : Type := mk_titan {
  regmap_active : bool;
  regmap_level : Z;
  regmap_suppress : bool;
  regmap_hits : Z;
  mapovr : list (Z * Z)   (* the first [ac_titan_mapovr_n] of src and dst *)
}.

Definition AC_TITAN_MAPOVR_MAX : nat := 16.

(** The initial values of the globals. *)
Definition titan_init : titan :=
  {| regmap_active := false; regmap_level := 0; regmap_suppress := true;
     regmap_hits := 0; mapovr := [] |}.

Section Titan.
(** The process environment. *)
Context (getenv : string -> option string).

Definition ac_titan_kmap_level : Z :=
  u32 (match nonempty (getenv "RADV_XCLIPSE_KMAP") with Some e => atoi e | None => 3 end).

Definition ac_titan_legacy_pgm_hi : bool :=
  match nonempty (getenv "RADV_XCLIPSE_TITAN_PGMHI") with
  | Some e => negb (atoi e =? 0)
  | None => ac_titan_kmap_level <? 2
  end.

Definition ac_titan_db_active (t : titan) : bool :=
  regmap_active t && (10 <=? regmap_level t).

Definition ac_titan_tex_iterate256 (t : titan) : bool :=
  regmap_active t &&
  negb (match nonempty (getenv "RADV_XCLIPSE_TEXIT256") with Some e => atoi e | None => 0 end =? 0).

Definition ac_titan_spi_slot (env : string) (dflt : Z) : Z :=
  match nonempty (getenv env) with
  | Some e => u32 (fst (strtoul 0 e))
  | None => dflt
  end.

(** The cases of each level's [switch] of [ac_titan_ctx_dw]. *)
Definition ctx_cases_1 : list (Z * Z) :=
  [(0x2d5, 0x2a6); (0x2a6, 0x2a8); (0x10c, 0x0fa); (0x10d, 0x0fb)].

Definition ctx_cases_4 : list (Z * Z) :=
  [(0x1b5, 0x191); (0x1c2, 0x192); (0x1c3, 0x193); (0x1c4, 0x194); (0x1c5, 0x195);
   (0x1b8, 0x196); (0x1b3, 0x197); (0x1b4, 0x198);
   (0x1b1, ac_titan_spi_slot "RADV_XCLIPSE_SPIVOC" 0x1c3);
   (0x1b6, ac_titan_spi_slot "RADV_XCLIPSE_SPIPIC" 0x1c4);
   (0x2fa, 0x10d); (0x2fb, 0x10e); (0x2fc, 0x10f); (0x2fd, 0x110)].

Definition ctx_cases_6 : list (Z * Z) := [(0x291, 0x2a9); (0x2e4, 0x2d0)].

Definition ctx_cases_8 : list (Z * Z) := [(0x202, 0x378); (0x08e, 0x37a); (0x08f, 0x37b)].

Definition ctx_cases_10 : list (Z * Z) :=
  [(0x000, 0x019); (0x004, 0x017); (0x005, 0x00e); (0x007, 0x00f); (0x01f, 0x01a);
   (0x10b, 0x201); (0x201, 0x01b); (0x2af, 0x018); (0x2dc, 0x01c)].

(** The per-MRT colour block (level 9); [None] falls through. *)
Definition ctx_color_block (dw : Z) : option Z :=
  let mrt := (dw - 0x318) / 0x0f in
  let slot := (dw - 0x318) mod 0x0f in
  if (0x318 <=? dw) && (dw <? 0x318 + 0x0f * 8) && (slot =? 0) then Some (0x318 + 9 * mrt)
  else if (0x318 <=? dw) && (dw <? 0x318 + 0x0f * 8) && (slot =? 4) then Some (0x360 + mrt)
  else if (0x3b0 <=? dw) && (dw <? 0x3b8) then Some (0x31f + 9 * (dw - 0x3b0))
  else if (0x3b8 <=? dw) && (dw <? 0x3c0) then Some (0x320 + 9 * (dw - 0x3b8))
  else None.

(** The hand-recovered part of [ac_titan_ctx_dw], by level. *)
Definition ctx_hand (level dw : Z) : Z :=
  match switch_opt ctx_cases_1 dw with Some d => d | None =>
  if (0x10f <=? dw) && (dw <? 0x10f + 8 * 16) then dw + 2
  else if level <? 4 then dw
  else if (0x191 <=? dw) && (dw <=? 0x1b0) then dw + 8
  else match switch_opt ctx_cases_4 dw with Some d => d | None =>
  if level <? 6 then dw
  else match switch_opt ctx_cases_6 dw with Some d => d | None =>
  if level <? 8 then dw
  else match switch_opt ctx_cases_8 dw with Some d => d | None =>
  if level <? 9 then dw
  else match ctx_color_block dw with Some d => d | None =>
  if level <? 10 then dw
  else switch ctx_cases_10 dw
  end end end end end.

Definition ac_titan_ctx_dw (t : titan) (dw : Z) : Z :=
  match switch_opt (mapovr t) dw with Some d => d | None =>
  if 1 <=? ac_titan_kmap_level then ac_titan_kmap_ctx dw
  else ctx_hand (regmap_level t) dw
  end.

Definition sh_hand (level dw : Z) : Z :=
  if dw =? 0x0c8 then 0x086
  else if level <? 3 then dw
  else switch [(0x08a, 0x084); (0x08b, 0x085)] dw.

Definition ac_titan_sh_dw (t : titan) (dw : Z) : Z :=
  if 2 <=? ac_titan_kmap_level then ac_titan_kmap_sh dw
  else sh_hand (regmap_level t) dw.

(** [reg] is a byte address. *)
Definition ac_titan_sh_suppressed (t : titan) (reg : Z) : bool :=
  let dw := Z.shiftr (u32 (reg - SI_SH_REG_OFFSET)) 2 in
  if negb (regmap_active t) || (regmap_level t <? 2) || negb (regmap_suppress t)
  then false
  else (dw =? 0x087) || (dw =? 0x081).

Definition ac_titan_preamble_remap : bool :=
  match nonempty (getenv "RADV_XCLIPSE_PREMAP") with
  | Some e => negb (atoi e =? 0)
  | None => true
  end.

Definition ac_titan_remap_dw_quiet (t : titan) (base dw : Z) : Z :=
  if negb (regmap_active t) then dw
  else if base =? SI_CONTEXT_REG_OFFSET then ac_titan_ctx_dw t dw
  else if base =? SI_SH_REG_OFFSET then ac_titan_sh_dw t dw
  else if (base =? CIK_UCONFIG_REG_OFFSET) && (3 <=? ac_titan_kmap_level)
  then ac_titan_kmap_ucfg dw
  else dw.

(** The loop [for (k = 1; k < num; k++)] of [ac_titan_run_split] and
    [ac_titan_check_run]: the first [k] whose destination is out of line. *)
Fixpoint first_split (f : Z -> Z) (dw d0 k : Z) (fuel : nat) : option (Z * Z) :=
  match fuel with
  | O => None
  | S fuel' =>
      let dk := f (u32 (dw + k)) in
      if dk =? u32 (d0 + k) then first_split f dw d0 (k + 1) fuel' else Some (k, dk)
  end.

Definition ac_titan_run_split (t : titan) (base dw num : Z) : bool :=
  if negb (regmap_active t) then false
  else
    let d0 := ac_titan_remap_dw_quiet t base dw in
    match first_split (ac_titan_remap_dw_quiet t base) dw d0 1 (Z.to_nat (num - 1)) with
    | Some _ => true
    | None => false
    end.

Definition ac_titan_remap_dw (t : titan) (base dw : Z) : titan * Z :=
  if negb (regmap_active t) then (t, dw)
  else
    let out :=
      if base =? SI_CONTEXT_REG_OFFSET then ac_titan_ctx_dw t dw
      else if base =? SI_SH_REG_OFFSET then ac_titan_sh_dw t dw
      else if (base =? CIK_UCONFIG_REG_OFFSET) && (3 <=? ac_titan_kmap_level)
      then ac_titan_kmap_ucfg dw
      else dw in
    if negb (out =? dw)
    then ({| regmap_active := regmap_active t; regmap_level := regmap_level t;
             regmap_suppress := regmap_suppress t; regmap_hits := u32 (regmap_hits t + 1);
             mapovr := mapovr t |}, out)
    else (t, out).

(** The run [ac_titan_check_run] would report: [(d0, dk, k)].  [enabled] is
    [ac_xclipse_runcheck() != 0]. *)
Definition ac_titan_check_run (enabled : bool) (t : titan) (base dw num : Z)
  : option (Z * Z * Z) :=
  if negb enabled || negb (regmap_active t) || (num <? 2) then None
  else if (base =? SI_CONTEXT_REG_OFFSET) && (dw =? 0x10f) then None
  else
    let d0 := ac_titan_remap_dw_quiet t base dw in
    match first_split (ac_titan_remap_dw_quiet t base) dw d0 1 (Z.to_nat (num - 1)) with
    | Some (k, dk) => Some (d0, dk, k)
    | None => None
    end.

(** ** The validator ([ac_gpu_info.c]) *)

Definition AC_TITAN_CTX_DWORDS : Z := (SI_CONTEXT_REG_END - SI_CONTEXT_REG_OFFSET) / 4.
Definition AC_TITAN_SH_DWORDS : Z := (SI_SH_REG_END - SI_SH_REG_OFFSET) / 4.

(** The locals of [ac_titan_check_space].  [src_of] is the scratch array after
    [memset]: an index that is absent holds 0. *)
Record check_state : Type := mk_check {
  src_of : gmap Z Z;
  n_moved : Z;
  n_warn : Z;
  fatal : bool
}.

(** One iteration of the loop over [dw]. *)
Definition check_step (n : Z) (remap : Z -> Z) (s : check_state) (dw : Z) : check_state :=
  let to := remap dw in
  if n <=? to then
    {| src_of := src_of s; n_moved := n_moved s; n_warn := n_warn s; fatal := true |}
  else
    let moved := if negb (to =? dw) then u32 (n_moved s + 1) else n_moved s in
    let v := default 0 (src_of s !! to) in
    if negb (v =? 0) then
      let other := u32 (v - 1) in
      let both_moved := negb (remap other =? other) && negb (to =? dw) in
      if both_moved
      then {| src_of := src_of s; n_moved := moved; n_warn := n_warn s; fatal := true |}
      else {| src_of := src_of s; n_moved := moved; n_warn := u32 (n_warn s + 1);
              fatal := fatal s |}
    else {| src_of := <[to := u16 (dw + 1)]> (src_of s); n_moved := moved;
            n_warn := n_warn s; fatal := fatal s |}.

Definition check_init : check_state :=
  {| src_of := ∅; n_moved := 0; n_warn := 0; fatal := false |}.

(** Returns [!fatal] and the two counters. *)
Definition ac_titan_check_space (n : Z) (remap : Z -> Z) : bool * Z * Z :=
  let s := foldl (check_step n remap) check_init (seqZ 0 n) in
  (negb (fatal s), n_moved s, n_warn s).

Definition ac_titan_regmap_validate (t : titan) : bool :=
  let '(ok_ctx, _, _) := ac_titan_check_space AC_TITAN_CTX_DWORDS (ac_titan_ctx_dw t) in
  let '(ok_sh, _, _) := ac_titan_check_space AC_TITAN_SH_DWORDS (ac_titan_sh_dw t) in
  ok_ctx && ok_sh.

(** ** The override parser *)

(** The [while] loop; [room] is [AC_TITAN_MAPOVR_MAX - ac_titan_mapovr_n]. *)
Fixpoint mapovr_loop (room : nat) (s : string) : list (Z * Z) :=
  match room, s with
  | O, _ | _, String.EmptyString => []
  | S room', _ =>
      let '(src, e1) := strtoul 16 s in
      if bool_decide (e1 = s) then []
      else match strip_char ":"%char e1 with
      | None => []
      | Some e1' =>
          let '(dst, e2) := strtoul 16 e1' in
          if (0x3ff <? src) || (0x3ff <? dst) then []
          else (u32 src, u32 dst) ::
               match strip_char ","%char e2 with
               | Some s' => mapovr_loop room' s'
               | None => []
               end
      end
  end.

Definition ac_titan_mapovr_parse : list (Z * Z) :=
  match nonempty (getenv "RADV_XCLIPSE_MAPOVR") with
  | None => []
  | Some s => mapovr_loop AC_TITAN_MAPOVR_MAX s
  end.

Definition ac_titan_regmap_set_level (t : titan) (level : Z) : titan :=
  let t1 := {| regmap_active := 0 <? level; regmap_level := level;
               regmap_suppress := regmap_suppress t; regmap_hits := regmap_hits t;
               mapovr := ac_titan_mapovr_parse |} in
  if (0 <? level) && negb (ac_titan_regmap_validate t1)
  then {| regmap_active := false; regmap_level := 0;
          regmap_suppress := regmap_suppress t1; regmap_hits := regmap_hits t1;
          mapovr := mapovr t1 |}
  else t1.

End Titan.

(** The empty environment. *)
Definition no_env : string -> option string := fun _ => None.

(** ** What the validator decides *)

Section CheckSpace.
Context (n : Z) (remap : Z -> Z).

(** [d] is the first of the dwords below [k] that [remap] sends to [to]. *)
Definition first_src (k to d : Z) : Prop :=
  0 <= d < k /\ remap d = to /\ forall d', 0 <= d' < d -> remap d' <> to.

Definition warned (dw : Z) : Prop :=
  remap dw < n /\
  exists o, first_src dw (remap dw) o /\ ~ (remap o <> o /\ remap dw <> dw).

Definition rejected (dw : Z) : Prop :=
  n <= remap dw \/
  exists o, first_src dw (remap dw) o /\ remap o <> o /\ remap dw <> dw.

Record check_inv (k : Z) (s : check_state) : Prop := {
  ci_src : forall to v, src_of s !! to = Some v <->
             exists d, v = d + 1 /\ first_src k to d /\ to < n;
  ci_fatal : fatal s = true <-> exists dw, 0 <= dw < k /\ rejected dw;
  ci_warn : 0 <= n_warn s <= k;
  ci_warn0 : n_warn s = 0 <-> forall dw, 0 <= dw < k -> ~ warned dw
}.

Lemma first_src_det k to d d' : first_src k to d -> first_src k to d' -> d = d'.
Proof.
  intros (? & E & Hd) (? & E' & Hd').
  destruct (Z.lt_trichotomy d d') as [?|[?|?]]; [|done|].
  - by destruct (Hd' d); [lia|].
  - by destruct (Hd d'); [lia|].
Qed.

Lemma first_src_exists k a : 0 <= a < k -> exists d, first_src k (remap a) d /\ d <= a.
Proof.
  intros Ha. destruct (least_Z (fun x => remap x = remap a) a) as (d & ? & ? & ?); [lia|done|].
  exists d. unfold first_src. split_and!; [lia|lia|done|done|lia].
Qed.

Lemma first_src_S k to d :
  first_src (k + 1) to d <->
  first_src k to d \/ (d = k /\ remap k = to /\ forall d', 0 <= d' < k -> remap d' <> to) /\ 0 <= k.
Proof.
  unfold first_src. split.
  - intros (? & ? & ?). destruct (decide (d = k)) as [->|]; [right|left]; split_and!; auto; lia.
  - intros [(?&?&?)|[(->&?&?) ?]]; split_and!; auto; lia.
Qed.

Lemma exists_below_S (P : Z -> Prop) k : 0 <= k ->
  (exists dw, 0 <= dw < k + 1 /\ P dw) <-> (exists dw, 0 <= dw < k /\ P dw) \/ P k.
Proof.
  intros Hk. split.
  - intros (dw & ? & ?). destruct (decide (dw = k)) as [->|]; [by right|].
    left. exists dw. split; [lia|done].
  - intros [(dw & ? & ?)|?]; [exists dw|exists k]; split; auto; lia.
Qed.

Lemma forall_below_S (P : Z -> Prop) k : 0 <= k ->
  (forall dw, 0 <= dw < k + 1 -> P dw) <-> (forall dw, 0 <= dw < k -> P dw) /\ P k.
Proof.
  intros Hk. split.
  - intros H. split; [intros; apply H; lia|apply H; lia].
  - intros [H ?] dw ?. destruct (decide (dw = k)) as [->|]; [done|]. apply H. lia.
Qed.

(** What the scratch array holds for the destination of the next dword. *)
Lemma check_inv_lookup k s to : 0 <= k < n -> to < n -> check_inv k s ->
  (exists o, first_src k to o /\ src_of s !! to = Some (o + 1)) \/
  ((forall o, ~ first_src k to o) /\ src_of s !! to = None).
Proof.
  intros Hk Hto [Hsrc _ _ _]. destruct (src_of s !! to) as [v|] eqn:E.
  - left. apply Hsrc in E as (o & -> & ? & _). by exists o.
  - right. split; [|done]. intros o Ho.
    assert (src_of s !! to = Some (o + 1)) as E' by (apply Hsrc; eauto). congruence.
Qed.

Context (Hn : 0 <= n < 2 ^ 16).

Lemma check_step_inv k s : 0 <= k < n -> check_inv k s -> check_inv (k + 1) (check_step n remap s k).
Proof.
  intros Hk HI. pose proof HI as [Hsrc Hf Hw Hw0]. unfold check_step.
  destruct (Z.leb_spec n (remap k)) as [Hout|Hin].
  { split; simpl; [| |lia|].
    - intros to v. rewrite Hsrc. apply exist_proper. intros d. rewrite first_src_S.
      split; [naive_solver|]. intros (? & [?|[(?&?&?) ?]] & ?); [auto|lia].
    - rewrite exists_below_S by lia. unfold rejected. naive_solver.
    - rewrite forall_below_S, Hw0 by lia. unfold warned. split; [|by intros [? _]].
      intros H. split; [done|]. intros [? _]. lia. }
  destruct (check_inv_lookup k s (remap k) Hk Hin HI) as [(o & Ho & ->)|[Hno ->]]; simpl.
  - assert ((o + 1 =? 0) = false) as -> by (destruct Ho; lia). simpl.
    rewrite Z.add_simpl_r, u32_small by (destruct Ho; unfold in_u32; lia).
    assert (forall to d, first_src (k + 1) to d /\ to < n <-> first_src k to d /\ to < n) as Hfs.
    { intros to d. rewrite first_src_S. split; [|naive_solver].
      intros [[?|[(_ & <- & Hd) _]] ?]; [done|].
      destruct Ho as (? & E & _). by destruct (Hd o). }
    destruct (negb (remap o =? o) && negb (remap k =? k)) eqn:Eb;
      rewrite ?andb_true_iff, ?andb_false_iff, ?negb_true_iff, ?negb_false_iff,
        ?Z.eqb_neq, ?Z.eqb_eq in Eb; split; simpl.
    + intros to v. rewrite Hsrc. setoid_rewrite Hfs. done.
    + rewrite exists_below_S by lia. unfold rejected. naive_solver.
    + lia.
    + rewrite forall_below_S, Hw0 by lia. split; [|by intros [? _]]. intros ?. split; [done|].
      intros [_ (o' & Ho' & Hnb)]. rewrite (first_src_det _ _ _ _ Ho' Ho) in Hnb. tauto.
    + intros to v. rewrite Hsrc. setoid_rewrite Hfs. done.
    + rewrite exists_below_S, Hf by lia. split; [by left|]. intros [?|[?|(o' & Ho' & Hb1 & Hb2)]];
        [done|lia|]. rewrite (first_src_det _ _ _ _ Ho' Ho) in Hb1. by destruct Eb.
    + rewrite u32_small by (unfold in_u32; lia). lia.
    + rewrite u32_small, forall_below_S by (unfold in_u32; lia). split; [lia|].
      intros [_ Hnw]. destruct Hnw. split; [done|]. exists o. split; [done|].
      intros [? ?]. by destruct Eb.
  - unfold u16. rewrite Z.mod_small by lia. split; simpl; [| |lia|].
    + intros to v. rewrite lookup_insert. case_decide as Eto.
      * subst to. split.
        -- intros [= <-]. exists k. rewrite first_src_S. split_and!; auto. right.
           split_and!; auto; [|lia]. intros d' Hd' E. 
           destruct (first_src_exists k d') as (d & Hd & _); [lia|]. rewrite E in Hd. by eapply Hno.
        -- intros (d & -> & [Hd|[(-> & _) _]]%first_src_S & _); [by destruct (Hno d)|done].
      * rewrite Hsrc. apply exist_proper. intros d. rewrite first_src_S. naive_solver.
    + rewrite exists_below_S, Hf by lia. unfold rejected. split; [by left|].
      intros [?|[?|(o & Ho & _)]]; [done|lia|by destruct (Hno o)].
    + rewrite forall_below_S, Hw0 by lia. split; [|by intros [? _]]. intros ?. split; [done|].
      intros [_ (o & Ho & _)]. by destruct (Hno o).
Qed.

Lemma check_space_inv : check_inv n (foldl (check_step n remap) check_init (seqZ 0 n)).
Proof.
  apply foldl_seqZ_ind; [lia| |by intros; apply check_step_inv].
  split; simpl; [| |lia|].
  - intros to v. rewrite lookup_empty. split; [done|]. intros (? & _ & (? & _) & _). lia.
  - split; [done|]. intros (? & ? & _). lia.
  - split; [lia|done].
Qed.
End CheckSpace.

Section CheckSpaceSpec.
Context (n : Z) (remap : Z -> Z).

Definition space_ok : Prop := forall x, 0 <= x < n -> remap x < n.

Definition space_injective : Prop :=
  forall x y, 0 <= x < n -> 0 <= y < n -> remap x = remap y -> x = y.

(** No two registers that the map moves share a destination. *)
Definition moved_injective : Prop :=
  forall x y, 0 <= x < n -> 0 <= y < n -> remap x <> x -> remap y <> y ->
    remap x = remap y -> x = y.

Lemma check_space_result (Hn : 0 <= n < 2 ^ 16) ok m w :
  ac_titan_check_space n remap = (ok, m, w) ->
  (ok = true <-> forall dw, 0 <= dw < n -> ~ rejected n remap dw) /\
  (w = 0 <-> forall dw, 0 <= dw < n -> ~ warned n remap dw).
Proof.
  intros [= <- _ <-]. destruct (check_space_inv n remap Hn) as [_ Hf _ Hw].
  split; [|done]. rewrite negb_true_iff, <- not_true_iff_false, Hf. naive_solver.
Qed.

Lemma not_rejected_ok : (forall dw, 0 <= dw < n -> ~ rejected n remap dw) -> space_ok.
Proof.
  intros H x Hx. destruct (Z.lt_ge_cases (remap x) n) as [?|?]; [done|].
  destruct (H x Hx). by left.
Qed.

Lemma exact_injective :
  (forall dw, 0 <= dw < n -> ~ rejected n remap dw) ->
  (forall dw, 0 <= dw < n -> ~ warned n remap dw) -> space_injective.
Proof.
  intros Hr Hw.
  assert (forall x y, 0 <= x < n -> x < y < n -> remap x = remap y -> False) as Hlt.
  { intros x y Hx Hy E. destruct (first_src_exists remap y x) as (d & Hd & _); [lia|].
    rewrite E in Hd. apply (Hr y); [lia|].
    destruct (decide (remap d <> d /\ remap y <> y)) as [[? ?]|Hnb]; [right; eauto|].
    destruct (Hw y); [lia|]. split; [apply not_rejected_ok; [done|lia]|eauto]. }
  intros x y Hx Hy E. destruct (Z.lt_trichotomy x y) as [?|[?|?]]; [|done|].
  - destruct (Hlt x y); [lia|lia|done].
  - destruct (Hlt y x); [lia|lia|done].
Qed.

Lemma injective_exact :
  space_ok -> space_injective ->
  (forall dw, 0 <= dw < n -> ~ rejected n remap dw /\ ~ warned n remap dw).
Proof.
  intros Hok Hinj dw Hdw.
  assert (forall o, ~ first_src remap dw (remap dw) o) as Hno.
  { intros o (Ho & E & _). rewrite (Hinj o dw) in Ho; [lia|lia|lia|done]. }
  split.
  - intros [?|(o & Ho & _)]; [specialize (Hok dw Hdw); lia|by destruct (Hno o)].
  - intros [_ (o & Ho & _)]. by destruct (Hno o).
Qed.

Lemma moved_accepted : space_ok -> moved_injective ->
  forall dw, 0 <= dw < n -> ~ rejected n remap dw.
Proof.
  intros H1 H2 dw Hdw [?|(o & (Ho & E & _) & Ho1 & Hd1)].
  - specialize (H1 dw Hdw). lia.
  - rewrite (H2 o dw) in Ho; [lia|lia|lia|done..].
Qed.

Lemma accepted_shared :
  (forall dw, 0 <= dw < n -> ~ rejected n remap dw) ->
  forall x y, 0 <= x < y -> y < n -> remap x <> x -> remap y <> y -> remap x = remap y ->
    remap x < x /\ remap (remap x) = remap x.
Proof.
  intros Hr x y Hx Hy Mx My E.
  destruct (first_src_exists remap y x) as (d & Hd & Hdx); [lia|].
  pose proof Hd as (Hd0 & Ed & _).
  assert (remap d = d) as Hdd.
  { destruct (decide (remap d = d)); [done|]. destruct (Hr y); [lia|].
    right. exists d. split_and!; [by rewrite <- E|done..]. }
  rewrite <- Ed, Hdd. split; [|done].
  destruct (decide (d = x)) as [->|]; [done|lia].
Qed.

(** The validator without a warning is exact: it accepts a space with a zero warning
    count if and only if the map stays inside the space and is injective on it. *)
Theorem check_space_exact (Hn : 0 <= n < 2 ^ 16) ok m w :
  ac_titan_check_space n remap = (ok, m, w) ->
  (ok = true /\ w = 0 <-> space_ok /\ space_injective).
Proof.
  intros [Hok Hw]%check_space_result; [|done]. rewrite Hok, Hw. split.
  - intros [Hr Hw']. split; [by apply not_rejected_ok|by apply exact_injective].
  - intros [H1 H2]. split; intros dw Hdw; apply injective_exact; done.
Qed.

(** C23: the validator never refuses a good table, and it refuses every bad one but for one
    kind: an accepted space stays in bounds, and when two moved registers still share a
    destination, that destination is a register the map leaves in place and whose number is
    below both of theirs. *)
Theorem check_space_verdict (Hn : 0 <= n < 2 ^ 16) ok m w :
  ac_titan_check_space n remap = (ok, m, w) ->
  (space_ok -> moved_injective -> ok = true) /\
  (ok = true -> space_ok /\
     forall x y, 0 <= x < y -> y < n -> remap x <> x -> remap y <> y -> remap x = remap y ->
       remap x < x /\ remap (remap x) = remap x).
Proof.
  intros [Hok _]%check_space_result; [|done]. rewrite Hok. split; [apply moved_accepted|].
  intros Hr. split; [by apply not_rejected_ok|by apply accepted_shared].
Qed.
End CheckSpaceSpec.



(** ** The kernel map *)

(** The context offsets that are the destination of a moved register and are not moved
    themselves. *)
Definition kmap_ctx_shared : list Z :=
  filter (fun d => d ∉ kmap_ctx_table.*1) kmap_ctx_table.*2.

Lemma kmap_ctx_table_NoDup : NoDup kmap_ctx_table.*1 /\ NoDup kmap_ctx_table.*2.
Proof. split; apply (bool_decide_unpack _); vm_compute; exact I. Qed.

Lemma kmap_ctx_table_moves p : p ∈ kmap_ctx_table -> p.2 <> p.1 /\ 0 <= p.1 < 0x400 /\ 0 <= p.2 < 0x400.
Proof.
  intros Hp. enough (negb (p.2 =? p.1) && (0 <=? p.1) && (p.1 <? 0x400) &&
    (0 <=? p.2) && (p.2 <? 0x400) = true) by lia.
  revert p Hp. intros p. apply (forallb_elem (fun p => negb (p.2 =? p.1) && (0 <=? p.1) &&
    (p.1 <? 0x400) && (0 <=? p.2) && (p.2 <? 0x400))). vm_compute. reflexivity.
Qed.

Lemma kmap_ctx_in x y : (x, y) ∈ kmap_ctx_table -> ac_titan_kmap_ctx x = y.
Proof.
  intros Hxy. assert (switch_opt kmap_ctx_table x <> None) as Hne.
  { rewrite switch_opt_None. intros []. apply list_elem_of_fmap. by exists (x, y). }
  unfold ac_titan_kmap_ctx, switch.
  destruct (switch_opt kmap_ctx_table x) as [v|] eqn:E; [simpl|done].
  apply switch_opt_Some in E.
  apply list_elem_of_lookup in E as [i Hi], Hxy as [j Hj].
  assert (i = j) as ->; [|congruence]. destruct kmap_ctx_table_NoDup as [Hnd _].
  eapply NoDup_lookup; [done|by rewrite list_lookup_fmap, Hi|by rewrite list_lookup_fmap, Hj].
Qed.

(** C26: the kernel map moves exactly 337 context registers, no two of them to the same offset,
    and it is not injective as a function on the space: two different offsets share a
    destination exactly when one is moved onto the other and the other is one of the 55 offsets
    the map leaves in place although they are a destination. *)
Theorem kmap_ctx_collisions :
  length kmap_ctx_table = 337%nat /\ length kmap_ctx_shared = 55%nat /\
  forall x y, ac_titan_kmap_ctx x = ac_titan_kmap_ctx y <->
    x = y \/ ((x, y) ∈ kmap_ctx_table /\ y ∈ kmap_ctx_shared) \/
    ((y, x) ∈ kmap_ctx_table /\ x ∈ kmap_ctx_shared).
Proof.
  split; [vm_compute; reflexivity|]. split; [vm_compute; reflexivity|].
  assert (forall x y, (x, y) ∈ kmap_ctx_table -> y ∈ kmap_ctx_shared ->
            ac_titan_kmap_ctx x = ac_titan_kmap_ctx y) as Hback.
  { intros x y ->%kmap_ctx_in [Hy _]%list_elem_of_filter. symmetry. by apply switch_not_in. }
  assert (forall x y, ac_titan_kmap_ctx x <> x -> ac_titan_kmap_ctx y = y ->
            ac_titan_kmap_ctx x = ac_titan_kmap_ctx y ->
            (x, y) ∈ kmap_ctx_table /\ y ∈ kmap_ctx_shared) as Hfwd.
  { intros x y Hx Hy E. apply switch_moved in Hx as Hin. 
    change (switch kmap_ctx_table x) with (ac_titan_kmap_ctx x) in Hin. rewrite E, Hy in Hin.
    split; [done|]. apply list_elem_of_filter. split; [|apply list_elem_of_fmap; by exists (x, y)].
    intros ([y' v] & -> & Hv)%list_elem_of_fmap. apply kmap_ctx_table_moves in Hv as Hm.
    apply kmap_ctx_in in Hv. simpl in *. lia. }
  intros x y. split.
  - intros E. destruct (decide (ac_titan_kmap_ctx x = x)) as [Hx|Hx],
      (decide (ac_titan_kmap_ctx y = y)) as [Hy|Hy]; [left; congruence|..|].
    + right; right. by apply Hfwd.
    + right; left. by apply Hfwd.
    + left. by apply (switch_moved_injective kmap_ctx_table); [apply kmap_ctx_table_NoDup|..].
  - intros [->|[[? ?]|[? ?]]]; [done|by apply Hback|symmetry; by apply Hback].
Qed.

(** ** The hand-recovered map, level by level *)

(** Levels are cumulative: a register the hand-recovered context map moves at some level
    goes to the same place at every higher level, whatever the environment. *)
Theorem ctx_hand_cumulative getenv level level' dw :
  level <= level' -> ctx_hand getenv level dw <> dw ->
  ctx_hand getenv level' dw = ctx_hand getenv level dw.
Proof.
  intros Hle. unfold ctx_hand.
  repeat (case_match; try done; try lia).
Qed.

Lemma ctx_hand_cumulative_witness :
  ctx_hand no_env 4 0x1b5 <> 0x1b5 /\ ctx_hand no_env 10 0x1b5 = 0x191.
Proof.
  split; [vm_compute; discriminate|].
  rewrite (ctx_hand_cumulative no_env 4 10 0x1b5); [reflexivity|lia|vm_compute; discriminate].
Defined.

Section Hand.
Context (getenv : string -> option string).

Lemma ctx_hand_clamp level dw :
  ctx_hand getenv level dw = ctx_hand getenv (Z.max 0 (Z.min level 10)) dw.
Proof.
  unfold ctx_hand. set (c := Z.max 0 (Z.min level 10)).
  replace (c <? 4) with (level <? 4) by lia. replace (c <? 6) with (level <? 6) by lia.
  replace (c <? 8) with (level <? 8) by lia. replace (c <? 9) with (level <? 9) by lia.
  by replace (c <? 10) with (level <? 10) by lia.
Qed.

Lemma sh_hand_clamp level dw :
  sh_hand level dw = sh_hand (Z.max 0 (Z.min level 10)) dw.
Proof.
  unfold sh_hand. set (c := Z.max 0 (Z.min level 10)).
  by replace (c <? 3) with (level <? 3) by lia.
Qed.

(** Beyond 0x400 no map moves anything. *)
Lemma ctx_hand_ge level dw : 0x400 <= dw -> ctx_hand getenv level dw = dw.
Proof.
  intros Hdw. unfold ctx_hand, ctx_color_block, switch.
  rewrite !(switch_opt_ge _ 0x400) by (done || reflexivity). simpl.
  repeat (case_match; try lia); done.
Qed.

Lemma sh_hand_ge level dw : 0x400 <= dw -> sh_hand level dw = dw.
Proof.
  intros Hdw. unfold sh_hand, switch. rewrite (switch_opt_ge _ 0x400) by (done || reflexivity).
  simpl. repeat (case_match; try lia); done.
Qed.
End Hand.

Lemma kmap_ctx_ge dw : 0x400 <= dw -> ac_titan_kmap_ctx dw = dw.
Proof.
  intros. unfold ac_titan_kmap_ctx, switch.
  by rewrite (switch_opt_ge _ 0x400) by (done || reflexivity).
Qed.

Lemma kmap_sh_ge dw : 0x400 <= dw -> ac_titan_kmap_sh dw = dw.
Proof.
  intros. unfold ac_titan_kmap_sh, switch.
  by rewrite (switch_opt_ge _ 0x400) by (done || reflexivity).
Qed.

(** The moved part of a map below 0x400, and the finite check that it is in bounds and has
    distinct destinations. *)
Definition moved_pairs (f : Z -> Z) : list (Z * Z) :=
  filter (fun p => p.2 <> p.1) ((fun d => (d, f d)) <$> seqZ 0 0x400).

Definition moved_check (f : Z -> Z) : bool :=
  bool_decide (NoDup (moved_pairs f).*2) &&
  forallb (fun p => p.2 <? 0x400) (moved_pairs f).

Lemma moved_check_sound n f :
  0x400 <= n -> (forall dw, 0x400 <= dw -> f dw = dw) -> moved_check f = true ->
  space_ok n f /\ moved_injective n f.
Proof.
  intros Hn Hge [Hnd%bool_decide_eq_true Hlt]%andb_true_iff.
  assert (forall x, 0 <= x < n -> f x <> x -> (x, f x) ∈ moved_pairs f) as Hin.
  { intros x Hx Hm. apply list_elem_of_filter. split; [done|]. apply list_elem_of_fmap.
    exists x. split; [done|]. apply elem_of_seqZ.
    destruct (Z.lt_ge_cases x 0x400) as [|Hge']; [lia|]. by rewrite Hge in Hm. }
  split.
  - intros x Hx. destruct (decide (f x = x)) as [->|Hm]; [lia|].
    pose proof (forallb_elem _ _ _ Hlt (Hin x Hx Hm)). simpl in *. lia.
  - intros x y Hx Hy Mx My E.
    pose proof (Hin x Hx Mx) as Ix. pose proof (Hin y Hy My) as Iy. rewrite E in Ix.
    apply list_elem_of_lookup in Ix as [i Hi], Iy as [j Hj].
    assert (i = j) as ->; [|congruence].
    eapply NoDup_lookup; [done|by rewrite list_lookup_fmap, Hi|by rewrite list_lookup_fmap, Hj].
Qed.

Lemma moved_check_ext f g : (forall x, f x = g x) -> moved_check f = moved_check g.
Proof.
  intros H. unfold moved_check, moved_pairs.
  by replace ((fun d => (d, f d)) <$> seqZ 0 0x400) with ((fun d => (d, g d)) <$> seqZ 0 0x400)
    by (apply list_fmap_ext; intros; by rewrite H).
Qed.

Lemma hand_levels_check :
  forallb (fun l => moved_check (ctx_hand no_env l) && moved_check (sh_hand l)) (seqZ 0 11) = true.
Proof. vm_compute. reflexivity. Qed.

Lemma hand_level_check l : 0 <= l <= 10 ->
  moved_check (ctx_hand no_env l) = true /\ moved_check (sh_hand l) = true.
Proof.
  intros Hl. apply andb_true_iff.
  apply (forallb_seqZ _ _ _ l hand_levels_check). lia.
Qed.

Lemma kmap_check : moved_check ac_titan_kmap_ctx && moved_check ac_titan_kmap_sh = true.
Proof. vm_compute. reflexivity. Qed.

Lemma ctx_dwords_range : 0 <= AC_TITAN_CTX_DWORDS < 2 ^ 16.
Proof. done. Qed.
Lemma sh_dwords_range : 0 <= AC_TITAN_SH_DWORDS < 2 ^ 16.
Proof. done. Qed.

Section Accept.
Context (getenv : string -> option string).
Context (Hovr : getenv "RADV_XCLIPSE_MAPOVR" = None).
Context (Hvoc : getenv "RADV_XCLIPSE_SPIVOC" = None).
Context (Hpic : getenv "RADV_XCLIPSE_SPIPIC" = None).

Lemma ctx_hand_default level dw : ctx_hand getenv level dw = ctx_hand no_env level dw.
Proof. 
  unfold ctx_hand, ctx_cases_4, ac_titan_spi_slot. by rewrite Hvoc, Hpic.
Qed.

Lemma ctx_dw_good t : mapovr t = [] ->
  space_ok AC_TITAN_CTX_DWORDS (ac_titan_ctx_dw getenv t) /\
  moved_injective AC_TITAN_CTX_DWORDS (ac_titan_ctx_dw getenv t).
Proof.
  intros Ht. pose proof kmap_check as [Hk _]%andb_true_iff.
  unfold ac_titan_ctx_dw. rewrite Ht. simpl.
  destruct (1 <=? ac_titan_kmap_level getenv).
  - apply moved_check_sound; [done|apply kmap_ctx_ge|done].
  - apply moved_check_sound; [done|by intros; apply ctx_hand_ge|].
    erewrite moved_check_ext; [|intros; by rewrite ctx_hand_clamp, ctx_hand_default].
    apply hand_level_check. lia.
Qed.

Lemma sh_dw_good t :
  space_ok AC_TITAN_SH_DWORDS (ac_titan_sh_dw getenv t) /\
  moved_injective AC_TITAN_SH_DWORDS (ac_titan_sh_dw getenv t).
Proof.
  pose proof kmap_check as [_ Hk]%andb_true_iff. unfold ac_titan_sh_dw.
  destruct (2 <=? ac_titan_kmap_level getenv).
  - apply moved_check_sound; [done|apply kmap_sh_ge|done].
  - apply moved_check_sound; [done|by intros; apply sh_hand_ge|].
    erewrite moved_check_ext; [|intros; by rewrite sh_hand_clamp].
    apply hand_level_check. lia.
Qed.

Lemma validate_good t : mapovr t = [] -> ac_titan_regmap_validate getenv t = true.
Proof.
  intros Ht. unfold ac_titan_regmap_validate.
  destruct (ac_titan_check_space AC_TITAN_CTX_DWORDS (ac_titan_ctx_dw getenv t))
    as [[ok1 m1] w1] eqn:E1.
  destruct (ac_titan_check_space AC_TITAN_SH_DWORDS (ac_titan_sh_dw getenv t))
    as [[ok2 m2] w2] eqn:E2.
  apply check_space_result in E1 as [E1 _]; [|exact ctx_dwords_range].
  apply check_space_result in E2 as [E2 _]; [|exact sh_dwords_range].
  destruct (ctx_dw_good t Ht) as [G1 G1']. destruct (sh_dw_good t) as [G2 G2'].
  apply andb_true_iff.
  split; [apply E1|apply E2]; apply moved_accepted; assumption.
Qed.

(** C18: without overrides the device comes up mapped: at every non-zero level and for every
    setting of RADV_XCLIPSE_KMAP the validator accepts the table, so
    [ac_titan_regmap_set_level] leaves the map active at the level asked for. *)
Theorem set_level_accepts t level :
  0 < level ->
  ac_titan_regmap_set_level getenv t level =
    {| regmap_active := true; regmap_level := level; regmap_suppress := regmap_suppress t;
       regmap_hits := regmap_hits t; mapovr := [] |}.
Proof.
  intros Hl. unfold ac_titan_regmap_set_level, ac_titan_mapovr_parse. rewrite Hovr.
  cbn [nonempty]. rewrite validate_good by reflexivity. rewrite andb_false_r.
  by rewrite (proj2 (Z.ltb_lt 0 level) Hl).
Qed.
End Accept.

Lemma set_level_accepts_witness :
  regmap_active (ac_titan_regmap_set_level no_env titan_init 10) = true.
Proof.
  rewrite (set_level_accepts no_env eq_refl eq_refl eq_refl titan_init 10); [reflexivity|lia].
Defined.

Lemma check_space_exact_witness :
  space_injective 4 (switch [(0, 1); (1, 0)]).
Proof.
  refine (proj2 (proj1 (check_space_exact 4 (switch [(0, 1); (1, 0)]) _ true 2 0 _) _)).
  - lia.
  - vm_compute; reflexivity.
  - split; reflexivity.
Defined.

Lemma check_space_verdict_witness :
  space_ok 4 (switch [(3, 0); (2, 0)]).
Proof.
  refine (proj1 (proj2 (check_space_verdict 4 (switch [(3, 0); (2, 0)]) _ true 2 2 _) _)).
  - lia.
  - vm_compute; reflexivity.
  - reflexivity.
Defined.

(** The environment of a device whose owner moves context registers 0x100 and 0x101 onto the
    unmoved register 0x050. *)
Definition colliding_env : string -> option string :=
  fun v => if bool_decide (v = "RADV_XCLIPSE_MAPOVR") then Some "100:050,101:050" else None.


(** ** Safety of an active map *)

Definition ovr_bounded (l : list (Z * Z)) : Prop :=
  Forall (fun p => 0 <= p.1 <= 0x3ff /\ 0 <= p.2 <= 0x3ff) l.

Lemma mapovr_loop_bounded room s :
  (length (mapovr_loop room s) <= room)%nat /\ ovr_bounded (mapovr_loop room s).
Proof.
  revert s. induction room as [|room IH]; intros s.
  { destruct s; simpl; split; first [lia|constructor]. }
  destruct s as [|c s']; [simpl; split; [lia|constructor]|]. cbn [mapovr_loop].
  pose proof (strtoul_range 16 (String.String c s') ltac:(lia)) as Hsrc.
  destruct (strtoul 16 (String.String c s')) as [src e1].
  case_bool_decide; [simpl; split; [lia|constructor]|].
  destruct (strip_char _ e1) as [e1'|]; [|simpl; split; [lia|constructor]].
  pose proof (strtoul_range 16 e1' ltac:(lia)) as Hdst.
  destruct (strtoul 16 e1') as [dst e2]. simpl in Hsrc, Hdst.
  destruct ((0x3ff <? src) || (0x3ff <? dst)) eqn:Eb; [simpl; split; [lia|constructor]|].
  rewrite !u32_small by (unfold in_u32; lia).
  destruct (strip_char _ e2) as [s''|]; simpl.
  - destruct (IH s''). split; [lia|]. constructor; [simpl; lia|done].
  - split; [lia|]. constructor; [simpl; lia|constructor].
Qed.

Section Safety.
Context (getenv : string -> option string).

Lemma mapovr_parse_bounded :
  (length (ac_titan_mapovr_parse getenv) <= AC_TITAN_MAPOVR_MAX)%nat /\
  ovr_bounded (ac_titan_mapovr_parse getenv).
Proof.
  unfold ac_titan_mapovr_parse. destruct (nonempty _).
  - apply mapovr_loop_bounded.
  - split; [simpl; lia|constructor].
Qed.

Lemma switch_opt_nonneg tbl x y :
  forallb (fun p => 0 <=? p.2) tbl = true -> switch_opt tbl x = Some y -> 0 <= y.
Proof.
  intros H Hy%switch_opt_Some. pose proof (forallb_elem _ _ _ H Hy). simpl in *. lia.
Qed.

Lemma spi_slot_nonneg env d : 0 <= d -> 0 <= ac_titan_spi_slot getenv env d.
Proof. unfold ac_titan_spi_slot. case_match; [intros; apply u32_range|done]. Qed.

Lemma ctx_hand_nonneg level dw : 0 <= dw -> 0 <= ctx_hand getenv level dw.
Proof.
  intros Hdw. unfold ctx_hand, ctx_color_block, switch.
  pose proof (spi_slot_nonneg "RADV_XCLIPSE_SPIVOC" 0x1c3 ltac:(lia)).
  pose proof (spi_slot_nonneg "RADV_XCLIPSE_SPIPIC" 0x1c4 ltac:(lia)).
  assert (forall y, switch_opt (ctx_cases_4 getenv) dw = Some y -> 0 <= y) as H4.
  { intros y. apply switch_opt_nonneg. simpl. lia. }
  assert (forall tbl y, forallb (fun p => 0 <=? p.2) tbl = true ->
            switch_opt tbl dw = Some y -> 0 <= y) as Ht by (intros; by eapply switch_opt_nonneg).
  repeat (case_match; simplify_eq; try lia; eauto);
    try (by eapply Ht; [|eassumption]; reflexivity); simpl;
    try (pose proof (Z.div_pos (dw - 0x318) 0x0f); lia).
  repeat (destruct (dw =? _); [simpl; lia|]). done.
Qed.

Lemma ctx_dw_nonneg t dw : ovr_bounded (mapovr t) -> 0 <= dw -> 0 <= ac_titan_ctx_dw getenv t dw.
Proof.
  intros Ho Hdw. unfold ac_titan_ctx_dw. destruct (switch_opt (mapovr t) dw) as [d|] eqn:E.
  - apply switch_opt_Some in E. unfold ovr_bounded in Ho. rewrite Forall_forall in Ho.
    specialize (Ho _ E). simpl in Ho. lia.
  - destruct (1 <=? ac_titan_kmap_level getenv); [|by apply ctx_hand_nonneg].
    destruct (decide (ac_titan_kmap_ctx dw = dw)) as [->|Hm]; [done|].
    apply switch_moved, kmap_ctx_table_moves in Hm. simpl in Hm.
    unfold ac_titan_kmap_ctx. lia.
Qed.

Lemma sh_dw_nonneg t dw : 0 <= dw -> 0 <= ac_titan_sh_dw getenv t dw.
Proof.
  intros Hdw. unfold ac_titan_sh_dw, ac_titan_kmap_sh, sh_hand, switch. cbn [switch_opt kmap_sh_table].
  repeat (case_match; simpl; try lia).
Qed.

Lemma validate_true t : ac_titan_regmap_validate getenv t = true ->
  (forall dw, 0 <= dw < AC_TITAN_CTX_DWORDS -> ~ rejected AC_TITAN_CTX_DWORDS (ac_titan_ctx_dw getenv t) dw) /\
  (forall dw, 0 <= dw < AC_TITAN_SH_DWORDS -> ~ rejected AC_TITAN_SH_DWORDS (ac_titan_sh_dw getenv t) dw).
Proof.
  unfold ac_titan_regmap_validate.
  destruct (ac_titan_check_space AC_TITAN_CTX_DWORDS (ac_titan_ctx_dw getenv t))
    as [[ok1 m1] w1] eqn:E1.
  destruct (ac_titan_check_space AC_TITAN_SH_DWORDS (ac_titan_sh_dw getenv t))
    as [[ok2 m2] w2] eqn:E2.
  apply check_space_result in E1 as [E1 _]; [|exact ctx_dwords_range].
  apply check_space_result in E2 as [E2 _]; [|exact sh_dwords_range].
  rewrite andb_true_iff, E1, E2. exact id.
Qed.

(** A map that keeps every context and SH register inside its own space. *)
Definition map_in_space (t : titan) : Prop :=
  (forall dw, 0 <= dw < AC_TITAN_CTX_DWORDS ->
     0 <= ac_titan_ctx_dw getenv t dw < AC_TITAN_CTX_DWORDS) /\
  (forall dw, 0 <= dw < AC_TITAN_SH_DWORDS ->
     0 <= ac_titan_sh_dw getenv t dw < AC_TITAN_SH_DWORDS).

Lemma set_level_validated t level :
  let t' := ac_titan_regmap_set_level getenv t level in
  regmap_active t' = true -> ac_titan_regmap_validate getenv t' = true /\ ovr_bounded (mapovr t').
Proof.
  intros t'. unfold t', ac_titan_regmap_set_level.
  destruct (0 <? level); [|discriminate].
  destruct (ac_titan_regmap_validate getenv _) eqn:E; [|discriminate].
  intros _. split; [exact E|apply mapovr_parse_bounded].
Qed.

Lemma set_level_in_space t level :
  let t' := ac_titan_regmap_set_level getenv t level in
  regmap_active t' = true -> map_in_space t'.
Proof.
  intros t' [Hv Hb]%set_level_validated. apply validate_true in Hv as [Hc Hs]. split.
  - intros dw Hdw. split; [apply ctx_dw_nonneg; [done|lia]|by apply not_rejected_ok].
  - intros dw Hdw. split; [apply sh_dw_nonneg; lia|by apply not_rejected_ok].
Qed.

(** C8: refuse rather than half-apply: whatever the environment asks for, a map that is
    active after [ac_titan_regmap_set_level] keeps every context and SH register inside its
    own space, and two context registers that it both moves onto one destination can only
    share a lower-numbered register that the map leaves in place. *)
Theorem set_level_active_safe t level :
  let t' := ac_titan_regmap_set_level getenv t level in
  regmap_active t' = true ->
  (forall dw, 0 <= dw < AC_TITAN_CTX_DWORDS ->
     0 <= ac_titan_ctx_dw getenv t' dw < AC_TITAN_CTX_DWORDS) /\
  (forall dw, 0 <= dw < AC_TITAN_SH_DWORDS ->
     0 <= ac_titan_sh_dw getenv t' dw < AC_TITAN_SH_DWORDS) /\
  (forall x y, 0 <= x < y -> y < AC_TITAN_CTX_DWORDS ->
     ac_titan_ctx_dw getenv t' x <> x -> ac_titan_ctx_dw getenv t' y <> y ->
     ac_titan_ctx_dw getenv t' x = ac_titan_ctx_dw getenv t' y ->
     ac_titan_ctx_dw getenv t' x < x /\
     ac_titan_ctx_dw getenv t' (ac_titan_ctx_dw getenv t' x) = ac_titan_ctx_dw getenv t' x).
Proof.
  intros t' Hact. destruct (set_level_in_space t level Hact) as [Hc Hs].
  apply set_level_validated in Hact as [Hv _]. apply validate_true in Hv as [Ha _].
  split_and!; [done|done|by apply accepted_shared].
Qed.

(** ** Remapping one offset and a run *)

(** The counting and the quiet remap agree, the count grows by one exactly when the
    offset moved, and nothing else of the state changes. *)
Lemma remap_dw_quiet_agree t base dw :
  ac_titan_remap_dw getenv t base dw =
    (let out := ac_titan_remap_dw_quiet getenv t base dw in
     ({| regmap_active := regmap_active t; regmap_level := regmap_level t;
         regmap_suppress := regmap_suppress t;
         regmap_hits := if out =? dw then regmap_hits t else u32 (regmap_hits t + 1);
         mapovr := mapovr t |}, out)).
Proof.
  unfold ac_titan_remap_dw, ac_titan_remap_dw_quiet.
  destruct (regmap_active t) eqn:Ha; simpl.
  - destruct (_ =? dw); simpl; [|done]. destruct t; simpl in *. by rewrite Ha.
  - rewrite Z.eqb_refl. destruct t; simpl in *. by rewrite Ha.
Qed.

Lemma first_split_None f dw d0 k fuel :
  first_split f dw d0 k fuel = None <->
  forall j, k <= j < k + Z.of_nat fuel -> f (u32 (dw + j)) = u32 (d0 + j).
Proof.
  revert k. induction fuel as [|fuel IH]; intros k; cbn [first_split].
  - split; [intros _ j ?; lia|done].
  - destruct (Z.eqb_spec (f (u32 (dw + k))) (u32 (d0 + k))) as [E|E].
    + rewrite IH. split; intros H j Hj; [|apply H; lia].
      destruct (decide (j = k)) as [->|]; [done|apply H; lia].
    + split; [done|]. intros H. destruct E. apply H. lia.
Qed.

Lemma run_split_false t base dw num :
  ac_titan_run_split getenv t base dw num = false <->
  (regmap_active t = true -> forall j, 1 <= j < num ->
     ac_titan_remap_dw_quiet getenv t base (u32 (dw + j)) =
     u32 (ac_titan_remap_dw_quiet getenv t base dw + j)).
Proof.
  unfold ac_titan_run_split. destruct (regmap_active t) eqn:Ha; cbn [negb]; [|done].
  destruct (first_split _ _ _ _ _) as [p|] eqn:E.
  - split; [done|]. intros H. 
    enough (first_split (ac_titan_remap_dw_quiet getenv t base) dw
      (ac_titan_remap_dw_quiet getenv t base dw) 1 (Z.to_nat (num - 1)) = None) by congruence.
    apply first_split_None. intros j Hj. apply H; [done|lia].
  - split; [|done]. intros _ _ j Hj. rewrite first_split_None in E. apply E. lia.
Qed.

(** [ac_titan_run_split] answers false exactly when the run stays a run: the [j]-th
    register of the run is remapped to the destination of the first plus [j], for every
    register of the run. *)
Theorem run_split_spec t base dw num :
  ac_titan_run_split getenv t base dw num = false <->
  (regmap_active t = true -> forall j, 1 <= j < num ->
     ac_titan_remap_dw_quiet getenv t base (u32 (dw + j)) =
     u32 (ac_titan_remap_dw_quiet getenv t base dw + j)).
Proof. apply run_split_false. Qed.
(** The map does not depend on the hit counter. *)
Definition same_map (t t' : titan) : Prop :=
  regmap_active t' = regmap_active t /\ regmap_level t' = regmap_level t /\
  regmap_suppress t' = regmap_suppress t /\ mapovr t' = mapovr t.

Lemma same_map_trans t1 t2 t3 : same_map t1 t2 -> same_map t2 t3 -> same_map t1 t3.
Proof. intros (A & B & C & D) (A' & B' & C' & D'). repeat split; congruence. Qed.

Lemma ctx_dw_same t t' dw : same_map t t' -> ac_titan_ctx_dw getenv t' dw = ac_titan_ctx_dw getenv t dw.
Proof. destruct t, t'. intros (H1 & H2 & H3 & H4). simpl in *. by subst. Qed.
Lemma sh_dw_same t t' dw : same_map t t' -> ac_titan_sh_dw getenv t' dw = ac_titan_sh_dw getenv t dw.
Proof. destruct t, t'. intros (H1 & H2 & H3 & H4). simpl in *. by subst. Qed.

Lemma remap_quiet_same t t' base dw :
  same_map t t' -> ac_titan_remap_dw_quiet getenv t' base dw = ac_titan_remap_dw_quiet getenv t base dw.
Proof. destruct t, t'. intros (H1 & H2 & H3 & H4). simpl in *. by subst. Qed.

Lemma run_split_same t t' base dw num :
  same_map t t' -> ac_titan_run_split getenv t' base dw num = ac_titan_run_split getenv t base dw num.
Proof. destruct t, t'. intros (H1 & H2 & H3 & H4). simpl in *. by subst. Qed.
End Safety.

Lemma set_level_no_env_active : regmap_active (ac_titan_regmap_set_level no_env titan_init 10) = true.
Proof.
  unfold ac_titan_regmap_set_level, ac_titan_mapovr_parse. cbn [no_env nonempty].
  rewrite validate_good by reflexivity. reflexivity.
Qed.

Lemma set_level_active_safe_witness :
  0 <= ac_titan_ctx_dw no_env (ac_titan_regmap_set_level no_env titan_init 10) 0x2d5
    < AC_TITAN_CTX_DWORDS.
Proof.
  refine (proj1 (set_level_active_safe no_env titan_init 10 set_level_no_env_active) 0x2d5 _).
  split; [discriminate|reflexivity].
Defined.
