(* ===== verification/Packets.v ===== *)
(** PM4 packets: the header macros of [sid.h] and the part of the IB parser of
    [ac_parse_ib.c] that reads register writes back out of a command stream.
    [parse_gfx_compute_ib] is the decoder against which the packet builders of
    [Pm4.v] and [CmdBuf.v] are verified; the text the parser prints is modelled by
    the list of (register, value) pairs it passes to [ac_dump_reg]. *)

From S2P Require Import Prelude.
From S2P Require Import TitanRegMap.

(** ** Opcodes and headers *)

Definition PKT3_NOP : Z := 0x10.
Definition PKT3_CLEAR_STATE : Z := 0x12.
Definition PKT3_CONTEXT_CONTROL : Z := 0x28.
Definition PKT3_COPY_DATA : Z := 0x40.
Definition PKT3_EVENT_WRITE : Z := 0x46.
Definition PKT3_SET_CONFIG_REG : Z := 0x68.
Definition PKT3_SET_CONTEXT_REG : Z := 0x69.
Definition PKT3_SET_SH_REG : Z := 0x76.
Definition PKT3_SET_UCONFIG_REG : Z := 0x79.
Definition PKT3_SET_UCONFIG_REG_INDEX : Z := 0x7A.
Definition PKT3_SET_SH_REG_INDEX : Z := 0x9B.
Definition PKT3_SET_CONTEXT_REG_PAIRS : Z := 0xB8.
Definition PKT3_SET_CONTEXT_REG_PAIRS_PACKED : Z := 0xB9.
Definition PKT3_SET_SH_REG_PAIRS : Z := 0xBA.
Definition PKT3_SET_SH_REG_PAIRS_PACKED : Z := 0xBB.
Definition PKT3_SET_SH_REG_PAIRS_PACKED_N : Z := 0xBD.
Definition PKT3_SET_UCONFIG_REG_PAIRS : Z := 0xBE.

Definition PKT_TYPE_S (x : Z) : Z := u32 (Z.shiftl (Z.land (u32 x) 0x3) 30).
Definition PKT_TYPE_G (x : Z) : Z := Z.land (Z.shiftr x 30) 0x3.
Definition PKT_COUNT_S (x : Z) : Z := u32 (Z.shiftl (Z.land (u32 x) 0x3FFF) 16).
Definition PKT_COUNT_G (x : Z) : Z := Z.land (Z.shiftr x 16) 0x3FFF.
Definition PKT3_IT_OPCODE_S (x : Z) : Z := u32 (Z.shiftl (Z.land (u32 x) 0xFF) 8).
Definition PKT3_IT_OPCODE_G (x : Z) : Z := Z.land (Z.shiftr x 8) 0xFF.
Definition PKT3_IT_OPCODE_C : Z := 0xFFFF00FF.
Definition PKT3_PREDICATE (x : Z) : Z := Z.land (Z.shiftr x 0) 0x1.
Definition PKT3_RESET_FILTER_CAM_S (x : Z) : Z := u32 (Z.shiftl (Z.land (u32 x) 0x1) 2).
Definition PKT3 (op count predicate : Z) : Z :=
  Z.lor (Z.lor (Z.lor (PKT_TYPE_S 3) (PKT_COUNT_S count)) (PKT3_IT_OPCODE_S op))
        (PKT3_PREDICATE predicate).
Definition PKT3_NOP_PAD : Z := PKT3 PKT3_NOP 0x3fff 0.

(** ** The parser *)

(** A register write as the parser reports it: byte address and value. *)
Abbreviation write := (Z * Z)%type.

(** [ac_ib_get]: the next dword (0 past the end) and the new [cur_dw]. *)
Definition ac_ib_get (ib : list Z) (cur : Z) : Z * Z :=
  ((if cur <? Z.of_nat (length ib) then default 0 (ib !! Z.to_nat cur) else 0), cur + 1).

Section Parser.
Context (ib : list Z).

(** The [for] loop of [ac_parse_set_reg_packet] from iteration [i]. *)
Fixpoint set_reg_loop (reg i : Z) (n : nat) (cur : Z) : list write * Z :=
  match n with
  | O => ([], cur)
  | S n' =>
      let '(v, cur1) := ac_ib_get ib cur in
      let '(ws, cur2) := set_reg_loop reg (i + 1) n' cur1 in
      ((u32 (reg + i * 4), v) :: ws, cur2)
  end.

Definition ac_parse_set_reg_packet (count reg_offset cur : Z) : list write * Z :=
  let '(reg_dw, cur1) := ac_ib_get ib cur in
  let reg := u32 (Z.shiftl (Z.land reg_dw 0xFFFF) 2 + reg_offset) in
  set_reg_loop reg 0 (Z.to_nat count) cur1.

Fixpoint pairs_loop (reg_base : Z) (n : nat) (cur : Z) : list write * Z :=
  match n with
  | O => ([], cur)
  | S n' =>
      let '(off, cur1) := ac_ib_get ib cur in
      let reg_offset := u32 (u32 (Z.shiftl off 2) + reg_base) in
      let '(v, cur2) := ac_ib_get ib cur1 in
      let '(ws, cur3) := pairs_loop reg_base n' cur2 in
      ((reg_offset, v) :: ws, cur3)
  end.

Definition ac_parse_set_reg_pairs_packet (count reg_base cur : Z) : list write * Z :=
  pairs_loop reg_base (Z.to_nat ((count + 1) / 2)) cur.

(** The loop of [ac_parse_set_reg_pairs_packed_packet]; [off0] and [off1] are its
    two locals, [n] the iterations left. *)
Fixpoint packed_loop (reg_base i off0 off1 : Z) (n : nat) (cur : Z) : list write * Z :=
  match n with
  | O => ([], cur)
  | S n' =>
      let '(v, cur1) := ac_ib_get ib cur in
      if i mod 3 =? 0 then
        packed_loop reg_base (i + 1)
          (u32 (Z.shiftl (Z.land v 0xffff) 2 + reg_base))
          (u32 (u32 (Z.shiftl (Z.shiftr v 16) 2) + reg_base)) n' cur1
      else
        let '(ws, cur2) := packed_loop reg_base (i + 1) off0 off1 n' cur1 in
        ((if i mod 3 =? 1 then (off0, v) else (off1, v)) :: ws, cur2)
  end.

Definition ac_parse_set_reg_pairs_packed_packet (count reg_base cur : Z) : list write * Z :=
  let '(_, cur1) := ac_ib_get ib cur in
  packed_loop reg_base 0 0 0 (Z.to_nat count) cur1.

(** The packets that are not register writes: the generated printers and the other
    cases of the [switch], given the opcode, the count and [cur_dw]. *)
Context (other_packet : Z -> Z -> Z -> list write * Z).

Definition ac_parse_packet3 (header cur : Z) : list write * Z :=
  let first_dw := cur in
  let count := PKT_COUNT_G header in
  let op := PKT3_IT_OPCODE_G header in
  let '(ws, cur1) :=
    if op =? PKT3_SET_CONTEXT_REG
    then ac_parse_set_reg_packet count SI_CONTEXT_REG_OFFSET cur
    else if op =? PKT3_SET_CONFIG_REG
    then ac_parse_set_reg_packet count SI_CONFIG_REG_OFFSET cur
    else if (op =? PKT3_SET_UCONFIG_REG) || (op =? PKT3_SET_UCONFIG_REG_INDEX)
    then ac_parse_set_reg_packet count CIK_UCONFIG_REG_OFFSET cur
    else if (op =? PKT3_SET_SH_REG) || (op =? PKT3_SET_SH_REG_INDEX)
    then ac_parse_set_reg_packet count SI_SH_REG_OFFSET cur
    else if op =? PKT3_SET_UCONFIG_REG_PAIRS
    then ac_parse_set_reg_pairs_packet count CIK_UCONFIG_REG_OFFSET cur
    else if op =? PKT3_SET_CONTEXT_REG_PAIRS
    then ac_parse_set_reg_pairs_packet count SI_CONTEXT_REG_OFFSET cur
    else if op =? PKT3_SET_SH_REG_PAIRS
    then ac_parse_set_reg_pairs_packet count SI_SH_REG_OFFSET cur
    else if op =? PKT3_SET_CONTEXT_REG_PAIRS_PACKED
    then ac_parse_set_reg_pairs_packed_packet count SI_CONTEXT_REG_OFFSET cur
    else if (op =? PKT3_SET_SH_REG_PAIRS_PACKED) || (op =? PKT3_SET_SH_REG_PAIRS_PACKED_N)
    then ac_parse_set_reg_pairs_packed_packet count SI_SH_REG_OFFSET cur
    else other_packet op count cur in
  let count' := if header =? PKT3_NOP_PAD then -1 else count in
  (* while (cur_dw <= first_dw + count) ac_ib_get(ib); *)
  (ws, Z.max cur1 (first_dw + count' + 1)).

(** The [while] loop of [parse_gfx_compute_ib]; every iteration consumes a dword. *)
Fixpoint parse_loop (fuel : nat) (cur : Z) : list write :=
  match fuel with
  | O => []
  | S fuel' =>
      if cur <? Z.of_nat (length ib) then
        let '(header, cur1) := ac_ib_get ib cur in
        if PKT_TYPE_G header =? 3 then
          let '(ws, cur2) := ac_parse_packet3 header cur1 in
          ws ++ parse_loop fuel' cur2
        else parse_loop fuel' cur1
      else []
  end.

Definition parse_gfx_compute_ib : list write := parse_loop (length ib) 0.

End Parser.

(** ** Header fields *)

(** A type-3 header with a RESET_FILTER_CAM bit and no predicate. *)
Definition pkt3_header (op count : Z) (cam : bool) : Z :=
  Z.lor (PKT3 op count 0) (PKT3_RESET_FILTER_CAM_S (Z.b2z cam)).

Lemma PKT_fields op count :
  0 <= op < 256 -> 0 <= count < 0x4000 ->
  PKT_TYPE_S 3 = 3 * 2 ^ 30 /\ PKT_COUNT_S count = count * 2 ^ 16 /\
  PKT3_IT_OPCODE_S op = op * 2 ^ 8.
Proof.
  intros Hop Hc. split; [reflexivity|]. unfold PKT_COUNT_S, PKT3_IT_OPCODE_S.
  rewrite !shiftl_mul by lia.
  rewrite (land_mask_mod _ 14), (land_mask_mod _ 8) by (done || lia).
  unfold u32. split; zdivmod.
Qed.


Lemma pkt3_header_value op count cam :
  0 <= op < 256 -> 0 <= count < 0x4000 ->
  pkt3_header op count cam =
    3 * 2 ^ 30 + count * 2 ^ 16 + op * 2 ^ 8 + (if cam then 4 else 0).
Proof.
  intros Hop Hc. unfold pkt3_header, PKT3.
  destruct (PKT_fields op count Hop Hc) as (-> & -> & ->).
  change (PKT3_PREDICATE 0) with 0. rewrite Z.lor_0_r.
  rewrite (lor_disjoint_add 3) by lia.
  replace (3 * 2 ^ 30 + count * 2 ^ 16) with ((3 * 2 ^ 14 + count) * 2 ^ 16) by lia.
  rewrite lor_disjoint_add by lia.
  replace ((3 * 2 ^ 14 + count) * 2 ^ 16 + op * 2 ^ 8)
    with (((3 * 2 ^ 14 + count) * 2 ^ 8 + op) * 2 ^ 8) by lia.
  replace (PKT3_RESET_FILTER_CAM_S (Z.b2z cam)) with (if cam then 4 else 0)
    by (destruct cam; reflexivity).
  rewrite lor_disjoint_add by (destruct cam; lia). destruct cam; lia.
Qed.

Lemma pkt3_header_fields op count cam :
  0 <= op < 256 -> 0 <= count < 0x4000 ->
  let h := pkt3_header op count cam in
  PKT_TYPE_G h = 3 /\ PKT_COUNT_G h = count /\ PKT3_IT_OPCODE_G h = op.
Proof.
  intros Hop Hc h. subst h. rewrite pkt3_header_value by done.
  unfold PKT_TYPE_G, PKT_COUNT_G, PKT3_IT_OPCODE_G. rewrite !shiftr_div by lia.
  rewrite (land_mask_mod _ 2), (land_mask_mod _ 14), (land_mask_mod _ 8) by (done || lia).
  destruct cam; split_and!; zdivmod.
Qed.

Lemma pkt3_header_type op count cam :
  0 <= op < 256 -> 0 <= count < 0x4000 -> PKT_TYPE_G (pkt3_header op count cam) = 3.
Proof. intros Hop Hc. exact (proj1 (pkt3_header_fields op count cam Hop Hc)). Qed.

Lemma header_u32 op count cam :
  0 <= op < 256 -> 0 <= count < 0x4000 -> u32 (pkt3_header op count cam) = pkt3_header op count cam.
Proof.
  intros Hop Hc. apply u32_small. rewrite pkt3_header_value by done. unfold in_u32.
  destruct cam; lia.
Qed.

(** ** Packets as data *)

Inductive packet : Type :=
| PktSeq (op : Z) (cam : bool) (reg idx : Z) (vals : list Z)
    (* consecutive registers: header, offset | idx << 28, values *)
| PktPairs (op : Z) (cam : bool) (ws : list (Z * Z))
    (* header, (offset, value)^n *)
| PktPacked (op : Z) (cam : bool) (ws : list (Z * Z))
    (* header, count, (offset0 | offset1 << 16, value0, value1)^(count / 2) *)
| PktRaw (op : Z) (body : list Z).
    (* a packet that writes no register, added dword by dword *)

Fixpoint packed_body (ws : list (Z * Z)) : list Z :=
  match ws with
  | (r0, v0) :: (r1, v1) :: ws' => (r0 + r1 * 2 ^ 16) :: v0 :: v1 :: packed_body ws'
  | [(r0, v0)] => [r0; v0]
  | [] => []
  end.

Fixpoint pairs_body (ws : list (Z * Z)) : list Z :=
  match ws with
  | (r, v) :: ws' => r :: v :: pairs_body ws'
  | [] => []
  end.

Definition encode_packet (p : packet) : list Z :=
  match p with
  | PktSeq op cam reg idx vals =>
      pkt3_header op (Z.of_nat (length vals)) cam :: Z.lor reg (u32 (Z.shiftl idx 28)) :: vals
  | PktPairs op cam ws =>
      pkt3_header op (2 * Z.of_nat (length ws) - 1) cam :: pairs_body ws
  | PktPacked op cam ws =>
      pkt3_header op (3 * (Z.of_nat (length ws) / 2)) cam :: Z.of_nat (length ws) :: packed_body ws
  | PktRaw op body => pkt3_header op (Z.of_nat (length body) - 1) false :: body
  end.

Definition encode_packets (ps : list packet) : list Z := concat (encode_packet <$> ps).

(** The register space an opcode writes. *)
Definition seq_base (op : Z) : option Z :=
  if op =? PKT3_SET_CONTEXT_REG then Some SI_CONTEXT_REG_OFFSET
  else if op =? PKT3_SET_CONFIG_REG then Some SI_CONFIG_REG_OFFSET
  else if (op =? PKT3_SET_UCONFIG_REG) || (op =? PKT3_SET_UCONFIG_REG_INDEX)
  then Some CIK_UCONFIG_REG_OFFSET
  else if (op =? PKT3_SET_SH_REG) || (op =? PKT3_SET_SH_REG_INDEX) then Some SI_SH_REG_OFFSET
  else None.

Definition pairs_base (op : Z) : option Z :=
  if op =? PKT3_SET_UCONFIG_REG_PAIRS then Some CIK_UCONFIG_REG_OFFSET
  else if op =? PKT3_SET_CONTEXT_REG_PAIRS then Some SI_CONTEXT_REG_OFFSET
  else if op =? PKT3_SET_SH_REG_PAIRS then Some SI_SH_REG_OFFSET
  else None.

Definition packed_base (op : Z) : option Z :=
  if op =? PKT3_SET_CONTEXT_REG_PAIRS_PACKED then Some SI_CONTEXT_REG_OFFSET
  else if (op =? PKT3_SET_SH_REG_PAIRS_PACKED) || (op =? PKT3_SET_SH_REG_PAIRS_PACKED_N)
  then Some SI_SH_REG_OFFSET
  else None.

(** The writes a sequence of dword offsets stands for in the space at [base]. *)
Definition writes_at (base : Z) (ws : list (Z * Z)) : list write :=
  (fun '(r, v) => (base + 4 * r, v)) <$> ws.

Definition seq_ws (reg : Z) (vals : list Z) : list (Z * Z) :=
  zip (seqZ reg (Z.of_nat (length vals))) vals.

Definition packet_writes (p : packet) : list write :=
  match p with
  | PktSeq op _ reg _ vals => writes_at (default 0 (seq_base op)) (seq_ws reg vals)
  | PktPairs op _ ws => writes_at (default 0 (pairs_base op)) ws
  | PktPacked op _ ws => writes_at (default 0 (packed_base op)) ws
  | PktRaw _ _ => []
  end.

Definition off_ok (w : Z * Z) : Prop := 0 <= w.1 < 2 ^ 16.

(** The packets the preambles add by hand. *)
Definition raw_op (op : Z) : bool :=
  (op =? PKT3_CLEAR_STATE) || (op =? PKT3_CONTEXT_CONTROL) || (op =? PKT3_EVENT_WRITE).

(** The printers of those packets report no register write and stay inside their packet. *)
Definition other_skips (other : Z -> Z -> Z -> list write * Z) : Prop :=
  forall op count cur, raw_op op = true -> 0 <= count ->
    exists cur1, other op count cur = ([], cur1) /\ cur1 <= cur + count + 1.

(** The well-formed packets: an opcode of the right kind, offsets of 16 bits, a size that
    fits the header's count field, and an even number of packed registers. *)
Definition packet_ok (p : packet) : Prop :=
  match p with
  | PktSeq op _ reg idx vals =>
      is_Some (seq_base op) /\ 0 <= reg /\ reg + Z.of_nat (length vals) <= 2 ^ 16 /\
      0 <= idx < 16 /\ 0 < Z.of_nat (length vals) < 0x4000
  | PktPairs op _ ws =>
      is_Some (pairs_base op) /\ Forall off_ok ws /\ 0 < Z.of_nat (length ws) < 0x2000
  | PktPacked op _ ws =>
      is_Some (packed_base op) /\ Forall off_ok ws /\ 0 < 3 * Z.of_nat (length ws) < 0x8000 /\
      Nat.Even (length ws)
  | PktRaw op body => raw_op op = true /\ 0 < Z.of_nat (length body) < 0x4000
  end.

(** ** The parser inverts the encoding *)

Lemma ac_ib_get_drop ib cur v rest :
  0 <= cur -> drop (Z.to_nat cur) ib = v :: rest ->
  ac_ib_get ib cur = (v, cur + 1) /\ drop (Z.to_nat (cur + 1)) ib = rest.
Proof.
  intros Hc Hd. assert (ib !! Z.to_nat cur = Some v) as Hl.
  { rewrite <- (Nat.add_0_r (Z.to_nat cur)), <- lookup_drop, Hd. done. }
  pose proof (lookup_lt_Some _ _ _ Hl). split.
  - unfold ac_ib_get. rewrite Hl. by rewrite (proj2 (Z.ltb_lt _ _)) by lia.
  - replace (Z.to_nat (cur + 1)) with (S (Z.to_nat cur)) by lia.
    replace (S (Z.to_nat cur)) with (Z.to_nat cur + 1)%nat by lia.
    rewrite <- drop_drop, Hd. done.
Qed.

(** Reads the next dword of a stream whose remaining contents are known. *)
Ltac ib_get :=
  match goal with
  | Hd : drop (Z.to_nat ?c) ?ib = _ :: _ |- context [ac_ib_get ?ib ?c] =>
      let E := fresh "E" in let Hd' := fresh "Hd" in
      destruct (ac_ib_get_drop ib c _ _ ltac:(lia) Hd) as [E Hd']; rewrite E; clear E Hd
  end.

Lemma seq_ws_cons reg v vals : seq_ws reg (v :: vals) = (reg, v) :: seq_ws (reg + 1) vals.
Proof.
  unfold seq_ws. rewrite length_cons, seqZ_cons by lia. simpl. f_equal. f_equal. f_equal; lia.
Qed.

Lemma set_reg_loop_spec ib base reg0 reg i vals rest cur :
  0 <= cur -> reg0 = base + 4 * (reg - i) -> 0 <= base <= 0x30000 -> 0 <= i -> 0 <= reg ->
  reg + Z.of_nat (length vals) <= 2 ^ 16 ->
  drop (Z.to_nat cur) ib = vals ++ rest ->
  set_reg_loop ib reg0 i (length vals) cur =
    (writes_at base (seq_ws reg vals), cur + Z.of_nat (length vals)).
Proof.
  intros Hc -> Hb Hi. revert reg i cur Hi Hc.
  induction vals as [|v vals IH]; intros reg i cur Hi Hc Hr Hlen Hd; cbn [set_reg_loop length].
  { unfold seq_ws; simpl. f_equal; lia. }
  simpl in Hd. ib_get. rewrite length_cons in Hlen. rewrite seq_ws_cons.
  replace (base + 4 * (reg - i)) with (base + 4 * (reg + 1 - (i + 1))) by lia.
  rewrite IH by (done || lia). simpl. f_equal; [|lia]. f_equal. f_equal.
  rewrite u32_small by (unfold in_u32; lia). lia.
Qed.

Lemma pairs_loop_spec ib base ws rest cur :
  0 <= cur -> 0 <= base <= 0x30000 -> Forall off_ok ws ->
  drop (Z.to_nat cur) ib = pairs_body ws ++ rest ->
  pairs_loop ib base (length ws) cur =
    (writes_at base ws, cur + 2 * Z.of_nat (length ws)).
Proof.
  intros Hc Hb Hf. revert cur Hc.
  induction Hf as [|[r v] ws Hr Hf IH]; intros cur Hc Hd; cbn [pairs_loop length].
  { simpl. f_equal; lia. }
  simpl in Hd. ib_get. ib_get. rewrite IH by (done || lia). unfold off_ok in Hr. simpl in Hr.
  unfold u32. rewrite shiftl_mul, (Z.mod_small (r * 2 ^ 2)) by lia. simpl.
  f_equal; [|lia]. f_equal. f_equal. rewrite Z.mod_small by lia. lia.
Qed.

Lemma packed_loop_spec ib base ws rest k off0 off1 cur :
  0 <= cur -> 0 <= base <= 0x30000 -> Forall off_ok ws -> Nat.Even (length ws) ->
  0 <= k -> drop (Z.to_nat cur) ib = packed_body ws ++ rest ->
  packed_loop ib base (3 * k) off0 off1 (3 * (length ws / 2))%nat cur =
    (writes_at base ws, cur + 3 * (Z.of_nat (length ws) / 2)).
Proof.
  intros Hc Hb Hf He. remember (length ws / 2)%nat as n eqn:Hn.
  revert ws cur k off0 off1 Hc Hf He Hn.
  induction n as [|n IH]; intros ws cur k off0 off1 Hc Hf He Hn Hk Hd.
  { destruct He as [m Hm]. assert (length ws = 0%nat) as H0 by zdivmod.
    destruct ws; [|done]. simpl. f_equal. zdivmod. }
  destruct ws as [|[r0 v0] [|[r1 v1] ws]]; [done|done|].
  destruct He as [m Hm]. simpl in Hm, Hd.
  inversion Hf as [|? ? Hr0 Hf1]; subst. inversion Hf1 as [|? ? Hr1 Hf2]; subst.
  unfold off_ok in Hr0, Hr1; simpl in Hr0, Hr1.
  replace (3 * S n)%nat with (S (S (S (3 * n)))) by lia. cbn [packed_loop].
  ib_get. replace ((3 * k) mod 3 =? 0) with true by zdivmod.
  ib_get. replace ((3 * k + 1) mod 3 =? 0) with false by zdivmod.
  ib_get. replace ((3 * k + 1 + 1) mod 3 =? 0) with false by zdivmod.
  replace (3 * k + 1 + 1 + 1) with (3 * (k + 1)) by lia.
  rewrite !length_cons in Hn.
  rewrite (IH ws) by (first [done|lia|exists (m - 1)%nat; lia|zdivmod]).
  replace ((3 * k + 1) mod 3 =? 1) with true by zdivmod.
  replace ((3 * k + 1 + 1) mod 3 =? 1) with false by zdivmod.
  rewrite !shiftl_mul, shiftr_div by lia. rewrite (land_mask_mod _ 16) by (done || lia).
  unfold u32. simpl. f_equal; [|zdivmod]. f_equal; [|f_equal]; f_equal; zdivmod.
Qed.

Lemma length_pairs_body ws : length (pairs_body ws) = (2 * length ws)%nat.
Proof. induction ws as [|[r v] ws IH]; simpl; lia. Qed.

Lemma length_packed_body ws : Nat.Even (length ws) ->
  Z.of_nat (length (packed_body ws)) = 3 * (Z.of_nat (length ws) / 2).
Proof.
  intros [m Hm]. revert ws Hm. induction m as [|m IH]; intros ws Hm.
  - by destruct ws.
  - destruct ws as [|[r0 v0] [|[r1 v1] ws]]; simpl in Hm; [lia|lia|].
    cbn [packed_body length]. rewrite !Nat2Z.inj_succ, (IH ws) by lia. zdivmod.
Qed.

Lemma reg_idx_low reg idx :
  0 <= reg < 2 ^ 16 -> 0 <= idx < 16 ->
  Z.land (Z.lor reg (u32 (Z.shiftl idx 28))) 0xFFFF = reg.
Proof.
  intros Hr Hi. rewrite shiftl_mul, u32_small by (unfold in_u32; lia).
  rewrite Z.lor_comm, lor_disjoint_add, (land_mask_mod _ 16) by lia. zdivmod.
Qed.

Lemma seq_base_cases op b : seq_base op = Some b ->
  0 <= op < 256 /\ op <> PKT3_NOP /\ 0 <= b <= 0x30000.
Proof.
  unfold seq_base. intros H. repeat case_match; simplify_eq;
    rewrite ?orb_true_iff, ?Z.eqb_eq in *; destruct_or?; subst; done.
Qed.

Lemma pairs_base_cases op b : pairs_base op = Some b ->
  0 <= op < 256 /\ op <> PKT3_NOP /\ 0 <= b <= 0x30000.
Proof.
  unfold pairs_base. intros H. repeat case_match; simplify_eq;
    rewrite ?orb_true_iff, ?Z.eqb_eq in *; destruct_or?; subst; done.
Qed.

Lemma packed_base_cases op b : packed_base op = Some b ->
  0 <= op < 256 /\ op <> PKT3_NOP /\ 0 <= b <= 0x30000.
Proof.
  unfold packed_base. intros H. repeat case_match; simplify_eq;
    rewrite ?orb_true_iff, ?Z.eqb_eq in *; destruct_or?; subst; done.
Qed.

(** The dispatch of [ac_parse_packet3] on the three kinds of opcode. *)
Section Dispatch.
Context (ib : list Z) (other : Z -> Z -> Z -> list write * Z).

Definition dispatch (op count cur : Z) : option (list write * Z) :=
  match seq_base op, pairs_base op, packed_base op with
  | Some b, _, _ => Some (ac_parse_set_reg_packet ib count b cur)
  | _, Some b, _ => Some (ac_parse_set_reg_pairs_packet ib count b cur)
  | _, _, Some b => Some (ac_parse_set_reg_pairs_packed_packet ib count b cur)
  | _, _, _ => None
  end.

Lemma parse_packet3_dispatch op count cam cur ws cur1 :
  0 <= op < 256 -> op <> PKT3_NOP -> 0 <= count < 0x4000 ->
  dispatch op count cur = Some (ws, cur1) ->
  ac_parse_packet3 ib other (pkt3_header op count cam) cur =
    (ws, Z.max cur1 (cur + count + 1)).
Proof.
  intros Hop Hnop Hc Hd. unfold ac_parse_packet3.
  destruct (pkt3_header_fields op count cam) as (_ & -> & ->); [done|done|].
  assert ((pkt3_header op count cam =? PKT3_NOP_PAD) = false) as ->.
  { apply Z.eqb_neq. intros E. apply Hnop.
    rewrite <- (proj2 (proj2 (pkt3_header_fields op count cam Hop Hc))), E. reflexivity. }
  match goal with |- (let '(_, _) := ?X in _) = _ => assert (X = (ws, cur1)) as -> end;
    [|done].
  revert Hd. unfold dispatch, seq_base, pairs_base, packed_base.
  destruct (op =? PKT3_SET_CONTEXT_REG); [by intros [= ->]|].
  destruct (op =? PKT3_SET_CONFIG_REG); [by intros [= ->]|].
  destruct ((op =? PKT3_SET_UCONFIG_REG) || _); [by intros [= ->]|].
  destruct ((op =? PKT3_SET_SH_REG) || _); [by intros [= ->]|].
  destruct (op =? PKT3_SET_UCONFIG_REG_PAIRS); [by intros [= ->]|].
  destruct (op =? PKT3_SET_CONTEXT_REG_PAIRS); [by intros [= ->]|].
  destruct (op =? PKT3_SET_SH_REG_PAIRS); [by intros [= ->]|].
  destruct (op =? PKT3_SET_CONTEXT_REG_PAIRS_PACKED); [by intros [= ->]|].
  destruct ((op =? PKT3_SET_SH_REG_PAIRS_PACKED) || _); [by intros [= ->]|done].
Qed.

Lemma raw_op_cases op :
  raw_op op = true -> 0 <= op < 256 /\ op <> PKT3_NOP /\
  seq_base op = None /\ pairs_base op = None /\ packed_base op = None.
Proof.
  unfold raw_op. rewrite !orb_true_iff, !Z.eqb_eq. intros [[-> | ->]| ->]; by vm_compute.
Qed.

Lemma parse_packet3_raw op count cam cur :
  other_skips other -> raw_op op = true -> 0 <= count < 0x4000 ->
  ac_parse_packet3 ib other (pkt3_header op count cam) cur = ([], cur + count + 1).
Proof.
  intros Ho Hraw Hc. destruct (raw_op_cases op Hraw) as (Hop & Hnop & _).
  destruct (Ho op count cur Hraw) as (cur1 & E & Hcur); [lia|]. unfold ac_parse_packet3.
  destruct (pkt3_header_fields op count cam) as (_ & -> & ->); [done|done|].
  assert ((pkt3_header op count cam =? PKT3_NOP_PAD) = false) as ->.
  { apply Z.eqb_neq. intros E'. apply Hnop.
    rewrite <- (proj2 (proj2 (pkt3_header_fields op count cam Hop Hc))), E'. reflexivity. }
  unfold raw_op in Hraw. rewrite !orb_true_iff, !Z.eqb_eq in Hraw.
  destruct Hraw as [[-> | ->]| ->]; cbn -[Z.max Z.add]; rewrite E; f_equal; lia.
Qed.
End Dispatch.

Lemma base_excl_pairs op b : pairs_base op = Some b -> seq_base op = None.
Proof.
  unfold pairs_base. intros H. repeat case_match; simplify_eq; rewrite ?Z.eqb_eq in *; subst; done.
Qed.

Lemma base_excl_packed op b : packed_base op = Some b -> seq_base op = None /\ pairs_base op = None.
Proof.
  unfold packed_base. intros H. repeat case_match; simplify_eq;
    rewrite ?orb_true_iff, ?Z.eqb_eq in *; destruct_or?; subst; done.
Qed.

Lemma length_encode_packet p : packet_ok p -> (0 < length (encode_packet p))%nat.
Proof. destruct p; simpl; lia. Qed.

(** One packet at [cur] is read back exactly, and the parser stops at its end. *)
Lemma parse_packet_spec ib other p rest cur :
  other_skips other -> 0 <= cur -> packet_ok p -> drop (Z.to_nat cur) ib = encode_packet p ++ rest ->
  let '(header, cur1) := ac_ib_get ib cur in
  PKT_TYPE_G header = 3 /\
  ac_parse_packet3 ib other header cur1 =
    (packet_writes p, cur + Z.of_nat (length (encode_packet p))).
Proof.
  intros Ho Hc Hp Hd.
  destruct p as [op cam reg idx vals|op cam ws|op cam ws|op body]; simpl in Hp, Hd.
  - destruct Hp as ([b Hb] & Hreg & Hend & Hidx & Hlen). destruct (seq_base_cases op b Hb) as (? & ? & ?).
    ib_get. split; [apply pkt3_header_type; [assumption|lia]|].
    erewrite parse_packet3_dispatch; [|done|done|lia|]; cycle 1.
    { unfold dispatch. rewrite Hb. unfold ac_parse_set_reg_packet. ib_get.
      rewrite reg_idx_low by lia. rewrite shiftl_mul by lia.
      rewrite u32_small by (unfold in_u32; lia).
      rewrite Nat2Z.id. erewrite (set_reg_loop_spec ib b _ reg 0); [done|lia|lia|lia|lia|lia|lia|done]. }
    cbn [packet_writes encode_packet length]. rewrite Hb. simpl. f_equal. lia.
  - destruct Hp as ([b Hb] & Hf & Hlen). destruct (pairs_base_cases op b Hb) as (? & ? & ?).
    ib_get. split; [apply pkt3_header_type; [assumption|lia]|].
    erewrite parse_packet3_dispatch; [|done|done|lia|]; cycle 1.
    { unfold dispatch. rewrite (base_excl_pairs _ _ Hb), Hb. unfold ac_parse_set_reg_pairs_packet.
      replace (Z.to_nat ((2 * Z.of_nat (length ws) - 1 + 1) / 2)) with (length ws) by zdivmod.
      erewrite pairs_loop_spec; [done|lia|lia|done|done]. }
    cbn [packet_writes encode_packet length]. rewrite Hb, length_pairs_body. simpl. f_equal. lia.
  - destruct Hp as ([b Hb] & Hf & Hlen & He). destruct (packed_base_cases op b Hb) as (? & ? & ?).
    destruct (base_excl_packed _ _ Hb) as [Hb1 Hb2].
    assert (0 <= 3 * (Z.of_nat (length ws) / 2) < 0x4000) as Hcnt by zdivmod.
    ib_get. split; [apply pkt3_header_type; [assumption|lia]|].
    erewrite parse_packet3_dispatch; [|done|done|lia|]; cycle 1.
    { unfold dispatch. rewrite Hb1, Hb2, Hb. unfold ac_parse_set_reg_pairs_packed_packet. ib_get.
      replace (Z.to_nat (3 * (Z.of_nat (length ws) / 2))) with (3 * (length ws / 2))%nat by zdivmod.
      erewrite (packed_loop_spec ib b ws rest 0); [done|lia|lia|done|done|lia|done]. }
    cbn [packet_writes encode_packet length]. rewrite !Nat2Z.inj_succ, length_packed_body, Hb by done.
    simpl. f_equal. lia.
  - destruct Hp as (Hraw & Hlen). destruct (raw_op_cases op Hraw) as (Hop & _).
    ib_get. split; [apply pkt3_header_type; [assumption|lia]|].
    rewrite parse_packet3_raw by (done || lia). cbn [packet_writes encode_packet length]. f_equal. lia.
Qed.

Lemma parse_loop_spec ib other ps cur fuel :
  other_skips other -> 0 <= cur -> Forall packet_ok ps -> drop (Z.to_nat cur) ib = encode_packets ps ->
  (length (encode_packets ps) <= fuel)%nat ->
  parse_loop ib other fuel cur = concat (packet_writes <$> ps).
Proof.
  intros Ho Hc Hps. revert cur fuel Hc.
  induction Hps as [|p ps Hp Hps IH]; intros cur fuel Hc Hd Hfuel.
  - unfold encode_packets in Hd; simpl in Hd.
    assert (length ib <= Z.to_nat cur)%nat as Hge.
    { apply (f_equal length) in Hd. rewrite length_drop in Hd. simpl in Hd. lia. }
    destruct fuel; [done|]. cbn [parse_loop]. by rewrite (proj2 (Z.ltb_ge _ _)) by lia.
  - unfold encode_packets in *. cbn [fmap list_fmap concat] in *. rewrite length_app in Hfuel.
    pose proof (length_encode_packet p Hp) as Hpos. destruct fuel as [|fuel]; [lia|].
    cbn [parse_loop].
    assert (Z.to_nat cur + length (encode_packet p) <= length ib)%nat as Hlen.
    { apply (f_equal length) in Hd. rewrite length_drop, length_app in Hd. lia. }
    rewrite (proj2 (Z.ltb_lt _ _)) by lia.
    pose proof (parse_packet_spec ib other p _ cur Ho Hc Hp Hd) as H.
    destruct (ac_ib_get ib cur) as [header cur1]. destruct H as [-> ->]. rewrite Z.eqb_refl. f_equal.
    apply IH; [lia| |lia].
    replace (Z.to_nat _) with (Z.to_nat cur + length (encode_packet p))%nat by lia.
    by rewrite <- drop_drop, Hd, drop_app_length.
Qed.

(** The printers that print nothing. *)
Definition skip_other (_ _ c : Z) : list write * Z := ([], c).

Lemma skip_other_ok : other_skips skip_other.
Proof. intros op count cur _ Hc. exists cur. split; [done|lia]. Qed.

(** C20: the IB parser inverts the packet encoding: on the concatenation of any well-formed
    packets (SET packets of consecutive registers, of pairs and of packed pairs, and the
    control packets of the preambles, in any order) it reports exactly the register writes
    the packets stand for, in order, provided the printers of the control packets stay
    inside their packet. *)
Theorem parse_encode_packets other ps :
  other_skips other -> Forall packet_ok ps ->
  parse_gfx_compute_ib (encode_packets ps) other = concat (packet_writes <$> ps).
Proof. intros Ho H. by apply parse_loop_spec; [done|lia|..]. Qed.

Lemma parse_encode_packets_witness :
  parse_gfx_compute_ib
    (encode_packets [PktPacked PKT3_SET_SH_REG_PAIRS_PACKED true [(0x8, 1); (0xa, 2)];
                     PktRaw PKT3_CLEAR_STATE [0];
                     PktSeq PKT3_SET_CONTEXT_REG false 0x200 0 [7; 8]]) skip_other
  = [(0xb020, 1); (0xb028, 2); (0x28800, 7); (0x28804, 8)].
Proof.
  rewrite parse_encode_packets; [vm_compute; reflexivity|apply skip_other_ok|].
  constructor; [|constructor; [|constructor; [|constructor]]]; simpl.
  - split; [eexists; reflexivity|]. split; [repeat constructor; simpl; lia|].
    split; [lia|]. by exists 1%nat.
  - split; [reflexivity|lia].
  - split; [eexists; reflexivity|]. lia.
Defined.

(** ** The register file *)

(** The registers after a sequence of writes. *)
Definition reg_file (m : gmap Z Z) (ws : list write) : gmap Z Z :=
  foldl (fun m w => <[w.1 := w.2]> m) m ws.

Lemma reg_file_app m a b : reg_file m (a ++ b) = reg_file (reg_file m a) b.
Proof. apply foldl_app. Qed.

Lemma reg_file_lookup_ne m ws r : r ∉ ws.*1 -> reg_file m ws !! r = m !! r.
Proof.
  revert m. induction ws as [|[r' v] ws IH]; intros m Hr; [done|].
  apply not_elem_of_cons in Hr as [Hne Hr]. simpl. rewrite IH by done.
  by rewrite lookup_insert_ne.
Qed.

(** Writing the first register of distinct ones again changes nothing. *)
Lemma reg_file_pad m w ws :
  w.1 ∉ ws.*1 -> reg_file m ((w :: ws) ++ [w]) = reg_file m (w :: ws).
Proof.
  intros Hw. rewrite reg_file_app. simpl. apply insert_id.
  rewrite reg_file_lookup_ne by done. apply lookup_insert_eq.
Qed.

Lemma reg_file_lookup m ws r v :
  NoDup ws.*1 -> (r, v) ∈ ws -> reg_file m ws !! r = Some v.
Proof.
  revert m. induction ws as [|[r' v'] ws IH]; intros m Hnd Hin; [by inversion Hin|].
  inversion Hnd as [|? ? Hni Hnd']; subst. apply elem_of_cons in Hin as [[= -> ->]|Hin]; simpl.
  - rewrite reg_file_lookup_ne by done. apply lookup_insert_eq.
  - by apply IH.
Qed.

(** Writes of values the registers already have change nothing. *)
Lemma reg_file_id m ws : (forall w, w ∈ ws -> m !! w.1 = Some w.2) -> reg_file m ws = m.
Proof.
  induction ws as [|w ws IH]; intros H; [done|]. simpl. rewrite insert_id by (apply H; by left).
  apply IH. intros w' Hw'. apply H. by right.
Qed.
