(* ===== verification/Pm4.v ===== *)
(** The PM4 state builder ([ac_pm4.c], [ac_pm4.h]): a buffer of packets that the
    driver fills one register at a time ([ac_pm4_set_reg]) and later copies into a
    command buffer.  Consecutive writes are merged into one packet, or packed into
    register pairs where the firmware has such packets, and [ac_pm4_finalize] turns
    a packed packet of consecutive registers back into the shorter form. *)

From stdpp Require Import strings.
From S2P Require Import Prelude.
From S2P Require Import TitanRegMap.
From S2P Require Import Packets.

(** ** Data *)

(** [enum amd_gfx_level], in its order. *)
Inductive amd_gfx_level : Set :=
| CLASS_UNKNOWN | R300 | R400 | R500 | R600 | R700 | EVERGREEN | CAYMAN
| GFX6 | GFX7 | GFX8 | GFX9 | GFX10 | GFX10_3 | GFX11 | GFX11_5 | GFX11_7 | GFX12 | GFX12_1.

Definition gfx_rank (g : amd_gfx_level) : Z :=
  match g with
  | CLASS_UNKNOWN => 0 | R300 => 1 | R400 => 2 | R500 => 3 | R600 => 4 | R700 => 5
  | EVERGREEN => 6 | CAYMAN => 7 | GFX6 => 8 | GFX7 => 9 | GFX8 => 10 | GFX9 => 11
  | GFX10 => 12 | GFX10_3 => 13 | GFX11 => 14 | GFX11_5 => 15 | GFX11_7 => 16
  | GFX12 => 17 | GFX12_1 => 18
  end.

Definition gfx_le (a b : amd_gfx_level) : bool := gfx_rank a <=? gfx_rank b.

(** The fields of [struct radeon_info] the builder reads. *)
Record radeon_info : Type := {
  gfx_level : amd_gfx_level;
  has_set_context_pairs_packed : bool;
  has_set_context_pairs : bool;
  has_set_sh_pairs_packed : bool;
  has_set_sh_pairs : bool;
  has_set_uconfig_pairs : bool
}.

(** [struct ac_pm4_state].  [pm4] is the whole array, [max_dw] dwords long. *)
Record ac_pm4_state : Type := mk_pm4 {
  info : radeon_info;
  last_reg : Z;
  last_pm4 : Z;
  ndw : Z;
  last_opcode : Z;
  last_idx : Z;
  is_compute_queue : bool;
  packed_is_padded : bool;
  max_dw : Z;
  debug_sqtt : bool;
  spi_shader_pgm_lo_reg : Z;
  pm4 : list Z
}.

Definition set_pm4 (s : ac_pm4_state) (l : list Z) : ac_pm4_state :=
  mk_pm4 (info s) (last_reg s) (last_pm4 s) (ndw s) (last_opcode s) (last_idx s)
    (is_compute_queue s) (packed_is_padded s) (max_dw s) (debug_sqtt s)
    (spi_shader_pgm_lo_reg s) l.

Definition set_ndw (s : ac_pm4_state) (n : Z) : ac_pm4_state :=
  mk_pm4 (info s) (last_reg s) (last_pm4 s) (u16 n) (last_opcode s) (last_idx s)
    (is_compute_queue s) (packed_is_padded s) (max_dw s) (debug_sqtt s)
    (spi_shader_pgm_lo_reg s) (pm4 s).

Definition set_last_opcode (s : ac_pm4_state) (op : Z) : ac_pm4_state :=
  mk_pm4 (info s) (last_reg s) (last_pm4 s) (ndw s) (u8 op) (last_idx s)
    (is_compute_queue s) (packed_is_padded s) (max_dw s) (debug_sqtt s)
    (spi_shader_pgm_lo_reg s) (pm4 s).

Definition set_last_pm4 (s : ac_pm4_state) (n : Z) : ac_pm4_state :=
  mk_pm4 (info s) (last_reg s) (u16 n) (ndw s) (last_opcode s) (last_idx s)
    (is_compute_queue s) (packed_is_padded s) (max_dw s) (debug_sqtt s)
    (spi_shader_pgm_lo_reg s) (pm4 s).

Definition set_last_reg_idx (s : ac_pm4_state) (reg idx : Z) : ac_pm4_state :=
  mk_pm4 (info s) (u16 reg) (last_pm4 s) (ndw s) (last_opcode s) (u8 idx)
    (is_compute_queue s) (packed_is_padded s) (max_dw s) (debug_sqtt s)
    (spi_shader_pgm_lo_reg s) (pm4 s).

Definition set_padded (s : ac_pm4_state) (b : bool) : ac_pm4_state :=
  mk_pm4 (info s) (last_reg s) (last_pm4 s) (ndw s) (last_opcode s) (last_idx s)
    (is_compute_queue s) b (max_dw s) (debug_sqtt s) (spi_shader_pgm_lo_reg s) (pm4 s).

Definition set_pgm_lo (s : ac_pm4_state) (reg : Z) : ac_pm4_state :=
  mk_pm4 (info s) (last_reg s) (last_pm4 s) (ndw s) (last_opcode s) (last_idx s)
    (is_compute_queue s) (packed_is_padded s) (max_dw s) (debug_sqtt s) reg (pm4 s).

(** [state->pm4[i] = v]. *)
Definition write_dw (s : ac_pm4_state) (i v : Z) : res ac_pm4_state :=
  let* l := arr_set (pm4 s) i (u32 v) in Ok (set_pm4 s l).

(** [state->pm4[state->ndw++] = v]. *)
Definition push_dw (s : ac_pm4_state) (v : Z) : res ac_pm4_state :=
  let* s1 := write_dw s (ndw s) v in Ok (set_ndw s1 (ndw s1 + 1)).

(** ** Opcode classes *)

Definition opcode_is_pairs (opcode : Z) : bool :=
  (opcode =? PKT3_SET_CONTEXT_REG_PAIRS) || (opcode =? PKT3_SET_SH_REG_PAIRS) ||
  (opcode =? PKT3_SET_UCONFIG_REG_PAIRS).

Definition opcode_is_pairs_packed (opcode : Z) : bool :=
  (opcode =? PKT3_SET_CONTEXT_REG_PAIRS_PACKED) || (opcode =? PKT3_SET_SH_REG_PAIRS_PACKED) ||
  (opcode =? PKT3_SET_SH_REG_PAIRS_PACKED_N).

Definition privileged_on (g : amd_gfx_level) (reg : Z) : bool :=
  if gfx_le GFX10 g && gfx_le g GFX10_3 then
    (reg =? 0x8D04) || (reg =? 0x8D00) || (reg =? 0x8D14) || (reg =? 0x8D18) || (reg =? 0x8D1C)
  else if gfx_le GFX6 g && gfx_le g GFX8 then reg =? 0x9100
  else false.

Definition is_privileged_reg (s : ac_pm4_state) (reg : Z) : bool :=
  privileged_on (gfx_level (info s)) reg.

Definition pairs_packed_opcode_to_regular (opcode : Z) : res Z :=
  if opcode =? PKT3_SET_CONTEXT_REG_PAIRS_PACKED then Ok PKT3_SET_CONTEXT_REG
  else if opcode =? PKT3_SET_SH_REG_PAIRS_PACKED then Ok PKT3_SET_SH_REG
  else Fault AssertFail. (* UNREACHABLE *)

Definition pairs_opcode (i : radeon_info) (opcode : Z) : Z :=
  if opcode =? PKT3_SET_CONTEXT_REG then
    if has_set_context_pairs_packed i then PKT3_SET_CONTEXT_REG_PAIRS_PACKED
    else if has_set_context_pairs i then PKT3_SET_CONTEXT_REG_PAIRS else opcode
  else if opcode =? PKT3_SET_SH_REG then
    if has_set_sh_pairs_packed i then PKT3_SET_SH_REG_PAIRS_PACKED
    else if has_set_sh_pairs i then PKT3_SET_SH_REG_PAIRS else opcode
  else if opcode =? PKT3_SET_UCONFIG_REG then
    if has_set_uconfig_pairs i then PKT3_SET_UCONFIG_REG_PAIRS else opcode
  else opcode.

Definition regular_opcode_to_pairs (s : ac_pm4_state) (opcode : Z) : Z :=
  pairs_opcode (info s) opcode.

(** ** Reading a packed packet *)

(** [(state->ndw - state->last_pm4) % 3], an [int] remainder. *)
Definition packed_phase (s : ac_pm4_state) : Z := Z.rem (ndw s - last_pm4 s) 3.

Definition packed_next_is_reg_offset_pair (s : ac_pm4_state) : bool := packed_phase s =? 2.
Definition packed_next_is_reg_value1 (s : ac_pm4_state) : bool := packed_phase s =? 1.
Definition packed_prev_is_reg_value0 (s : ac_pm4_state) : bool := packed_next_is_reg_value1 s.

Definition get_packed_reg_dw_offsetN (s : ac_pm4_state) (index : Z) : res Z :=
  let i := last_pm4 s + 2 + (index / 2) * 3 in
  assert! i <? ndw s in
  let* v := arr_get (pm4 s) i in
  Ok (Z.land (Z.shiftr v ((index mod 2) * 16)) 0xffff).

Definition get_packed_reg_valueN_idx (s : ac_pm4_state) (index : Z) : res Z :=
  let i := last_pm4 s + 2 + (index / 2) * 3 + 1 + (index mod 2) in
  assert! i <? ndw s in Ok i.

Definition get_packed_reg_valueN (s : ac_pm4_state) (index : Z) : res Z :=
  let* i := get_packed_reg_valueN_idx s index in arr_get (pm4 s) i.

Definition get_packed_reg_count (s : ac_pm4_state) : res Z :=
  let body_size := ndw s - last_pm4 s - 2 in
  assert! (0 <? body_size) && (Z.rem body_size 3 =? 0) in
  Ok ((body_size / 3) * 2).

Section Builder.
(** Whether the name the generated register table has for a byte address contains
    "SPI_SHADER_PGM_LO_". *)
Context (is_pgm_lo : Z -> bool).

(** [for (i = 1; i < reg_count; i++)]: whether all offsets are consecutive. *)
Fixpoint consecutive_loop (s : ac_pm4_state) (off0 i : Z) (n : nat) : res bool :=
  match n with
  | O => Ok true
  | S n' =>
      let* off := get_packed_reg_dw_offsetN s i in
      if negb (off0 =? u32 (off - i)) then Ok false else consecutive_loop s off0 (i + 1) n'
  end.

(** [for (i = 0; i < reg_count; i++) pm4[last_pm4 + 2 + i] = valueN(i)]. *)
Fixpoint unpack_loop (s : ac_pm4_state) (i : Z) (n : nat) : res ac_pm4_state :=
  match n with
  | O => Ok s
  | S n' =>
      let* v := get_packed_reg_valueN s i in
      let* s1 := write_dw s (last_pm4 s + 2 + i) v in
      unpack_loop s1 (i + 1) n'
  end.

(** The searches for the shader address register under [debug_sqtt]: downwards over a
    packed packet, upwards over a run and over pairs. *)
Fixpoint find_pgm_lo_packed (s : ac_pm4_state) (n : nat) : res ac_pm4_state :=
  match n with
  | O => Ok s
  | S n' =>
      let* off := get_packed_reg_dw_offsetN s (Z.of_nat n') in
      let reg := u32 (SI_SH_REG_OFFSET + off * 4) in
      if is_pgm_lo reg then Ok (set_pgm_lo s reg) else find_pgm_lo_packed s n'
  end.

Fixpoint find_pgm_lo_seq (s : ac_pm4_state) (base i : Z) (n : nat) : ac_pm4_state :=
  match n with
  | O => s
  | S n' =>
      let reg := u32 (base + i * 4) in
      if is_pgm_lo reg then set_pgm_lo s reg else find_pgm_lo_seq s base (i + 1) n'
  end.

Fixpoint find_pgm_lo_pairs (s : ac_pm4_state) (i : Z) (n : nat) : res ac_pm4_state :=
  match n with
  | O => Ok s
  | S n' =>
      let* off := arr_get (pm4 s) (last_pm4 s + 1 + 2 * i) in
      let reg := u32 (SI_SH_REG_OFFSET + off * 4) in
      if is_pgm_lo reg then Ok (set_pgm_lo s reg) else find_pgm_lo_pairs s (i + 1) n'
  end.

(** The first block of [ac_pm4_finalize]: a packed packet. *)
Definition finalize_packed (s : ac_pm4_state) : res ac_pm4_state :=
  let* reg_count0 := get_packed_reg_count s in
  let* off0 := get_packed_reg_dw_offsetN s 0 in
  let reg_count := if packed_is_padded s then reg_count0 - 1 else reg_count0 in
  let* all_consecutive := consecutive_loop s off0 1 (Z.to_nat (reg_count - 1)) in
  if all_consecutive then
    assert! (ndw s - last_pm4 s =? 2 + 3 * (reg_count + Z.b2z (packed_is_padded s)) / 2) in
    let* op := pairs_packed_opcode_to_regular (last_opcode s) in
    let* s1 := write_dw s (last_pm4 s) (PKT3 op reg_count 0) in
    let* s2 := write_dw s1 (last_pm4 s1 + 1) off0 in
    let* s3 := unpack_loop s2 0 (Z.to_nat reg_count) in
    Ok (set_last_opcode (set_ndw s3 (last_pm4 s3 + 2 + reg_count)) PKT3_SET_SH_REG)
  else
    let sh := (last_opcode s =? PKT3_SET_SH_REG_PAIRS_PACKED) ||
              (last_opcode s =? PKT3_SET_SH_REG_PAIRS_PACKED_N) in
    let reg_count1 := if debug_sqtt s && sh && packed_is_padded s then reg_count + 1
                      else reg_count in
    let* s1 := if debug_sqtt s && sh then find_pgm_lo_packed s (Z.to_nat reg_count1) else Ok s in
    if (last_opcode s1 =? PKT3_SET_SH_REG_PAIRS_PACKED) && (reg_count1 <=? 14) then
      let* h := arr_get (pm4 s1) (last_pm4 s1) in
      write_dw s1 (last_pm4 s1)
        (Z.lor (Z.land h PKT3_IT_OPCODE_C) (PKT3_IT_OPCODE_S PKT3_SET_SH_REG_PAIRS_PACKED_N))
    else Ok s1.

Definition ac_pm4_finalize (s : ac_pm4_state) : res ac_pm4_state :=
  let* s1 := if opcode_is_pairs_packed (last_opcode s) then finalize_packed s else Ok s in
  let* s2 :=
    if debug_sqtt s1 && (last_opcode s1 =? PKT3_SET_SH_REG) then
      let* h := arr_get (pm4 s1) (last_pm4 s1) in
      let* off := arr_get (pm4 s1) (last_pm4 s1 + 1) in
      Ok (find_pgm_lo_seq s1 (u32 (SI_SH_REG_OFFSET + off * 4)) 0 (Z.to_nat (PKT_COUNT_G h)))
    else Ok s1 in
  if debug_sqtt s2 && (last_opcode s2 =? PKT3_SET_SH_REG_PAIRS) then
    let* h := arr_get (pm4 s2) (last_pm4 s2) in
    find_pgm_lo_pairs s2 0 (Z.to_nat ((PKT_COUNT_G h + 1) / 2))
  else Ok s2.

Definition ac_pm4_cmd_begin (s : ac_pm4_state) (opcode : Z) : res ac_pm4_state :=
  let* s1 := ac_pm4_finalize s in
  assert! negb (max_dw s1 =? 0) in
  assert! ndw s1 <? max_dw s1 in
  assert! opcode <=? 254 in
  Ok (set_padded (set_ndw (set_last_pm4 (set_last_opcode s1 opcode) (ndw s1)) (ndw s1 + 1)) false).

Definition ac_pm4_cmd_add (s : ac_pm4_state) (dw : Z) : res ac_pm4_state :=
  assert! negb (max_dw s =? 0) in
  assert! ndw s <? max_dw s in
  let* s1 := push_dw s dw in Ok (set_last_opcode s1 255).

Definition need_reset_filter_cam (s : ac_pm4_state) : bool :=
  if negb (is_compute_queue s) &&
     (opcode_is_pairs (last_opcode s) || opcode_is_pairs_packed (last_opcode s))
  then true
  else
    let last := Z.shiftl (last_reg s) 2 + CIK_UCONFIG_REG_OFFSET in
    gfx_le GFX11 (gfx_level (info s)) && negb (is_compute_queue s) &&
    ((last =? 0x367A4) || (last =? 0x367A0) || (last =? 0x367B4) || (last =? 0x367B8) ||
     (last =? 0x367B0)).

(** [ac_pm4_set_reg_custom] up to its call of [ac_pm4_cmd_end]. *)
Definition set_reg_append (s : ac_pm4_state) (reg0 val opcode idx : Z) : res ac_pm4_state :=
  let is_packed := opcode_is_pairs_packed opcode in
  let reg := Z.shiftr reg0 2 in
  assert! negb (max_dw s =? 0) in
  assert! ndw s + 2 <=? max_dw s in
  let* s1 :=
    if is_packed then
      assert! idx =? 0 in
      if negb (opcode =? last_opcode s) then
        let* s1 := ac_pm4_cmd_begin s opcode in Ok (set_ndw s1 (ndw s1 + 1))
      else Ok s
    else if opcode_is_pairs opcode then
      assert! idx =? 0 in
      let* s1 := if negb (opcode =? last_opcode s) then ac_pm4_cmd_begin s opcode else Ok s in
      push_dw s1 reg
    else if negb (opcode =? last_opcode s) || negb (reg =? last_reg s + 1) ||
            negb (idx =? last_idx s) then
      let* s1 := ac_pm4_cmd_begin s opcode in
      push_dw s1 (Z.lor reg (u32 (Z.shiftl idx 28)))
    else Ok s in
  assert! reg <=? 0xffff in
  let s2 := set_last_reg_idx s1 reg idx in
  let* s3 :=
    if is_packed then
      let s2' := if packed_is_padded s2 then set_ndw (set_padded s2 false) (ndw s2 - 1) else s2 in
      if packed_next_is_reg_offset_pair s2' then push_dw s2' reg
      else if packed_next_is_reg_value1 s2' then
        let* v := arr_get (pm4 s2') (ndw s2' - 2) in
        let* s2a := write_dw s2' (ndw s2' - 2) (Z.land v 0x0000ffff) in
        let* v' := arr_get (pm4 s2a) (ndw s2a - 2) in
        write_dw s2a (ndw s2a - 2) (Z.lor v' (u32 (Z.shiftl reg 16)))
      else Ok s2'
    else Ok s2 in
  push_dw s3 val.

(** [ac_pm4_cmd_end] and [ac_pm4_set_reg_custom] call each other to append the padding of a
    packed packet; [fuel] bounds the depth. *)
Fixpoint cmd_end_rec (fuel : nat) (s : ac_pm4_state) (predicate : bool) : res ac_pm4_state :=
  match fuel with
  | O => Fault OutOfFuel
  | S fuel' =>
      let count := ndw s - last_pm4 s - 2 in
      let* s1 := write_dw s (last_pm4 s)
                   (Z.lor (PKT3 (last_opcode s) count (Z.b2z predicate))
                          (PKT3_RESET_FILTER_CAM_S (Z.b2z (need_reset_filter_cam s)))) in
      if opcode_is_pairs_packed (last_opcode s1) then
        let* s2 :=
          if packed_prev_is_reg_value0 s1 then
            let* off := get_packed_reg_dw_offsetN s1 0 in
            let* v := get_packed_reg_valueN s1 0 in
            let* s1a := set_reg_append s1 (off * 4) v (last_opcode s1) 0 in
            let* s1b := cmd_end_rec fuel' s1a false in
            Ok (set_padded s1b true)
          else Ok s1 in
        let* n := get_packed_reg_count s2 in
        write_dw s2 (last_pm4 s2 + 1) n
      else Ok s1
  end.

Definition ac_pm4_cmd_end (s : ac_pm4_state) (predicate : bool) : res ac_pm4_state :=
  cmd_end_rec 2 s predicate.

Definition ac_pm4_set_reg_custom (s : ac_pm4_state) (reg val opcode idx : Z) : res ac_pm4_state :=
  let* s1 := set_reg_append s reg val opcode idx in ac_pm4_cmd_end s1 false.

Definition ac_pm4_set_privileged_reg (s : ac_pm4_state) (reg val : Z) : res ac_pm4_state :=
  assert! (SI_CONFIG_REG_OFFSET <=? reg) && (reg <? SI_CONFIG_REG_END) in
  let* s1 := ac_pm4_cmd_add s (PKT3 PKT3_COPY_DATA 4 0) in
  (* COPY_DATA_SRC_SEL(COPY_DATA_IMM) | COPY_DATA_DST_SEL(COPY_DATA_PERF) *)
  let* s2 := ac_pm4_cmd_add s1 (Z.lor (Z.land 5 0xf) (Z.shiftl (Z.land 4 0xf) 8)) in
  let* s3 := ac_pm4_cmd_add s2 val in
  let* s4 := ac_pm4_cmd_add s3 0 in
  let* s5 := ac_pm4_cmd_add s4 (Z.shiftr reg 2) in
  ac_pm4_cmd_add s5 0.

(** The register space of a byte address: the regular opcode and the offset in the space. *)
Definition reg_space (reg : Z) : option (Z * Z) :=
  if (SI_CONFIG_REG_OFFSET <=? reg) && (reg <? SI_CONFIG_REG_END)
  then Some (PKT3_SET_CONFIG_REG, reg - SI_CONFIG_REG_OFFSET)
  else if (SI_SH_REG_OFFSET <=? reg) && (reg <? SI_SH_REG_END)
  then Some (PKT3_SET_SH_REG, reg - SI_SH_REG_OFFSET)
  else if (SI_CONTEXT_REG_OFFSET <=? reg) && (reg <? SI_CONTEXT_REG_END)
  then Some (PKT3_SET_CONTEXT_REG, reg - SI_CONTEXT_REG_OFFSET)
  else if (CIK_UCONFIG_REG_OFFSET <=? reg) && (reg <? CIK_UCONFIG_REG_END)
  then Some (PKT3_SET_UCONFIG_REG, reg - CIK_UCONFIG_REG_OFFSET)
  else None.

(** The TITAN map as [ac_pm4_set_reg] applies it: context and SH only. *)
Definition preamble_reg (getenv : string -> option string) (t : titan) (opcode reg : Z)
  : titan * Z :=
  if regmap_active t && ac_titan_preamble_remap getenv then
    if opcode =? PKT3_SET_CONTEXT_REG then
      let '(t', d) := ac_titan_remap_dw getenv t SI_CONTEXT_REG_OFFSET (Z.shiftr reg 2) in
      (t', u32 (Z.shiftl d 2))
    else if opcode =? PKT3_SET_SH_REG then
      let '(t', d) := ac_titan_remap_dw getenv t SI_SH_REG_OFFSET (Z.shiftr reg 2) in
      (t', u32 (Z.shiftl d 2))
    else (t, reg)
  else (t, reg).

Definition ac_pm4_set_reg (getenv : string -> option string) (t : titan) (s : ac_pm4_state)
    (original_reg val : Z) : res (titan * ac_pm4_state) :=
  match reg_space original_reg with
  | None => Ok (t, s) (* "Invalid register offset" *)
  | Some (opcode0, reg0) =>
      let '(t', reg) := preamble_reg getenv t opcode0 reg0 in
      if is_privileged_reg s original_reg then
        let* s' := ac_pm4_set_privileged_reg s original_reg val in Ok (t', s')
      else
        let opcode := regular_opcode_to_pairs s opcode0 in
        let* s' := ac_pm4_set_reg_custom s reg val opcode 0 in Ok (t', s')
  end.

Definition PM4_ARRAY_SIZE : Z := 64.

Definition ac_pm4_clear_state (s : ac_pm4_state) (i : radeon_info) (sqtt compute : bool)
  : ac_pm4_state :=
  mk_pm4 i (last_reg s) (last_pm4 s) 0 (last_opcode s) (last_idx s) compute
    (packed_is_padded s) (if max_dw s =? 0 then PM4_ARRAY_SIZE else max_dw s) sqtt
    (spi_shader_pgm_lo_reg s) (pm4 s).

(** [ac_pm4_create_sized] after a successful [calloc]; [max_dw] is a [uint16_t] field. *)
Definition ac_pm4_create_sized (i : radeon_info) (sqtt : bool) (max_dw0 : Z) (compute : bool)
  : ac_pm4_state :=
  let m := Z.max max_dw0 PM4_ARRAY_SIZE in
  ac_pm4_clear_state
    (mk_pm4 i 0 0 0 0 0 false false (u16 m) false 0 (replicate (Z.to_nat m) 0)) i sqtt compute.

(** ** Sequences of calls *)

(** A call of [ac_pm4_set_reg], or a run of [ac_pm4_cmd_add] that builds one packet. *)
Inductive pm4_op : Type :=
| SetReg (reg val : Z)
| CmdAdds (dws : list Z).

Fixpoint cmd_adds (s : ac_pm4_state) (dws : list Z) : res ac_pm4_state :=
  match dws with
  | [] => Ok s
  | dw :: dws' => let* s1 := ac_pm4_cmd_add s dw in cmd_adds s1 dws'
  end.

(** [val] is passed as a [uint32_t]. *)
Definition run_op (getenv : string -> option string) (t : titan) (s : ac_pm4_state) (o : pm4_op)
  : res (titan * ac_pm4_state) :=
  match o with
  | SetReg reg val => ac_pm4_set_reg getenv t s reg (u32 val)
  | CmdAdds dws => let* s1 := cmd_adds s dws in Ok (t, s1)
  end.

Fixpoint run_ops (getenv : string -> option string) (t : titan) (s : ac_pm4_state)
    (os : list pm4_op) : res (titan * ac_pm4_state) :=
  match os with
  | [] => Ok (t, s)
  | o :: os' => let* r := run_op getenv t s o in run_ops getenv (fst r) (snd r) os'
  end.

(** The calls on a state, which is then closed or not. *)
Definition build (getenv : string -> option string) (t : titan) (s : ac_pm4_state)
    (os : list pm4_op) (finalize : bool) : res (titan * ac_pm4_state) :=
  let* r := run_ops getenv t s os in
  let* s' := if finalize then ac_pm4_finalize (snd r) else Ok (snd r) in
  Ok (fst r, s').

End Builder.
