(* ===== verification/Pm4Proofs.v ===== *)
(** Correctness of the PM4 builder: a state filled by [ac_pm4_set_reg_custom] and closed by
    [ac_pm4_finalize] holds well-formed packets, and the IB parser reads the register writes
    back out of it. *)

From stdpp Require Import strings.
From S2P Require Import Prelude.
From S2P Require Import TitanRegMap.
From S2P Require Import Packets.
From S2P Require Import Pm4.

(** ** The buffer of a state

[at_buf s l junk] is [s] with a buffer whose first [ndw] dwords are [l] and whose unused
tail is [junk]. *)

Definition at_buf (s : ac_pm4_state) (l junk : list Z) : ac_pm4_state :=
  mk_pm4 (info s) (last_reg s) (last_pm4 s) (Z.of_nat (length l)) (last_opcode s) (last_idx s)
    (is_compute_queue s) (packed_is_padded s) (max_dw s) (debug_sqtt s)
    (spi_shader_pgm_lo_reg s) (l ++ junk).

Abbreviation fits l := (Z.of_nat (length l) < 2 ^ 16).

Lemma arr_get_app {A} (a : list A) x b i :
  i = Z.of_nat (length a) -> arr_get (a ++ x :: b) i = Ok x.
Proof. intros ->. apply arr_get_nth. by rewrite list_lookup_middle. Qed.

Lemma arr_set_app {A} (a : list A) x b i y :
  i = Z.of_nat (length a) -> arr_set (a ++ x :: b) i y = Ok (a ++ y :: b).
Proof.
  intros ->. apply arr_set_ok. rewrite length_app. cbn [length]. split; [lia|].
  rewrite Nat2Z.id, insert_app_r_alt, Nat.sub_diag by lia. done.
Qed.

Lemma write_dw_at s a x b junk i v :
  i = Z.of_nat (length a) ->
  write_dw (at_buf s (a ++ x :: b) junk) i v = Ok (at_buf s (a ++ u32 v :: b) junk).
Proof.
  intros Hi. unfold write_dw. cbn [pm4 at_buf]. rewrite <- (assoc_L app). cbn [app].
  rewrite (arr_set_app _ _ _ _ _ Hi). cbn [res_bind]. unfold set_pm4, at_buf. simpl.
  rewrite !length_app. cbn [length]. rewrite <- (assoc_L app). done.
Qed.

Lemma write_dw_at2 s a x y b junk i v :
  i = Z.of_nat (length a) + 1 ->
  write_dw (at_buf s (a ++ x :: y :: b) junk) i v = Ok (at_buf s (a ++ x :: u32 v :: b) junk).
Proof.
  intros Hi. rewrite (cons_middle x), (assoc_L app).
  rewrite write_dw_at by (rewrite length_app; simpl; lia). by rewrite <- (assoc_L app).
Qed.

Lemma set_ndw_grow s l x junk :
  fits (x :: l) ->
  set_ndw (at_buf s l (x :: junk)) (ndw (at_buf s l (x :: junk)) + 1) = at_buf s (l ++ [x]) junk.
Proof.
  intros Hf. unfold set_ndw, at_buf. cbn -[u16 Z.of_nat]. rewrite <- (assoc_L app).
  rewrite length_app, u16_small; cbn [length] in *; [|unfold in_u16; lia].
  f_equal. lia.
Qed.

Lemma set_ndw_shrink s l x junk :
  fits (x :: l) ->
  set_ndw (at_buf s (l ++ [x]) junk) (ndw (at_buf s (l ++ [x]) junk) - 1) = at_buf s l (x :: junk).
Proof.
  intros Hf. unfold set_ndw, at_buf. cbn -[u16 Z.of_nat]. rewrite <- (assoc_L app).
  rewrite length_app, u16_small; cbn [length] in *; [|unfold in_u16; lia].
  f_equal. lia.
Qed.

Lemma push_dw_at s l x junk v :
  fits (x :: l) -> push_dw (at_buf s l (x :: junk)) v = Ok (at_buf s (l ++ [u32 v]) junk).
Proof.
  intros Hf. unfold push_dw, write_dw. cbn [pm4 ndw at_buf].
  rewrite arr_set_app by done. cbn [res_bind]. f_equal.
  change (set_pm4 _ _) with (at_buf s l (u32 v :: junk)). by apply set_ndw_grow.
Qed.

(** A state is its own view. *)
Lemma at_buf_intro s l junk :
  pm4 s = l ++ junk -> ndw s = Z.of_nat (length l) -> s = at_buf s l junk.
Proof. destruct s; unfold at_buf; simpl. by intros -> ->. Qed.

(** ** Packed bodies *)

Lemma packed_body_app a b :
  Nat.Even (length a) -> packed_body (a ++ b) = packed_body a ++ packed_body b.
Proof.
  intros [m Hm]. revert a Hm. induction m as [|m IH]; intros a Hm; [by destruct a|].
  destruct a as [|[r0 v0] [|[r1 v1] a]]; simpl in Hm; [lia|lia|].
  simpl. rewrite IH by lia. done.
Qed.

(** An odd list is an even one and a last write. *)
Lemma odd_snoc {A} (ws : list A) :
  Nat.Odd (length ws) -> exists ws' w, ws = ws' ++ [w] /\ Nat.Even (length ws').
Proof.
  intros [m Hm]. destruct ws as [|w ws' _] using rev_ind; [simpl in Hm; lia|].
  exists ws', w. split; [done|]. rewrite length_app in Hm. simpl in Hm. exists m. lia.
Qed.

Lemma length_packed_body_odd ws :
  Nat.Odd (length ws) ->
  Z.of_nat (length (packed_body ws)) = 3 * (Z.of_nat (length ws) / 2) + 2.
Proof.
  intros Ho. destruct (odd_snoc ws Ho) as (ws' & [r v] & -> & He).
  rewrite packed_body_app, !length_app by done. rewrite Nat2Z.inj_add, length_packed_body by done.
  destruct He as [m Hm]. simpl. zdivmod.
Qed.

Lemma lookup_app_plus2 {A} (a b : list A) x y n :
  (a ++ x :: y :: b) !! (length a + (2 + n))%nat = b !! n.
Proof. rewrite lookup_app_r by lia. by replace (_ - _)%nat with (S (S n)) by lia. Qed.

(** The value of register [i] and the dword with its offset, in a packed body. *)
Lemma packed_body_lookup ws i r v :
  Forall off_ok ws -> ws !! i = Some (r, v) ->
  packed_body ws !! (3 * (i / 2) + 1 + i mod 2)%nat = Some v /\
  exists d, packed_body ws !! (3 * (i / 2))%nat = Some d /\
    Z.land (Z.shiftr d (Z.of_nat i mod 2 * 16)) 0xffff = r.
Proof.
  revert ws. induction i as [i IH] using lt_wf_ind. intros ws Hf Hi.
  destruct ws as [|[r0 v0] [|[r1 v1] ws]].
  - done.
  - destruct i as [|i]; simplify_eq/=. split; [done|]. eexists; split; [done|].
    inversion Hf as [|? ? Hr ?]; subst. unfold off_ok in Hr; simpl in Hr.
    rewrite (land_mask_mod _ 16), Z.mod_small by (done || lia). done.
  - inversion Hf as [|? ? Hr0 Hf1]; subst. inversion Hf1 as [|? ? Hr1 Hf2]; subst.
    unfold off_ok in Hr0, Hr1; simpl in Hr0, Hr1.
    destruct i as [|[|i]]; [simplify_eq/=..|].
    + split; [done|]. eexists; split; [done|]. change (Z.of_nat 0 mod 2 * 16) with 0.
      rewrite Z.shiftr_0_r, (land_mask_mod _ 16) by (done || lia). zdivmod.
    + split; [done|]. eexists; split; [done|]. change (Z.of_nat 1 mod 2 * 16) with 16.
      rewrite (land_mask_mod _ 16), shiftr_div by (done || lia). zdivmod.
    + destruct (IH i ltac:(lia) ws Hf2 Hi) as (H1 & d & H2 & H3). cbn [packed_body].
      replace (3 * (S (S i) / 2))%nat with (S (S (S (3 * (i / 2))))) by zdivmod.
      replace (S (S i) mod 2)%nat with (i mod 2)%nat by zdivmod.
      replace (Z.of_nat (S (S i)) mod 2) with (Z.of_nat i mod 2) by zdivmod. simpl.
      split; [exact H1|]. exists d. split; [exact H2|exact H3].
Qed.

Section Packed.
Context (s : ac_pm4_state) (pre : list Z) (h c : Z) (ws : list (Z * Z)) (junk : list Z).
Context (Hlast : last_pm4 s = Z.of_nat (length pre)).
Context (Hok : Forall off_ok ws).

Let st := at_buf s (pre ++ h :: c :: packed_body ws) junk.

Lemma packed_off_at i r v :
  ws !! i = Some (r, v) -> get_packed_reg_dw_offsetN st (Z.of_nat i) = Ok r.
Proof.
  intros Hi. destruct (packed_body_lookup ws i r v Hok Hi) as (_ & d & Hd & <-).
  pose proof (lookup_lt_Some _ _ _ Hd) as Hlt. unfold get_packed_reg_dw_offsetN, st.
  cbn [last_pm4 ndw pm4 at_buf]. rewrite Hlast, length_app. cbn [length].
  replace (Z.of_nat (length pre) + 2 + Z.of_nat i / 2 * 3)
    with (Z.of_nat (length pre + (2 + 3 * (i / 2)))) by zdivmod.
  step_assert; [|apply Z.ltb_lt; lia].
  rewrite <- (assoc_L app), (arr_get_nth _ _ d); [done|].
  cbn [app]. rewrite lookup_app_plus2. by apply lookup_app_l_Some.
Qed.

Lemma packed_val_at i r v :
  ws !! i = Some (r, v) -> get_packed_reg_valueN st (Z.of_nat i) = Ok v.
Proof.
  intros Hi. destruct (packed_body_lookup ws i r v Hok Hi) as (Hd & _).
  pose proof (lookup_lt_Some _ _ _ Hd) as Hlt.
  unfold get_packed_reg_valueN, get_packed_reg_valueN_idx, st.
  cbn [last_pm4 ndw pm4 at_buf]. rewrite Hlast, length_app. cbn [length].
  replace (Z.of_nat (length pre) + 2 + Z.of_nat i / 2 * 3 + 1 + Z.of_nat i mod 2)
    with (Z.of_nat (length pre + (2 + (3 * (i / 2) + 1 + i mod 2)))) by zdivmod.
  step_assert; [|apply Z.ltb_lt; lia]. cbn [res_bind].
  rewrite <- (assoc_L app), (arr_get_nth _ _ v); [done|].
  cbn [app]. rewrite lookup_app_plus2. by apply lookup_app_l_Some.
Qed.

Lemma packed_count_at :
  Nat.Even (length ws) -> ws <> [] -> get_packed_reg_count st = Ok (Z.of_nat (length ws)).
Proof.
  intros He Hne. pose proof (length_packed_body ws He) as Hl. destruct He as [m Hm].
  assert (length ws <> 0%nat) by (by intros ?%nil_length_inv).
  unfold get_packed_reg_count, st. cbn [last_pm4 ndw at_buf]. rewrite Hlast, length_app. cbn [length].
  replace (Z.of_nat (length pre + S (S (length (packed_body ws)))) - Z.of_nat (length pre) - 2)
    with (Z.of_nat m * 3) by zdivmod.
  rewrite Z.rem_mul by lia. step_assert; [|apply andb_true_iff; split; [apply Z.ltb_lt; lia|done]].
  f_equal. rewrite Z.div_mul by lia. lia.
Qed.

Lemma packed_phase_even : Nat.Even (length ws) -> packed_phase st = 2.
Proof.
  intros He. pose proof (length_packed_body ws He). unfold packed_phase, st.
  cbn [last_pm4 ndw at_buf]. rewrite Hlast, length_app. cbn [length].
  rewrite Z.rem_mod_nonneg by lia. zdivmod.
Qed.

Lemma packed_phase_odd : Nat.Odd (length ws) -> packed_phase st = 1.
Proof.
  intros He. pose proof (length_packed_body_odd ws He). unfold packed_phase, st.
  cbn [last_pm4 ndw at_buf]. rewrite Hlast, length_app. cbn [length].
  rewrite Z.rem_mod_nonneg by lia. zdivmod.
Qed.
End Packed.

(** ** [ac_pm4_finalize] on a packed packet *)

Definition write_ok (w : Z * Z) : Prop := off_ok w /\ in_u32 w.2.

Lemma write_ok_off ws : Forall write_ok ws -> Forall off_ok ws.
Proof. intros H. apply (Forall_impl _ _ _ H). by intros w [? _]. Qed.

Lemma write_ok_vals ws : Forall write_ok ws -> Forall in_u32 ws.*2.
Proof. intros H. apply Forall_fmap. apply (Forall_impl _ _ _ H). by intros w [_ ?]. Qed.

Lemma length_packed_body_ge ws : (length ws <= length (packed_body ws))%nat.
Proof.
  destruct (Nat.Even_or_Odd (length ws)) as [He|Ho].
  - pose proof (length_packed_body ws He). destruct He. zdivmod.
  - pose proof (length_packed_body_odd ws Ho). destruct Ho. zdivmod.
Qed.

Section Finalize.
Context (s : ac_pm4_state) (pre : list Z) (ws : list (Z * Z)).
Context (Hlast : last_pm4 s = Z.of_nat (length pre)).
Context (Hok : Forall write_ok ws) (Hlen : Z.of_nat (length ws) < 2 ^ 16).

Lemma consecutive_loop_at h c junk off0 n i :
  (i + n <= length ws)%nat -> 0 <= off0 < 2 ^ 16 ->
  exists b, consecutive_loop (at_buf s (pre ++ h :: c :: packed_body ws) junk)
              off0 (Z.of_nat i) n = Ok b /\
    (b = true -> forall j r v, (i <= j < i + n)%nat -> ws !! j = Some (r, v) ->
       r = off0 + Z.of_nat j).
Proof.
  intros Hn Hoff. revert i Hn. induction n as [|n IH]; intros i Hn; cbn [consecutive_loop].
  { exists true. split; [done|]. intros _ j r v Hj. lia. }
  destruct (lookup_lt_is_Some_2 ws i) as [[r v] Hi]; [lia|].
  rewrite (packed_off_at _ _ _ _ _ _ Hlast (write_ok_off _ Hok) _ _ _ Hi). cbn [res_bind].
  pose proof (Forall_lookup_1 _ _ _ _ Hok Hi) as [Hr _]. unfold off_ok in Hr; simpl in Hr.
  destruct (Z.eqb_spec off0 (u32 (r - Z.of_nat i))) as [E|E]; cbn [negb].
  - destruct (IH (S i) ltac:(lia)) as (b & Hb & Hc).
    replace (Z.of_nat i + 1) with (Z.of_nat (S i)) by lia. exists b. split; [done|].
    intros Hbt j r' v' Hj Hl. destruct (decide (j = i)) as [->|Hne].
    + rewrite Hi in Hl. injection Hl as <- <-. unfold u32 in E. zdivmod.
    + apply (Hc Hbt j r' v'); [lia|done].
  - exists false. by split.
Qed.

Lemma unpack_loop_at h c junk n i :
  (i + n <= length ws)%nat ->
  unpack_loop (at_buf s (pre ++ h :: c :: take i ws.*2 ++ drop i (packed_body ws)) junk)
    (Z.of_nat i) n =
  Ok (at_buf s (pre ++ h :: c :: take (i + n) ws.*2 ++ drop (i + n) (packed_body ws)) junk).
Proof.
  revert i. induction n as [|n IH]; intros i Hn; cbn [unpack_loop].
  { by rewrite Nat.add_0_r. }
  destruct (lookup_lt_is_Some_2 ws i) as [[r v] Hi]; [lia|].
  destruct (packed_body_lookup ws i r v (write_ok_off _ Hok) Hi) as (Hv & _).
  pose proof (Forall_lookup_1 _ _ _ _ Hok Hi) as [_ Hv32]. simpl in Hv32.
  pose proof (lookup_lt_Some _ _ _ Hv) as Hlt.
  assert (length (take i ws.*2) = i) as Ht by (rewrite length_take, length_fmap; lia).
  assert (i <= 3 * (i / 2) + 1 + i mod 2)%nat as Hge by zdivmod.
  unfold get_packed_reg_valueN, get_packed_reg_valueN_idx.
  cbn [last_pm4 ndw pm4 at_buf]. rewrite Hlast, length_app. cbn [length].
  rewrite length_app, Ht, length_drop.
  replace (Z.of_nat (length pre) + 2 + Z.of_nat i / 2 * 3 + 1 + Z.of_nat i mod 2)
    with (Z.of_nat (length pre + (2 + (i + (3 * (i / 2) + 1 + i mod 2 - i))))) by zdivmod.
  step_assert; [|apply Z.ltb_lt; lia]. cbn [res_bind].
  rewrite <- (assoc_L app), (arr_get_nth _ _ v); cycle 1.
  { cbn [app]. rewrite lookup_app_plus2, <- (assoc_L app), lookup_app_r, Ht by lia.
    apply lookup_app_l_Some. rewrite lookup_drop, <- Hv. f_equal. lia. }
  cbn [res_bind].
  pose proof (length_packed_body_ge ws) as Hpb.
  destruct (drop i (packed_body ws)) as [|x rest] eqn:Ed.
  { apply (f_equal length) in Ed. rewrite length_drop in Ed. simpl in Ed. lia. }
  replace (pre ++ h :: c :: take i ws.*2 ++ x :: rest)
    with ((pre ++ h :: c :: take i ws.*2) ++ x :: rest) by (by rewrite <- (assoc_L app)).
  rewrite write_dw_at by (rewrite length_app; cbn [length]; lia). cbn [res_bind].
  rewrite u32_small by done.
  replace (Z.of_nat i + 1) with (Z.of_nat (S i)) by lia.
  replace (i + S n)%nat with (S i + n)%nat by lia. rewrite <- IH by lia. f_equal. f_equal.
  rewrite <- (assoc_L app). cbn [app]. f_equal. f_equal. f_equal.
  rewrite (take_S_r _ i v) by (by rewrite list_lookup_fmap, Hi).
  rewrite <- (assoc_L app). cbn [app]. f_equal. f_equal.
  replace (S i) with (i + 1)%nat by lia. by rewrite <- drop_drop, Ed.
Qed.

End Finalize.

(** ** Packets with padding

A packet and whether its last write is the padding that repeats its first one. *)

Definition logical (pp : packet * bool) : list write :=
  if pp.2 then removelast (packet_writes pp.1) else packet_writes pp.1.

Definition pad_ok (pp : packet * bool) : Prop :=
  pp.2 = true -> exists op cam w0 ws, pp.1 = PktPacked op cam (w0 :: ws ++ [w0]).

(** The fields no operation of the builder changes. *)
Definition same_conf (s s' : ac_pm4_state) : Prop :=
  info s' = info s /\ max_dw s' = max_dw s /\ is_compute_queue s' = is_compute_queue s.

(** Replacing the opcode of a header. *)
Lemma header_reop op op' count cam :
  0 <= op < 256 -> 0 <= op' < 256 -> 0 <= count < 0x4000 ->
  Z.lor (Z.land (pkt3_header op count cam) PKT3_IT_OPCODE_C) (PKT3_IT_OPCODE_S op') =
  pkt3_header op' count cam.
Proof.
  intros Hop Hop' Hc. unfold pkt3_header, PKT3. rewrite !Z.land_lor_distr_l.
  assert (Z.land (PKT_COUNT_S count) PKT3_IT_OPCODE_C = PKT_COUNT_S count) as ->.
  { rewrite (proj1 (proj2 (PKT_fields op count Hop Hc))).
    change PKT3_IT_OPCODE_C with (Z.lor (Z.shiftl 0xFFFF 16) 0xFF).
    rewrite Z.land_lor_distr_r, (land_mask_mod _ 8 0xFF) by (done || lia).
    replace (count * 2 ^ 16 mod 2 ^ 8) with 0 by zdivmod.
    rewrite <- (shiftl_mul count) by lia. rewrite <- Z.shiftl_land.
    rewrite (land_mask_mod _ 16), Z.mod_small by (done || lia). apply Z.lor_0_r. }
  assert (Z.land (PKT3_IT_OPCODE_S op) PKT3_IT_OPCODE_C = 0) as ->.
  { apply Z.eqb_eq. refine (forallb_seqZ (fun x => _ =? _) 0 256 op _ _); [|lia].
    vm_compute. reflexivity. }
  change (Z.land (PKT_TYPE_S 3) PKT3_IT_OPCODE_C) with (PKT_TYPE_S 3).
  change (PKT3_PREDICATE 0) with 0. rewrite Z.land_0_l, !Z.lor_0_r.
  replace (Z.land (PKT3_RESET_FILTER_CAM_S (Z.b2z cam)) PKT3_IT_OPCODE_C)
    with (PKT3_RESET_FILTER_CAM_S (Z.b2z cam)) by (destruct cam; reflexivity).
  rewrite <- !Z.lor_assoc. f_equal. f_equal. apply Z.lor_comm.
Qed.

(** Consecutive writes are the run of a SET packet. *)
Lemma consecutive_seq_ws off0 (ws : list (Z * Z)) :
  (forall j r v, ws !! j = Some (r, v) -> r = off0 + Z.of_nat j) -> seq_ws off0 ws.*2 = ws.
Proof.
  revert off0. induction ws as [|[r v] ws IH]; intros off0 H; [done|].
  rewrite fmap_cons, seq_ws_cons. rewrite (H 0%nat r v eq_refl). simpl. f_equal; [f_equal; lia|].
  apply IH. intros j r' v' Hj. rewrite (H (S j) r' v' Hj). lia.
Qed.

Lemma same_conf_refl s : same_conf s s.
Proof. done. Qed.
Lemma same_conf_trans s1 s2 s3 : same_conf s1 s2 -> same_conf s2 s3 -> same_conf s1 s3.
Proof. intros (A1 & B1 & C1) (A2 & B2 & C2). repeat split; congruence. Qed.
Create HintDb pm4.
#[export] Hint Resolve same_conf_refl : pm4.

Lemma removelast_snoc {A} (l : list A) x : removelast (l ++ [x]) = l.
Proof. rewrite removelast_app by done. simpl. apply app_nil_r. Qed.

Lemma writes_at_app b l1 l2 : writes_at b (l1 ++ l2) = writes_at b l1 ++ writes_at b l2.
Proof. apply fmap_app. Qed.

Lemma writes_at_snoc b l r v : writes_at b (l ++ [(r, v)]) = writes_at b l ++ [(b + 4 * r, v)].
Proof. apply writes_at_app. Qed.

(** The writes of a packed packet without its padding. *)
Definition unpadded (ws : list (Z * Z)) (pad : bool) : list (Z * Z) :=
  if pad then removelast ws else ws.

Lemma logical_packed op cam ws pad :
  pad_ok (PktPacked op cam ws, pad) ->
  logical (PktPacked op cam ws, pad) = writes_at (default 0 (packed_base op)) (unpadded ws pad) /\
  Z.of_nat (length (unpadded ws pad)) = Z.of_nat (length ws) - Z.b2z pad /\
  (exists rest, ws = unpadded ws pad ++ rest).
Proof.
  intros Hp. destruct pad; unfold logical, unpadded; simpl.
  - destruct (Hp eq_refl) as (op' & cam' & [r0 v0] & ws' & [= -> -> ->]).
    rewrite (app_comm_cons ws'), writes_at_snoc, !removelast_snoc, length_app. simpl.
    split; [done|]. split; [lia|]. by eexists.
  - split; [done|]. split; [lia|]. exists []. by rewrite app_nil_r.
Qed.

Section FinalizePacked.
Context (is_pgm_lo : Z -> bool).
Context (s : ac_pm4_state) (pre junk : list Z) (op : Z) (cam : bool) (ws : list (Z * Z)).
Context (Hlast : last_pm4 s = Z.of_nat (length pre)) (Hop : last_opcode s = op).
Context (Hpkt : packet_ok (PktPacked op cam ws)) (Hws : Forall write_ok ws).
Context (Hpad : pad_ok (PktPacked op cam ws, packed_is_padded s)).
Context (Hmain : op = PKT3_SET_CONTEXT_REG_PAIRS_PACKED \/ op = PKT3_SET_SH_REG_PAIRS_PACKED).
Context (Hfit : fits (pre ++ encode_packet (PktPacked op cam ws))).

Let body := encode_packet (PktPacked op cam ws).
Let st := at_buf s (pre ++ body) junk.
Let h := pkt3_header op (3 * (Z.of_nat (length ws) / 2)) cam.

(** What a finalized packed packet looks like. *)
Definition finalized (s' : ac_pm4_state) : Prop :=
  exists s1 p' pad' junk', s' = at_buf s1 (pre ++ encode_packet p') junk' /\
    packet_ok p' /\ pad_ok (p', pad') /\
    logical (p', pad') = logical (PktPacked op cam ws, packed_is_padded s) /\
    length (encode_packet p' ++ junk') = length (body ++ junk) /\
    (length (encode_packet p') <= length body)%nat /\
    last_pm4 s1 = last_pm4 s /\ same_conf s s1 /\ (pad' = true -> packed_is_padded s = true).

Lemma find_pgm_lo_packed_at n :
  (n <= length ws)%nat -> exists r, find_pgm_lo_packed is_pgm_lo st n = Ok (set_pgm_lo st r).
Proof.
  intros Hn. induction n as [|n IH]; cbn [find_pgm_lo_packed].
  { by exists (spi_shader_pgm_lo_reg st). }
  destruct (lookup_lt_is_Some_2 ws n) as [[r v] Hi]; [lia|].
  unfold st, body. cbn [encode_packet].
  rewrite (packed_off_at _ _ _ _ _ _ Hlast (write_ok_off _ Hws) _ _ _ Hi). cbn [res_bind].
  case_match; [by eexists|]. apply IH. lia.
Qed.

Let n := Z.of_nat (length (unpadded ws (packed_is_padded s))).

Lemma n_bounds :
  1 <= n /\ n = Z.of_nat (length ws) - Z.b2z (packed_is_padded s) /\
  n <= Z.of_nat (length ws) < 0x4000 /\ Nat.Even (length ws) /\
  Z.of_nat (length body) = 2 + 3 * (Z.of_nat (length ws) / 2).
Proof.
  destruct (logical_packed op cam ws _ Hpad) as (_ & Hn & _).
  destruct Hpkt as (_ & _ & Hl & He). unfold n, body. cbn [encode_packet length].
  rewrite !Nat2Z.inj_succ, length_packed_body by done. destruct He as [m Hm].
  destruct (packed_is_padded s); simpl in *; split_and!; try lia; by exists m.
Qed.

(** The unpacked packet the consecutive case writes. *)
(** Consecutive registers stay within 16-bit offsets. *)
Lemma consecutive_fits off0 v0 :
  ws !! 0%nat = Some (off0, v0) ->
  (forall j r v, (1 <= j < Z.to_nat n)%nat -> ws !! j = Some (r, v) -> r = off0 + Z.of_nat j) ->
  0 <= off0 /\ off0 + n <= 2 ^ 16.
Proof.
  intros H0 Hcons. destruct n_bounds as (Hn1 & Hn & Hnl & _).
  pose proof (Forall_lookup_1 _ _ _ _ Hws H0) as [Hoff _]. unfold off_ok in Hoff; simpl in Hoff.
  destruct (lookup_lt_is_Some_2 ws (Z.to_nat n - 1)) as [[r v] Hl]; [lia|].
  pose proof (Forall_lookup_1 _ _ _ _ Hws Hl) as [Hr _]. unfold off_ok in Hr; simpl in Hr.
  destruct (decide (n = 1)) as [E|E]; [lia|].
  rewrite (Hcons (Z.to_nat n - 1)%nat r v ltac:(lia) Hl) in Hr. lia.
Qed.

(** The encoding of the packet [ac_pm4_finalize] leaves. *)
Lemma encode_unpacked op' off0 vals :
  0 <= op' < 256 -> 0 <= off0 < 2 ^ 16 -> 0 < Z.of_nat (length vals) < 0x4000 ->
  encode_packet (PktSeq op' false off0 0 vals) =
    u32 (PKT3 op' (Z.of_nat (length vals)) 0) :: u32 off0 :: vals.
Proof.
  intros. cbn [encode_packet]. rewrite <- header_u32 by lia.
  unfold pkt3_header. change (PKT3_RESET_FILTER_CAM_S _) with 0.
  change (u32 (Z.shiftl 0 28)) with 0. rewrite !Z.lor_0_r.
  by rewrite (u32_small off0) by (unfold in_u32; lia).
Qed.

Lemma finalize_consecutive off0 v0 :
  ws !! 0%nat = Some (off0, v0) ->
  (forall j r v, (1 <= j < Z.to_nat n)%nat -> ws !! j = Some (r, v) -> r = off0 + Z.of_nat j) ->
  exists op', pairs_packed_opcode_to_regular op = Ok op' /\
  exists s', (let* s1 := write_dw st (last_pm4 st) (PKT3 op' n 0) in
     let* s2 := write_dw s1 (last_pm4 s1 + 1) off0 in
     let* s3 := unpack_loop s2 0 (Z.to_nat n) in
     Ok (set_last_opcode (set_ndw s3 (last_pm4 s3 + 2 + n)) PKT3_SET_SH_REG)) = Ok s' /\
  finalized s' /\ last_opcode s' = PKT3_SET_SH_REG.
Proof.
  intros H0 Hcons. destruct n_bounds as (Hn1 & Hn & Hnl & He & Hb).
  destruct (logical_packed op cam ws _ Hpad) as (Hlog & _ & rest & Hrest). fold n in Hlog.
  set (un := unpadded ws (packed_is_padded s)) in *.
  assert (Hseq : seq_ws off0 un.*2 = un).
  { apply consecutive_seq_ws. intros j r v Hj. pose proof (lookup_lt_Some _ _ _ Hj) as Hlt.
    assert (ws !! j = Some (r, v)) as Hj' by (rewrite Hrest; by apply lookup_app_l_Some).
    destruct j as [|j]; [rewrite H0 in Hj'; injection Hj' as <- <-; lia|].
    apply (Hcons _ r v); [unfold n; lia|done]. }
  destruct (consecutive_fits off0 v0 H0 Hcons) as [Hoff Hend].
  assert (exists op', pairs_packed_opcode_to_regular op = Ok op' /\ seq_base op' = packed_base op /\
    0 <= op' < 256 /\ is_Some (seq_base op')) as (op' & Eop & Ebase & Hop' & HS).
  { destruct Hmain as [-> | ->]; eexists; (split; [reflexivity|]); (split; [reflexivity|]);
      (split; [done|by eexists]). }
  exists op'. split; [done|].
  assert (Hun : take (Z.to_nat n) ws.*2 = un.*2).
  { rewrite Hrest at 1. rewrite fmap_app, take_app_length'; [done|].
    rewrite length_fmap. unfold n. lia. }
  eexists. split; [|split].
  - unfold st, body. cbn [encode_packet].
    rewrite write_dw_at by (cbn [last_pm4 at_buf]; done). cbn [res_bind last_pm4 at_buf].
    rewrite write_dw_at2 by lia. cbn [res_bind last_pm4 at_buf].
    pose proof (unpack_loop_at s pre ws Hlast Hws) as Hu.
    specialize (Hu (u32 (PKT3 op' n 0)) (u32 off0) junk (Z.to_nat n) 0%nat ltac:(lia)).
    rewrite take_0, drop_0 in Hu. rewrite app_nil_l, Nat.add_0_l in Hu. change (Z.of_nat 0) with 0 in Hu. rewrite Hu. cbn [res_bind]. reflexivity.
  - exists (set_last_opcode s PKT3_SET_SH_REG), (PktSeq op' false off0 0 un.*2), false,
      (drop (Z.to_nat n) (packed_body ws) ++ junk).
    assert (Henc : encode_packet (PktSeq op' false off0 0 un.*2) =
      u32 (PKT3 op' n 0) :: u32 off0 :: un.*2).
    { assert (Z.of_nat (length un.*2) = n) as El by (by rewrite length_fmap).
      rewrite encode_unpacked, El by (rewrite ?El; lia). done. }
    pose proof (length_packed_body_ge ws) as Hge.
    split_and!.
    + rewrite Henc, Hun. unfold set_last_opcode, set_ndw, at_buf. cbn -[u16 u8 u32 Z.of_nat].
      rewrite !length_app. cbn [length]. rewrite length_fmap, <- !(assoc_L app). cbn [app].
      rewrite <- !(assoc_L app). f_equal. rewrite Hlast, u16_small; [unfold n; lia|].
      rewrite length_app in Hfit. fold body in Hfit. destruct He as [m Hm]. clear -Hfit Hnl Hn1 Hb Hm.
      unfold in_u16. zdivmod.
    + cbn [packet_ok]. rewrite length_fmap. fold n. split_and!; try lia. done.
    + done.
    + rewrite Hlog. unfold logical. cbn [snd fst packet_writes]. by rewrite Ebase, Hseq.
    + rewrite Henc. unfold body. cbn [encode_packet app length]. rewrite !length_app, length_drop, length_fmap.
      unfold n in *. lia.
    + rewrite Henc. unfold body. cbn [encode_packet length]. rewrite length_fmap. unfold n in *. lia.
    + done.
    + done.
    + done.
  - done.
Qed.

(** The packet that is kept packed: its opcode may become the [_N] variant. *)
Lemma finalize_keep (reg_count1 : Z) :
  reg_count1 <= Z.of_nat (length ws) ->
  exists s', (let* s1 := if debug_sqtt st && ((last_opcode st =? PKT3_SET_SH_REG_PAIRS_PACKED) ||
                            (last_opcode st =? PKT3_SET_SH_REG_PAIRS_PACKED_N))
              then find_pgm_lo_packed is_pgm_lo st (Z.to_nat reg_count1) else Ok st in
    if (last_opcode s1 =? PKT3_SET_SH_REG_PAIRS_PACKED) && (reg_count1 <=? 14) then
      let* h := arr_get (pm4 s1) (last_pm4 s1) in
      write_dw s1 (last_pm4 s1)
        (Z.lor (Z.land h PKT3_IT_OPCODE_C) (PKT3_IT_OPCODE_S PKT3_SET_SH_REG_PAIRS_PACKED_N))
    else Ok s1) = Ok s' /\ finalized s' /\ last_opcode s' = op.
Proof.
  intros Hle.
  destruct n_bounds as (Hn1 & Hn & Hnl & He & Hb).
  assert (Hsqtt : exists r, (if debug_sqtt st && ((last_opcode st =? PKT3_SET_SH_REG_PAIRS_PACKED) ||
                            (last_opcode st =? PKT3_SET_SH_REG_PAIRS_PACKED_N))
              then find_pgm_lo_packed is_pgm_lo st (Z.to_nat reg_count1) else Ok st) =
              Ok (set_pgm_lo st r)).
  { case_match; [apply find_pgm_lo_packed_at; lia|]. by exists (spi_shader_pgm_lo_reg st). }
  destruct Hsqtt as [r ->]. cbn [res_bind].
  set (s1 := set_pgm_lo s r). change (set_pgm_lo st r) with (at_buf s1 (pre ++ body) junk).
  change (last_opcode (at_buf s1 _ _)) with (last_opcode s). rewrite Hop.
  destruct (Z.eqb_spec op PKT3_SET_SH_REG_PAIRS_PACKED) as [E|E]; [destruct (reg_count1 <=? 14)|];
    cbn [andb].
  - cbn [pm4 last_pm4 at_buf]. change (last_pm4 s1) with (last_pm4 s). unfold body. cbn [encode_packet].
    rewrite <- (assoc_L app). cbn [app]. rewrite arr_get_app by done. cbn [res_bind].
    rewrite write_dw_at by done. eexists. split; [reflexivity|]. split; [|done].
    exists s1, (PktPacked PKT3_SET_SH_REG_PAIRS_PACKED_N cam ws), (packed_is_padded s), junk.
    destruct Hpkt as ([b Hbase] & Hf & Hl & _). pose proof (packed_base_cases _ _ Hbase) as (? & _ & _).
    assert (0 <= 3 * (Z.of_nat (length ws) / 2) < 0x4000) by zdivmod.
    split_and!.
    + cbn [encode_packet]. rewrite header_reop, header_u32 by done. done.
    + cbn [packet_ok]. split; [by eexists|done].
    + intros Hp. destruct (Hpad Hp) as (op' & cam' & w0 & ws' & [= _ _ ->]). by do 4 eexists.
    + unfold logical. cbn [fst snd packet_writes]. by rewrite E.
    + done.
    + done.
    + done.
    + done.
    + done.
  - eexists. split; [reflexivity|]. split; [|done].
    exists s1, (PktPacked op cam ws), (packed_is_padded s), junk. done.
  - eexists. split; [reflexivity|]. split; [|done].
    exists s1, (PktPacked op cam ws), (packed_is_padded s), junk. done.
Qed.

Lemma finalize_packed_at :
  exists s', finalize_packed is_pgm_lo st = Ok s' /\ finalized s' /\
    (last_opcode s' = PKT3_SET_SH_REG \/ last_opcode s' = op).
Proof.
  destruct n_bounds as (Hn1 & Hn & Hnl & He & Hb).
  destruct (lookup_lt_is_Some_2 ws 0) as [[off0 v0] H0]; [lia|].
  assert (Hoff := Forall_lookup_1 _ _ _ _ (write_ok_off _ Hws) H0). unfold off_ok in Hoff.
  simpl in Hoff. assert (Hne : ws <> []) by (by intros ->).
  unfold finalize_packed, st, body. cbn [encode_packet]. fold h.
  rewrite (packed_count_at s pre h _ ws junk Hlast He Hne). cbn [res_bind].
  rewrite (packed_off_at s pre h _ ws junk Hlast (write_ok_off _ Hws) 0%nat _ _ H0). cbn [res_bind].
  change (packed_is_padded (at_buf s _ _)) with (packed_is_padded s).
  replace (if packed_is_padded s then Z.of_nat (length ws) - 1 else Z.of_nat (length ws)) with n
    by (destruct (packed_is_padded s); simpl in Hn; lia).
  destruct (consecutive_loop_at s pre ws Hlast Hws ltac:(lia) h (Z.of_nat (length ws)) junk off0
              (Z.to_nat (n - 1)) 1%nat ltac:(lia) Hoff) as (b & Hc & Hall).
  change (Z.of_nat 1) with 1 in Hc. rewrite Hc. cbn [res_bind]. destruct b.
  - destruct (finalize_consecutive off0 v0 H0) as (op' & Eop & s' & Hs & Hfin & Hlo).
    { intros j r v Hj. apply (Hall eq_refl). lia. }
    step_assert; cycle 1.
    { cbn [ndw last_pm4 at_buf]. rewrite Hlast, length_app. cbn [length].
      apply Z.eqb_eq. unfold body in Hb. cbn [encode_packet length] in Hb.
      destruct He as [m Hm]. rewrite Hn. clear -Hb Hm. zdivmod. }
    change (last_opcode (at_buf s _ _)) with (last_opcode s). rewrite Hop, Eop. cbn [res_bind].
    exists s'. split; [exact Hs|]. split; [exact Hfin|by left].
  - match goal with |- context [if ?c then n + 1 else n] => set (rc := if c then n + 1 else n) end.
    destruct (finalize_keep rc) as (s' & Hs & Hfin & Hlo).
    { subst rc. cbn [packed_is_padded at_buf]. destruct (packed_is_padded s);
        rewrite ?andb_false_r; simpl in Hn; [case_match|]; lia. }
    exists s'. split; [exact Hs|]. split; [exact Hfin|by right].
Qed.

End FinalizePacked.

(** ** The invariant of the builder *)

Definition packet_op (p : packet) : Z :=
  match p with PktSeq op _ _ _ _ | PktPairs op _ _ | PktPacked op _ _ | PktRaw op _ => op end.

(** What the state remembers of the packet it is building. *)
Definition tracks (s : ac_pm4_state) (p : packet) : Prop :=
  last_opcode s = packet_op p /\
  match p with
  | PktSeq _ _ reg idx vals =>
      last_reg s = reg + Z.of_nat (length vals) - 1 /\ last_idx s = idx
  | PktPairs _ _ _ => True
  | PktPacked op _ ws => Forall write_ok ws /\ op <> PKT3_SET_SH_REG_PAIRS_PACKED_N
  | PktRaw _ _ => False
  end.

(** No SET packet is open: the initial state, or raw dwords were added. *)
Definition no_set_op (op : Z) : Prop :=
  seq_base op = None /\ pairs_base op = None /\ packed_base op = None.

(** The packets of [ps] are complete and [cur] is the packet being built. *)
Definition buffer (ps : list (packet * bool)) (cur : option (packet * bool)) : list Z :=
  encode_packets ps.*1 ++ match cur with Some pp => encode_packet pp.1 | None => [] end.

Definition pm4_inv (s : ac_pm4_state) (ps : list (packet * bool)) (cur : option (packet * bool))
  : Prop :=
  (exists junk, pm4 s = buffer ps cur ++ junk) /\
  ndw s = Z.of_nat (length (buffer ps cur)) /\
  max_dw s = Z.of_nat (length (pm4 s)) /\ max_dw s < 0x4000 /\
  Forall packet_ok ps.*1 /\ Forall pad_ok ps /\
  match cur with
  | None => no_set_op (last_opcode s)
  | Some pp => last_pm4 s = Z.of_nat (length (encode_packets ps.*1)) /\ packet_ok pp.1 /\
      pad_ok pp /\ packed_is_padded s = pp.2 /\ tracks s pp.1
  end.

(** The writes a state stands for. *)
Definition log_of (ps : list (packet * bool)) (cur : option (packet * bool)) : list write :=
  concat (logical <$> ps) ++ match cur with Some pp => logical pp | None => [] end.

(** Whether some packet is padded. *)
Definition has_pad (ps : list (packet * bool)) (cur : option (packet * bool)) : bool :=
  existsb snd ps || match cur with Some pp => pp.2 | None => false end.

(** A state whose buffer is exactly a list of complete packets. *)
Definition flushed (s0 s : ac_pm4_state) (ps : list (packet * bool)) : Prop :=
  (exists junk, s = at_buf s (encode_packets ps.*1) junk) /\
  max_dw s = Z.of_nat (length (pm4 s)) /\ ndw s <= ndw s0 /\
  Forall packet_ok ps.*1 /\ Forall pad_ok ps /\ same_conf s0 s.

Lemma encode_packets_snoc ps p : encode_packets (ps ++ [p]) = encode_packets ps ++ encode_packet p.
Proof. unfold encode_packets. rewrite fmap_app, concat_app. simpl. by rewrite app_nil_r. Qed.

Lemma log_snoc ps pp : log_of (ps ++ [pp]) None = log_of ps (Some pp).
Proof. unfold log_of. rewrite fmap_app, concat_app. simpl. by rewrite !app_nil_r. Qed.

Lemma has_pad_snoc ps pp : has_pad (ps ++ [pp]) None = has_pad ps (Some pp).
Proof. unfold has_pad. rewrite existsb_app. simpl. by rewrite !orb_false_r. Qed.

Lemma has_pad_mono ps p pad p' pad' :
  (pad' = true -> pad = true) -> has_pad ps (Some (p', pad')) = true ->
  has_pad ps (Some (p, pad)) = true.
Proof.
  unfold has_pad. simpl. rewrite !orb_true_iff. intros H [?|?]; [by left|right; by apply H].
Qed.

Lemma opcode_is_pairs_packed_base op :
  opcode_is_pairs_packed op = bool_decide (is_Some (packed_base op)).
Proof.
  unfold opcode_is_pairs_packed, packed_base. rewrite <- orb_assoc.
  destruct (op =? _); [done|]. by destruct (_ || _).
Qed.

Lemma opcode_is_pairs_base op : opcode_is_pairs op = bool_decide (is_Some (pairs_base op)).
Proof. unfold opcode_is_pairs, pairs_base. by repeat destruct (op =? _). Qed.

Lemma packed_main op b :
  packed_base op = Some b -> op <> PKT3_SET_SH_REG_PAIRS_PACKED_N ->
  op = PKT3_SET_CONTEXT_REG_PAIRS_PACKED \/ op = PKT3_SET_SH_REG_PAIRS_PACKED.
Proof.
  unfold packed_base. destruct (Z.eqb_spec op PKT3_SET_CONTEXT_REG_PAIRS_PACKED); [by left|].
  destruct (Z.eqb_spec op PKT3_SET_SH_REG_PAIRS_PACKED); [by right|].
  by destruct (Z.eqb_spec op PKT3_SET_SH_REG_PAIRS_PACKED_N).
Qed.

(** ** The searches of [ac_pm4_finalize] under [debug_sqtt] *)

Section Sqtt.
Context (is_pgm_lo : Z -> bool).

Lemma find_pgm_lo_seq_at s base i n : exists r, find_pgm_lo_seq is_pgm_lo s base i n = set_pgm_lo s r.
Proof.
  revert i. induction n as [|n IH]; intros i; cbn [find_pgm_lo_seq].
  - exists (spi_shader_pgm_lo_reg s). by destruct s.
  - case_match; [by eexists|apply IH].
Qed.

Lemma find_pgm_lo_pairs_at s i n :
  0 <= i -> 0 <= last_pm4 s ->
  last_pm4 s + 1 + 2 * (i + Z.of_nat n) <= Z.of_nat (length (pm4 s)) ->
  exists r, find_pgm_lo_pairs is_pgm_lo s i n = Ok (set_pgm_lo s r).
Proof.
  revert i. induction n as [|n IH]; intros i Hi Hl Hlen; cbn [find_pgm_lo_pairs].
  - exists (spi_shader_pgm_lo_reg s). by destruct s.
  - destruct (arr_get_in_range (pm4 s) (last_pm4 s + 1 + 2 * i)) as (x & -> & _); [lia|].
    cbn [res_bind]. case_match; [by eexists|]. apply IH; lia.
Qed.
End Sqtt.

Section Builder.
Context (is_pgm_lo : Z -> bool).

(** The part of [ac_pm4_finalize] after the packed block only records the shader address
    register. *)
Definition sqtt_tail (s1 : ac_pm4_state) : res ac_pm4_state :=
  let* s2 :=
    if debug_sqtt s1 && (last_opcode s1 =? PKT3_SET_SH_REG) then
      let* h := arr_get (pm4 s1) (last_pm4 s1) in
      let* off := arr_get (pm4 s1) (last_pm4 s1 + 1) in
      Ok (find_pgm_lo_seq is_pgm_lo s1 (u32 (SI_SH_REG_OFFSET + off * 4)) 0
            (Z.to_nat (PKT_COUNT_G h)))
    else Ok s1 in
  if debug_sqtt s2 && (last_opcode s2 =? PKT3_SET_SH_REG_PAIRS) then
    let* h := arr_get (pm4 s2) (last_pm4 s2) in
    find_pgm_lo_pairs is_pgm_lo s2 0 (Z.to_nat ((PKT_COUNT_G h + 1) / 2))
  else Ok s2.

Lemma sqtt_tail_other s :
  last_opcode s <> PKT3_SET_SH_REG -> last_opcode s <> PKT3_SET_SH_REG_PAIRS ->
  sqtt_tail s = Ok (set_pgm_lo s (spi_shader_pgm_lo_reg s)).
Proof.
  intros H1%Z.eqb_neq H2%Z.eqb_neq. unfold sqtt_tail. rewrite H1, andb_false_r. cbn [res_bind].
  rewrite H2, andb_false_r. by destruct s.
Qed.

Lemma sqtt_tail_packet s pre p junk :
  s = at_buf s (pre ++ encode_packet p) junk -> last_pm4 s = Z.of_nat (length pre) ->
  packet_ok p -> (last_opcode s = PKT3_SET_SH_REG_PAIRS -> packet_op p = PKT3_SET_SH_REG_PAIRS) ->
  exists r, sqtt_tail s = Ok (set_pgm_lo s r).
Proof.
  intros Hs Hlast Hp Hpairs. assert (Hpm4 : pm4 s = pre ++ encode_packet p ++ junk).
  { rewrite Hs. cbn [pm4 at_buf]. by rewrite <- (assoc_L app). }
  assert (H2 : (2 <= length (encode_packet p))%nat).
  { destruct p; cbn [encode_packet length]; [lia| |lia|destruct Hp as (_ & Hl); lia].
    rewrite length_pairs_body. destruct Hp as (_ & _ & Hl). lia. }
  destruct (Z.eq_dec (last_opcode s) PKT3_SET_SH_REG) as [E|E].
  - unfold sqtt_tail. rewrite E, Z.eqb_refl, andb_true_r.
    destruct (debug_sqtt s) eqn:Ed; cycle 1.
    { cbn [res_bind]. rewrite Ed. exists (spi_shader_pgm_lo_reg s). by destruct s. }
    destruct (arr_get_in_range (pm4 s) (last_pm4 s)) as (x & -> & _);
      [rewrite Hpm4, !length_app; lia|]. cbn [res_bind].
    destruct (arr_get_in_range (pm4 s) (last_pm4 s + 1)) as (y & -> & _);
      [rewrite Hpm4, !length_app; lia|]. cbn [res_bind].
    destruct (find_pgm_lo_seq_at is_pgm_lo s (u32 (SI_SH_REG_OFFSET + y * 4)) 0
                (Z.to_nat (PKT_COUNT_G x))) as [r ->].
    exists r. cbn [debug_sqtt last_opcode set_pgm_lo]. by rewrite E, Ed.
  - destruct (Z.eq_dec (last_opcode s) PKT3_SET_SH_REG_PAIRS) as [E'|E'];
      [|eexists; by apply sqtt_tail_other].
    unfold sqtt_tail. rewrite (proj2 (Z.eqb_neq _ _) E), andb_false_r. cbn [res_bind].
    rewrite E', Z.eqb_refl, andb_true_r. destruct (debug_sqtt s);
      [|exists (spi_shader_pgm_lo_reg s); by destruct s].
    specialize (Hpairs E').
    destruct p as [op cam reg idx vals|op cam ws|op cam ws|op body]; simpl in Hpairs; subst op;
      [by destruct Hp as ([? [=]] & _)| |by destruct Hp as ([? [=]] & _)|by destruct Hp as ([=] & _)].
    destruct Hp as ([b Hb] & _ & Hl). rewrite Hpm4, Hlast. cbn [encode_packet app].
    rewrite arr_get_app by done. cbn [res_bind].
    destruct (pkt3_header_fields PKT3_SET_SH_REG_PAIRS (2 * Z.of_nat (length ws) - 1) cam)
      as (_ & -> & _); [done|lia|].
    apply find_pgm_lo_pairs_at; [lia|lia|].
    rewrite Hpm4, !length_app, Hlast. cbn [encode_packet length]. rewrite length_pairs_body. zdivmod.
Qed.

Lemma finalize_split s :
  ac_pm4_finalize is_pgm_lo s =
  res_bind (if opcode_is_pairs_packed (last_opcode s) then finalize_packed is_pgm_lo s else Ok s)
    sqtt_tail.
Proof. done. Qed.

Lemma inv_view s ps cur :
  pm4_inv s ps cur -> exists junk, s = at_buf s (buffer ps cur) junk.
Proof. intros ((junk & Hp) & Hn & _). exists junk. by apply at_buf_intro. Qed.

Lemma flushed_pgm_lo s0 s ps r : flushed s0 s ps -> flushed s0 (set_pgm_lo s r) ps.
Proof.
  intros ((junk & Hs) & Hm & Hn & Hok & Hpad & Hc). split; [|done].
  exists junk. rewrite Hs at 1. reflexivity.
Qed.

(** [ac_pm4_finalize] succeeds and closes the open packet, keeping its writes. *)
Lemma finalize_spec s ps cur :
  pm4_inv s ps cur ->
  exists s' ps', ac_pm4_finalize is_pgm_lo s = Ok s' /\ flushed s s' ps' /\
    log_of ps' None = log_of ps cur /\ (has_pad ps' None = true -> has_pad ps cur = true).
Proof.
  intros Hinv. destruct (inv_view _ _ _ Hinv) as [junk Hs].
  destruct Hinv as (_ & Hn & Hm & Hm4 & Hok & Hpad & Hcur). rewrite finalize_split.
  destruct cur as [[p pad]|]; cycle 1.
  { rewrite opcode_is_pairs_packed_base. destruct Hcur as (H1 & H2 & H3). rewrite H3. simpl.
    rewrite sqtt_tail_other by (intros E; rewrite E in *; done).
    eexists _, ps. split; [reflexivity|]. split; [|done]. apply flushed_pgm_lo.
    split_and!; try done. exists junk. unfold buffer in Hs. by rewrite app_nil_r in Hs. }
  destruct Hcur as (Hlast & Hp & Hpd & Hpadded & Hop & Htr). simpl in Hp, Hpadded, Hop, Htr.
  unfold buffer in *. cbn [fst] in *. rewrite opcode_is_pairs_packed_base, Hop.
  destruct (decide (is_Some (packed_base (packet_op p)))) as [Hpk|Hpk].
  - rewrite bool_decide_true by done.
    destruct p as [op cam reg idx vals|op cam ws|op cam ws|op body]; [..|done]; simpl in Hpk, Hop.
    { exfalso. destruct Hp as ([b Hb] & _), Hpk as [b' Hb'].
      apply base_excl_packed in Hb' as [? _]. congruence. }
    { exfalso. destruct Hp as ([b Hb] & _), Hpk as [b' Hb'].
      apply base_excl_packed in Hb' as [_ ?]. congruence. }
    destruct Htr as [Hws HN]. destruct Hpk as [b Hb].
    destruct (finalize_packed_at is_pgm_lo s (encode_packets ps.*1) junk op cam ws)
      as (s1 & E1 & Hfin & Hlo); try done.
    { by rewrite Hpadded. }
    { by eapply packed_main. }
    { rewrite <- Hn. rewrite Hs in Hm. cbn [max_dw pm4 at_buf] in Hm. rewrite length_app in Hm.
      lia. }
    rewrite <- Hs in E1. rewrite E1. cbn [res_bind].
    destruct Hfin as (s2 & p' & pad' & junk' & -> & Hp' & Hpd' & Hlog & Hlen & Hle & Hl2 & Hc2 & Hpp).
    destruct (sqtt_tail_packet (at_buf s2 (encode_packets ps.*1 ++ encode_packet p') junk')
                (encode_packets ps.*1) p' junk') as [r ->]; [done|by rewrite <- Hl2 in Hlast|done| |].
    { intros E. destruct Hlo as [E2|E2]; rewrite E2 in E; [done|]. by rewrite E in Hb. }
    eexists _, (ps ++ [(p', pad')]). split; [reflexivity|]. split.
    + apply flushed_pgm_lo. rewrite Hpadded in Hlog. split_and!.
      * exists junk'. rewrite fmap_app. simpl. by rewrite encode_packets_snoc.
      * destruct Hc2 as (_ & Hmx & _). cbn [max_dw pm4 at_buf]. rewrite Hmx, Hm, Hs.
        cbn [pm4 at_buf]. rewrite <- !(assoc_L app), !(length_app (encode_packets _)). lia.
      * rewrite Hn. cbn [ndw at_buf]. rewrite !length_app. lia.
      * rewrite fmap_app. apply Forall_app. split; [done|]. by repeat constructor.
      * apply Forall_app. split; [done|]. by repeat constructor.
      * done.
    + split; [rewrite log_snoc; unfold log_of; f_equal; by rewrite Hlog, Hpadded|].
      rewrite has_pad_snoc. apply has_pad_mono. by rewrite <- Hpadded.
  - rewrite bool_decide_false by done. cbn [res_bind].
    destruct (sqtt_tail_packet s (encode_packets ps.*1) p junk) as [r ->]; try done.
    { by rewrite Hop. }
    eexists _, (ps ++ [(p, pad)]). split; [reflexivity|]. split; [|split; [apply log_snoc|by rewrite has_pad_snoc]].
    apply flushed_pgm_lo. split_and!; try done.
    + exists junk. rewrite fmap_app. simpl. by rewrite encode_packets_snoc.
    + rewrite fmap_app. apply Forall_app. split; [done|]. by repeat constructor.
    + apply Forall_app. split; [done|]. by repeat constructor.
Qed.

(** ** Building a packet *)

(** [s] is building a packet with opcode [op] behind the packets [ps]. *)
Definition building (s : ac_pm4_state) (ps : list (packet * bool)) (op : Z) : Prop :=
  last_opcode s = op /\ last_pm4 s = Z.of_nat (length (encode_packets ps.*1)) /\
  max_dw s < 0x4000 /\ Forall packet_ok ps.*1 /\ Forall pad_ok ps.

Lemma cmd_begin_spec s ps cur op :
  pm4_inv s ps cur -> ndw s < max_dw s -> 0 <= op <= 254 ->
  exists s1 ps' x junk,
    ac_pm4_cmd_begin is_pgm_lo s op = Ok (at_buf s1 (encode_packets ps'.*1 ++ [x]) junk) /\
    (log_of ps' None = log_of ps cur /\ (has_pad ps' None = true -> has_pad ps cur = true)) /\
    building s1 ps' op /\ packed_is_padded s1 = false /\
    same_conf s s1 /\ Z.of_nat (length (encode_packets ps'.*1)) <= ndw s /\
    max_dw s1 = Z.of_nat (length ((encode_packets ps'.*1 ++ [x]) ++ junk)).
Proof.
  intros Hinv Hn Hop. destruct (finalize_spec s ps cur Hinv) as (s1 & ps' & E & Hfl & Hlog).
  destruct Hinv as (_ & Hnd & _ & Hm & _).
  destruct Hfl as ((junk & Hs1) & Hmax & Hle & Hok & Hpad & Hc).
  assert (Hmx : max_dw s1 = max_dw s) by apply Hc.
  unfold ac_pm4_cmd_begin. rewrite E. cbn [res_bind].
  step_assert; [|apply negb_true_iff, Z.eqb_neq; lia].
  step_assert; [|apply Z.ltb_lt; lia]. step_assert; [|apply Z.leb_le; lia].
  assert (Hn1 : ndw s1 = Z.of_nat (length (encode_packets ps'.*1))) by (by rewrite Hs1).
  assert (Hp1 : pm4 s1 = encode_packets ps'.*1 ++ junk) by (by rewrite Hs1).
  destruct junk as [|x junk].
  { exfalso. rewrite Hp1, app_nil_r in Hmax. lia. }
  exists (set_padded (set_last_pm4 (set_last_opcode s1 op) (ndw s1)) false), ps', x, junk.
  split_and!.
  - rewrite <- (set_ndw_grow _ _ x junk) by (cbn [length]; lia).
    f_equal. unfold set_padded, set_ndw, set_last_pm4, set_last_opcode, at_buf.
    cbn -[u16 u8]. by rewrite Hn1, Hp1.
  - apply Hlog.
  - apply Hlog.
  - unfold building. cbn [last_opcode last_pm4 max_dw set_padded set_last_pm4 set_last_opcode].
    rewrite u8_small, u16_small by (unfold in_u8, in_u16; lia). split_and!; [done|done|lia|done|done].
  - done.
  - destruct Hc as (? & ? & ?). by repeat split.
  - lia.
  - cbn [max_dw set_padded set_last_pm4 set_last_opcode]. rewrite Hmax, Hp1, <- (assoc_L app). done.
Qed.

(** The part of [set_reg_append] after the packet is open. *)
Definition append_tail (s1 : ac_pm4_state) (reg val idx : Z) (is_packed : bool)
  : res ac_pm4_state :=
  assert! reg <=? 0xffff in
  let s2 := set_last_reg_idx s1 reg idx in
  let* s3 :=
    if is_packed then
      let s2' := if packed_is_padded s2 then set_ndw (set_padded s2 false) (ndw s2 - 1) else s2 in
      if packed_next_is_reg_offset_pair s2' then push_dw s2' reg
      else if packed_next_is_reg_value1 s2' then
        let* v := arr_get (pm4 s2') (ndw s2' - 2) in
        let* s2a := write_dw s2' (ndw s2' - 2) (Z.land v 0x0000ffff) in
        let* v' := arr_get (pm4 s2a) (ndw s2a - 2) in
        write_dw s2a (ndw s2a - 2) (Z.lor v' (u32 (Z.shiftl reg 16)))
      else Ok s2'
    else Ok s2 in
  push_dw s3 val.

Lemma set_reg_append_split s reg0 val opcode idx :
  set_reg_append is_pgm_lo s reg0 val opcode idx =
  (let reg := Z.shiftr reg0 2 in
   assert! negb (max_dw s =? 0) in
   assert! ndw s + 2 <=? max_dw s in
   let* s1 :=
     if opcode_is_pairs_packed opcode then
       assert! idx =? 0 in
       if negb (opcode =? last_opcode s) then
         let* s1 := ac_pm4_cmd_begin is_pgm_lo s opcode in Ok (set_ndw s1 (ndw s1 + 1))
       else Ok s
     else if opcode_is_pairs opcode then
       assert! idx =? 0 in
       let* s1 := if negb (opcode =? last_opcode s) then ac_pm4_cmd_begin is_pgm_lo s opcode
                  else Ok s in
       push_dw s1 reg
     else if negb (opcode =? last_opcode s) || negb (reg =? last_reg s + 1) ||
             negb (idx =? last_idx s) then
       let* s1 := ac_pm4_cmd_begin is_pgm_lo s opcode in
       push_dw s1 (Z.lor reg (u32 (Z.shiftl idx 28)))
     else Ok s in
   append_tail s1 reg val idx (opcode_is_pairs_packed opcode)).
Proof. done. Qed.

Lemma inv_intro s ps op p pad junk :
  building s ps op -> packet_ok p -> pad_ok (p, pad) -> packed_is_padded s = pad ->
  tracks s p -> max_dw s = Z.of_nat (length ((encode_packets ps.*1 ++ encode_packet p) ++ junk)) ->
  pm4_inv (at_buf s (encode_packets ps.*1 ++ encode_packet p) junk) ps (Some (p, pad)).
Proof.
  intros (Ho & Hl & Hm & Hok & Hpad) Hp Hpd Hps Htr Hlen. split_and!; try done. by exists junk.
Qed.

Lemma cmd_end_plain fuel s E h body junk :
  last_pm4 s = Z.of_nat (length E) -> packed_base (last_opcode s) = None ->
  0 <= last_opcode s < 256 -> (1 <= length body)%nat -> Z.of_nat (length body) <= 0x4000 ->
  exists cam, cmd_end_rec is_pgm_lo (S fuel) (at_buf s (E ++ h :: body) junk) false =
    Ok (at_buf s (E ++ pkt3_header (last_opcode s) (Z.of_nat (length body) - 1) cam :: body) junk).
Proof.
  intros Hl Hpk Hop Hb Hb'. eexists. cbn [cmd_end_rec].
  rewrite write_dw_at by done. cbn [res_bind last_opcode last_pm4 ndw at_buf].
  rewrite opcode_is_pairs_packed_base, Hpk, bool_decide_false by (by intros [? ?]).
  rewrite Hl, length_app. cbn [length].
  replace (Z.of_nat (length E + S (length body)) - Z.of_nat (length E) - 2)
    with (Z.of_nat (length body) - 1) by lia.
  change (Z.lor (PKT3 ?op ?c _) (PKT3_RESET_FILTER_CAM_S (Z.b2z ?cam))) with (pkt3_header op c cam).
  rewrite header_u32 by lia. reflexivity.
Qed.

Lemma seq_ws_snoc r vals v :
  seq_ws r (vals ++ [v]) = seq_ws r vals ++ [(r + Z.of_nat (length vals), v)].
Proof.
  revert r. induction vals as [|x vals IH]; intros r; cbn [app].
  - rewrite seq_ws_cons. unfold seq_ws. simpl. f_equal. f_equal. lia.
  - rewrite !seq_ws_cons, IH. simpl. f_equal. f_equal. f_equal. f_equal. lia.
Qed.

(** The end of [ac_pm4_set_reg_custom] on a packet of consecutive registers. *)
Lemma finish_seq s ps op b r idx vals h x junk val :
  building s ps op -> seq_base op = Some b -> packed_is_padded s = false ->
  0 <= r -> r + Z.of_nat (length vals) < 2 ^ 16 -> 0 <= idx < 16 -> in_u32 val ->
  max_dw s = Z.of_nat (length ((encode_packets ps.*1 ++
               h :: Z.lor r (u32 (Z.shiftl idx 28)) :: vals) ++ x :: junk)) ->
  exists s' cam,
    (let* s1 := append_tail (at_buf s (encode_packets ps.*1 ++
                   h :: Z.lor r (u32 (Z.shiftl idx 28)) :: vals) (x :: junk))
                  (r + Z.of_nat (length vals)) val idx false in
     ac_pm4_cmd_end is_pgm_lo s1 false) = Ok s' /\
    pm4_inv s' ps (Some (PktSeq op cam r idx (vals ++ [val]), false)) /\
    ndw s' = Z.of_nat (length (encode_packets ps.*1)) + 2 + Z.of_nat (length vals) + 1 /\
    same_conf s s'.
Proof.
  intros Hbl Hbase Hpd Hr Hr2 Hidx Hval Hmax. pose proof Hbl as (Ho & Hl & Hm & Hok & Hpad).
  destruct (seq_base_cases _ _ Hbase) as (Hop & _ & _).
  rewrite length_app in Hmax. rewrite (length_app (encode_packets _)) in Hmax. cbn [length] in Hmax.
  unfold append_tail. step_assert; [|apply Z.leb_le; lia]. cbn [res_bind].
  set (r' := r + Z.of_nat (length vals)) in *.
  change (set_last_reg_idx (at_buf s ?l ?j) r' idx) with (at_buf (set_last_reg_idx s r' idx) l j).
  rewrite push_dw_at by (cbn [length]; rewrite length_app; cbn [length]; lia). cbn [res_bind].
  rewrite (u32_small val) by done. rewrite <- (assoc_L app). cbn [app].
  set (s1 := set_last_reg_idx s r' idx).
  destruct (cmd_end_plain 1 s1 (encode_packets ps.*1) h
    (Z.lor r (u32 (Z.shiftl idx 28)) :: vals ++ [val]) junk) as [cam Hc].
  { done. }
  { cbn [last_opcode s1 set_last_reg_idx]. rewrite Ho. destruct (packed_base op) as [b'|] eqn:E; [|done].
    apply base_excl_packed in E as [? _]. congruence. }
  { cbn [last_opcode s1 set_last_reg_idx]. by rewrite Ho. }
  { cbn [length]. lia. }
  { cbn [length]. rewrite length_app. cbn [length]. lia. }
  unfold ac_pm4_cmd_end. rewrite Hc. eexists _, cam. split; [reflexivity|].
  change (last_opcode s1) with (last_opcode s). rewrite Ho.
  replace (Z.of_nat (length (Z.lor r (u32 (Z.shiftl idx 28)) :: vals ++ [val])) - 1)
    with (Z.of_nat (length (vals ++ [val]))) by (cbn [length]; lia).
  change (pkt3_header op _ cam :: _) with (encode_packet (PktSeq op cam r idx (vals ++ [val]))).
  split; [|split; [|done]].
  - apply (inv_intro s1 ps op); try done.
    + cbn [packet_ok]. rewrite length_app. cbn [length]. split; [by eexists|]. lia.
    + split; [done|]. cbn [last_reg last_idx s1 set_last_reg_idx].
      rewrite u16_small, u8_small by (unfold in_u16, in_u8; lia). rewrite length_app. cbn [length].
      split; [lia|done].
    + change (max_dw s1) with (max_dw s). rewrite Hmax, !length_app. cbn [encode_packet length].
      rewrite length_app. cbn [length]. lia.
  - cbn [ndw at_buf]. rewrite length_app. cbn [encode_packet length]. rewrite length_app. cbn [length]. lia.
Qed.

Lemma pairs_body_app a b : pairs_body (a ++ b) = pairs_body a ++ pairs_body b.
Proof. induction a as [|[r v] a IH]; simpl; [done|]. by rewrite IH. Qed.

(** The end of [ac_pm4_set_reg_custom] on a packet of pairs. *)
Lemma finish_pairs s ps op b ws reg h x junk val :
  building s ps op -> pairs_base op = Some b -> packed_is_padded s = false ->
  0 <= reg < 2 ^ 16 -> Forall off_ok ws -> in_u32 val ->
  max_dw s = Z.of_nat (length ((encode_packets ps.*1 ++ h :: pairs_body ws ++ [reg]) ++ x :: junk)) ->
  exists s' cam,
    (let* s1 := append_tail (at_buf s (encode_packets ps.*1 ++ h :: pairs_body ws ++ [reg]) (x :: junk))
                  reg val 0 false in
     ac_pm4_cmd_end is_pgm_lo s1 false) = Ok s' /\
    pm4_inv s' ps (Some (PktPairs op cam (ws ++ [(reg, val)]), false)) /\
    ndw s' = Z.of_nat (length (encode_packets ps.*1)) + 1 + 2 * Z.of_nat (length ws) + 2 /\
    same_conf s s'.
Proof.
  intros Hbl Hbase Hpd Hr Hws Hval Hmax. pose proof Hbl as (Ho & Hl & Hm & Hok & Hpad).
  destruct (pairs_base_cases _ _ Hbase) as (Hop & _ & _).
  rewrite length_app in Hmax. rewrite (length_app (encode_packets _)) in Hmax.
  cbn [length] in Hmax. rewrite length_app, length_pairs_body in Hmax. cbn [length] in Hmax.
  unfold append_tail. step_assert; [|apply Z.leb_le; lia]. cbn [res_bind].
  change (set_last_reg_idx (at_buf s ?l ?j) reg 0) with (at_buf (set_last_reg_idx s reg 0) l j).
  rewrite push_dw_at
    by (cbn [length]; rewrite length_app; cbn [length]; rewrite length_app, length_pairs_body;
        cbn [length]; lia).
  cbn [res_bind]. rewrite (u32_small val) by done. rewrite <- (assoc_L app). cbn [app].
  rewrite <- (assoc_L app). cbn [app]. change [reg; val] with (pairs_body [(reg, val)]).
  rewrite <- pairs_body_app. set (ws' := ws ++ [(reg, val)]). set (s1 := set_last_reg_idx s reg 0).
  assert (Hlen : length (pairs_body ws') = (2 * length ws + 2)%nat)
    by (rewrite length_pairs_body; unfold ws'; rewrite length_app; cbn [length]; lia).
  destruct (cmd_end_plain 1 s1 (encode_packets ps.*1) h (pairs_body ws') junk) as [cam Hc].
  { done. }
  { cbn [last_opcode s1 set_last_reg_idx]. rewrite Ho. destruct (packed_base op) as [b'|] eqn:E; [|done].
    apply base_excl_packed in E as [_ ?]. congruence. }
  { cbn [last_opcode s1 set_last_reg_idx]. by rewrite Ho. }
  { lia. }
  { lia. }
  unfold ac_pm4_cmd_end. rewrite Hc. eexists _, cam. split; [reflexivity|].
  change (last_opcode s1) with (last_opcode s). rewrite Ho.
  replace (Z.of_nat (length (pairs_body ws')) - 1) with (2 * Z.of_nat (length ws') - 1)
    by (rewrite length_pairs_body; lia).
  change (pkt3_header op _ cam :: _) with (encode_packet (PktPairs op cam ws')).
  split; [|split; [|done]].
  - apply (inv_intro s1 ps op); try done.
    + cbn [packet_ok]. unfold ws'. rewrite length_app. cbn [length]. split; [by eexists|].
      split; [|lia]. apply Forall_app. split; [done|]. by apply Forall_singleton.
    + change (max_dw s1) with (max_dw s). rewrite Hmax, !length_app. cbn [encode_packet length].
      rewrite Hlen. lia.
  - cbn [ndw at_buf]. rewrite length_app. cbn [encode_packet length]. lia.
Qed.

(** *** Packed packets *)

Section PackedSteps.
Context (s : ac_pm4_state) (E : list Z) (h c : Z).
Context (Hlast : last_pm4 s = Z.of_nat (length E)).

Lemma append_tail_even ws x y junk reg val :
  packed_is_padded s = false -> Nat.Even (length ws) -> 0 <= reg < 2 ^ 16 -> in_u32 val ->
  fits (x :: y :: E ++ h :: c :: packed_body ws) ->
  append_tail (at_buf s (E ++ h :: c :: packed_body ws) (x :: y :: junk)) reg val 0 true =
  Ok (at_buf (set_last_reg_idx s reg 0) (E ++ h :: c :: packed_body (ws ++ [(reg, val)])) junk).
Proof.
  intros Hp He Hr Hv Hf. unfold append_tail. step_assert; [|apply Z.leb_le; lia].
  change (set_last_reg_idx (at_buf s ?l ?j) reg 0) with (at_buf (set_last_reg_idx s reg 0) l j).
  set (s1 := set_last_reg_idx s reg 0).
  change (packed_is_padded (at_buf s1 _ _)) with (packed_is_padded s). rewrite Hp.
  unfold packed_next_is_reg_offset_pair. rewrite packed_phase_even by done. cbn [Z.eqb Pos.eqb].
  cbn [length] in Hf. rewrite push_dw_at by (cbn [length]; lia). cbn [res_bind].
  rewrite push_dw_at by (cbn [length]; rewrite length_app; cbn [length]; lia).
  rewrite !u32_small by (done || (unfold in_u32; lia)).
  rewrite packed_body_app by done. do 2 f_equal. by rewrite <- !(assoc_L app).
Qed.

Lemma append_tail_odd ws rl vl hi y junk reg val :
  packed_is_padded s = false -> Nat.Even (length ws) -> 0 <= reg < 2 ^ 16 -> in_u32 val ->
  0 <= rl < 2 ^ 16 -> fits (y :: E ++ h :: c :: packed_body ws ++ [rl + hi * 2 ^ 16; vl]) ->
  append_tail (at_buf s (E ++ h :: c :: packed_body ws ++ [rl + hi * 2 ^ 16; vl]) (y :: junk))
    reg val 0 true =
  Ok (at_buf (set_last_reg_idx s reg 0)
        (E ++ h :: c :: packed_body (ws ++ [(rl, vl); (reg, val)])) junk).
Proof.
  intros Hp He Hr Hv Hrl Hf. unfold append_tail. step_assert; [|apply Z.leb_le; lia].
  change (set_last_reg_idx (at_buf s ?l ?j) reg 0) with (at_buf (set_last_reg_idx s reg 0) l j).
  set (s1 := set_last_reg_idx s reg 0). set (d := rl + hi * 2 ^ 16) in *.
  change (packed_is_padded (at_buf s1 _ _)) with (packed_is_padded s). rewrite Hp.
  assert (Hph : packed_phase (at_buf s1 (E ++ h :: c :: packed_body ws ++ [d; vl]) (y :: junk)) = 1).
  { pose proof (length_packed_body ws He). unfold packed_phase. cbn [last_pm4 ndw at_buf s1 set_last_reg_idx].
    rewrite Hlast, length_app. cbn [length]. rewrite length_app. cbn [length].
    rewrite Z.rem_mod_nonneg by lia. zdivmod. }
  unfold packed_next_is_reg_offset_pair, packed_next_is_reg_value1. rewrite Hph. cbn [Z.eqb Pos.eqb].
  replace (E ++ h :: c :: packed_body ws ++ [d; vl])
    with ((E ++ h :: c :: packed_body ws) ++ [d; vl]) in * by (by rewrite <- (assoc_L app)).
  set (E' := E ++ h :: c :: packed_body ws) in *.
  assert (Hi : forall z l, ndw (at_buf s1 (E' ++ [z; vl]) l) - 2 = Z.of_nat (length E'))
    by (intros; cbn [ndw at_buf]; rewrite length_app; cbn [length]; lia).
  rewrite Hi. cbn [pm4 at_buf]. rewrite <- (assoc_L app). cbn [app].
  rewrite arr_get_app by done. cbn [res_bind]. rewrite write_dw_at by done. cbn [res_bind].
  rewrite Hi. cbn [pm4 at_buf]. rewrite <- (assoc_L app). cbn [app].
  rewrite arr_get_app by done. cbn [res_bind]. rewrite write_dw_at by done. cbn [res_bind].
  cbn [length] in Hf. rewrite length_app in Hf. cbn [length] in Hf.
  rewrite push_dw_at by (cbn [length]; rewrite length_app; cbn [length]; lia).
  do 2 f_equal. rewrite packed_body_app by done. cbn [packed_body]. unfold E'.
  rewrite <- !(assoc_L app). cbn [app]. do 4 f_equal. rewrite (u32_small val) by done.
  f_equal. rewrite shiftl_mul by lia.
  rewrite (land_mask_mod _ 16) by (done || lia).
  replace (d mod 2 ^ 16) with rl by (unfold d; zdivmod).
  rewrite (u32_small rl), (u32_small (reg * 2 ^ 16)) by (unfold in_u32; lia).
  rewrite Z.lor_comm, lor_disjoint_add, u32_small by (unfold in_u32; lia). lia.
Qed.

Context (op : Z) (Hop : last_opcode s = op) (b : Z) (Hb : packed_base op = Some b).

Lemma cmd_end_even fuel ws junk :
  Nat.Even (length ws) -> 0 < 3 * Z.of_nat (length ws) < 0x8000 ->
  exists cam, cmd_end_rec is_pgm_lo (S fuel) (at_buf s (E ++ h :: c :: packed_body ws) junk) false =
    Ok (at_buf s (E ++ encode_packet (PktPacked op cam ws)) junk).
Proof.
  intros He Hl. destruct (packed_base_cases _ _ Hb) as (Hop' & _ & _). eexists. cbn [cmd_end_rec].
  rewrite write_dw_at by done. cbn [res_bind].
  match goal with |- context [Z.lor ?a (PKT3_RESET_FILTER_CAM_S (Z.b2z ?cam))] =>
    replace (Z.lor a (PKT3_RESET_FILTER_CAM_S (Z.b2z cam)))
      with (pkt3_header op (3 * (Z.of_nat (length ws) / 2)) cam); cycle 1 end.
  { unfold pkt3_header. f_equal. cbn [last_opcode last_pm4 ndw at_buf]. rewrite Hlast, Hop, length_app.
    cbn [length]. f_equal. rewrite <- length_packed_body by done. lia. }
  rewrite header_u32 by zdivmod. cbn [last_opcode at_buf].
  rewrite opcode_is_pairs_packed_base, Hop, Hb, bool_decide_true by (by exists b).
  unfold packed_prev_is_reg_value0, packed_next_is_reg_value1. rewrite packed_phase_even by done.
  cbn [Z.eqb Pos.eqb res_bind]. rewrite packed_count_at; [|done|done|intros ->; simpl in Hl; lia].
  cbn [res_bind last_pm4 at_buf]. rewrite write_dw_at2 by lia.
  rewrite (u32_small (Z.of_nat _)) by (unfold in_u32; lia). reflexivity.
Qed.
End PackedSteps.

(** [ac_pm4_cmd_end] on an odd packet repeats its first write at the end. *)
Lemma cmd_end_odd s E h c op b ws y junk r0 v0 :
  last_pm4 s = Z.of_nat (length E) -> last_opcode s = op -> packed_base op = Some b ->
  packed_is_padded s = false -> Nat.Odd (length ws) -> Forall write_ok ws ->
  ws !! 0%nat = Some (r0, v0) -> max_dw s < 0x4000 ->
  Z.of_nat (length (E ++ h :: c :: packed_body ws)) + 2 <= max_dw s ->
  exists cam, ac_pm4_cmd_end is_pgm_lo (at_buf s (E ++ h :: c :: packed_body ws) (y :: junk)) false =
    Ok (at_buf (set_padded (set_last_reg_idx s r0 0) true)
          (E ++ encode_packet (PktPacked op cam (ws ++ [(r0, v0)]))) junk).
Proof.
  intros Hlast Hop Hb Hp Ho Hws H0 Hm Hroom.
  assert (Hw0 : write_ok (r0, v0)) by (by apply (Forall_lookup_1 _ ws 0)).
  destruct Hw0 as [Hr0 Hv0]. unfold off_ok in Hr0. simpl in Hr0, Hv0.
  assert (He : Nat.Even (length (ws ++ [(r0, v0)]))).
  { rewrite length_app. destruct Ho as [m ->]. exists (S m). simpl. lia. }
  rewrite length_app in Hroom. cbn [length] in Hroom. pose proof (length_packed_body_ge ws) as Hge.
  unfold ac_pm4_cmd_end. remember 1%nat as one eqn:Eone. cbn [cmd_end_rec].
  rewrite write_dw_at by done. cbn [res_bind].
  match goal with |- context [u32 ?x :: c :: _] => set (h1 := u32 x) end.
  cbn [last_opcode at_buf].
  rewrite opcode_is_pairs_packed_base, Hop, Hb, bool_decide_true by (by exists b).
  unfold packed_prev_is_reg_value0, packed_next_is_reg_value1. rewrite packed_phase_odd by done.
  cbn [Z.eqb Pos.eqb]. change 0 with (Z.of_nat 0) at 1 2.
  rewrite (packed_off_at s E h1 c ws (y :: junk) Hlast (write_ok_off _ Hws) 0%nat r0 v0 H0).
  cbn [res_bind].
  rewrite (packed_val_at s E h1 c ws (y :: junk) Hlast (write_ok_off _ Hws) 0%nat r0 v0 H0).
  cbn [res_bind]. rewrite set_reg_append_split. cbn [max_dw ndw last_opcode at_buf].
  rewrite opcode_is_pairs_packed_base, Hb, bool_decide_true by (by exists b).
  step_assert; [|apply negb_true_iff, Z.eqb_neq; lia].
  rewrite length_app. cbn [length]. step_assert; [|apply Z.leb_le; lia].
  rewrite Hop, !Z.eqb_refl. cbn [negb]. step_assert; [|done]. cbn [res_bind].
  replace (Z.shiftr (r0 * 4) 2) with r0 by (rewrite shiftr_div by lia; zdivmod).
  destruct (odd_snoc ws Ho) as (ws' & [rl vl] & Ews & He').
  assert (Hrl : write_ok (rl, vl)).
  { rewrite Ews in Hws. apply Forall_app in Hws as [_ Hws]. by inversion Hws. }
  destruct Hrl as [Hrl _]. unfold off_ok in Hrl; simpl in Hrl.
  assert (Epb : packed_body ws = packed_body ws' ++ [rl + 0 * 2 ^ 16; vl]).
  { rewrite Ews, packed_body_app by done. simpl. do 2 f_equal. lia. }
  rewrite Epb.
  rewrite append_tail_odd; try done.
  2:{ rewrite <- Epb. cbn [length]. rewrite length_app. cbn [length]. lia. }
  cbn [res_bind].
  replace (ws' ++ [(rl, vl); (r0, v0)]) with (ws ++ [(r0, v0)])
    by (rewrite Ews, <- (assoc_L app); done).
  set (ws2 := ws ++ [(r0, v0)]) in *.
  destruct (cmd_end_even (set_last_reg_idx s r0 0) E h1 c Hlast op Hop b Hb 0 ws2 junk He)
    as [cam Hc].
  { unfold ws2. rewrite length_app. cbn [length]. destruct Ho as [m Hm']. 
    pose proof (length_packed_body_odd ws ltac:(by exists m)). zdivmod. }
  rewrite Eone, Hc. cbn [res_bind].
  change (set_padded (at_buf ?a ?l ?j) true) with (at_buf (set_padded a true) l j).
  exists cam. cbn [encode_packet].
  rewrite packed_count_at; [|done|done|by destruct ws].
  cbn [res_bind last_pm4 at_buf set_padded set_last_reg_idx]. rewrite write_dw_at2 by lia.
  rewrite u32_small; [done|]. unfold in_u32, ws2. rewrite length_app. cbn [length]. lia.
Qed.

(** Removing the padding before a new register is appended. *)
Lemma append_tail_unpad s l v junk reg val :
  packed_is_padded s = true -> fits (v :: l) ->
  append_tail (at_buf s (l ++ [v]) junk) reg val 0 true =
  append_tail (at_buf (set_padded s false) l (v :: junk)) reg val 0 true.
Proof.
  intros Hp Hf. unfold append_tail.
  change (set_last_reg_idx (at_buf ?a ?l ?j) reg 0) with (at_buf (set_last_reg_idx a reg 0) l j).
  change (packed_is_padded (at_buf (set_last_reg_idx s reg 0) _ _)) with (packed_is_padded s).
  rewrite Hp.
  change (packed_is_padded (at_buf (set_last_reg_idx (set_padded s false) reg 0) _ _)) with false.
  cbv iota.
  change (set_padded (at_buf (set_last_reg_idx s reg 0) ?l ?j) false)
    with (at_buf (set_last_reg_idx (set_padded s false) reg 0) l j).
  rewrite <- (set_ndw_shrink (set_last_reg_idx (set_padded s false) reg 0)) by done. done.
Qed.

Section FinishPacked.
Context (s : ac_pm4_state) (ps : list (packet * bool)) (op b : Z) (h c reg val : Z).
Context (Hbl : building s ps op) (Hb : packed_base op = Some b).
Context (HN : op <> PKT3_SET_SH_REG_PAIRS_PACKED_N).
Context (Hreg : 0 <= reg < 2 ^ 16) (Hval : in_u32 val).

Let E := encode_packets ps.*1.

Definition finish_packed_post (ws : list (Z * Z)) (junk : list Z) (u : list (Z * Z)) : Prop :=
  max_dw s = Z.of_nat (length ((E ++ h :: c :: packed_body ws) ++ junk)) ->
  exists s' cam ws2 pad2,
    (let* s1 := append_tail (at_buf s (E ++ h :: c :: packed_body ws) junk) reg val 0 true in
     ac_pm4_cmd_end is_pgm_lo s1 false) = Ok s' /\
    pm4_inv s' ps (Some (PktPacked op cam ws2, pad2)) /\
    unpadded ws2 pad2 = u ++ [(reg, val)] /\ pad2 = negb (packed_is_padded s) /\
    ndw s' <= Z.of_nat (length E) + 2 + Z.of_nat (length (packed_body ws)) +
              (if packed_is_padded s then 0 else 3) /\ same_conf s s'.

Lemma finish_packed_even ws x y z z' junk :
  packed_is_padded s = false -> Nat.Even (length ws) -> Forall write_ok ws ->
  finish_packed_post ws (x :: y :: z :: z' :: junk) ws.
Proof.
  intros Hp He Hws Hmax. pose proof Hbl as (Ho & Hl & Hm & Hok & Hpad). fold E in Hl.
  rewrite length_app in Hmax. rewrite (length_app E) in Hmax. cbn [length] in Hmax.
  pose proof (length_packed_body ws He) as Hlen.
  rewrite append_tail_even; try done; [|cbn [length]; rewrite length_app; cbn [length]; lia].
  cbn [res_bind]. set (ws1 := ws ++ [(reg, val)]).
  assert (Hws1 : Forall write_ok ws1).
  { apply Forall_app. split; [done|]. by apply Forall_singleton. }
  assert (Ho1 : Nat.Odd (length ws1)).
  { unfold ws1. rewrite length_app. destruct He as [m ->]. exists m. simpl. lia. }
  pose proof (length_packed_body_odd ws1 Ho1) as Hlen1.
  assert (Hlw : length ws1 = (length ws + 1)%nat) by (unfold ws1; by rewrite length_app).
  destruct ws1 as [|[r0 v0] ws1'] eqn:Ews1; [by destruct ws|]. rewrite <- Ews1 in *.
  destruct (cmd_end_odd (set_last_reg_idx s reg 0) E h c op b ws1 z (z' :: junk) r0 v0) as [cam Hc]; try done.
  { by rewrite Ews1. }
  { rewrite length_app. cbn [length max_dw set_last_reg_idx]. destruct He as [m Hm']. zdivmod. }
  rewrite Hc. eexists _, cam, (ws1 ++ [(r0, v0)]), true. split; [reflexivity|].
  set (s1 := set_padded _ true). rewrite Hp.
  split; [|split; [|split; [done|split; [|done]]]].
  - assert (Hl2 : Nat.Even (length (ws1 ++ [(r0, v0)]))).
    { rewrite length_app. destruct Ho1 as [m ->]. exists (S m). simpl. lia. }
    pose proof (length_packed_body _ Hl2) as Hlen2. rewrite length_app in Hlen2.
    cbn [length] in Hlen2. destruct He as [m Hm'].
    apply (inv_intro s1 ps op); try done.
    + cbn [packet_ok]. split; [by exists b|]. rewrite length_app. cbn [length].
      split; [|split; [zdivmod|by rewrite length_app in Hl2]].
      apply Forall_app. split; [by apply write_ok_off|].
      apply Forall_singleton. rewrite Ews1 in Hws1. inversion Hws1 as [|? ? [? _]]. done.
    + intros _. exists op, cam, (r0, v0), ws1'. by rewrite Ews1.
    + split; [done|]. split; [|done]. apply Forall_app. split; [done|].
      apply Forall_singleton. rewrite Ews1 in Hws1. by inversion Hws1.
    + change (max_dw s1) with (max_dw s). rewrite Hmax, length_app, (length_app E). cbn [encode_packet length].
      zdivmod.
  - unfold unpadded. by rewrite removelast_snoc.
  - cbn [ndw at_buf]. rewrite length_app. cbn [encode_packet length].
    assert (Hl2 : Nat.Even (length (ws1 ++ [(r0, v0)]))).
    { rewrite length_app. destruct Ho1 as [m ->]. exists (S m). simpl. lia. }
    pose proof (length_packed_body _ Hl2) as Hlen2. rewrite length_app in Hlen2.
    cbn [length] in Hlen2. destruct He as [m Hm']. zdivmod.
Qed.

Lemma finish_packed_padded ws w0 junk :
  packed_is_padded s = true -> Nat.Even (length (w0 :: ws ++ [w0])) ->
  Forall write_ok (w0 :: ws ++ [w0]) ->
  finish_packed_post (w0 :: ws ++ [w0]) junk (w0 :: ws).
Proof.
  intros Hp He Hws Hmax. pose proof Hbl as (Ho & Hl & Hm & Hok & Hpad). fold E in Hl.
  rewrite app_comm_cons in *. set (u := w0 :: ws) in *. destruct w0 as [r0 v0].
  assert (Hodd : Nat.Odd (length u)).
  { rewrite length_app in He. destruct He as [m Hm']. simpl in Hm'. exists (m - 1)%nat. simpl. lia. }
  destruct (odd_snoc u Hodd) as (u' & [rl vl] & Eu & He').
  assert (Epb : packed_body (u ++ [(r0, v0)]) = packed_body u' ++ [rl + r0 * 2 ^ 16; vl; v0]).
  { rewrite Eu, <- (assoc_L app), packed_body_app by done. done. }
  apply Forall_app in Hws as [Hwu _].
  assert (Hrl : write_ok (rl, vl)).
  { rewrite Eu in Hwu. apply Forall_app in Hwu as [_ Hwu]. by inversion Hwu. }
  destruct Hrl as [Hrl _]. unfold off_ok in Hrl. simpl in Hrl.
  rewrite length_app in Hmax. rewrite (length_app E) in Hmax. cbn [length] in Hmax.
  rewrite Epb in *. rewrite length_app in Hmax. cbn [length] in Hmax.
  replace (E ++ h :: c :: packed_body u' ++ [rl + r0 * 2 ^ 16; vl; v0])
    with ((E ++ h :: c :: packed_body u' ++ [rl + r0 * 2 ^ 16; vl]) ++ [v0]) by
    (rewrite <- !(assoc_L app); cbn [app]; by rewrite <- !(assoc_L app)).
  rewrite append_tail_unpad; [|done|cbn [length]; rewrite !length_app; cbn [length];
    rewrite length_app; cbn [length]; lia].
  rewrite append_tail_odd; try done;
    [|cbn [length]; rewrite !length_app; cbn [length]; rewrite length_app; cbn [length]; lia].
  cbn [res_bind]. replace (u' ++ [(rl, vl); (reg, val)]) with (u ++ [(reg, val)])
    by (rewrite Eu, <- (assoc_L app); done).
  set (ws2 := u ++ [(reg, val)]) in *.
  assert (He2 : Nat.Even (length ws2)) by (unfold ws2; rewrite length_app in *; done).
  assert (Hpb2 : length (packed_body ws2) = (length (packed_body u') + 3)%nat).
  { unfold ws2. rewrite Eu, <- (assoc_L app), packed_body_app, length_app by done. done. }
  pose proof (length_packed_body _ He2) as Hlen2.
  assert (Hlpos : (0 < length ws2)%nat) by (unfold ws2; rewrite length_app; simpl; lia).
  destruct (cmd_end_even (set_last_reg_idx (set_padded s false) reg 0) E h c Hl op Ho b Hb 1 ws2 junk He2)
    as [cam Hc].
  { destruct He2 as [m Hm']. zdivmod. }
  unfold ac_pm4_cmd_end. rewrite Hc. eexists _, cam, ws2, false. split; [reflexivity|].
  assert (Hws2 : Forall write_ok ws2)
    by (apply Forall_app; split; [done|by apply Forall_singleton]).
  rewrite Hp. split; [|split; [done|split; [done|split; [|done]]]].
  - apply (inv_intro _ ps op); try done.
    + cbn [packet_ok]. split; [by exists b|]. split; [by apply write_ok_off|].
      split; [|done]. destruct He2 as [m Hm']. zdivmod.
    + cbn [max_dw set_last_reg_idx set_padded]. rewrite Hmax, length_app, (length_app E).
      cbn [encode_packet length]. lia.
  - cbn [ndw at_buf]. rewrite !length_app. cbn [encode_packet length]. lia.
Qed.

End FinishPacked.

(** Closes the padding part of the specification of a register write. *)
Ltac set_pad :=
  first [ intros _; right; by eexists
        | let H := fresh in
          unfold has_pad in *; simpl in *; rewrite ?orb_false_r in *; intros H; left; auto ].

(** *** The open packet has the kind of its opcode *)

Lemma cur_seq s ps cur op b :
  pm4_inv s ps cur -> last_opcode s = op -> seq_base op = Some b ->
  exists cam r idx vals, cur = Some (PktSeq op cam r idx vals, false).
Proof.
  intros (_ & _ & _ & _ & _ & _ & Hcur) Hop Hb. destruct cur as [[p pad]|]; cycle 1.
  { destruct Hcur as [H _]. rewrite Hop in H. congruence. }
  destruct Hcur as (_ & Hp & Hpd & _ & Ho & Htr). simpl in Hp, Ho. rewrite Hop in Ho.
  destruct p as [op' cam r idx vals|op' cam ws|op' cam ws|op' body]; [..|done]; simpl in Ho; subst op'.
  - exists cam, r, idx, vals. destruct pad; [|done]. by destruct (Hpd eq_refl) as (? & ? & ? & ? & [=]).
  - destruct Hp as ([b' Hb'] & _). apply base_excl_pairs in Hb'. congruence.
  - destruct Hp as ([b' Hb'] & _). apply base_excl_packed in Hb' as [? _]. congruence.
Qed.

Lemma cur_pairs s ps cur op b :
  pm4_inv s ps cur -> last_opcode s = op -> pairs_base op = Some b ->
  exists cam ws, cur = Some (PktPairs op cam ws, false).
Proof.
  intros (_ & _ & _ & _ & _ & _ & Hcur) Hop Hb. destruct cur as [[p pad]|]; cycle 1.
  { destruct Hcur as (_ & H & _). rewrite Hop in H. congruence. }
  destruct Hcur as (_ & Hp & Hpd & _ & Ho & Htr). simpl in Hp, Ho. rewrite Hop in Ho.
  destruct p as [op' cam r idx vals|op' cam ws|op' cam ws|op' body]; [..|done]; simpl in Ho; subst op'.
  - destruct Hp as ([b' Hb'] & _). apply base_excl_pairs in Hb. congruence.
  - exists cam, ws. destruct pad; [|done]. by destruct (Hpd eq_refl) as (? & ? & ? & ? & [=]).
  - destruct Hp as ([b' Hb'] & _). apply base_excl_packed in Hb' as [_ ?]. congruence.
Qed.

Lemma cur_packed s ps cur op b :
  pm4_inv s ps cur -> last_opcode s = op -> packed_base op = Some b ->
  exists cam ws pad, cur = Some (PktPacked op cam ws, pad).
Proof.
  intros (_ & _ & _ & _ & _ & _ & Hcur) Hop Hb. destruct (base_excl_packed _ _ Hb) as [Hb1 Hb2].
  destruct cur as [[p pad]|]; cycle 1.
  { destruct Hcur as (_ & _ & H). rewrite Hop in H. congruence. }
  destruct Hcur as (_ & Hp & _ & _ & Ho & Htr). simpl in Hp, Ho. rewrite Hop in Ho.
  destruct p as [op' cam r idx vals|op' cam ws|op' cam ws|op' body]; [..|done]; simpl in Ho; subst op'.
  - destruct Hp as ([b' Hb'] & _). congruence.
  - destruct Hp as ([b' Hb'] & _). congruence.
  - by exists cam, ws, pad.
Qed.

(** The register space of any SET opcode. *)
Definition set_base (op : Z) : option Z :=
  match seq_base op, pairs_base op with
  | Some b, _ => Some b
  | None, Some b => Some b
  | None, None => packed_base op
  end.

(** The dwords a register write adds: a new packet, or one more register of the open one. *)
Definition reg_cost (s : ac_pm4_state) (op r idx : Z) : Z :=
  if bool_decide (is_Some (packed_base op)) then
    if op =? last_opcode s then (if packed_is_padded s then 0 else 3) else 5
  else if bool_decide (is_Some (pairs_base op)) then
    if op =? last_opcode s then 2 else 3
  else if (op =? last_opcode s) && (r =? last_reg s + 1) && (idx =? last_idx s) then 1 else 3.

(** How the write of register [r] changes the size and what the next write will find. *)
Definition lay_post (s s' : ac_pm4_state) (op r idx : Z) : Prop :=
  ndw s' <= ndw s + reg_cost s op r idx /\ last_opcode s' = op /\
  (is_Some (seq_base op) -> last_reg s' = r /\ last_idx s' = idx) /\
  (is_Some (packed_base op) ->
     packed_is_padded s' = negb ((op =? last_opcode s) && packed_is_padded s)).

Definition set_reg_post s ps cur reg val op idx b : Prop :=
  exists s' ps' cur',
    ac_pm4_set_reg_custom is_pgm_lo s reg val op idx = Ok s' /\
    pm4_inv s' ps' (Some cur') /\
    log_of ps' (Some cur') = log_of ps cur ++ [(b + 4 * (reg / 4), val)] /\
    lay_post s s' op (reg / 4) idx /\ same_conf s s' /\
    (has_pad ps' (Some cur') = true -> has_pad ps cur = true \/ is_Some (packed_base op)).

Lemma inv_building s ps p pad :
  pm4_inv s ps (Some (p, pad)) -> building s ps (packet_op p).
Proof. by intros (_ & _ & Hm & Hm4 & Hok & Hpad & Hl & _ & _ & _ & Ho & _). Qed.

Section SetReg.
Context (s : ac_pm4_state) (ps : list (packet * bool)) (cur : option (packet * bool)).
Context (reg val op idx b : Z).
Context (Hinv : pm4_inv s ps cur) (Hroom : ndw s + 6 <= max_dw s).
Context (Hreg : 0 <= reg < 0x40000) (Hval : in_u32 val) (Hidx : 0 <= idx < 16).

Let r := reg / 4.

Lemma reg_shift : Z.shiftr reg 2 = r /\ 0 <= r < 2 ^ 16.
Proof. unfold r. rewrite shiftr_div by lia. zdivmod. Qed.

Lemma ndw_nonneg : 0 <= ndw s.
Proof. destruct Hinv as (_ & -> & _). lia. Qed.

(** The two capacity assertions at the top. *)
Lemma set_reg_asserts (k : unit -> unit -> res ac_pm4_state) :
  res_bind (assert_ (negb (max_dw s =? 0)))
    (fun u => res_bind (assert_ (ndw s + 2 <=? max_dw s)) (k u)) = k tt tt.
Proof.
  pose proof ndw_nonneg. step_assert; [|apply negb_true_iff, Z.eqb_neq; lia].
  step_assert; [done|apply Z.leb_le; lia].
Qed.

Lemma lay_seq s' ps' cam r0 vals :
  seq_base op = Some b -> pairs_base op = None -> packed_base op = None ->
  pm4_inv s' ps' (Some (PktSeq op cam r0 idx vals, false)) -> r = r0 + Z.of_nat (length vals) - 1 ->
  ndw s' <= ndw s +
    (if (op =? last_opcode s) && (r =? last_reg s + 1) && (idx =? last_idx s) then 1 else 3) ->
  lay_post s s' op r idx.
Proof.
  clear Hinv Hroom Hreg Hval Hidx.
  intros Hb Hpr Hpk Hi Hr Hn. unfold lay_post, reg_cost. rewrite Hpr, Hpk.
  rewrite !bool_decide_false by (by intros [? ?]). split; [exact Hn|].
  destruct Hi as (_ & _ & _ & _ & _ & _ & _ & _ & _ & _ & Ho & Hrg & Hix). simpl in Ho.
  split; [done|]. split; [intros _; split; [lia|done]|by intros [? ?]].
Qed.

Lemma lay_pairs s' ps' cam ws i :
  pairs_base op = Some b -> packed_base op = None ->
  pm4_inv s' ps' (Some (PktPairs op cam ws, false)) ->
  ndw s' <= ndw s + (if op =? last_opcode s then 2 else 3) -> lay_post s s' op r i.
Proof.
  clear Hinv Hroom Hreg Hval Hidx.
  intros Hb Hpk Hi Hn. unfold lay_post, reg_cost. rewrite Hpk, Hb.
  rewrite bool_decide_false by (by intros [? ?]). rewrite bool_decide_true by (by exists b).
  split; [exact Hn|]. destruct Hi as (_ & _ & _ & _ & _ & _ & _ & _ & _ & _ & Ho & _). simpl in Ho.
  apply base_excl_pairs in Hb. rewrite Hb. split; [done|]. split; by intros [? ?].
Qed.

Lemma lay_packed s' ps' cam ws i :
  packed_base op = Some b ->
  pm4_inv s' ps' (Some (PktPacked op cam ws, negb ((op =? last_opcode s) && packed_is_padded s))) ->
  ndw s' <= ndw s + (if op =? last_opcode s then (if packed_is_padded s then 0 else 3) else 5) ->
  lay_post s s' op r i.
Proof.
  clear Hinv Hroom Hreg Hval Hidx.
  intros Hb Hi Hn. unfold lay_post, reg_cost. rewrite Hb.
  rewrite bool_decide_true by (by exists b). split; [exact Hn|].
  destruct Hi as (_ & _ & _ & _ & _ & _ & _ & _ & _ & Hpd & Ho & _). simpl in Ho, Hpd.
  apply base_excl_packed in Hb as [Hb _]. rewrite Hb. split; [done|]. split; [by intros [? ?]|done].
Qed.

(** What the three kinds of packets share: the assertions pass and the kind is known. *)
Lemma seq_excludes : seq_base op = Some b -> packed_base op = None /\ pairs_base op = None.
Proof.
  intros Hb. split.
  - destruct (packed_base op) eqn:Ep; [|done]. apply base_excl_packed in Ep as [? _]. congruence.
  - destruct (pairs_base op) eqn:Ep; [|done]. apply base_excl_pairs in Ep. congruence.
Qed.

(** Whether a SET packet of consecutive registers goes on. *)
Definition opens_seq : bool :=
  negb (op =? last_opcode s) || negb (r =? last_reg s + 1) || negb (idx =? last_idx s).

Ltac enter_seq Hb :=
  destruct reg_shift as [Er Hr]; pose proof ndw_nonneg as Hn0;
  destruct (seq_base_cases _ _ Hb) as (Hop & _ & _); destruct (seq_excludes Hb) as [Hpk Hpr];
  unfold set_reg_post, ac_pm4_set_reg_custom; rewrite set_reg_append_split; cbv zeta;
  rewrite Er, set_reg_asserts, opcode_is_pairs_packed_base, opcode_is_pairs_base, Hpk, Hpr;
  rewrite !bool_decide_false by (by intros [? ?]).

Lemma set_reg_seq_open :
  seq_base op = Some b -> opens_seq = true -> set_reg_post s ps cur reg val op idx b.
Proof.
  intros Hb Ec. unfold opens_seq in Ec. enter_seq Hb. rewrite Ec.
  destruct (cmd_begin_spec s ps cur op Hinv) as
    (s1 & ps' & x & junk & -> & [Hlog Hpp] & Hbl & Hpd & Hc & Hle & Hmax); [lia| |].
  { unfold seq_base in Hb. repeat case_match; rewrite ?orb_true_iff, ?Z.eqb_eq in *;
      destruct_or?; subst; done. }
  assert (Hmx : max_dw s1 = max_dw s) by apply Hc. rewrite !length_app in Hmax. cbn [length] in Hmax.
  destruct junk as [|y [|z junk]]; [cbn [length] in Hmax; lia..|]. cbn [length] in Hmax.
  cbn [res_bind]. rewrite push_dw_at
    by (cbn [length]; rewrite length_app; cbn [length]; destruct Hbl as (_ & _ & ? & _); lia).
  rewrite u32_small; cycle 1.
  { rewrite shiftl_mul, u32_small, Z.lor_comm, lor_disjoint_add by (unfold in_u32; lia).
    unfold in_u32. lia. }
  cbn [res_bind]. rewrite <- (assoc_L app). cbn [app].
  destruct (finish_seq s1 ps' op b r idx [] x z junk val Hbl Hb Hpd ltac:(lia)) as
    (s' & cam & E & Hinv' & Hn' & Hc'); [simpl; lia|done|done| |].
  { rewrite Hmax, length_app, (length_app (encode_packets _)). cbn [length]. lia. }
  cbn [length Z.of_nat] in E. rewrite Z.add_0_r in E. rewrite E. eexists _, ps', _. split; [reflexivity|].
  split; [exact Hinv'|]. split; [|split; [|split; [by eapply same_conf_trans|set_pad]]]; cycle 1.
  { apply (lay_seq _ _ _ _ _ Hb Hpr Hpk Hinv'); [simpl; lia|].
    rewrite <- !negb_andb in Ec. apply negb_true_iff in Ec. rewrite Ec. simpl in Hn'. lia. }
  rewrite <- Hlog. unfold log_of. rewrite app_nil_r. f_equal. unfold logical. cbn [fst snd packet_writes].
  rewrite Hb. cbn [app default]. rewrite seq_ws_cons. unfold seq_ws. simpl. done.
Qed.

Lemma set_reg_seq_extend :
  seq_base op = Some b -> opens_seq = false -> set_reg_post s ps cur reg val op idx b.
Proof.
  intros Hb Ec. unfold opens_seq in Ec. enter_seq Hb. rewrite Ec.
  apply orb_false_iff in Ec as [Ec E3%negb_false_iff%Z.eqb_eq].
  apply orb_false_iff in Ec as [E1%negb_false_iff%Z.eqb_eq E2%negb_false_iff%Z.eqb_eq].
  destruct (cur_seq s ps cur op b Hinv (eq_sym E1) Hb) as (cam0 & r0 & idx0 & vals & ->).
  pose proof (inv_building _ _ _ _ Hinv) as Hbl. destruct (inv_view _ _ _ Hinv) as [junk Hs].
  destruct Hinv as (_ & Hn & Hmax & Hm & _ & _ & Hl & Hp & _ & Hpd & _ & Htr & Hti).
  simpl in Hp, Hpd, Htr, Hti. destruct Hp as (_ & Hr0 & Hend & Hidx0 & Hvl).
  unfold buffer in Hs, Hn. cbn [fst encode_packet] in Hs, Hn.
  assert (Hpm : pm4 s = (encode_packets ps.*1 ++
    pkt3_header op (Z.of_nat (length vals)) cam0 :: Z.lor r0 (u32 (Z.shiftl idx0 28)) :: vals) ++ junk)
    by (by rewrite Hs).
  rewrite Hpm in Hmax. rewrite length_app in Hmax. rewrite length_app in Hmax, Hn.
  cbn [length] in Hmax, Hn. destruct junk as [|x junk]; [simpl in Hmax; lia|].
  destruct (finish_seq s ps op b r0 idx0 vals (pkt3_header op (Z.of_nat (length vals)) cam0) x junk val
    Hbl Hb Hpd Hr0) as (s' & cam & E & Hinv' & Hn' & Hc'); [lia|done|done| |].
  { rewrite Hmax, length_app, (length_app (encode_packets _)). cbn [length]. lia. }
  rewrite <- Hs in E. cbn [res_bind]. assert (Hii : idx0 = idx) by congruence. rewrite Hii in Hinv', E, Hti.
  replace r with (r0 + Z.of_nat (length vals)) by lia. rewrite E.
  eexists _, ps, _. split; [reflexivity|]. split; [exact Hinv'|].
  split; [|split; [|split; [done|set_pad]]]; cycle 1.
  { apply (lay_seq _ _ _ _ _ Hb Hpr Hpk Hinv'); [rewrite length_app; simpl; lia|].
    rewrite <- E1, Hti, !Z.eqb_refl, (proj2 (Z.eqb_eq _ _) E2). simpl. lia. }
  unfold log_of. rewrite <- (assoc_L app). f_equal. unfold logical. cbn [fst snd packet_writes].
  rewrite Hb. cbn [default]. rewrite seq_ws_snoc, writes_at_snoc. do 3 f_equal. unfold id. fold r. lia.
Qed.

Lemma set_reg_seq : seq_base op = Some b -> set_reg_post s ps cur reg val op idx b.
Proof.
  intros Hb. destruct opens_seq eqn:E; [by apply set_reg_seq_open|by apply set_reg_seq_extend].
Qed.

Lemma set_reg_pairs_extend :
  pairs_base op = Some b -> idx = 0 ->
  op = last_opcode s -> set_reg_post s ps cur reg val op idx b.
Proof.
  intros Hb Hi0. destruct reg_shift as [Er Hr]. pose proof ndw_nonneg as Hn0.
  destruct (pairs_base_cases _ _ Hb) as (Hop & _ & _).
  assert (Hpk : packed_base op = None).
  { destruct (packed_base op) eqn:Ep; [|done]. apply base_excl_packed in Ep as [_ ?]. congruence. }
  unfold set_reg_post, ac_pm4_set_reg_custom. rewrite set_reg_append_split. cbv zeta.
  rewrite Er, set_reg_asserts, opcode_is_pairs_packed_base, opcode_is_pairs_base, Hpk, Hb, Hi0.
  rewrite bool_decide_false by (by intros [? ?]). rewrite bool_decide_true by (by exists b).
  step_assert; [|done]. intros E1. rewrite (proj2 (Z.eqb_eq _ _) E1). cbn [negb].
  destruct (cur_pairs s ps cur op b Hinv (eq_sym E1) Hb) as (cam0 & ws & ->).
  pose proof (inv_building _ _ _ _ Hinv) as Hbl. destruct (inv_view _ _ _ Hinv) as [junk Hs].
  destruct Hinv as (_ & Hn & Hmax & Hm & _ & _ & Hl & Hp & _ & Hpd & _).
  simpl in Hp, Hpd. destruct Hp as (_ & Hws & _).
  unfold buffer in Hs, Hn. cbn [fst encode_packet] in Hs, Hn.
  set (h := pkt3_header op _ cam0) in *.
  assert (Hpm : pm4 s = (encode_packets ps.*1 ++ h :: pairs_body ws) ++ junk) by (by rewrite Hs).
  rewrite Hpm in Hmax. rewrite length_app in Hmax. rewrite length_app in Hmax, Hn.
  cbn [length] in Hmax, Hn. rewrite length_pairs_body in Hmax, Hn.
  destruct junk as [|y [|x junk]]; [simpl in Hmax; lia..|]. cbn [length] in Hmax.
  cbn [res_bind]. rewrite Hs, push_dw_at
    by (cbn [length]; rewrite length_app; cbn [length]; rewrite length_pairs_body; lia).
  rewrite u32_small by (unfold in_u32; lia). cbn [res_bind]. rewrite <- (assoc_L app). cbn [app].
  destruct (finish_pairs s ps op b ws r h x junk val Hbl Hb Hpd Hr Hws Hval) as
    (s' & cam & E & Hinv' & Hn' & Hc').
  { rewrite Hmax, length_app, (length_app (encode_packets _)). cbn [length].
    rewrite length_app, length_pairs_body. cbn [length]. lia. }
  rewrite E. eexists _, ps, _. split; [reflexivity|]. split; [exact Hinv'|].
  split; [|split; [|split; [done|set_pad]]]; cycle 1.
  { rewrite <- Hs. apply (lay_pairs _ _ _ _ _ Hb Hpk Hinv'). rewrite <- E1, Z.eqb_refl. lia. }
  unfold log_of. rewrite <- (assoc_L app). f_equal. unfold logical. cbn [fst snd packet_writes].
  rewrite Hb. by rewrite writes_at_snoc.
Qed.

Lemma set_reg_pairs_open :
  pairs_base op = Some b -> idx = 0 ->
  op <> last_opcode s -> set_reg_post s ps cur reg val op idx b.
Proof.
  intros Hb Hi0. destruct reg_shift as [Er Hr]. pose proof ndw_nonneg as Hn0.
  destruct (pairs_base_cases _ _ Hb) as (Hop & _ & _).
  assert (Hpk : packed_base op = None).
  { destruct (packed_base op) eqn:Ep; [|done]. apply base_excl_packed in Ep as [_ ?]. congruence. }
  unfold set_reg_post, ac_pm4_set_reg_custom. rewrite set_reg_append_split. cbv zeta.
  rewrite Er, set_reg_asserts, opcode_is_pairs_packed_base, opcode_is_pairs_base, Hpk, Hb, Hi0.
  rewrite bool_decide_false by (by intros [? ?]). rewrite bool_decide_true by (by exists b).
  step_assert; [|done]. intros E1. rewrite (proj2 (Z.eqb_neq _ _) E1). cbn [negb].
  destruct (cmd_begin_spec s ps cur op Hinv) as
    (s1 & ps' & x & junk & -> & [Hlog Hpp] & Hbl & Hpd & Hc & Hle & Hmax); [lia| |].
  { unfold pairs_base in Hb. repeat case_match; rewrite ?Z.eqb_eq in *; subst; done. }
  assert (Hmx : max_dw s1 = max_dw s) by apply Hc. rewrite !length_app in Hmax. cbn [length] in Hmax.
  destruct junk as [|y [|z junk]]; [cbn [length] in Hmax; lia..|]. cbn [length] in Hmax.
  cbn [res_bind]. rewrite push_dw_at
    by (cbn [length]; rewrite length_app; cbn [length]; destruct Hbl as (_ & _ & ? & _); lia).
  rewrite u32_small by (unfold in_u32; lia). cbn [res_bind]. rewrite <- (assoc_L app). cbn [app].
  destruct (finish_pairs s1 ps' op b [] r x z junk val Hbl Hb Hpd Hr (Forall_nil_2 _) Hval) as
    (s' & cam & E & Hinv' & Hn' & Hc').
  { rewrite Hmax, length_app, (length_app (encode_packets _)). cbn [length pairs_body app]. lia. }
  cbn [pairs_body app] in E. rewrite E. eexists _, ps', _. split; [reflexivity|].
  split; [exact Hinv'|]. split; [|split; [|split; [by eapply same_conf_trans|set_pad]]]; cycle 1.
  { apply (lay_pairs _ _ _ _ _ Hb Hpk Hinv'). rewrite (proj2 (Z.eqb_neq _ _) E1). simpl in Hn'. lia. }
  rewrite <- Hlog. unfold log_of. rewrite app_nil_r. f_equal. unfold logical. cbn [fst snd packet_writes].
  by rewrite Hb.
Qed.

Lemma set_reg_pairs : pairs_base op = Some b -> idx = 0 -> set_reg_post s ps cur reg val op idx b.
Proof.
  intros. destruct (decide (op = last_opcode s)); [by apply set_reg_pairs_extend|by apply set_reg_pairs_open].
Qed.

Lemma set_reg_packed_extend :
  packed_base op = Some b -> idx = 0 -> op <> PKT3_SET_SH_REG_PAIRS_PACKED_N ->
  op = last_opcode s -> set_reg_post s ps cur reg val op idx b.
Proof.
  intros Hb Hi0 HN. destruct reg_shift as [Er Hr]. pose proof ndw_nonneg as Hn0.
  destruct (packed_base_cases _ _ Hb) as (Hop & _ & _).
  unfold set_reg_post, ac_pm4_set_reg_custom. rewrite set_reg_append_split. cbv zeta.
  rewrite Er, set_reg_asserts, opcode_is_pairs_packed_base, Hb, Hi0.
  rewrite bool_decide_true by (by exists b).
  step_assert; [|done]. intros E1. rewrite (proj2 (Z.eqb_eq _ _) E1). cbn [negb].
  destruct (cur_packed s ps cur op b Hinv (eq_sym E1) Hb) as (cam0 & ws & pad & ->).
  pose proof (inv_building _ _ _ _ Hinv) as Hbl. destruct (inv_view _ _ _ Hinv) as [junk Hs].
  destruct Hinv as (_ & Hn & Hmax & Hm & _ & _ & Hl & Hp & Hpdok & Hpd & _ & Hws & _).
  simpl in Hp, Hpd, Hws. destruct Hp as (_ & _ & _ & He).
  unfold buffer in Hs, Hn. cbn [fst encode_packet] in Hs, Hn.
  set (h := pkt3_header op _ cam0) in *. set (c := Z.of_nat (length ws)) in *.
  assert (Hpm : pm4 s = (encode_packets ps.*1 ++ h :: c :: packed_body ws) ++ junk) by (by rewrite Hs).
  rewrite Hpm in Hmax. pose proof Hmax as Hmax'.
  rewrite length_app in Hmax. rewrite length_app in Hmax, Hn. cbn [length] in Hmax, Hn.
  assert (Hpost : finish_packed_post s ps op h c r val ws junk (unpadded ws pad)).
  { destruct pad.
    - destruct (Hpdok eq_refl) as (op' & cam' & w0 & ws' & [= _ _ ->]).
      replace (unpadded (w0 :: ws' ++ [w0]) true) with (w0 :: ws')
        by (unfold unpadded; by rewrite app_comm_cons, removelast_snoc).
      by apply (finish_packed_padded s ps op b).
    - destruct junk as [|j1 [|j2 [|j3 [|j4 junk]]]]; [simpl in Hmax; lia..|].
      by apply (finish_packed_even s ps op b). }
  destruct (Hpost Hmax') as (s' & cam & ws2 & pad2 & E & Hinv' & Hun & -> & Hn' & Hc').
  cbn [res_bind]. rewrite <- Hs in E. rewrite E.
  eexists _, ps, _. split; [reflexivity|]. split; [exact Hinv'|].
  split; [|split; [|split; [done|set_pad]]]; cycle 1.
  { apply (lay_packed s' ps cam ws2 _ Hb); rewrite <- E1, Z.eqb_refl; [exact Hinv'|lia]. }
  unfold log_of. rewrite <- (assoc_L app). f_equal.
  assert (Hpd2 : pad_ok (PktPacked op cam ws2, negb (packed_is_padded s))) by apply Hinv'.
  rewrite (proj1 (logical_packed _ _ _ _ Hpd2)), (proj1 (logical_packed _ _ _ _ Hpdok)), Hb, Hun.
  by rewrite writes_at_snoc.
Qed.

Lemma set_reg_packed_open :
  packed_base op = Some b -> idx = 0 -> op <> PKT3_SET_SH_REG_PAIRS_PACKED_N ->
  op <> last_opcode s -> set_reg_post s ps cur reg val op idx b.
Proof.
  intros Hb Hi0 HN. destruct reg_shift as [Er Hr]. pose proof ndw_nonneg as Hn0.
  destruct (packed_base_cases _ _ Hb) as (Hop & _ & _).
  unfold set_reg_post, ac_pm4_set_reg_custom. rewrite set_reg_append_split. cbv zeta.
  rewrite Er, set_reg_asserts, opcode_is_pairs_packed_base, Hb, Hi0.
  rewrite bool_decide_true by (by exists b).
  step_assert; [|done]. intros E1. rewrite (proj2 (Z.eqb_neq _ _) E1). cbn [negb].
  destruct (cmd_begin_spec s ps cur op Hinv) as
    (s1 & ps' & x & junk & -> & [Hlog Hpp] & Hbl & Hpd & Hc & Hle & Hmax); [lia| |].
  { unfold packed_base in Hb. repeat case_match; rewrite ?orb_true_iff, ?Z.eqb_eq in *;
      destruct_or?; subst; done. }
  assert (Hmx : max_dw s1 = max_dw s) by apply Hc. rewrite !length_app in Hmax. cbn [length] in Hmax.
  destruct junk as [|c [|j1 [|j2 [|j3 [|j4 junk]]]]]; [cbn [length] in Hmax; lia..|].
  cbn [length] in Hmax. cbn [res_bind]. rewrite set_ndw_grow
    by (cbn [length]; rewrite length_app; cbn [length]; destruct Hbl as (_ & _ & ? & _); lia).
  rewrite <- (assoc_L app). cbn [app].
  destruct (finish_packed_even s1 ps' op b x c r val Hbl Hb HN Hr Hval [] j1 j2 j3 j4 junk Hpd)
    as (s' & cam & ws2 & pad2 & E & Hinv' & Hun & Epad & Hn' & Hc'); [by exists 0%nat|done| |].
  { rewrite Hmax, length_app, (length_app (encode_packets _)). cbn [length packed_body]. lia. }
  cbn [packed_body] in E. rewrite E. eexists _, ps', _. split; [reflexivity|].
  split; [exact Hinv'|]. split; [|split; [|split; [by eapply same_conf_trans|set_pad]]]; cycle 1.
  { rewrite Hpd in Epad, Hn'. subst pad2.
    apply (lay_packed s' ps' cam ws2 _ Hb); rewrite (proj2 (Z.eqb_neq _ _) E1);
      [exact Hinv'|simpl in Hn'; lia]. }
  rewrite <- Hlog. unfold log_of. rewrite app_nil_r. f_equal.
  assert (Hpd2 : pad_ok (PktPacked op cam ws2, pad2)) by apply Hinv'.
  by rewrite (proj1 (logical_packed _ _ _ _ Hpd2)), Hb, Hun.
Qed.

Lemma set_reg_packed :
  packed_base op = Some b -> idx = 0 -> op <> PKT3_SET_SH_REG_PAIRS_PACKED_N ->
  set_reg_post s ps cur reg val op idx b.
Proof.
  intros. destruct (decide (op = last_opcode s)); [by apply set_reg_packed_extend|by apply set_reg_packed_open].
Qed.

(** One call of [ac_pm4_set_reg_custom] appends exactly one write. *)
Lemma set_reg_custom_spec :
  set_base op = Some b -> (seq_base op = None -> idx = 0) ->
  op <> PKT3_SET_SH_REG_PAIRS_PACKED_N -> set_reg_post s ps cur reg val op idx b.
Proof.
  unfold set_base. intros Hb Hi HN.
  destruct (seq_base op) as [b1|] eqn:E1; [injection Hb as ->; by apply set_reg_seq|].
  destruct (pairs_base op) as [b2|] eqn:E2; [injection Hb as ->; apply set_reg_pairs; auto|].
  apply set_reg_packed; auto.
Qed.
End SetReg.

End Builder.
