(* ===== verification/Pm4States.v ===== *)
(** Whole PM4 states: any sequence of [ac_pm4_set_reg] calls and hand-made packets on a
    state with room for it succeeds, and what the parser reads back is what was asked for.
    [lay_size] is the size of the packets a sequence produces, computed from the registers
    alone; it is what decides whether a state has room. *)

From stdpp Require Import strings.
From S2P Require Import Prelude.
From S2P Require Import TitanRegMap.
From S2P Require Import Packets.
From S2P Require Import Pm4.
From S2P Require Import Pm4Proofs.

Section States.
Context (is_pgm_lo : Z -> bool) (getenv : string -> option string).

(** ** Where a call writes *)

(** The base address of a register space. *)
Definition space_base (opcode : Z) : Z := default 0 (seq_base opcode).

(** The byte address [ac_pm4_set_reg] writes for the address [reg] it is given. *)
Definition reg_dst (t : titan) (reg : Z) : option Z :=
  match reg_space reg with
  | None => None
  | Some (opcode, off) => Some (space_base opcode + 4 * (snd (preamble_reg getenv t opcode off) / 4))
  end.

(** The opcode and the dword offset of the write. *)
Definition reg_slot (i : radeon_info) (t : titan) (reg : Z) : option (Z * Z) :=
  match reg_space reg with
  | None => None
  | Some (opcode, off) => Some (pairs_opcode i opcode, snd (preamble_reg getenv t opcode off) / 4)
  end.

(** A register the theorems speak of: one of the four spaces, not privileged, whose
    destination stays in the 16-bit range of offsets. *)
Definition reg_ok (i : radeon_info) (t : titan) (reg : Z) : bool :=
  negb (privileged_on (gfx_level i) reg) &&
  match reg_space reg with
  | None => false
  | Some (opcode, off) =>
      let d := snd (preamble_reg getenv t opcode off) in (0 <=? d) && (d <? 0x40000)
  end.

(** A hand-made packet: a header of one of the control packets that announces the dwords
    that follow it. *)
Definition cmd_ok (dws : list Z) : bool :=
  match dws with
  | [] => false
  | h :: body =>
      let op := PKT3_IT_OPCODE_G h in
      let n := Z.of_nat (length body) in
      raw_op op && (h =? PKT3 op (n - 1) 0) && (0 <? n) && (n <? 0x4000)
  end.

Definition op_ok (i : radeon_info) (t : titan) (o : pm4_op) : bool :=
  match o with SetReg reg _ => reg_ok i t reg | CmdAdds dws => cmd_ok dws end.

(** The register writes a sequence asks for. *)
Definition op_write (t : titan) (o : pm4_op) : option write :=
  match o with
  | SetReg reg val => Some (default 0 (reg_dst t reg), u32 val)
  | CmdAdds _ => None
  end.

Definition requested (t : titan) (os : list pm4_op) : list write := omap (op_write t) os.

(** ** The size of a sequence *)

(** The open packet: its opcode, the last register and whether it is padded. *)
Abbreviation lay := (option (Z * Z * bool)).

Definition lay_step (op r : Z) (l : lay) : Z * lay :=
  let '(same, next, padded) :=
    match l with
    | Some (op', r', pad) => (op =? op', (op =? op') && (r =? r' + 1), pad)
    | None => (false, false, false)
    end in
  let cost :=
    if bool_decide (is_Some (packed_base op)) then (if same then if padded then 0 else 3 else 5)
    else if bool_decide (is_Some (pairs_base op)) then (if same then 2 else 3)
    else if next then 1 else 3 in
  (cost, Some (op, r, negb (same && padded))).

Fixpoint lay_size (i : radeon_info) (t : titan) (l : lay) (os : list pm4_op) : Z :=
  match os with
  | [] => 0
  | SetReg reg _ :: os' =>
      match reg_slot i t reg with
      | Some (op, r) => let '(c, l') := lay_step op r l in c + lay_size i t l' os'
      | None => lay_size i t l os'
      end
  | CmdAdds dws :: os' => Z.of_nat (length dws) + lay_size i t None os'
  end.

(** What a state has open. *)
Definition lay_rel (l : lay) (s : ac_pm4_state) : Prop :=
  match l with
  | None => no_set_op (last_opcode s)
  | Some (op, r, pad) =>
      last_opcode s = op /\ (is_Some (seq_base op) -> last_reg s = r /\ last_idx s = 0) /\
      (is_Some (packed_base op) -> packed_is_padded s = pad)
  end.

Lemma lay_step_nonneg op r l : 0 <= (lay_step op r l).1.
Proof. unfold lay_step. repeat case_match; simplify_eq/=; lia. Qed.

Lemma lay_size_nonneg i t l os : 0 <= lay_size i t l os.
Proof.
  revert l. induction os as [|[reg val|dws] os IH]; intros l; cbn [lay_size]; [lia| |].
  - destruct (reg_slot i t reg) as [[op r]|]; [|apply IH].
    pose proof (lay_step_nonneg op r l). destruct (lay_step op r l) as [c l']. pose proof (IH l').
    simpl in *. lia.
  - pose proof (IH None). lia.
Qed.

(** The cost the layout predicts is the cost of the write. *)
Lemma lay_step_sound l s op r b :
  lay_rel l s -> set_base op = Some b ->
  reg_cost s op r 0 = (lay_step op r l).1 /\
  (forall s', lay_post s s' op r 0 -> lay_rel (lay_step op r l).2 s').
Proof.
  intros Hl Hb. unfold reg_cost, lay_step, lay_post.
  destruct l as [[[op' r'] pad]|]; cbn [lay_rel fst snd] in *; cycle 1.
  { assert (Hne : (op =? last_opcode s) = false).
    { apply Z.eqb_neq. intros ->. destruct Hl as (H1 & H2 & H3). unfold set_base in Hb.
      rewrite H1, H2, H3 in Hb. done. }
    rewrite Hne. split; [done|]. intros s' (_ & Ho & Hs & Hp). by split_and!. }
  destruct Hl as (-> & Hs & Hp). split.
  - destruct (op =? op') eqn:E; [|by repeat case_bool_decide]. apply Z.eqb_eq in E as ->.
    repeat case_bool_decide; try (rewrite Hp by done); try done.
    assert (Hsq : is_Some (seq_base op')).
    { unfold set_base in Hb. destruct (seq_base op'); [by eexists|]. exfalso.
      destruct (pairs_base op'); [|destruct (packed_base op')]; eauto. }
    destruct (Hs Hsq) as [-> ->]. by rewrite andb_true_r.
  - intros s' (_ & Ho & Hs' & Hp'). split; [done|]. split; [done|]. intros Hpk.
    rewrite Hp' by done. destruct (op =? op') eqn:E; [|done]. apply Z.eqb_eq in E as ->.
    by rewrite Hp.
Qed.

Lemma preamble_reg_value t opcode off :
  exists t', preamble_reg getenv t opcode off = (t', snd (preamble_reg getenv t opcode off)) /\
    same_map t t'.
Proof.
  unfold preamble_reg. repeat case_match; simplify_eq/=;
    try (eexists; split; [reflexivity|done]);
    eexists; (split; [reflexivity|]);
    match goal with H : ac_titan_remap_dw _ _ _ _ = _ |- _ => rewrite remap_dw_quiet_agree in H end;
    simplify_eq/=; done.
Qed.

Lemma preamble_reg_same t t' opcode off :
  same_map t t' -> snd (preamble_reg getenv t' opcode off) = snd (preamble_reg getenv t opcode off).
Proof.
  intros Hm. unfold preamble_reg. rewrite !remap_dw_quiet_agree. unfold ac_titan_remap_dw_quiet.
  rewrite !(ctx_dw_same getenv t t'), !(sh_dw_same getenv t t') by done. destruct Hm as (-> & _).
  by repeat case_match.
Qed.

(** Choosing pairs keeps the register space. *)
Lemma regular_to_pairs_base s reg opcode off :
  reg_space reg = Some (opcode, off) ->
  set_base (regular_opcode_to_pairs s opcode) = Some (space_base opcode) /\
  regular_opcode_to_pairs s opcode <> PKT3_SET_SH_REG_PAIRS_PACKED_N /\
  (is_Some (packed_base (regular_opcode_to_pairs s opcode)) ->
     has_set_context_pairs_packed (info s) || has_set_sh_pairs_packed (info s) = true).
Proof.
  unfold reg_space. intros H. assert (Hop : opcode = PKT3_SET_CONFIG_REG \/ opcode = PKT3_SET_SH_REG \/
    opcode = PKT3_SET_CONTEXT_REG \/ opcode = PKT3_SET_UCONFIG_REG).
  { repeat case_match; simplify_eq; auto. }
  clear H. unfold regular_opcode_to_pairs, pairs_opcode.
  destruct Hop as [->|[->|[->| ->]]]; cbn [Z.eqb Pos.eqb PKT3_SET_CONFIG_REG PKT3_SET_SH_REG
    PKT3_SET_CONTEXT_REG PKT3_SET_UCONFIG_REG]; repeat case_match;
    (split; [reflexivity|split; [done|]]); try (by intros [? [=]]); intros _;
    rewrite ?orb_true_r; done.
Qed.

(** ** One call *)

Lemma set_reg_spec l t s ps cur reg val :
  pm4_inv s ps cur -> lay_rel l s -> ndw s + 6 <= max_dw s -> in_u32 val ->
  reg_ok (info s) t reg = true ->
  exists op r t' s' ps' cur', reg_slot (info s) t reg = Some (op, r) /\
    ac_pm4_set_reg is_pgm_lo getenv t s reg val = Ok (t', s') /\ same_map t t' /\
    pm4_inv s' ps' cur' /\ lay_rel (lay_step op r l).2 s' /\
    log_of ps' cur' = log_of ps cur ++ [(default 0 (reg_dst t reg), val)] /\
    ndw s' <= ndw s + (lay_step op r l).1 /\ same_conf s s' /\
    (has_pad ps' cur' = true -> has_pad ps cur = true \/
       has_set_context_pairs_packed (info s) || has_set_sh_pairs_packed (info s) = true).
Proof.
  intros Hinv Hlay Hroom Hval Hok. unfold reg_ok in Hok.
  apply andb_true_iff in Hok as [Hpriv%negb_true_iff Hok].
  unfold ac_pm4_set_reg, reg_dst, reg_slot. destruct (reg_space reg) as [[opcode off]|] eqn:Hsp; [|done].
  destruct (preamble_reg_value t opcode off) as (t' & Epr & Hsame).
  set (reg' := snd (preamble_reg getenv t opcode off)) in *.
  assert (Hoff : 0 <= reg' < 0x40000)
    by (apply andb_true_iff in Hok as [?%Z.leb_le ?%Z.ltb_lt]; lia).
  rewrite Epr. unfold is_privileged_reg. rewrite Hpriv.
  destruct (regular_to_pairs_base s reg opcode off Hsp) as (Hb & HN & Hpk).
  destruct (set_reg_custom_spec is_pgm_lo s ps cur reg' val (regular_opcode_to_pairs s opcode) 0
              (space_base opcode) Hinv Hroom Hoff Hval ltac:(lia) Hb ltac:(done) HN)
    as (s' & ps' & cur' & -> & Hinv' & Hlog & Hn & Hc & Hpad).
  destruct (lay_step_sound l s _ (reg' / 4) _ Hlay Hb) as [Ecost Hnext].
  exists (regular_opcode_to_pairs s opcode), (reg' / 4), t', s', ps', (Some cur').
  split; [done|]. split; [done|]. split; [done|]. split; [done|]. split; [by apply Hnext|].
  split; [exact Hlog|]. split; [rewrite <- Ecost; apply Hn|]. split; [done|].
  intros Hp. destruct (Hpad Hp) as [?|?]; [by left|right; by apply Hpk].
Qed.

(** A run of [ac_pm4_cmd_add] appends its dwords. *)
Lemma cmd_adds_at s l junk dws :
  s = at_buf s l junk -> max_dw s = Z.of_nat (length (l ++ junk)) -> max_dw s < 0x4000 ->
  (length dws <= length junk)%nat -> dws <> [] ->
  cmd_adds s dws =
    Ok (set_last_opcode (at_buf s (l ++ (u32 <$> dws)) (drop (length dws) junk)) 255).
Proof.
  revert s l junk. induction dws as [|dw dws IH]; intros s l junk Hs Hm Hm4 Hlen Hne; [done|].
  destruct junk as [|x junk]; [simpl in Hlen; lia|]. cbn [cmd_adds fmap list_fmap length drop].
  rewrite length_app in Hm. cbn [length] in Hm, Hlen.
  assert (Hn : ndw s = Z.of_nat (length l)) by (by rewrite Hs).
  unfold ac_pm4_cmd_add. step_assert; [|apply negb_true_iff, Z.eqb_neq; lia].
  step_assert; [|apply Z.ltb_lt; lia].
  rewrite Hs, push_dw_at by (cbn [length]; lia). cbn [res_bind].
  destruct (decide (dws = [])) as [->|Hd]; [done|].
  set (s1 := set_last_opcode (at_buf s (l ++ [u32 dw]) junk) 255).
  rewrite (IH s1 (l ++ [u32 dw]) junk); [|done| |done|lia|done].
  - unfold s1. by rewrite <- (assoc_L app).
  - unfold s1. cbn [max_dw set_last_opcode at_buf]. rewrite Hm, !length_app. simpl. lia.
Qed.

Lemma cmd_adds_spec s ps cur dws :
  pm4_inv s ps cur -> cmd_ok dws = true -> ndw s + Z.of_nat (length dws) <= max_dw s ->
  exists s' ps', cmd_adds s dws = Ok s' /\ pm4_inv s' ps' None /\
    log_of ps' None = log_of ps cur /\ ndw s' = ndw s + Z.of_nat (length dws) /\
    same_conf s s' /\ has_pad ps' None = has_pad ps cur.
Proof.
  intros Hinv Hok Hroom. unfold cmd_ok in Hok. destruct dws as [|h body]; [done|].
  rewrite !andb_true_iff, Z.eqb_eq, !Z.ltb_lt in Hok. destruct Hok as (((Hraw & Hh) & Hn1) & Hn2).
  set (op := PKT3_IT_OPCODE_G h) in *. destruct (raw_op_cases op Hraw) as (Hop & _ & _).
  destruct (inv_view _ _ _ Hinv) as [junk Hs]. pose proof Hinv as (_ & Hn & Hm & Hm4 & Hps & Hpd & Hcur).
  assert (Hpm : pm4 s = buffer ps cur ++ junk) by (by rewrite Hs).
  rewrite Hpm in Hm. pose proof Hm as Hm'. rewrite length_app in Hm'.
  rewrite (cmd_adds_at s (buffer ps cur) junk (h :: body) Hs Hm Hm4) by (done || (simpl in *; lia)).
  set (p := PktRaw op (u32 <$> body)).
  set (ps' := match cur with Some pp => ps ++ [pp] | None => ps end ++ [(p, false)]).
  assert (Hbuf : buffer ps cur ++ (u32 <$> h :: body) = buffer ps' None).
  { unfold buffer, ps'. rewrite app_nil_r, fmap_app. change ([(p, false)].*1) with [p].
    rewrite encode_packets_snoc. f_equal.
    - destruct cur as [pp|]; [|by rewrite app_nil_r]. rewrite fmap_app. change ([pp].*1) with [pp.1].
      by rewrite encode_packets_snoc.
    - unfold p. cbn [encode_packet]. rewrite length_fmap. f_equal.
      rewrite Hh at 1. fold op. rewrite <- (header_u32 op _ false) by lia. f_equal.
      unfold pkt3_header. change (PKT3_RESET_FILTER_CAM_S _) with 0. by rewrite Z.lor_0_r. }
  rewrite Hbuf. eexists _, ps'. split; [reflexivity|].
  split; [unfold pm4_inv; split_and!|split_and!].
  - cbn [pm4 set_last_opcode at_buf]. by eexists.
  - done.
  - cbn [max_dw pm4 set_last_opcode at_buf]. rewrite Hm, <- Hbuf, !length_app, length_drop, length_fmap.
    simpl in *. lia.
  - done.
  - unfold ps'. rewrite fmap_app. apply Forall_app. split; [|apply Forall_singleton].
    + destruct cur as [pp|]; [|done]. rewrite fmap_app. apply Forall_app. split; [done|].
      apply Forall_singleton. apply Hcur.
    + cbn. rewrite length_fmap. split; [done|lia].
  - unfold ps'. apply Forall_app. split; [|by apply Forall_singleton].
    destruct cur as [pp|]; [|done]. apply Forall_app. split; [done|]. apply Forall_singleton. apply Hcur.
  - done.
  - unfold ps'. rewrite log_snoc. unfold log_of at 1. unfold logical at 2. cbn [fst snd packet_writes p].
    rewrite app_nil_r. destruct cur as [pp|]; [|unfold log_of; by rewrite app_nil_r].
    rewrite fmap_app, concat_app. unfold log_of. simpl. by rewrite app_nil_r.
  - cbn [ndw set_last_opcode at_buf]. rewrite <- Hbuf, length_app, length_fmap. lia.
  - by split_and!.
  - unfold ps'. rewrite has_pad_snoc. unfold has_pad. destruct cur as [pp|]; [|done].
    rewrite existsb_app. simpl. by rewrite !orb_false_r.
Qed.

(** ** Sequences *)

Lemma reg_slot_same i t t' reg : same_map t t' -> reg_slot i t' reg = reg_slot i t reg.
Proof.
  intros Hm. unfold reg_slot. destruct (reg_space reg) as [[opcode off]|]; [|done].
  by rewrite (preamble_reg_same t t').
Qed.

Lemma op_ok_same i t t' o : same_map t t' -> op_ok i t' o = op_ok i t o.
Proof.
  intros Hm. destruct o as [reg val|dws]; [|done]. simpl. unfold reg_ok.
  destruct (reg_space reg) as [[opcode off]|]; [|done]. by rewrite (preamble_reg_same t t').
Qed.

Lemma requested_same t t' os : same_map t t' -> requested t' os = requested t os.
Proof.
  intros Hm. unfold requested. induction os as [|o os IH]; [done|]. cbn [omap list_omap].
  assert (Ho : op_write t' o = op_write t o); [|by rewrite Ho, IH].
  destruct o as [reg val|]; [|done]. unfold op_write, reg_dst.
  destruct (reg_space reg) as [[opcode off]|]; [|done]. by rewrite (preamble_reg_same t t').
Qed.

Lemma lay_size_same i t t' l os : same_map t t' -> lay_size i t' l os = lay_size i t l os.
Proof.
  intros Hm. revert l. induction os as [|[reg val|dws] os IH]; intros l; cbn [lay_size]; [done| |].
  - rewrite (reg_slot_same i t t') by done. destruct (reg_slot i t reg) as [[op r]|]; [|apply IH].
    destruct (lay_step op r l) as [c l']. by rewrite IH.
  - by rewrite IH.
Qed.

Lemma requested_app t a b : requested t (a ++ b) = requested t a ++ requested t b.
Proof. apply omap_app. Qed.

(** What a sequence leaves: it succeeds, the log grows by the requested writes, and the size
    by at most [lay_size]. *)
Lemma run_ops_spec os l t s ps cur :
  pm4_inv s ps cur -> lay_rel l s -> forallb (op_ok (info s) t) os = true ->
  ndw s + lay_size (info s) t l os + 6 <= max_dw s ->
  exists t' s' ps' cur', run_ops is_pgm_lo getenv t s os = Ok (t', s') /\ same_map t t' /\
    pm4_inv s' ps' cur' /\ log_of ps' cur' = log_of ps cur ++ requested t os /\
    ndw s' <= ndw s + lay_size (info s) t l os /\ same_conf s s' /\
    (has_pad ps' cur' = true -> has_pad ps cur = true \/
       has_set_context_pairs_packed (info s) || has_set_sh_pairs_packed (info s) = true).
Proof.
  revert l t s ps cur. induction os as [|[reg val|dws] os IH];
    intros l t s ps cur Hinv Hl Hok Hroom; cbn [run_ops lay_size forallb] in *.
  - exists t, s, ps, cur. split_and!; try done; [by rewrite app_nil_r|lia|by left].
  - apply andb_true_iff in Hok as [Hreg Hok]. cbn [run_op].
    assert (Hr : ndw s + 6 <= max_dw s).
    { pose proof (lay_size_nonneg (info s) t l (SetReg reg val :: os)). cbn [lay_size] in *. lia. }
    destruct (set_reg_spec l t s ps cur reg (u32 val) Hinv Hl Hr (u32_range _) Hreg)
      as (op & r & t1 & s1 & ps1 & cur1 & Hslot & -> & Hm & Hinv1 & Hl1 & Hlog1 & Hn1 & Hc1 & Hp1).
    rewrite Hslot in *. destruct (lay_step op r l) as [c l1]. cbn [fst snd] in *.
    destruct Hc1 as (Ei & Ex & Eq). cbn [res_bind fst snd].
    destruct (IH l1 t1 s1 ps1 cur1 Hinv1 Hl1) as (t2 & s2 & ps2 & cur2 & -> & Hm2 & Hinv2 & Hlog2 & Hn2 & Hc2 & Hp2).
    { rewrite Ei. rewrite <- Hok. clear -Hm. induction os as [|o os IH']; [done|]. simpl.
      by rewrite (op_ok_same _ t t1), IH'. }
    { rewrite Ei, Ex, (lay_size_same _ t t1) by done. lia. }
    rewrite Ei, (lay_size_same _ t t1) in * by done.
    exists t2, s2, ps2, cur2. split; [done|]. split; [by eapply same_map_trans|]. split; [done|].
    split; [rewrite Hlog2, Hlog1, (requested_same t t1), <- (assoc_L app) by done; done|].
    split; [lia|]. split; [by eapply same_conf_trans|].
    intros Hp. destruct (Hp2 Hp) as [H|H]; [by apply Hp1|by right].
  - apply andb_true_iff in Hok as [Hcmd Hok]. cbn [run_op].
    pose proof (lay_size_nonneg (info s) t None os) as Hnn.
    destruct (cmd_adds_spec s ps cur dws Hinv Hcmd) as (s1 & ps1 & -> & Hinv1 & Hlog1 & Hn1 & Hc1 & Hp1); [lia|].
    destruct Hc1 as (Ei & Ex & Eq). cbn [res_bind fst snd].
    destruct (IH None t s1 ps1 None Hinv1) as (t2 & s2 & ps2 & cur2 & -> & Hm2 & Hinv2 & Hlog2 & Hn2 & Hc2 & Hp2).
    { apply Hinv1. }
    { by rewrite Ei. }
    { rewrite Ei, Ex. lia. }
    rewrite Ei in *. exists t2, s2, ps2, cur2. split; [done|]. split; [done|]. split; [done|].
    split; [rewrite Hlog2, Hlog1; done|]. split; [lia|]. split; [by eapply same_conf_trans|].
    intros Hp. destruct (Hp2 Hp) as [H|H]; [left; by rewrite <- Hp1|by right].
Qed.

(** ** Reading a state back *)

(** The dwords of a state. *)
Definition dump (s : ac_pm4_state) : list Z := take (Z.to_nat (ndw s)) (pm4 s).

Lemma create_fresh i sqtt m compute :
  m < 0x4000 -> let s := ac_pm4_create_sized i sqtt m compute in
  pm4_inv s [] None /\ ndw s = 0 /\ info s = i /\ max_dw s = Z.max m 64.
Proof.
  intros Hm. unfold ac_pm4_create_sized, ac_pm4_clear_state, PM4_ARRAY_SIZE.
  assert (Hu : u16 (Z.max m 64) = Z.max m 64) by (apply u16_small; unfold in_u16; lia).
  cbn [max_dw pm4]. rewrite Hu. rewrite (proj2 (Z.eqb_neq _ _)) by lia.
  split; [|done]. unfold pm4_inv. split_and!; try done.
  - by eexists.
  - cbn [max_dw pm4]. rewrite length_replicate. lia.
  - cbn [max_dw]. lia.
Qed.

(** What the builder promises of its dwords: well-formed packets that stand for [ws], in
    order, padded only where the firmware has packed packets. *)
Definition stands_for (s : ac_pm4_state) (ws : list write) (packed : bool) : Prop :=
  exists ps, dump s = encode_packets ps.*1 /\ Forall packet_ok ps.*1 /\ Forall pad_ok ps /\
    concat (logical <$> ps) = ws /\ (has_pad ps None = true -> packed = true).

Definition packed_info (i : radeon_info) : bool :=
  has_set_context_pairs_packed i || has_set_sh_pairs_packed i.

Lemma inv_stands_for s ps cur ws packed :
  pm4_inv s ps cur -> log_of ps cur = ws -> (has_pad ps cur = true -> packed = true) ->
  stands_for s ws packed.
Proof.
  intros Hinv Hlog Hpad. destruct (inv_view _ _ _ Hinv) as [junk Hs].
  destruct Hinv as (_ & _ & _ & _ & Hps & Hpd & Hcur).
  exists (match cur with Some pp => ps ++ [pp] | None => ps end).
  assert (Hd : dump s = buffer ps cur).
  { unfold dump. rewrite Hs. cbn [ndw pm4 at_buf]. by rewrite Nat2Z.id, take_app_length. }
  destruct cur as [pp|].
  - destruct Hcur as (_ & Hp & Hp' & _). split; [|split; [|split; [|split]]].
    + rewrite Hd, fmap_app. change ([pp].*1) with [pp.1]. by rewrite encode_packets_snoc.
    + rewrite fmap_app. apply Forall_app. split; [done|]. by apply Forall_singleton.
    + apply Forall_app. split; [done|]. by apply Forall_singleton.
    + rewrite <- Hlog, <- log_snoc. unfold log_of. by rewrite app_nil_r.
    + rewrite has_pad_snoc. exact Hpad.
  - split_and!; try done.
    + rewrite Hd. unfold buffer. by rewrite app_nil_r.
    + rewrite <- Hlog. unfold log_of. by rewrite app_nil_r.
Qed.

Lemma lay_rel_fresh s : pm4_inv s [] None -> lay_rel None s.
Proof. intros H. apply H. Qed.

Lemma build_spec t s os finalize :
  pm4_inv s [] None -> ndw s = 0 -> forallb (op_ok (info s) t) os = true ->
  lay_size (info s) t None os + 6 <= max_dw s ->
  exists t' s', build is_pgm_lo getenv t s os finalize = Ok (t', s') /\
    stands_for s' (requested t os) (packed_info (info s)) /\
    ndw s' <= lay_size (info s) t None os.
Proof.
  intros Hinv Hz Hok Hroom.
  destruct (run_ops_spec os None t s [] None Hinv (lay_rel_fresh s Hinv) Hok)
    as (t1 & s1 & ps & cur & E & _ & Hinv1 & Hlog & Hn & _ & Hpad); [lia|].
  assert (Hpad' : has_pad ps cur = true -> packed_info (info s) = true)
    by (intros Hp; by destruct (Hpad Hp)).
  unfold build. rewrite E. cbn [res_bind fst snd]. destruct finalize; cycle 1.
  { exists t1, s1. split; [done|]. split; [by eapply inv_stands_for|lia]. }
  destruct (finalize_spec is_pgm_lo s1 ps cur Hinv1) as (s2 & ps2 & -> & Hfl & Hlog2 & Hp2).
  exists t1, s2. split; [done|]. destruct Hfl as ((junk & Hs2) & _ & Hle & Hpk & Hpd & _).
  split; [|lia]. exists ps2. split; [|split; [done|split; [done|split]]].
  - unfold dump. rewrite Hs2. cbn [ndw pm4 at_buf]. by rewrite Nat2Z.id, take_app_length.
  - rewrite Hlog in Hlog2. unfold log_of in Hlog2. rewrite !app_nil_r in Hlog2. exact Hlog2.
  - intros Hp. by apply Hpad', Hp2.
Qed.

Lemma logical_file m pp :
  pad_ok pp -> NoDup (logical pp).*1 -> reg_file m (packet_writes pp.1) = reg_file m (logical pp).
Proof.
  destruct pp as [p pad]. intros Hp Hnd. destruct pad; [|done].
  destruct (Hp eq_refl) as (op & cam & [r0 v0] & ws & E). simpl in E. subst p.
  unfold logical in *. cbn [fst snd packet_writes] in *.
  rewrite app_comm_cons, writes_at_snoc in *. rewrite removelast_snoc in *.
  apply reg_file_pad. simpl in Hnd. by inversion Hnd.
Qed.

Lemma packets_file ps m :
  Forall pad_ok ps -> NoDup (concat (logical <$> ps)).*1 ->
  reg_file m (concat (packet_writes <$> ps.*1)) = reg_file m (concat (logical <$> ps)).
Proof.
  intros Hps. revert m. induction Hps as [|pp ps Hp Hps IH]; intros m Hnd; [done|].
  cbn [fmap list_fmap concat] in *. rewrite fmap_app in Hnd. apply NoDup_app in Hnd as (H1 & _ & H3).
  rewrite !reg_file_app, logical_file by done. by apply IH.
Qed.

Lemma no_pad_writes ps :
  has_pad ps None = false -> concat (packet_writes <$> ps.*1) = concat (logical <$> ps).
Proof.
  unfold has_pad. rewrite orb_false_r. induction ps as [|[p pad] ps IH]; [done|].
  simpl. intros [-> H]%orb_false_iff. f_equal. by apply IH.
Qed.

(** The parser reads [ws] back, exactly where nothing is packed. *)
Lemma stands_for_parse s ws other :
  other_skips other -> stands_for s ws false -> parse_gfx_compute_ib (dump s) other = ws.
Proof.
  intros Ho (ps & -> & Hpk & _ & <- & Hpad). unfold parse_gfx_compute_ib.
  rewrite (parse_loop_spec _ _ ps.*1) by done. apply no_pad_writes.
  destruct (has_pad ps None); [by discriminate Hpad|done].
Qed.

(** And as far as the registers go when none is written twice. *)
Lemma stands_for_file s ws packed other m0 :
  other_skips other -> stands_for s ws packed -> NoDup ws.*1 ->
  reg_file m0 (parse_gfx_compute_ib (dump s) other) = reg_file m0 ws.
Proof.
  intros Ho (ps & -> & Hpk & Hpd & <- & _) Hnd. unfold parse_gfx_compute_ib.
  rewrite (parse_loop_spec _ _ ps.*1) by done. by apply packets_file.
Qed.

(** C1: on firmware without packed SET packets (every Xclipse and every GPU before GFX11),
    any sequence of register writes and control packets that the new state has room for is
    built without a fault, and the IB parser reads back exactly the requested writes, in
    order, each at its TITAN destination. *)
Theorem set_regs_roundtrip i sqtt m compute t os other :
  other_skips other -> packed_info i = false -> m < 0x4000 ->
  forallb (op_ok i t) os = true -> lay_size i t None os + 6 <= Z.max m 64 ->
  exists t1 s1, build is_pgm_lo getenv t (ac_pm4_create_sized i sqtt m compute) os true = Ok (t1, s1) /\
    parse_gfx_compute_ib (dump s1) other = requested t os.
Proof.
  intros Ho Hpk Hm Hok Hroom. destruct (create_fresh i sqtt m compute Hm) as (Hinv & Hz & Hi & Hx).
  destruct (build_spec t (ac_pm4_create_sized i sqtt m compute) os true Hinv Hz)
    as (t1 & s1 & E & Hst & _); [by rewrite Hi|by rewrite Hi, Hx|].
  rewrite Hi, Hpk in Hst. exists t1, s1. split; [done|]. by apply stands_for_parse.
Qed.

(** C2: on any firmware, packed SET packets included, when no register is requested twice the
    finalized state leaves every register with its requested value and touches no other: the
    padding, the in-place unpacking of consecutive packets and the change to the short packed
    opcode are invisible. *)
Theorem set_regs_reg_file i sqtt m compute t os other m0 :
  other_skips other -> m < 0x4000 ->
  forallb (op_ok i t) os = true -> lay_size i t None os + 6 <= Z.max m 64 ->
  NoDup (requested t os).*1 ->
  exists t1 s1, build is_pgm_lo getenv t (ac_pm4_create_sized i sqtt m compute) os true = Ok (t1, s1) /\
    reg_file m0 (parse_gfx_compute_ib (dump s1) other) = reg_file m0 (requested t os).
Proof.
  intros Ho Hm Hok Hroom Hnd. destruct (create_fresh i sqtt m compute Hm) as (Hinv & Hz & Hi & Hx).
  destruct (build_spec t (ac_pm4_create_sized i sqtt m compute) os true Hinv Hz)
    as (t1 & s1 & E & Hst & _); [by rewrite Hi|by rewrite Hi, Hx|].
  exists t1, s1. split; [done|]. by eapply stands_for_file.
Qed.
End States.

(** ** Witnesses and edge cases *)

(** Firmware without pairs, and a GFX11 with packed context and SH pairs. *)
Definition info_plain : radeon_info := Build_radeon_info GFX10_3 false false false false false.
Definition info_packed : radeon_info := Build_radeon_info GFX11 true false true false false.

Definition never (_ : Z) : bool := false.

(** The map at level 10 with the kernel map, as the driver activates it. *)
Definition titan10 : titan :=
  {| regmap_active := true; regmap_level := 10; regmap_suppress := true; regmap_hits := 0;
     mapovr := [] |}.

(** Register writes only. *)
Definition sets (ws : list (Z * Z)) : list pm4_op := (fun w => SetReg w.1 w.2) <$> ws.

Lemma set_regs_roundtrip_witness :
  exists t1 s1,
    build never no_env titan10 (ac_pm4_create_sized info_plain false 64 false)
      (sets [(0x28020, 7); (0xb020, 1)] ++ [CmdAdds [PKT3 PKT3_CLEAR_STATE 0 0; 0]] ++
       sets [(0xb024, 2)]) true = Ok (t1, s1) /\
    parse_gfx_compute_ib (dump s1) skip_other =
      requested no_env titan10
        (sets [(0x28020, 7); (0xb020, 1)] ++ [CmdAdds [PKT3 PKT3_CLEAR_STATE 0 0; 0]] ++
         sets [(0xb024, 2)]).
Proof.
  apply set_regs_roundtrip; [apply skip_other_ok|reflexivity|lia|vm_compute; reflexivity|].
  apply Z.leb_le. vm_compute. reflexivity.
Defined.

Lemma set_regs_reg_file_witness :
  exists t1 s1,
    build never no_env titan_init (ac_pm4_create_sized info_packed false 64 false)
      (sets [(0x28000, 7); (0x28010, 1); (0x28020, 2)]) true = Ok (t1, s1) /\
    reg_file ∅ (parse_gfx_compute_ib (dump s1) skip_other) =
      reg_file ∅ (requested no_env titan_init (sets [(0x28000, 7); (0x28010, 1); (0x28020, 2)])).
Proof.
  apply set_regs_reg_file; [apply skip_other_ok|lia|vm_compute; reflexivity| |].
  - apply Z.leb_le. vm_compute. reflexivity.
  - apply (bool_decide_unpack _). vm_compute. exact I.
Defined.

(** What a sequence of calls decodes to, computed. *)
Definition run_decode (i : radeon_info) (t : titan) (ws : list (Z * Z)) : res (list write) :=
  let* r := build never no_env t (ac_pm4_create_sized i false 64 false) (sets ws) true in
  Ok (parse_gfx_compute_ib (dump (snd r)) skip_other).


(** Twenty isolated registers and two neighbours of the last: 62 dwords. *)
Definition fill62 : list (Z * Z) :=
  ((fun k => (0x30000 + 8 * k, 0)) <$> seqZ 0 20) ++ [(0x3009c, 0); (0x300a0, 0)].

(** The capacity assertion of [ac_pm4_set_reg_custom] ([ndw + 2 <= max_dw]) does not cover
    the four or five dwords that opening a packed packet takes: with 62 of 64 dwords used it
    passes, and the write of the register offset is out of the array. *)
Theorem packed_open_overflows :
  (let* r := run_ops never no_env titan_init (ac_pm4_create_sized info_packed false 64 false)
               (sets fill62) in
   Ok (ndw (snd r) + 2 <=? max_dw (snd r))) = Ok true /\
  run_decode info_packed titan_init (fill62 ++ [(0x28000, 1)]) = Fault OutOfBounds.
Proof. split; vm_compute; reflexivity. Qed.

(** [ac_pm4_clear_state] on a used state keeps [last_opcode], [last_reg] and [last_pm4]: a
    first write that continues the old run is appended without a packet header and then
    overwritten by one, so the one dword of the new stream is a header that announces 16383
    registers and the value 5 is gone. *)
Theorem clear_state_keeps_open_packet :
  (let* r := run_ops never no_env titan_init (ac_pm4_create_sized info_plain false 64 false)
               (sets [(0x28000, 1)]) in
   let s1 := ac_pm4_clear_state (snd r) info_plain false false in
   let* r2 := run_ops never no_env titan_init s1 (sets [(0x28004, 5)]) in
   Ok (dump (snd r2), Z.of_nat (length (parse_gfx_compute_ib (dump (snd r2)) skip_other)))) =
  Ok ([PKT3 PKT3_SET_CONTEXT_REG 0x3fff 0], 0x3fff).
Proof. vm_compute. reflexivity. Qed.
