(* ===== verification/CmdBuf.v ===== *)
(** Command buffers: the emission macros of [ac_cmdbuf.h] and the register helpers of
    [si_build_pm4.h].  Every register write of a draw goes through [radeon_set_reg_seq],
    where a byte address becomes a dword offset and the TITAN map is applied; a run of
    registers that the map does not keep contiguous is split ([radeon_set_reg_run]), and
    writes whose value is already known are left out ([radeon_opt_set_reg*]). *)

From stdpp Require Import strings.
From S2P Require Import Prelude.
From S2P Require Import TitanRegMap.
From S2P Require Import Packets.

(** ** Emission *)

(** [struct ac_cmdbuf]; [cs_buf] holds the [cdw] dwords written so far. *)
Record ac_cmdbuf : Type := mk_cs {
  cs_buf : list Z;
  cs_max_dw : Z;
  cs_reserved_dw : Z
}.

Definition cdw (cs : ac_cmdbuf) : Z := Z.of_nat (length (cs_buf cs)).

(** [ac_cmdbuf_emit]; the buffer has [max_dw] dwords. *)
Definition ac_cmdbuf_emit (cs : ac_cmdbuf) (value : Z) : res ac_cmdbuf :=
  assert! (cs_reserved_dw cs =? 0) || (cdw cs <? cs_reserved_dw cs) in
  if cs_max_dw cs <=? cdw cs then Fault OutOfBounds
  else Ok (mk_cs (cs_buf cs ++ [u32 value]) (cs_max_dw cs) (cs_reserved_dw cs)).

Definition ac_cmdbuf_emit_array (cs : ac_cmdbuf) (values : list Z) : res ac_cmdbuf :=
  let n := Z.of_nat (length values) in
  assert! (cs_reserved_dw cs =? 0) || (cdw cs + n <=? cs_reserved_dw cs) in
  if cs_max_dw cs <? cdw cs + n then Fault OutOfBounds
  else Ok (mk_cs (cs_buf cs ++ values) (cs_max_dw cs) (cs_reserved_dw cs)).

Definition ac_cmdbuf_end (cs : ac_cmdbuf) : res ac_cmdbuf :=
  assert! cdw cs <=? cs_max_dw cs in Ok cs.

(** ** Register spaces, the [prefix_name] of the macros *)

Inductive prefix : Set := SI_CONFIG | SI_SH | SI_CONTEXT | CIK_UCONFIG.

Definition prefix_base (p : prefix) : Z :=
  match p with
  | SI_CONFIG => SI_CONFIG_REG_OFFSET | SI_SH => SI_SH_REG_OFFSET
  | SI_CONTEXT => SI_CONTEXT_REG_OFFSET | CIK_UCONFIG => CIK_UCONFIG_REG_OFFSET
  end.

Definition prefix_end (p : prefix) : Z :=
  match p with
  | SI_CONFIG => SI_CONFIG_REG_END | SI_SH => SI_SH_REG_END
  | SI_CONTEXT => SI_CONTEXT_REG_END | CIK_UCONFIG => CIK_UCONFIG_REG_END
  end.

(** [((reg) - prefix_name##_REG_OFFSET) >> 2]. *)
Definition reg_dw (p : prefix) (reg : Z) : Z := Z.shiftr (u32 (reg - prefix_base p)) 2.

Section Emit.
  (** The process environment. *)
  Context (getenv : string -> option string).

(** [radeon_set_reg_seq] and [__ac_cmdbuf_set_reg_seq], which have the same body;
    [ac_titan_check_run] only reports. *)
Definition radeon_set_reg_seq (t : titan) (cs : ac_cmdbuf) (reg num idx : Z) (p : prefix)
    (packet : Z) (reset_filter_cam : bool) : res (titan * ac_cmdbuf) :=
  assert! (prefix_base p <=? reg) && (reg <? prefix_end p) in
  let* cs1 := ac_cmdbuf_emit cs
                (Z.lor (PKT3 packet num 0) (PKT3_RESET_FILTER_CAM_S (Z.b2z reset_filter_cam))) in
  let '(t', d) := ac_titan_remap_dw getenv t (prefix_base p) (reg_dw p reg) in
  let* cs2 := ac_cmdbuf_emit cs1 (Z.lor d (u32 (Z.shiftl idx 28))) in
  Ok (t', cs2).

Definition radeon_set_reg (t : titan) (cs : ac_cmdbuf) (reg idx value : Z) (p : prefix) (packet : Z)
  : res (titan * ac_cmdbuf) :=
  let* r := radeon_set_reg_seq t cs reg 1 idx p packet false in
  let* cs' := ac_cmdbuf_emit (snd r) value in
  Ok (fst r, cs').

(** The loop [for (__k = 0; __k < num; __k++)] of [radeon_set_reg_run]. *)
Fixpoint set_reg_each (t : titan) (cs : ac_cmdbuf) (reg : Z) (values : list Z) (p : prefix)
    (packet : Z) : res (titan * ac_cmdbuf) :=
  match values with
  | [] => Ok (t, cs)
  | v :: values' =>
      let* r := radeon_set_reg t cs reg 0 v p packet in
      set_reg_each (fst r) (snd r) (u32 (reg + 4)) values' p packet
  end.

Definition radeon_set_reg_run (t : titan) (cs : ac_cmdbuf) (reg : Z) (values : list Z) (p : prefix)
    (packet : Z) : res (titan * ac_cmdbuf) :=
  let num := Z.of_nat (length values) in
  if ac_titan_run_split getenv t (prefix_base p) (reg_dw p reg) num
  then set_reg_each t cs reg values p packet
  else
    let* r := radeon_set_reg_seq t cs reg num 0 p packet false in
    let* cs' := ac_cmdbuf_emit_array (snd r) values in
    Ok (fst r, cs').

(** ** Tracked registers *)

(** [struct ac_tracked_regs]: the words of [reg_saved_mask] as one integer. *)
Record ac_tracked_regs : Type := mk_tracked {
  reg_saved_mask : Z;
  reg_value : list Z;
  spi_ps_input_cntl : list Z;
  cb_blend_control : list Z;
  sx_mrt_blend_opt : list Z
}.

Definition set_tracked (k : ac_tracked_regs) (mask : Z) (values : list Z) : ac_tracked_regs :=
  mk_tracked mask values (spi_ps_input_cntl k) (cb_blend_control k) (sx_mrt_blend_opt k).

(** The [BITSET] macros; the ranges stay inside a word (a [static_assert] of the callers). *)
Definition BITSET_TEST (x b : Z) : bool := Z.testbit x b.
Definition BITSET_SET (x b : Z) : Z := Z.setbit x b.
Definition BITSET_TEST_RANGE (x b n : Z) : bool := Z.land (Z.shiftr x b) (Z.ones n) =? Z.ones n.
Definition BITSET_SET_RANGE (x b n : Z) : Z := Z.lor x (Z.shiftl (Z.ones n) b).

Definition radeon_opt_set_reg (k : ac_tracked_regs) (t : titan) (cs : ac_cmdbuf)
    (reg reg_enum idx value : Z) (p : prefix) (packet : Z)
  : res (ac_tracked_regs * titan * ac_cmdbuf) :=
  let* old := arr_get (reg_value k) reg_enum in
  if negb (BITSET_TEST (reg_saved_mask k) reg_enum) || negb (old =? value) then
    let* r := radeon_set_reg t cs reg idx value p packet in
    let* l := arr_set (reg_value k) reg_enum value in
    Ok (set_tracked k (BITSET_SET (reg_saved_mask k) reg_enum) l, fst r, snd r)
  else Ok (k, t, cs).

(** Whether [reg_value[reg_enum ..]] holds [values]. *)
Fixpoint values_match (l : list Z) (reg_enum : Z) (values : list Z) : res bool :=
  match values with
  | [] => Ok true
  | v :: values' =>
      let* old := arr_get l reg_enum in
      if old =? v then values_match l (reg_enum + 1) values' else Ok false
  end.

Fixpoint values_store (l : list Z) (reg_enum : Z) (values : list Z) : res (list Z) :=
  match values with
  | [] => Ok l
  | v :: values' => let* l' := arr_set l reg_enum v in values_store l' (reg_enum + 1) values'
  end.

(** The common body of [radeon_opt_set_reg2] to [radeon_opt_set_reg6]. *)
Definition opt_set_regs (k : ac_tracked_regs) (t : titan) (cs : ac_cmdbuf) (reg reg_enum : Z)
    (values : list Z) (p : prefix) (packet : Z) : res (ac_tracked_regs * titan * ac_cmdbuf) :=
  let n := Z.of_nat (length values) in
  let* same := if BITSET_TEST_RANGE (reg_saved_mask k) reg_enum n
               then values_match (reg_value k) reg_enum values else Ok false in
  if negb same then
    let* r := radeon_set_reg_run t cs reg values p packet in
    let* l := values_store (reg_value k) reg_enum values in
    Ok (set_tracked k (BITSET_SET_RANGE (reg_saved_mask k) reg_enum n) l, fst r, snd r)
  else Ok (k, t, cs).

Definition radeon_opt_set_reg2 k t cs reg reg_enum v1 v2 p packet :=
  opt_set_regs k t cs reg reg_enum [v1; v2] p packet.
Definition radeon_opt_set_reg3 k t cs reg reg_enum v1 v2 v3 p packet :=
  opt_set_regs k t cs reg reg_enum [v1; v2; v3] p packet.
Definition radeon_opt_set_reg4 k t cs reg reg_enum v1 v2 v3 v4 p packet :=
  opt_set_regs k t cs reg reg_enum [v1; v2; v3; v4] p packet.
Definition radeon_opt_set_reg5 k t cs reg reg_enum v1 v2 v3 v4 v5 p packet :=
  opt_set_regs k t cs reg reg_enum [v1; v2; v3; v4; v5] p packet.
Definition radeon_opt_set_reg6 k t cs reg reg_enum v1 v2 v3 v4 v5 v6 p packet :=
  opt_set_regs k t cs reg reg_enum [v1; v2; v3; v4; v5; v6] p packet.

(** [radeon_opt_set_sh_reg]: the two GS CU-mask registers are left alone on TITAN. *)
Definition radeon_opt_set_sh_reg (k : ac_tracked_regs) (t : titan) (cs : ac_cmdbuf)
    (reg reg_enum value : Z) : res (ac_tracked_regs * titan * ac_cmdbuf) :=
  if ac_titan_sh_suppressed t reg then Ok (k, t, cs)
  else radeon_opt_set_reg k t cs reg reg_enum 0 value SI_SH PKT3_SET_SH_REG.

(** [radeon_opt_set_regn] on a saved array: the new array, and the stream. *)
Definition radeon_opt_set_regn (saved : list Z) (t : titan) (cs : ac_cmdbuf) (reg : Z)
    (values : list Z) (p : prefix) (packet : Z) : res (list Z * titan * ac_cmdbuf) :=
  if negb (bool_decide (values = take (length values) saved)) then
    let* r := radeon_set_reg_run t cs reg values p packet in
    Ok (values ++ drop (length values) saved, fst r, snd r)
  else Ok (saved, t, cs).

End Emit.
