(* ===== verification/CmdBufProofs.v ===== *)
(** Correctness of the register helpers: a run of registers reaches the hardware at the TITAN
    destinations whether or not it is split, and leaving out tracked writes is invisible as
    long as no two tracked registers share a destination. *)

From stdpp Require Import strings.
From S2P Require Import Prelude.
From S2P Require Import TitanRegMap.
From S2P Require Import Packets.
From S2P Require Import Pm4.
From S2P Require Import Pm4Proofs.
From S2P Require Import Pm4States.
From S2P Require Import CmdBuf.

(** [cs'] is [cs] with the dwords [l] appended. *)
Definition extends (cs cs' : ac_cmdbuf) (l : list Z) : Prop :=
  cs_buf cs' = cs_buf cs ++ l /\ cs_max_dw cs' = cs_max_dw cs /\ cs_reserved_dw cs' = cs_reserved_dw cs.

(** Room for [n] more dwords: in the buffer and in what is reserved. *)
Definition room (cs : ac_cmdbuf) (n : Z) : Prop :=
  cdw cs + n <= cs_max_dw cs /\ (cs_reserved_dw cs = 0 \/ cdw cs + n <= cs_reserved_dw cs).

Lemma extends_trans cs1 cs2 cs3 l1 l2 :
  extends cs1 cs2 l1 -> extends cs2 cs3 l2 -> extends cs1 cs3 (l1 ++ l2).
Proof. intros (A1 & B1 & C1) (A2 & B2 & C2). unfold extends. rewrite A2, A1, B2, C2, (assoc_L app). done. Qed.

Lemma extends_room cs cs' l n :
  extends cs cs' l -> room cs (Z.of_nat (length l) + n) -> room cs' n.
Proof.
  intros (A & B & C) [R1 R2]. unfold room, cdw in *. rewrite A, B, C, length_app. lia.
Qed.

Lemma emit_spec cs v n :
  room cs (1 + n) -> 0 <= n -> exists cs', ac_cmdbuf_emit cs v = Ok cs' /\ extends cs cs' [u32 v] /\ room cs' n.
Proof.
  intros Hr Hn. pose proof Hr as [R1 R2]. unfold ac_cmdbuf_emit. step_assert; cycle 1.
  { apply orb_true_iff. destruct R2 as [->|]; [by left|]. right. apply Z.ltb_lt. lia. }
  rewrite (proj2 (Z.leb_gt _ _)) by lia. eexists. split; [reflexivity|].
  split; [done|]. by apply (extends_room cs _ [u32 v]).
Qed.

Lemma emit_array_spec cs l n :
  room cs (Z.of_nat (length l) + n) -> 0 <= n ->
  exists cs', ac_cmdbuf_emit_array cs l = Ok cs' /\ extends cs cs' l /\ room cs' n.
Proof.
  intros Hr Hn. pose proof Hr as [R1 R2]. unfold ac_cmdbuf_emit_array. step_assert; cycle 1.
  { apply orb_true_iff. destruct R2 as [->|]; [by left|]. right. apply Z.leb_le. lia. }
  rewrite (proj2 (Z.ltb_ge _ _)) by lia. eexists. split; [reflexivity|].
  split; [done|]. by apply (extends_room cs _ l).
Qed.

Section Runs.
Context (getenv : string -> option string).

(** The byte address a register of the space [p] is written at. *)
Definition dst (t : titan) (p : prefix) (reg : Z) : Z :=
  prefix_base p + 4 * ac_titan_remap_dw_quiet getenv t (prefix_base p) (reg_dw p reg).

(** The writes of a run. *)
Definition run_writes (t : titan) (p : prefix) (reg : Z) (values : list Z) : list write :=
  imap (fun k v => (dst t p (reg + 4 * Z.of_nat k), v)) values.

(** A run the theorems speak of: the opcode writes the space, the registers are dword
    aligned inside it, and their destinations have 16-bit offsets. *)
Record run_ok (t : titan) (p : prefix) (packet reg : Z) (values : list Z) : Prop := {
  run_base : seq_base packet = Some (prefix_base p);
  run_aligned : reg mod 4 = 0;
  run_space : prefix_base p <= reg /\ reg + 4 * Z.of_nat (length values) <= prefix_end p;
  run_dst k : 0 <= k < Z.of_nat (length values) ->
    0 <= ac_titan_remap_dw_quiet getenv t (prefix_base p) (reg_dw p (reg + 4 * k)) < 2 ^ 16;
  run_vals : Forall in_u32 values
}.

Lemma reg_dw_plus p reg k :
  reg mod 4 = 0 -> prefix_base p <= reg -> 0 <= k -> reg + 4 * k < prefix_end p ->
  reg_dw p (reg + 4 * k) = reg_dw p reg + k.
Proof.
  intros Ha Hr Hk He. unfold reg_dw.
  assert (0 <= prefix_base p /\ prefix_base p mod 4 = 0 /\ prefix_end p < 2 ^ 32) as (H1 & H2 & H3) by (by destruct p).
  rewrite !u32_small by (unfold in_u32; lia). rewrite !shiftr_div by lia. zdivmod.
Qed.

Lemma reg_dw_bound p reg : prefix_base p <= reg < prefix_end p -> 0 <= reg_dw p reg < 2 ^ 16.
Proof.
  intros Hr. unfold reg_dw. assert (prefix_end p - prefix_base p <= 0x10000 /\ 0 <= prefix_base p) as [H1 H2] by (by destruct p).
  rewrite u32_small by (unfold in_u32; lia). rewrite shiftr_div by lia. zdivmod.
Qed.

Lemma remap_same t base dw : same_map t (fst (ac_titan_remap_dw getenv t base dw)).
Proof. by rewrite remap_dw_quiet_agree. Qed.

Lemma remap_value t base dw : snd (ac_titan_remap_dw getenv t base dw) = ac_titan_remap_dw_quiet getenv t base dw.
Proof. by rewrite remap_dw_quiet_agree. Qed.

(** The header and offset of a packet. *)
Lemma set_reg_seq_spec t cs reg num p packet n :
  seq_base packet = Some (prefix_base p) -> prefix_base p <= reg < prefix_end p ->
  0 <= num < 0x4000 ->
  0 <= ac_titan_remap_dw_quiet getenv t (prefix_base p) (reg_dw p reg) < 2 ^ 16 ->
  room cs (2 + n) -> 0 <= n ->
  exists t' cs', radeon_set_reg_seq getenv t cs reg num 0 p packet false = Ok (t', cs') /\ same_map t t' /\
    extends cs cs' [pkt3_header packet num false;
      Z.lor (ac_titan_remap_dw_quiet getenv t (prefix_base p) (reg_dw p reg)) (u32 (Z.shiftl 0 28))] /\
    room cs' n.
Proof.
  intros Hb Hr Hnum Hd Hroom Hn. unfold radeon_set_reg_seq.
  step_assert; [|apply andb_true_iff; split; [apply Z.leb_le|apply Z.ltb_lt]; lia].
  destruct (seq_base_cases _ _ Hb) as (Hop & _ & _).
  fold (pkt3_header packet num false).
  destruct (emit_spec cs (pkt3_header packet num false) (1 + n)) as (cs1 & -> & He1 & Hr1); [by rewrite Z.add_assoc|lia|].
  cbn [res_bind]. destruct (ac_titan_remap_dw getenv t (prefix_base p) (reg_dw p reg)) as [t' d] eqn:Er.
  pose proof (remap_value t (prefix_base p) (reg_dw p reg)) as Hv. rewrite Er in Hv. simpl in Hv. subst d.
  pose proof (remap_same t (prefix_base p) (reg_dw p reg)) as Hs. rewrite Er in Hs. simpl in Hs.
  set (d := ac_titan_remap_dw_quiet getenv t (prefix_base p) (reg_dw p reg)) in *.
  destruct (emit_spec cs1 (Z.lor d (u32 (Z.shiftl 0 28))) n Hr1 Hn) as (cs2 & -> & He2 & Hr2). cbn [res_bind].
  eexists _, _. split; [reflexivity|]. split; [done|]. split; [|done].
  pose proof (extends_trans _ _ _ _ _ He1 He2) as He. simpl in He.
  rewrite header_u32 in He by lia.
  change (u32 (Z.shiftl 0 28)) with 0 in *. rewrite Z.lor_0_r in *. by rewrite (u32_small d) in He by (unfold in_u32; lia).
Qed.

(** One register is one packet. *)
Lemma radeon_set_reg_spec t cs reg v p packet n :
  run_ok t p packet reg [v] -> room cs (3 + n) -> 0 <= n ->
  exists t' cs' pk, radeon_set_reg getenv t cs reg 0 v p packet = Ok (t', cs') /\ same_map t t' /\
    extends cs cs' (encode_packet pk) /\ packet_ok pk /\ packet_writes pk = [(dst t p reg, v)] /\
    length (encode_packet pk) = 3%nat /\ room cs' n.
Proof.
  intros [Hb Ha Hs Hd Hv] Hr Hn. simpl in Hs. specialize (Hd 0 ltac:(simpl; lia)).
  rewrite Z.mul_0_r, Z.add_0_r in Hd. inversion Hv as [|? ? Hv32 _]; subst.
  unfold radeon_set_reg.
  destruct (set_reg_seq_spec t cs reg 1 p packet (1 + n) Hb ltac:(lia) ltac:(lia) Hd) as (t' & cs1 & -> & Hm & He & Hr1);
    [by rewrite Z.add_assoc|lia|].
  cbn [res_bind fst snd]. destruct (emit_spec cs1 v n Hr1 Hn) as (cs2 & -> & He2 & Hr2). cbn [res_bind].
  set (d := ac_titan_remap_dw_quiet getenv t (prefix_base p) (reg_dw p reg)) in *.
  exists t', cs2, (PktSeq packet false d 0 [v]). split; [done|]. split; [done|].
  pose proof (extends_trans _ _ _ _ _ He He2) as He3. rewrite (u32_small v) in He3 by done.
  split; [done|]. split; [cbn [packet_ok length]; split; [by exists (prefix_base p)|lia]|].
  split; [|done]. cbn [packet_writes]. rewrite Hb, seq_ws_cons. done.
Qed.

Lemma run_ok_same t t' p packet reg values :
  same_map t t' -> run_ok t p packet reg values -> run_ok t' p packet reg values.
Proof.
  intros Hm [H1 H2 H3 H4 H5]. split; try done. intros k Hk. rewrite (remap_quiet_same getenv t t') by done. by apply H4.
Qed.

Lemma dst_same t t' p reg : same_map t t' -> dst t' p reg = dst t p reg.
Proof. intros Hm. unfold dst. by rewrite (remap_quiet_same getenv t t'). Qed.

Lemma run_writes_same t t' p reg values : same_map t t' -> run_writes t' p reg values = run_writes t p reg values.
Proof. intros Hm. apply imap_ext. intros k v _. by rewrite (dst_same t t'). Qed.

Lemma run_writes_cons t p reg v values :
  run_writes t p reg (v :: values) = (dst t p reg, v) :: run_writes t p (reg + 4) values.
Proof.
  unfold run_writes. cbn [imap]. f_equal; [do 2 f_equal; lia|].
  apply imap_ext. intros k x _. simpl. do 2 f_equal. lia.
Qed.

Lemma run_ok_cons t p packet reg v values :
  run_ok t p packet reg (v :: values) ->
  run_ok t p packet reg [v] /\ (values <> [] -> run_ok t p packet (u32 (reg + 4)) values /\ u32 (reg + 4) = reg + 4).
Proof.
  intros [H1 H2 H3 H4 H5]. cbn [length] in H3, H4. inversion H5 as [|? ? Hv Hvs]; subst. split.
  - split; [done|done|simpl; lia| |by apply Forall_singleton]. intros k Hk. apply H4. simpl in Hk. lia.
  - intros Hne. assert (prefix_end p < 2 ^ 32 /\ 0 <= prefix_base p) as [He Hp] by (by destruct p).
    rewrite u32_small by (unfold in_u32; lia). split; [|done]. split; [done|zdivmod|lia| |done].
    intros k Hk. replace (reg + 4 + 4 * k) with (reg + 4 * (k + 1)) by lia. apply H4. lia.
Qed.

(** A split run is one packet per register. *)
Lemma set_reg_each_spec values t cs reg p packet :
  run_ok t p packet reg values -> room cs (3 * Z.of_nat (length values)) ->
  exists t' cs' ps, set_reg_each getenv t cs reg values p packet = Ok (t', cs') /\ same_map t t' /\
    extends cs cs' (encode_packets ps) /\ Forall packet_ok ps /\
    concat (packet_writes <$> ps) = run_writes t p reg values /\
    length (encode_packets ps) = (3 * length values)%nat.
Proof.
  revert t cs reg. induction values as [|v values IH]; intros t cs reg Hok Hr; cbn [set_reg_each].
  { exists t, cs, []. split; [done|]. split; [done|]. split; [|done]. unfold extends. by rewrite app_nil_r. }
  destruct (run_ok_cons _ _ _ _ _ _ Hok) as [Hok1 Hrest]. rewrite length_cons in Hr.
  destruct (radeon_set_reg_spec t cs reg v p packet (3 * Z.of_nat (length values)) Hok1) as
    (t1 & cs1 & pk & -> & Hm1 & He1 & Hpk & Hw1 & Hl1 & Hr1); [by replace (3 + 3 * Z.of_nat (length values)) with (3 * Z.of_nat (S (length values))) by lia|lia|].
  cbn [res_bind fst snd].
  destruct values as [|v2 values].
  { cbn [set_reg_each]. exists t1, cs1, [pk]. split; [done|]. split; [done|].
    unfold encode_packets. cbn [fmap list_fmap concat]. rewrite !app_nil_r. split; [done|].
    split; [by apply Forall_singleton|]. rewrite Hw1. split; [by rewrite run_writes_cons|]. simpl in Hl1 |- *. lia. }
  destruct (Hrest ltac:(done)) as [Hok2 Hreg]. rewrite Hreg in *.
  destruct (IH t1 cs1 (reg + 4) (run_ok_same _ _ _ _ _ _ Hm1 Hok2) Hr1) as (t2 & cs2 & ps & -> & Hm2 & He2 & Hps & Hw2 & Hl2).
  exists t2, cs2, (pk :: ps). split; [done|]. split; [by eapply same_map_trans|].
  unfold encode_packets in *. cbn [fmap list_fmap concat]. split; [by eapply extends_trans|].
  split; [by constructor|]. rewrite Hw1, Hw2, (run_writes_same t t1) by done.
  rewrite (run_writes_cons t p reg v (v2 :: values)).
  split; [done|]. rewrite length_app, Hl1, Hl2. simpl. lia.
Qed.

Lemma writes_at_seq b d vals :
  writes_at b (seq_ws d vals) = imap (fun k v => (b + 4 * (d + Z.of_nat k), v)) vals.
Proof.
  revert d. induction vals as [|v vals IH]; intros d; [done|].
  rewrite seq_ws_cons. unfold writes_at in *. cbn [fmap list_fmap imap]. rewrite IH. f_equal.
  { do 2 f_equal. lia. }
  apply imap_ext. intros k x _. simpl. do 2 f_equal. lia.
Qed.

(** A run the map keeps contiguous. *)
Lemma unsplit_dst t p packet reg values k :
  run_ok t p packet reg values -> (k < length values)%nat ->
  ac_titan_run_split getenv t (prefix_base p) (reg_dw p reg) (Z.of_nat (length values)) = false ->
  dst t p (reg + 4 * Z.of_nat k) =
    prefix_base p + 4 * (ac_titan_remap_dw_quiet getenv t (prefix_base p) (reg_dw p reg) + Z.of_nat k).
Proof.
  intros [Hb Ha Hs Hd Hv] Hk Hsp. unfold dst. f_equal. f_equal.
  assert (0 <= prefix_base p /\ prefix_end p - prefix_base p <= 0x10000) as [Hp0 Hp1] by (by destruct p).
  rewrite reg_dw_plus by (done || lia). pose proof (reg_dw_bound p reg ltac:(lia)) as Hdw.
  destruct (regmap_active t) eqn:Hact; cycle 1.
  { unfold ac_titan_remap_dw_quiet. by rewrite Hact. }
  destruct k as [|k]; [by rewrite !Z.add_0_r|].
  rewrite run_split_false in Hsp. specialize (Hsp Hact (Z.of_nat (S k)) ltac:(lia)).
  pose proof (Hd 0 ltac:(lia)) as Hd0. rewrite Z.mul_0_r, Z.add_0_r in Hd0.
  pose proof (reg_dw_bound p (reg + 4 * Z.of_nat (S k)) ltac:(lia)) as Hdk. rewrite reg_dw_plus in Hdk by (done || lia).
  rewrite (u32_small (reg_dw p reg + _)) in Hsp by (unfold in_u32; lia). rewrite Hsp.
  apply u32_small. unfold in_u32. lia.
Qed.

(** The packets of a run, split or not. *)
Lemma set_reg_run_spec t cs reg values p packet :
  run_ok t p packet reg values -> 0 < Z.of_nat (length values) < 0x4000 ->
  room cs (3 * Z.of_nat (length values)) ->
  exists t' cs' ps, radeon_set_reg_run getenv t cs reg values p packet = Ok (t', cs') /\ same_map t t' /\
    extends cs cs' (encode_packets ps) /\ Forall packet_ok ps /\
    concat (packet_writes <$> ps) = run_writes t p reg values /\
    (length (encode_packets ps) <= 3 * length values)%nat.
Proof.
  intros Hok Hl Hr. unfold radeon_set_reg_run.
  destruct (ac_titan_run_split getenv t (prefix_base p) (reg_dw p reg) (Z.of_nat (length values))) eqn:Esp.
  { destruct (set_reg_each_spec values t cs reg p packet Hok Hr) as (t' & cs' & ps & H1 & H2 & H3 & H4 & H5 & H6).
    exists t', cs', ps. split_and!; try done. lia. }
  pose proof Hok as [Hb Ha Hs Hd Hv]. pose proof (Hd 0 ltac:(lia)) as Hd0. rewrite Z.mul_0_r, Z.add_0_r in Hd0.
  assert (Hdl : ac_titan_remap_dw_quiet getenv t (prefix_base p) (reg_dw p reg) + Z.of_nat (length values) <= 2 ^ 16).
  { pose proof (unsplit_dst t p packet reg values (length values - 1) Hok ltac:(lia) Esp) as Hu. unfold dst in Hu.
    pose proof (Hd (Z.of_nat (length values - 1)) ltac:(lia)). lia. }
  set (d := ac_titan_remap_dw_quiet getenv t (prefix_base p) (reg_dw p reg)) in *.
  destruct (set_reg_seq_spec t cs reg (Z.of_nat (length values)) p packet (Z.of_nat (length values)) Hb ltac:(lia) ltac:(lia) Hd0)
    as (t' & cs1 & -> & Hm & He1 & Hr1).
  { destruct Hr as [R1 R2]. split; [lia|]. destruct R2; [by left|right; lia]. }
  { lia. }
  cbn [res_bind fst snd].
  destruct (emit_array_spec cs1 values 0) as (cs2 & -> & He2 & _); [by rewrite Z.add_0_r|lia|]. cbn [res_bind].
  exists t', cs2, [PktSeq packet false d 0 values]. split; [done|]. split; [done|].
  unfold encode_packets. cbn [fmap list_fmap concat]. rewrite !app_nil_r.
  split; [apply (extends_trans _ _ _ _ _ He1 He2)|].
  split; [apply Forall_singleton; split; [by exists (prefix_base p)|lia]|].
  split; [|cbn [encode_packet length]; lia].
  cbn [packet_writes]. rewrite Hb. cbn [default from_option]. rewrite writes_at_seq. apply imap_ext. intros k v Hk.
  apply lookup_lt_Some in Hk. simpl. f_equal. by rewrite (unsplit_dst t p packet reg values k Hok Hk Esp).
Qed.

(** C31: [radeon_set_reg_run] delivers every value of a run to the TITAN destination of its own
    register, in order: what it appends to the command buffer decodes to exactly the write of
    each value at the remapped address of [reg + 4k], whether the map keeps the run contiguous
    (one packet) or not (one packet per register), and it never runs out of the room of three
    dwords per register. *)
Theorem set_reg_run_correct t cs reg values p packet other :
  other_skips other -> run_ok t p packet reg values -> 0 < Z.of_nat (length values) < 0x4000 ->
  room cs (3 * Z.of_nat (length values)) ->
  exists t' cs' l, radeon_set_reg_run getenv t cs reg values p packet = Ok (t', cs') /\
    cs_buf cs' = cs_buf cs ++ l /\ parse_gfx_compute_ib l other = run_writes t p reg values /\
    regmap_active t' = regmap_active t.
Proof.
  intros Ho Hok Hl Hr.
  destruct (set_reg_run_spec t cs reg values p packet Hok Hl Hr) as (t' & cs' & ps & E & Hm & He & Hps & Hw & _).
  exists t', cs', (encode_packets ps). split; [done|]. split; [apply He|]. split; [|apply Hm].
  unfold parse_gfx_compute_ib. by rewrite (parse_loop_spec _ _ ps) by done.
Qed.

(** ** Leaving out tracked writes *)

(** The values of [n] tracked registers from [e]. *)
Lemma values_match_spec l e values :
  0 <= e -> e + Z.of_nat (length values) <= Z.of_nat (length l) ->
  exists b, values_match l e values = Ok b /\
    (b = true -> forall k v, values !! k = Some v -> l !! (Z.to_nat e + k)%nat = Some v).
Proof.
  revert e. induction values as [|v values IH]; intros e He Hl; cbn [values_match].
  { exists true. split; [done|]. intros _ k v Hk. done. }
  cbn [length] in Hl. destruct (arr_get_in_range l e) as (old & -> & Hold); [lia|]. cbn [res_bind].
  destruct (Z.eqb_spec old v) as [->|Hne]; [|exists false; split; done].
  destruct (IH (e + 1) ltac:(lia) ltac:(lia)) as (b & -> & Hb). exists b. split; [done|].
  intros Ht [|k] x Hk; [injection Hk as <-; by rewrite Nat.add_0_r|].
  specialize (Hb Ht k x Hk). rewrite <- Hb. f_equal. lia.
Qed.

Lemma values_store_spec l e values :
  0 <= e -> e + Z.of_nat (length values) <= Z.of_nat (length l) ->
  exists l', values_store l e values = Ok l' /\ length l' = length l /\
    forall j, l' !! j = if decide (Z.to_nat e <= j < Z.to_nat e + length values)%nat
                        then values !! (j - Z.to_nat e)%nat else l !! j.
Proof.
  revert l e. induction values as [|v values IH]; intros l e He Hl; cbn [values_store].
  { exists l. split; [done|]. split; [done|]. intros j. rewrite decide_False by (simpl; lia). done. }
  cbn [length] in *. assert (E : arr_set l e v = Ok (<[Z.to_nat e:=v]> l)) by (apply arr_set_ok; split; [lia|done]).
  rewrite E. cbn [res_bind].
  destruct (IH (<[Z.to_nat e:=v]> l) (e + 1)) as (l' & -> & Hlen & Hl'); [lia|rewrite length_insert; lia|].
  exists l'. split; [done|]. rewrite length_insert in Hlen. split; [done|].
  intros j. rewrite Hl'. destruct (decide (j = Z.to_nat e)) as [->|Hne].
  - rewrite decide_False by lia. rewrite decide_True by lia. rewrite Nat.sub_diag.
    rewrite list_lookup_insert_eq by lia. done.
  - rewrite list_lookup_insert_ne by done. destruct (decide (Z.to_nat (e + 1) <= j < Z.to_nat (e + 1) + length values)%nat).
    + rewrite decide_True by lia. replace (j - Z.to_nat e)%nat with (S (j - Z.to_nat (e + 1))) by lia. done.
    + rewrite decide_False by lia. done.
Qed.

Lemma bitset_test_range x b n e :
  0 <= b -> 0 <= n -> BITSET_TEST_RANGE x b n = true -> b <= e < b + n -> Z.testbit x e = true.
Proof.
  intros Hb Hn Ht He. unfold BITSET_TEST_RANGE in Ht. apply Z.eqb_eq in Ht.
  assert (E : Z.testbit (Z.land (Z.shiftr x b) (Z.ones n)) (e - b) = Z.testbit (Z.ones n) (e - b)) by (by rewrite Ht).
  rewrite Z.land_spec, Z.shiftr_spec, Z.ones_spec_low, andb_true_r in E by lia.
  by replace (e - b + b) with e in E by lia.
Qed.

Lemma bitset_set_range x b n e :
  0 <= b -> 0 <= n -> 0 <= e -> Z.testbit (BITSET_SET_RANGE x b n) e = Z.testbit x e || ((b <=? e) && (e <? b + n)).
Proof.
  intros Hb Hn He. unfold BITSET_SET_RANGE. rewrite Z.lor_spec, Z.shiftl_spec by lia. f_equal.
  destruct (Z.leb_spec b e); [|by rewrite Z.testbit_neg_r by lia].
  destruct (Z.ltb_spec e (b + n)); [rewrite Z.ones_spec_low by lia|rewrite Z.ones_spec_high by lia]; done.
Qed.

Section Elision.
(** The hardware address of each tracked register, their number, and the ones in use on the
    generation at hand: [enum ac_tracked_reg] has slots for all generations. *)
Context (layout : Z -> Z) (N : Z) (live : Z -> Prop).
Context (Hlive : forall e, live e -> 0 <= e < N).
Context (Hinj : forall e e', live e -> live e' -> layout e = layout e' -> e = e').

(** What the driver remembers is what the hardware has. *)
Definition tracked_ok (k : ac_tracked_regs) (hw : gmap Z Z) : Prop :=
  Z.of_nat (length (reg_value k)) = N /\
  forall e, live e -> Z.testbit (reg_saved_mask k) e = true ->
    exists v, reg_value k !! Z.to_nat e = Some v /\ hw !! layout e = Some v.

(** A call of [radeon_opt_set_reg*] with its enum and its values. *)
Record opt_call : Type := mk_call {
  c_reg : Z; c_enum : Z; c_values : list Z; c_prefix : prefix; c_packet : Z
}.

Definition opt_call_ok (t : titan) (c : opt_call) : Prop :=
  run_ok t (c_prefix c) (c_packet c) (c_reg c) (c_values c) /\
  0 < Z.of_nat (length (c_values c)) < 0x4000 /\
  0 <= c_enum c /\ c_enum c + Z.of_nat (length (c_values c)) <= N /\
  forall k, (k < length (c_values c))%nat ->
    live (c_enum c + Z.of_nat k) /\
    layout (c_enum c + Z.of_nat k) = dst t (c_prefix c) (c_reg c + 4 * Z.of_nat k).

Definition call_writes (t : titan) (c : opt_call) : list write :=
  run_writes t (c_prefix c) (c_reg c) (c_values c).

Lemma call_writes_lookup t c w :
  opt_call_ok t c -> w ∈ call_writes t c ->
  exists k, c_values c !! k = Some w.2 /\ w.1 = layout (c_enum c + Z.of_nat k) /\
    live (c_enum c + Z.of_nat k).
Proof.
  intros (_ & _ & _ & _ & Hlay) Hin. unfold call_writes, run_writes in Hin.
  apply list_elem_of_lookup in Hin as [k Hk]. rewrite list_lookup_imap in Hk.
  destruct (c_values c !! k) as [v|] eqn:Ev; [|done]. injection Hk as <-. exists k. split; [done|].
  apply lookup_lt_Some in Ev. destruct (Hlay k Ev) as [Hl ->]. by split.
Qed.

Lemma call_writes_nodup t c : opt_call_ok t c -> NoDup (call_writes t c).*1.
Proof.
  intros (_ & _ & He & HN & Hlay). apply NoDup_alt. intros i j r Hi Hj.
  rewrite list_lookup_fmap in Hi, Hj. unfold call_writes, run_writes in Hi, Hj. rewrite list_lookup_imap in Hi, Hj.
  destruct (c_values c !! i) as [v|] eqn:Ei; [|done]. destruct (c_values c !! j) as [v'|] eqn:Ej; [|done].
  apply lookup_lt_Some in Ei, Ej. simpl in Hi, Hj. injection Hi as Hi. injection Hj as Hj.
  destruct (Hlay i Ei) as [Li Ai], (Hlay j Ej) as [Lj Aj]. rewrite <- Ai in Hi. rewrite <- Aj in Hj.
  assert (c_enum c + Z.of_nat i = c_enum c + Z.of_nat j); [|lia]. apply Hinj; [done|done|congruence].
Qed.

(** One call: what is emitted has the effect of the full write, and the driver still knows
    what the hardware has. *)
Lemma opt_set_regs_spec k t cs c hw :
  tracked_ok k hw -> opt_call_ok t c -> room cs (3 * Z.of_nat (length (c_values c))) ->
  exists k' t' cs' ps,
    opt_set_regs getenv k t cs (c_reg c) (c_enum c) (c_values c) (c_prefix c) (c_packet c) = Ok (k', t', cs') /\
    same_map t t' /\ extends cs cs' (encode_packets ps) /\ Forall packet_ok ps /\
    (length (encode_packets ps) <= 3 * length (c_values c))%nat /\
    reg_file hw (concat (packet_writes <$> ps)) = reg_file hw (call_writes t c) /\
    tracked_ok k' (reg_file hw (call_writes t c)).
Proof.
  intros [HkN Hk] Hc Hr. pose proof Hc as (Hrun & Hlen & He & HN & Hlay). unfold opt_set_regs.
  set (n := Z.of_nat (length (c_values c))) in *.
  assert (exists same, (if BITSET_TEST_RANGE (reg_saved_mask k) (c_enum c) n
      then values_match (reg_value k) (c_enum c) (c_values c) else Ok false) = Ok same /\
      (same = true -> forall w, w ∈ call_writes t c -> hw !! w.1 = Some w.2)) as (same & -> & Hsame).
  { destruct (BITSET_TEST_RANGE _ _ _) eqn:Et; [|by exists false].
    destruct (values_match_spec (reg_value k) (c_enum c) (c_values c)) as (b & Hb & Hv); [lia|lia|].
    exists b. split; [done|]. intros Hbt w Hw.
    destruct (call_writes_lookup t c w Hc Hw) as (j & Hj & Hlj & Hv0). pose proof (lookup_lt_Some _ _ _ Hj) as Hlt.
    destruct (Hk (c_enum c + Z.of_nat j) Hv0) as (v & Hv1 & Hv2).
    { eapply bitset_test_range; [| |exact Et|]; lia. }
    rewrite Hlj, Hv2. f_equal. specialize (Hv Hbt j _ Hj).
    replace (Z.to_nat (c_enum c + Z.of_nat j)) with (Z.to_nat (c_enum c) + j)%nat in Hv1 by lia. congruence. }
  cbn [res_bind]. destruct same; cbn [negb].
  - exists k, t, cs, []. split; [done|]. split; [done|]. split; [unfold extends; by rewrite app_nil_r|].
    split; [done|]. split; [simpl; lia|]. rewrite (reg_file_id hw (call_writes t c)) by (by apply Hsame). by split.
  - destruct (set_reg_run_spec t cs _ _ _ _ Hrun Hlen Hr) as (t' & cs' & ps & -> & Hm & Hx & Hps & Hw & Hpl).
    cbn [res_bind fst snd].
    destruct (values_store_spec (reg_value k) (c_enum c) (c_values c)) as (l' & -> & Hll & Hl'); [lia|lia|].
    cbn [res_bind]. eexists _, t', cs', ps. split; [reflexivity|]. split; [done|]. split; [done|]. split; [done|].
    split; [done|]. split; [by rewrite Hw|]. split; [simpl; lia|]. intros e Hee Hbit. pose proof (Hlive e Hee) as Hee'. cbn [reg_saved_mask reg_value set_tracked] in *.
    rewrite bitset_set_range in Hbit by lia.
    destruct (decide (c_enum c <= e < c_enum c + n)) as [Hin|Hout].
    + destruct (lookup_lt_is_Some_2 (c_values c) (Z.to_nat e - Z.to_nat (c_enum c))) as [v Hv]; [lia|].
      exists v. split; [rewrite Hl', decide_True by lia; done|].
      apply reg_file_lookup; [by apply call_writes_nodup|].
      apply list_elem_of_lookup. exists (Z.to_nat e - Z.to_nat (c_enum c))%nat.
      unfold call_writes, run_writes. rewrite list_lookup_imap, Hv. simpl. do 2 f_equal.
      apply lookup_lt_Some in Hv. rewrite <- (proj2 (Hlay _ Hv)). f_equal. lia.
    + rewrite (proj2 (andb_false_iff _ _)), orb_false_r in Hbit
        by (destruct (Z.leb_spec (c_enum c) e); [right; apply Z.ltb_ge; lia|by left]).
      destruct (Hk e Hee Hbit) as (v & Hv1 & Hv2). exists v.
      split; [rewrite Hl', decide_False by lia; done|]. rewrite reg_file_lookup_ne; [done|].
      intros ([r x] & Er & Hin)%list_elem_of_fmap. simpl in Er. subst r.
      destruct (call_writes_lookup t c _ Hc Hin) as (j & Hj & Hlj & Lj). apply lookup_lt_Some in Hj. simpl in Hlj.
      apply Hinj in Hlj; [lia|done|done].
Qed.

(** A call with one value is [radeon_opt_set_reg], with more it is [radeon_opt_set_reg2] to 6. *)
Definition opt_step (k : ac_tracked_regs) (t : titan) (cs : ac_cmdbuf) (c : opt_call)
  : res (ac_tracked_regs * titan * ac_cmdbuf) :=
  match c_values c with
  | [v] => radeon_opt_set_reg getenv k t cs (c_reg c) (c_enum c) 0 v (c_prefix c) (c_packet c)
  | vs => opt_set_regs getenv k t cs (c_reg c) (c_enum c) vs (c_prefix c) (c_packet c)
  end.

Lemma emit_array_one cs v : in_u32 v -> ac_cmdbuf_emit_array cs [v] = ac_cmdbuf_emit cs v.
Proof.
  intros Hv. unfold ac_cmdbuf_emit_array, ac_cmdbuf_emit. cbn [length]. rewrite u32_small by done.
  change (Z.of_nat 1) with 1.
  replace (cdw cs + 1 <=? cs_reserved_dw cs) with (cdw cs <? cs_reserved_dw cs)
    by (destruct (Z.ltb_spec (cdw cs) (cs_reserved_dw cs)); symmetry; [apply Z.leb_le|apply Z.leb_gt]; lia).
  replace (cs_max_dw cs <? cdw cs + 1) with (cs_max_dw cs <=? cdw cs)
    by (destruct (Z.leb_spec (cs_max_dw cs) (cdw cs)); symmetry; [apply Z.ltb_lt|apply Z.ltb_ge]; lia).
  done.
Qed.

Lemma opt_set_reg_one k t cs reg e v p packet :
  in_u32 v -> 0 <= e < Z.of_nat (length (reg_value k)) ->
  radeon_opt_set_reg getenv k t cs reg e 0 v p packet = opt_set_regs getenv k t cs reg e [v] p packet.
Proof.
  intros Hv He. unfold radeon_opt_set_reg, opt_set_regs. cbn [length values_match values_store].
  destruct (arr_get_in_range (reg_value k) e He) as (old & -> & _). cbn [res_bind].
  assert (Ht : BITSET_TEST_RANGE (reg_saved_mask k) e (Z.of_nat 1) = BITSET_TEST (reg_saved_mask k) e).
  { unfold BITSET_TEST_RANGE, BITSET_TEST. change (Z.of_nat 1) with 1. rewrite Z.land_ones, shiftr_div by lia.
    change (Z.ones 1) with 1. change (2 ^ 1) with 2. rewrite <- Z.testbit_spec' by lia. by destruct (Z.testbit _ _). }
  rewrite Ht. replace (BITSET_SET_RANGE (reg_saved_mask k) e (Z.of_nat 1)) with (BITSET_SET (reg_saved_mask k) e) by done.
  assert (Hrun : radeon_set_reg_run getenv t cs reg [v] p packet = radeon_set_reg getenv t cs reg 0 v p packet).
  { unfold radeon_set_reg_run, radeon_set_reg. cbn [length].
    rewrite (proj2 (run_split_false getenv t (prefix_base p) (reg_dw p reg) (Z.of_nat 1))) by (intros _ j Hj; lia).
    change (Z.of_nat 1) with 1. destruct (radeon_set_reg_seq _ _ _ _ _ _ _ _ _) as [r|]; [|done]. cbn [res_bind].
    by rewrite emit_array_one. }
  rewrite Hrun. destruct (BITSET_TEST _ _), (old =? v); cbn [negb orb res_bind]; try done;
    (destruct (radeon_set_reg _ _ _ _ _ _ _ _) as [r|]; [|done]); cbn [res_bind];
    by destruct (arr_set _ _ _).
Qed.

Lemma opt_step_eq k t cs c hw :
  tracked_ok k hw -> opt_call_ok t c ->
  opt_step k t cs c = opt_set_regs getenv k t cs (c_reg c) (c_enum c) (c_values c) (c_prefix c) (c_packet c).
Proof.
  intros [HkN _] (Hrun & Hlen & He & HN & _). unfold opt_step.
  destruct (c_values c) as [|v [|v2 vs]] eqn:Ev; [done| |done]. simpl in *.
  apply opt_set_reg_one; [|lia]. pose proof (run_vals _ _ _ _ _ Hrun) as Hv. by inversion Hv.
Qed.

Fixpoint run_calls (k : ac_tracked_regs) (t : titan) (cs : ac_cmdbuf) (calls : list opt_call)
  : res (ac_tracked_regs * titan * ac_cmdbuf) :=
  match calls with
  | [] => Ok (k, t, cs)
  | c :: calls' =>
      let* r := opt_step k t cs c in
      let '(k1, t1, cs1) := r in run_calls k1 t1 cs1 calls'
  end.

Definition calls_size (calls : list opt_call) : Z :=
  foldr (fun c n => 3 * Z.of_nat (length (c_values c)) + n) 0 calls.

Lemma opt_call_ok_same t t' c : same_map t t' -> opt_call_ok t c -> opt_call_ok t' c.
Proof.
  intros Hm (H1 & H2 & H3 & H4 & H5). split; [by apply (run_ok_same t)|]. split; [done|]. split; [done|].
  split; [done|]. intros k Hk. rewrite (dst_same t t') by done. by apply H5.
Qed.

Lemma calls_size_nonneg calls : 0 <= calls_size calls.
Proof. induction calls as [|c calls IH]; simpl; [lia|]. fold (calls_size calls). lia. Qed.

Lemma run_calls_spec calls k t cs hw :
  tracked_ok k hw -> Forall (opt_call_ok t) calls -> room cs (calls_size calls) ->
  exists k' t' cs' ps, run_calls k t cs calls = Ok (k', t', cs') /\
    extends cs cs' (encode_packets ps) /\ Forall packet_ok ps /\
    reg_file hw (concat (packet_writes <$> ps)) = reg_file hw (concat (call_writes t <$> calls)) /\
    tracked_ok k' (reg_file hw (concat (call_writes t <$> calls))).
Proof.
  revert k t cs hw. induction calls as [|c calls IH]; intros k t cs hw Hk Hok Hr; cbn [run_calls].
  { exists k, t, cs, []. split; [done|]. split; [unfold extends; by rewrite app_nil_r|]. done. }
  inversion Hok as [|? ? Hc Hok']; subst. simpl in Hr. fold (calls_size calls) in Hr.
  pose proof (calls_size_nonneg calls) as Hsz. rewrite (opt_step_eq k t cs c hw Hk Hc).
  destruct (opt_set_regs_spec k t cs c hw Hk Hc) as (k1 & t1 & cs1 & ps1 & -> & Hm & Hx1 & Hps1 & Hl1 & Hw1 & Hk1).
  { destruct Hr as [R1 R2]. split; [lia|]. destruct R2; [by left|right; lia]. }
  cbn [res_bind].
  destruct (IH k1 t1 cs1 (reg_file hw (call_writes t c)) Hk1) as (k2 & t2 & cs2 & ps2 & -> & Hx2 & Hps2 & Hw2 & Hk2).
  { apply (Forall_impl _ _ _ Hok'). intros c'. by apply opt_call_ok_same. }
  { destruct Hx1 as (X1 & X2 & X3). destruct Hr as [R1 R2]. unfold room, cdw in *. rewrite X1, X2, X3, length_app. lia. }
  assert (Ecw : call_writes t1 <$> calls = call_writes t <$> calls).
  { apply list_fmap_ext. intros _ c' _. by apply run_writes_same. }
  rewrite Ecw in *. exists k2, t2, cs2, (ps1 ++ ps2). split; [done|].
  unfold encode_packets in *. rewrite !fmap_app, !concat_app. split; [by eapply extends_trans|].
  split; [by apply Forall_app|]. cbn [fmap list_fmap concat]. rewrite !reg_file_app, Hw1. by split.
Qed.
End Elision.

(** C32: leaving out tracked writes is invisible.  Take any sequence of [radeon_opt_set_reg]
    and [radeon_opt_set_reg2..6] calls, any map, and tracked registers whose hardware
    addresses under the map are distinct: if the driver's record agrees with the hardware at
    the start, then executing what was actually emitted leaves every hardware register as if
    no write had been left out, and the record agrees with the hardware at the end. *)
Theorem elision_invisible layout N (live : Z -> Prop) calls k t cs hw other :
  (forall e, live e -> 0 <= e < N) ->
  (forall e e', live e -> live e' -> layout e = layout e' -> e = e') ->
  other_skips other ->
  tracked_ok layout N live k hw -> Forall (opt_call_ok layout N live t) calls -> room cs (calls_size calls) ->
  exists k' t' cs' l, run_calls k t cs calls = Ok (k', t', cs') /\ cs_buf cs' = cs_buf cs ++ l /\
    reg_file hw (parse_gfx_compute_ib l other) = reg_file hw (concat (call_writes t <$> calls)) /\
    tracked_ok layout N live k' (reg_file hw (parse_gfx_compute_ib l other)).
Proof.
  intros Hlive Hinj Ho Hk Hok Hr.
  destruct (run_calls_spec layout N live Hlive Hinj calls k t cs hw Hk Hok Hr) as (k' & t' & cs' & ps & E & Hx & Hps & Hw & Hk').
  exists k', t', cs', (encode_packets ps). split; [done|]. split; [apply Hx|].
  unfold parse_gfx_compute_ib. rewrite (parse_loop_spec _ _ ps) by done. by rewrite Hw.
Qed.
End Runs.

(** ** Witnesses *)

Definition cs_empty : ac_cmdbuf := mk_cs [] 64 0.

(** Two registers the kernel map sends to 0x019 and 0x001: a split run. *)
Lemma run_ok_example : run_ok no_env titan10 SI_CONTEXT PKT3_SET_CONTEXT_REG 0x28000 [7; 8].
Proof.
  split; [reflexivity|reflexivity|simpl; unfold SI_CONTEXT_REG_OFFSET, SI_CONTEXT_REG_END; lia| |].
  - intros k Hk. simpl in Hk. assert (k = 0 \/ k = 1) as [-> | ->] by lia; vm_compute; (split; [discriminate|reflexivity]).
  - repeat (constructor; [unfold in_u32; lia|]). constructor.
Qed.

Lemma set_reg_run_correct_witness :
  ac_titan_run_split no_env titan10 SI_CONTEXT_REG_OFFSET 0 2 = true /\
  exists t' cs' l, radeon_set_reg_run no_env titan10 cs_empty 0x28000 [7; 8] SI_CONTEXT PKT3_SET_CONTEXT_REG = Ok (t', cs') /\
    cs_buf cs' = [] ++ l /\
    parse_gfx_compute_ib l skip_other = run_writes no_env titan10 SI_CONTEXT 0x28000 [7; 8] /\
    regmap_active t' = regmap_active titan10.
Proof.
  split; [vm_compute; reflexivity|].
  apply (set_reg_run_correct no_env titan10 cs_empty 0x28000 [7; 8] SI_CONTEXT PKT3_SET_CONTEXT_REG skip_other);
    [apply skip_other_ok|apply run_ok_example|simpl; lia|].
  split; [unfold cdw; simpl; lia|by left].
Defined.

(** Two tracked registers at 0x28000 and 0x28004, nothing known yet, written twice. *)
Definition layout2 (e : Z) : Z := if e =? 0 then dst no_env titan10 SI_CONTEXT 0x28000 else dst no_env titan10 SI_CONTEXT 0x28004.

Definition live2 (e : Z) : Prop := e = 0 \/ e = 1.

Definition call2 : opt_call := mk_call 0x28000 0 [7; 8] SI_CONTEXT PKT3_SET_CONTEXT_REG.

Lemma elision_invisible_witness :
  exists k' t' cs' l,
    run_calls no_env (mk_tracked 0 [0; 0] [] [] []) titan10 cs_empty [call2; call2] = Ok (k', t', cs') /\
    cs_buf cs' = [] ++ l /\
    reg_file ∅ (parse_gfx_compute_ib l skip_other) =
      reg_file ∅ (concat (call_writes no_env titan10 <$> [call2; call2])) /\
    tracked_ok layout2 2 live2 k' (reg_file ∅ (parse_gfx_compute_ib l skip_other)).
Proof.
  assert (Hc : opt_call_ok no_env layout2 2 live2 titan10 call2).
  { split; [apply run_ok_example|]. split; [simpl; lia|]. split; [simpl; lia|]. split; [simpl; lia|].
    intros k Hk. simpl in Hk. destruct k as [|[|k]]; [split; [by left|reflexivity]|split; [by right|reflexivity]|lia]. }
  apply (elision_invisible no_env layout2 2 live2 [call2; call2] (mk_tracked 0 [0; 0] [] [] []) titan10 cs_empty ∅ skip_other).
  - intros e [-> | ->]; lia.
  - intros e e' [-> | ->] [-> | ->]; vm_compute; congruence.
  - apply skip_other_ok.
  - split; [reflexivity|]. intros e He Hb. rewrite Z.testbit_0_l in Hb. discriminate.
  - constructor; [exact Hc|]. constructor; [exact Hc|constructor].
  - split; [unfold cdw; simpl; lia|by left].
Defined.

