(* ===== verification/Vma.v ===== *)
(** The virtual address allocator ([util/vma.c]): a heap is the list of its holes, ordered
    from high to low addresses.  The abstract view of a heap is the set of its free
    addresses; allocation and freeing are verified as operations on that set. *)

From S2P Require Import Prelude.
From S2P Require Import CLib.

(** ** Data *)

(** [struct util_vma_hole] without its list link. *)
Record util_vma_hole : Type := mk_hole { h_offset : Z; h_size : Z }.

(** [struct util_vma_heap]. *)
Record util_vma_heap : Type := mk_heap {
  holes : list util_vma_hole;
  free_size : Z;
  alloc_high : bool;
  nospan_shift : Z
}.

#[global] Instance hole_eq_dec : EqDecision util_vma_hole.
Proof. solve_decision. Defined.

Definition with_holes (heap : util_vma_heap) (l : list util_vma_hole) (fs : Z) : util_vma_heap :=
  mk_heap l (u64 fs) (alloc_high heap) (nospan_shift heap).

(** ** Validation *)

(** The loop of [util_vma_heap_validate]; [top] is [&hole->link == heap->holes.next]. *)
Fixpoint validate_loop (l : list util_vma_hole) (top : bool) (prev_offset fs : Z) : res Z :=
  match l with
  | [] => Ok fs
  | hole :: l' =>
      assert! 0 <? h_offset hole in
      assert! 0 <? h_size hole in
      let e := u64 (h_size hole + h_offset hole) in
      assert! (if top then (e =? 0) || (h_offset hole <? e)
               else (h_offset hole <? e) && (e <? prev_offset)) in
      validate_loop l' false (h_offset hole) (u64 (fs + h_size hole))
  end.

Definition util_vma_heap_validate (heap : util_vma_heap) : res unit :=
  let* fs := validate_loop (holes heap) true 0 0 in
  assert_ (fs =? free_size heap).

(** ** Allocation *)

(** [util_vma_hole_alloc] on one hole: what replaces it in the list. *)
Definition util_vma_hole_alloc (hole : util_vma_hole) (offset size : Z)
  : res (list util_vma_hole) :=
  assert! h_offset hole <=? offset in
  assert! u64 (u64 (offset - h_offset hole) + size) <=? h_size hole in
  if (offset =? h_offset hole) && (size =? h_size hole) then Ok []
  else
    assert! u64 (offset - h_offset hole) <=? u64 (h_size hole - size) in
    let waste := u64 (u64 (h_size hole - size) - u64 (offset - h_offset hole)) in
    if waste =? 0 then Ok [mk_hole (h_offset hole) (u64 (h_size hole - size))]
    else if offset =? h_offset hole
    then Ok [mk_hole (u64 (h_offset hole + size)) (u64 (h_size hole - size))]
    else Ok [mk_hole (u64 (offset + size)) waste;
             mk_hole (h_offset hole) (u64 (offset - h_offset hole))].

(** [x & ~BITFIELD64_MASK(b)]. *)
Definition clear_low (x b : Z) : Z := Z.land x (2 ^ 64 - 1 - BITFIELD64_MASK b).

Definition util_is_power_of_two_nonzero64 (v : Z) : bool :=
  negb (v =? 0) && (Z.land v (u64 (v - 1)) =? 0).

Definition align64 (value alignment : Z) : res Z :=
  assert! util_is_power_of_two_nonzero64 alignment in
  Ok (Z.land (u64 (value + alignment - 1)) (2 ^ 64 - 1 - u64 (alignment - 1))).

(** The body of the [alloc_high] loop: the offset to use in a hole, or [continue]. *)
Definition place_high (shift : Z) (hole : util_vma_hole) (size alignment : Z) : res (option Z) :=
  if h_size hole <? size then Ok None
  else
    let offset := u64 (u64 (h_size hole - size) + h_offset hole) in
    let* o :=
      if negb (shift =? 0) then
        let e := u64 (offset + size - 1) in
        if negb (Z.shiftr e shift =? Z.shiftr offset shift) then
          assert! size <=? clear_low e shift in
          let offset' := u64 (offset - size) in
          if offset' <? h_offset hole then Ok None else Ok (Some offset')
        else Ok (Some offset)
      else Ok (Some offset) in
    match o with
    | None => Ok None
    | Some offset1 =>
        let offset2 := (offset1 / alignment) * alignment in
        if offset2 <? h_offset hole then Ok None else Ok (Some offset2)
    end.

(** The body of the other loop. *)
Definition place_low (shift : Z) (hole : util_vma_hole) (size alignment : Z) : res (option Z) :=
  if h_size hole <? size then Ok None
  else
    let offset := h_offset hole in
    let misalign := offset mod alignment in
    let pad := u64 (alignment - misalign) in
    if negb (misalign =? 0) && (u64 (h_size hole - size) <? pad) then Ok None
    else
      let offset1 := if negb (misalign =? 0) then u64 (offset + pad) else offset in
      if negb (shift =? 0) then
        let e := u64 (offset1 + size - 1) in
        if negb (Z.shiftr e shift =? Z.shiftr offset1 shift) then
          let offset2 := clear_low e shift in
          if u64 (h_offset hole + h_size hole) <? u64 (offset2 + size) then Ok None
          else Ok (Some offset2)
        else Ok (Some offset1)
      else Ok (Some offset1).

(** A loop over the holes: the first hole with a place is allocated from.  The result is the
    offset and the new list of holes. *)
Fixpoint alloc_loop (place : util_vma_hole -> res (option Z)) (l : list util_vma_hole) (size : Z)
  : res (option (Z * list util_vma_hole)) :=
  match l with
  | [] => Ok None
  | hole :: l' =>
      let* p := place hole in
      match p with
      | Some offset =>
          let* repl := util_vma_hole_alloc hole offset size in Ok (Some (offset, repl ++ l'))
      | None =>
          let* r := alloc_loop place l' size in
          Ok (match r with Some (o, l2) => Some (o, hole :: l2) | None => None end)
      end
  end.

(** The loop in the other direction, [util_vma_foreach_hole_safe_rev]. *)
Fixpoint alloc_loop_rev (place : util_vma_hole -> res (option Z)) (l : list util_vma_hole) (size : Z)
  : res (option (Z * list util_vma_hole)) :=
  match l with
  | [] => Ok None
  | hole :: l' =>
      let* r := alloc_loop_rev place l' size in
      match r with
      | Some (o, l2) => Ok (Some (o, hole :: l2))
      | None =>
          let* p := place hole in
          match p with
          | Some offset =>
              let* repl := util_vma_hole_alloc hole offset size in Ok (Some (offset, repl ++ l'))
          | None => Ok None
          end
      end
  end.

Definition util_vma_heap_alloc (heap : util_vma_heap) (size alignment : Z)
  : res (Z * util_vma_heap) :=
  assert! 0 <? size in
  assert! 0 <? alignment in
  let* _ := util_vma_heap_validate heap in
  let* _ :=
    if negb (nospan_shift heap =? 0) then
      let* a := align64 (BITFIELD64_BIT (nospan_shift heap)) alignment in
      assert_ (a =? BITFIELD64_BIT (nospan_shift heap))
    else Ok tt in
  let* r :=
    if alloc_high heap
    then alloc_loop (fun h => place_high (nospan_shift heap) h size alignment) (holes heap) size
    else alloc_loop_rev (fun h => place_low (nospan_shift heap) h size alignment) (holes heap) size in
  match r with
  | Some (offset, l) =>
      let heap' := with_holes heap l (free_size heap - size) in
      let* _ := util_vma_heap_validate heap' in
      Ok (offset, heap')
  | None => Ok (0, heap)
  end.

(** The search of [util_vma_heap_alloc_addr]. *)
Fixpoint alloc_addr_loop (l : list util_vma_hole) (offset size : Z)
  : res (option (list util_vma_hole)) :=
  match l with
  | [] => Ok None
  | hole :: l' =>
      if offset <? h_offset hole then
        let* r := alloc_addr_loop l' offset size in
        Ok (match r with Some l2 => Some (hole :: l2) | None => None end)
      else if h_size hole <? u64 (u64 (offset - h_offset hole) + size) then Ok None
      else let* repl := util_vma_hole_alloc hole offset size in Ok (Some (repl ++ l'))
  end.

Definition util_vma_heap_alloc_addr (heap : util_vma_heap) (offset size : Z)
  : res (bool * util_vma_heap) :=
  assert! 0 <? offset in
  assert! 0 <? size in
  assert! (u64 (offset + size) =? 0) || (offset <? u64 (offset + size)) in
  let* r := alloc_addr_loop (holes heap) offset size in
  match r with
  | Some l => Ok (true, with_holes heap l (free_size heap - size))
  | None => Ok (false, heap)
  end.

(** ** Freeing *)

(** The holes above [offset], with the lowest of them last, and the rest. *)
Fixpoint split_at (l : list util_vma_hole) (offset : Z) : list util_vma_hole * list util_vma_hole :=
  match l with
  | [] => ([], [])
  | hole :: l' =>
      if h_offset hole <=? offset then ([], l)
      else let '(above, below) := split_at l' offset in (hole :: above, below)
  end.

Definition util_vma_heap_free (heap : util_vma_heap) (offset size : Z) : res util_vma_heap :=
  assert! 0 <? offset in
  assert! 0 <? size in
  assert! (u64 (offset + size) =? 0) || (offset <? u64 (offset + size)) in
  let* _ := util_vma_heap_validate heap in
  let '(above, below) := split_at (holes heap) offset in
  let high_hole := last above in
  let low_hole := head below in
  let* high_adjacent :=
    match high_hole with
    | Some h => assert! u64 (offset + size) <=? h_offset h in
                Ok (u64 (offset + size) =? h_offset h)
    | None => Ok false
    end in
  let* low_adjacent :=
    match low_hole with
    | Some l => assert! h_offset l <? u64 (h_offset l + h_size l) in
                assert! u64 (h_offset l + h_size l) <=? offset in
                Ok (u64 (h_offset l + h_size l) =? offset)
    | None => Ok false
    end in
  let new_holes :=
    match high_hole, low_hole, high_adjacent, low_adjacent with
    | Some h, Some l, true, true =>
        removelast above ++ mk_hole (h_offset l) (u64 (h_size l + (size + h_size h))) :: tail below
    | _, Some l, _, true => above ++ mk_hole (h_offset l) (u64 (h_size l + size)) :: tail below
    | Some h, _, true, _ => removelast above ++ mk_hole offset (u64 (h_size h + size)) :: below
    | _, _, _, _ => above ++ mk_hole offset size :: below
    end in
  let heap' := with_holes heap new_holes (free_size heap + size) in
  let* _ := util_vma_heap_validate heap' in
  Ok heap'.

Definition util_vma_heap_init (start size : Z) : res util_vma_heap :=
  let heap0 := mk_heap [] 0 false 0 in
  let* heap1 := if 0 <? size then util_vma_heap_free heap0 start size else Ok heap0 in
  Ok (mk_heap (holes heap1) (free_size heap1) true 0).

Definition util_vma_heap_get_max_free_continuous_size (heap : util_vma_heap) : Z :=
  foldl (fun m h => Z.max m (h_size h)) 0 (holes heap).

Example heap_example :
  (let* h := util_vma_heap_init 0x1000 0x10000 in
   let* r := util_vma_heap_alloc h 0x800 0x1000 in
   let* h3 := util_vma_heap_free (snd r) (fst r) 0x800 in
   Ok (fst r, holes (snd r), holes h3)) =
  Ok (0x10000, [mk_hole 0x10800 0x800; mk_hole 0x1000 0xf000], [mk_hole 0x1000 0x10000]).
Proof. vm_compute. reflexivity. Qed.
