(* ===== verification/VmaProofs.v ===== *)
(** Correctness of the virtual address allocator: the heap refines the set of its free
    addresses.  Allocation returns the highest (or lowest) aligned region of free addresses
    and removes it, fails exactly when there is none, and freeing gives the addresses back. *)

From S2P Require Import Prelude.
From S2P Require Import CLib.
From S2P Require Import Vma.

(** ** Well-formed heaps *)

(** Holes below [ub], from high to low, never empty and never adjacent. *)
Fixpoint wf_from (ub : Z) (l : list util_vma_hole) : Prop :=
  match l with
  | [] => True
  | h :: l' => 0 < h_offset h /\ 0 < h_size h /\ h_offset h + h_size h < ub /\ wf_from (h_offset h) l'
  end.

Definition total (l : list util_vma_hole) : Z := foldr (fun h n => h_size h + n) 0 l.

Definition heap_wf (heap : util_vma_heap) : Prop :=
  wf_from (2 ^ 64 + 1) (holes heap) /\ free_size heap = total (holes heap).

(** The free addresses. *)
Definition in_hole (h : util_vma_hole) (a : Z) : Prop := h_offset h <= a < h_offset h + h_size h.
Definition free_in (l : list util_vma_hole) (a : Z) : Prop := Exists (fun h => in_hole h a) l.
Definition is_free (heap : util_vma_heap) (a : Z) : Prop := free_in (holes heap) a.

(** A region lies in a hole. *)
Definition inside (h : util_vma_hole) (o size : Z) : Prop :=
  h_offset h <= o /\ o + size <= h_offset h + h_size h.

Lemma wf_weaken ub ub' l : wf_from ub l -> ub <= ub' -> wf_from ub' l.
Proof. destruct l; simpl; [done|]. intros (? & ? & ? & ?) ?. split_and!; [lia..|done]. Qed.

Lemma wf_free_bound ub l a : wf_from ub l -> free_in l a -> 0 < a < ub - 1.
Proof.
  revert ub. induction l as [|h l IH]; intros ub Hwf Hf; [by inversion Hf|].
  destruct Hwf as (H1 & H2 & H3 & H4). inversion Hf as [? ? Ha|? ? Ha]; subst.
  - unfold in_hole in Ha. lia.
  - specialize (IH _ H4 Ha). lia.
Qed.

Lemma wf_total ub l : 1 <= ub -> wf_from ub l -> 0 <= total l /\ (total l = 0 \/ total l <= ub - 2).
Proof.
  revert ub. induction l as [|h l IH]; intros ub Hub Hwf; simpl; [split; [lia|by left]|].
  destruct Hwf as (H1 & H2 & H3 & H4). destruct (IH (h_offset h) ltac:(lia) H4) as [? [?|?]]; lia.
Qed.

(** The address just past a hole is not free. *)
Lemma wf_end_not_free ub (l : list util_vma_hole) h :
  wf_from ub l -> h ∈ l -> ~ free_in l (h_offset h + h_size h).
Proof.
  revert ub. induction l as [|h0 l IH]; intros ub Hwf Hin Hf; [by inversion Hin|].
  destruct Hwf as (H1 & H2 & H3 & H4). apply elem_of_cons in Hin as [->|Hin].
  - inversion Hf as [? ? Ha|? ? Ha]; subst; [unfold in_hole in Ha; lia|].
    pose proof (wf_free_bound _ _ _ H4 Ha). lia.
  - inversion Hf as [? ? Ha|? ? Ha]; subst; [|by apply (IH _ H4 Hin)].
    assert (Hlast : free_in l (h_offset h + h_size h - 1)).
    { apply Exists_exists. exists h. split; [done|]. unfold in_hole.
      assert (0 < h_size h); [|lia]. clear -H4 Hin.
      revert H4. generalize (h_offset h0). induction l as [|h1 l IH]; intros u Hwf; [by inversion Hin|].
      destruct Hwf as (? & ? & ? & ?). apply elem_of_cons in Hin as [->|Hin]; [done|]. by eapply IH. }
    pose proof (wf_free_bound _ _ _ H4 Hlast). unfold in_hole in Ha. lia.
Qed.

(** A region of free addresses lies in one hole. *)
Lemma free_region_inside ub l o size :
  wf_from ub l -> 0 < size -> (forall a, o <= a < o + size -> free_in l a) ->
  exists h, h ∈ l /\ inside h o size.
Proof.
  intros Hwf Hs Hall. destruct (proj1 (Exists_exists _ _) (Hall o ltac:(lia))) as (h & Hin & Ho).
  exists h. split; [done|]. unfold in_hole in Ho. unfold inside. split; [lia|].
  destruct (Z.le_gt_cases (o + size) (h_offset h + h_size h)) as [?|Hgt]; [done|].
  destruct (wf_end_not_free ub l h Hwf Hin). apply Hall. lia.
Qed.

Lemma inside_free (l : list util_vma_hole) h o size a :
  h ∈ l -> inside h o size -> o <= a < o + size -> free_in l a.
Proof.
  intros Hin [H1 H2] Ha. apply Exists_exists. exists h. split; [done|]. unfold in_hole. lia.
Qed.

(** ** Validation *)

Lemma validate_loop_ok l (top : bool) ub fs :
  wf_from ub l -> (if top then ub = 2 ^ 64 + 1 else 0 <= ub <= 2 ^ 64) -> 0 <= fs ->
  fs + total l < 2 ^ 64 ->
  validate_loop l top ub fs = Ok (fs + total l).
Proof.
  revert top ub fs. induction l as [|h l IH]; intros top ub fs Hwf Hub Hfs Hlt; cbn [validate_loop total foldr].
  { f_equal. simpl. lia. }
  destruct Hwf as (H1 & H2 & H3 & H4). simpl in Hlt. fold (total l) in Hlt.
  assert (0 <= total l) by (eapply (wf_total (h_offset h)); [lia|done]).
  step_assert; [|by apply Z.ltb_lt]. step_assert; [|by apply Z.ltb_lt].
  step_assert; cycle 1.
  { destruct top; cbv iota in Hub.
    - destruct (Z.eq_dec (h_size h + h_offset h) (2 ^ 64)) as [->|Hne]; [done|].
      rewrite u64_small by (unfold in_u64; lia). apply orb_true_iff. right. apply Z.ltb_lt. lia.
    - rewrite u64_small by (unfold in_u64; lia). apply andb_true_iff. split; apply Z.ltb_lt; lia. }
  assert (h_offset h + h_size h <= 2 ^ 64) by (destruct top; cbv iota in Hub; lia).
  rewrite u64_small by (unfold in_u64; lia). rewrite IH; [f_equal; fold (total l); lia|done|cbv iota; lia|lia|lia].
Qed.

Lemma validate_ok heap : heap_wf heap -> util_vma_heap_validate heap = Ok tt.
Proof.
  intros [Hwf Hfs]. unfold util_vma_heap_validate.
  destruct (wf_total (2 ^ 64 + 1) _ ltac:(lia) Hwf) as [H1 H2].
  assert (E : validate_loop (holes heap) true 0 0 = Ok (total (holes heap))).
  { destruct (holes heap) as [|h l] eqn:El; [done|].
    rewrite <- (Z.add_0_l (total (h :: l))).
    rewrite <- (validate_loop_ok (h :: l) true (2 ^ 64 + 1) 0) by (done || lia). done. }
  rewrite E. cbn [res_bind]. by rewrite Hfs, Z.eqb_refl.
Qed.

(** ** Allocating from a hole *)

(** [l'] has the holes of [l] without the region at [o]. *)
Definition removed (ub : Z) (l l' : list util_vma_hole) (o size : Z) : Prop :=
  wf_from ub l' /\ total l' = total l - size /\
  (forall a, free_in l' a <-> free_in l a /\ ~ (o <= a < o + size)).

Lemma free_in_cons h l a : free_in (h :: l) a <-> in_hole h a \/ free_in l a.
Proof. apply Exists_cons. Qed.

Lemma free_in_nil a : ~ free_in [] a.
Proof. intros H; by inversion H. Qed.

Lemma hole_alloc_spec ub h l o size :
  wf_from ub (h :: l) -> ub <= 2 ^ 64 + 1 -> 0 < size -> inside h o size ->
  exists repl, util_vma_hole_alloc h o size = Ok repl /\ removed ub (h :: l) (repl ++ l) o size.
Proof.
  destruct h as [off hs]. unfold inside, util_vma_hole_alloc. simpl.
  intros (Hoff & Hhs & Hend & Hl) Hub Hsz [Hin1 Hin2].
  assert (Hlow : forall a, free_in l a -> a < off - 1) by (intros a Ha; apply (wf_free_bound _ _ _ Hl) in Ha; lia).
  rewrite (u64_small (o - off)), (u64_small (o - off + size)), (u64_small (hs - size)),
    (u64_small (hs - size - (o - off))) by (unfold in_u64; lia).
  step_assert; [|apply Z.leb_le; lia]. step_assert; [|apply Z.leb_le; lia].
  destruct (Z.eqb_spec o off) as [->|Ho]; destruct (Z.eqb_spec size hs) as [->|Hs]; cbn [andb];
    try (exfalso; lia).
  { exists []. split; [done|]. split; [|split]; simpl.
    - apply (wf_weaken off); [done|lia].
    - fold (total l). lia.
    - intros a. rewrite free_in_cons. unfold in_hole; simpl. split.
      + intros Ha. specialize (Hlow a Ha). split; [by right|lia].
      + intros [[?|?] ?]; [lia|done]. }
  all: step_assert; [|apply Z.leb_le; lia].
  all: match goal with |- context [?x =? 0] => destruct (Z.eqb_spec x 0) as [Hw|Hw] end;
    try (exfalso; lia).
  all: rewrite ?u64_small by (unfold in_u64; lia).
  all: eexists; (split; [reflexivity|]); (split; [|split]); simpl;
    [split_and!; first [lia|apply (wf_weaken off); [done|lia]]|fold (total l); lia|].
  all: intros a; rewrite ?free_in_cons; unfold in_hole; simpl; generalize (Hlow a);
    generalize (free_in l a); intros P HP; clear Hlow Hl; intuition lia.
Qed.

(** ** The allocation loops *)

Definition hole_ok (top : Z) (h : util_vma_hole) : Prop :=
  0 < h_offset h /\ 0 < h_size h /\ h_offset h + h_size h <= top.

(** What a loop over the holes needs of the body: it never fails, it only returns regions
    inside the hole that satisfy [Q], and it misses no candidate. [better o o'] says that the
    loop prefers [o]. *)
Record place_spec (place : util_vma_hole -> res (option Z)) (size : Z)
    (Q C : Z -> Prop) (better : Z -> Z -> Prop) (top : Z) : Prop := {
  place_total h : hole_ok top h -> is_ok (place h);
  place_some h o : hole_ok top h -> place h = Ok (Some o) ->
    inside h o size /\ Q o /\ (forall o', inside h o' size -> C o' -> better o o');
  place_none h o : hole_ok top h -> place h = Ok None -> inside h o size -> ~ C o
}.

(** The result of a loop. *)
Definition loop_result (ub : Z) (l : list util_vma_hole) (size : Z) (Q C : Z -> Prop)
    (better : Z -> Z -> Prop) (r : option (Z * list util_vma_hole)) : Prop :=
  match r with
  | None => forall h o, h ∈ l -> inside h o size -> ~ C o
  | Some (o, l') => removed ub l l' o size /\ (exists h, h ∈ l /\ inside h o size) /\ Q o /\
      (forall h o', h ∈ l -> inside h o' size -> C o' -> better o o')
  end.

Lemma removed_cons ub h l l' o size :
  wf_from ub (h :: l) -> removed (h_offset h) l l' o size ->
  (forall a, o <= a < o + size -> a < h_offset h) -> removed ub (h :: l) (h :: l') o size.
Proof.
  intros (H1 & H2 & H3 & H4) (Hw & Ht & Hf) Hlow. split; [done|]. split.
  - simpl. fold (total l) (total l'). lia.
  - intros a. rewrite !free_in_cons, Hf. specialize (Hlow a). unfold in_hole.
    generalize (free_in l a). intros P. intuition lia.
Qed.

Lemma inside_bound ub l (h : util_vma_hole) o size :
  wf_from ub l -> h ∈ l -> inside h o size -> 0 < o /\ o + size < ub.
Proof.
  revert ub. induction l as [|h0 l IH]; intros ub Hwf Hin Hi; [by inversion Hin|].
  destruct Hwf as (H1 & H2 & H3 & H4). apply elem_of_cons in Hin as [->|Hin].
  - destruct Hi. lia.
  - destruct (IH _ H4 Hin Hi). lia.
Qed.

Lemma wf_hole_ok top ub h l : wf_from ub (h :: l) -> ub <= top + 1 -> hole_ok top h.
Proof. intros (H1 & H2 & H3 & H4) ?. split; [done|]. split; [done|lia]. Qed.

Section Loops.
Context (place : util_vma_hole -> res (option Z)) (size : Z) (Q C : Z -> Prop).
Context (Hsize : 0 < size) (top : Z) (Htop : top <= 2 ^ 64).

(** From high to low: the result is the best when better is higher. *)
Lemma alloc_loop_spec l ub :
  place_spec place size Q C (fun o o' => o' <= o) top -> wf_from ub l -> ub <= top + 1 ->
  exists r, alloc_loop place l size = Ok r /\
    loop_result ub l size Q C (fun o o' => o' <= o) r.
Proof.
  intros Hp. revert ub. induction l as [|h l IH]; intros ub Hwf Hub; cbn [alloc_loop].
  { exists None. split; [done|]. intros h o Hin. by inversion Hin. }
  pose proof (wf_hole_ok _ _ _ _ Hwf Hub) as Hh.
  destruct (place_total _ _ _ _ _ _ Hp h Hh) as [[o|] Ep]; rewrite Ep; cbn [res_bind].
  - destruct (place_some _ _ _ _ _ _ Hp h o Hh Ep) as (Hin & HQ & Hbest).
    destruct (hole_alloc_spec ub h l o size Hwf ltac:(lia) Hsize Hin) as (repl & -> & Hrem). cbn [res_bind].
    eexists. split; [reflexivity|]. split; [done|]. split; [exists h; split; [by left|done]|].
    split; [done|]. intros h' o' [->|Hin']%elem_of_cons Hi' HC; [by apply Hbest|].
    destruct Hwf as (_ & _ & _ & Hl). destruct (inside_bound _ _ _ _ _ Hl Hin' Hi').
    destruct Hin. lia.
  - destruct Hwf as (H1 & H2 & H3 & H4).
    destruct (IH (h_offset h) H4 ltac:(lia)) as (r & -> & Hr). cbn [res_bind].
    destruct r as [[o l']|]; eexists; (split; [reflexivity|]).
    + destruct Hr as (Hrem & (h' & Hin' & Hi') & HQ & Hbest).
      pose proof (inside_bound _ _ _ _ _ H4 Hin' Hi').
      split; [apply removed_cons; [done|done|intros; lia]|].
      split; [exists h'; split; [by right|done]|]. split; [done|].
      intros h'' o'' [->|Hin'']%elem_of_cons Hi'' HC; [|by eapply Hbest].
      by destruct (place_none _ _ _ _ _ _ Hp h o'' Hh Ep).
    + intros h' o' [->|Hin']%elem_of_cons Hi'; [|by eapply Hr].
      by apply (place_none _ _ _ _ _ _ Hp h).
Qed.

(** From low to high. *)
Lemma alloc_loop_rev_spec l ub :
  place_spec place size Q C (fun o o' => o <= o') top -> wf_from ub l -> ub <= top + 1 ->
  exists r, alloc_loop_rev place l size = Ok r /\
    loop_result ub l size Q C (fun o o' => o <= o') r.
Proof.
  intros Hp. revert ub. induction l as [|h l IH]; intros ub Hwf Hub; cbn [alloc_loop_rev].
  { exists None. split; [done|]. intros h o Hin. by inversion Hin. }
  pose proof (wf_hole_ok _ _ _ _ Hwf Hub) as Hh. pose proof Hwf as (H1 & H2 & H3 & H4).
  destruct (IH (h_offset h) H4 ltac:(lia)) as (r & -> & Hr). cbn [res_bind].
  destruct r as [[o l']|].
  - destruct Hr as (Hrem & (h' & Hin' & Hi') & HQ & Hbest).
    pose proof (inside_bound _ _ _ _ _ H4 Hin' Hi').
    eexists. split; [reflexivity|]. split; [apply removed_cons; [done|done|intros; lia]|].
    split; [exists h'; split; [by right|done]|]. split; [done|].
    intros h'' o'' [->|Hin'']%elem_of_cons Hi'' HC; [|by eapply Hbest].
    destruct Hi''. lia.
  - destruct (place_total _ _ _ _ _ _ Hp h Hh) as [[o|] Ep]; rewrite Ep; cbn [res_bind].
    + destruct (place_some _ _ _ _ _ _ Hp h o Hh Ep) as (Hin & HQ & Hbest).
      destruct (hole_alloc_spec ub h l o size Hwf ltac:(lia) Hsize Hin) as (repl & -> & Hrem). cbn [res_bind].
      eexists. split; [reflexivity|]. split; [done|]. split; [exists h; split; [by left|done]|].
      split; [done|]. intros h' o' [->|Hin']%elem_of_cons Hi' HC; [by apply Hbest|].
      by destruct (Hr h' o').
    + eexists. split; [reflexivity|]. intros h' o' [->|Hin']%elem_of_cons Hi'; [|by eapply Hr].
      by apply (place_none _ _ _ _ _ _ Hp h).
Qed.
End Loops.

(** ** The places *)

Abbreviation aligned al := (fun o : Z => o mod al = 0).

Lemma aligned_le_floor al o x : 0 < al -> o mod al = 0 -> o <= x -> o <= x / al * al.
Proof.
  intros Hal Ho Hle. assert (E : o = o / al * al).
  { pose proof (Z.div_mod o al ltac:(lia)). lia. }
  rewrite E. apply Z.mul_le_mono_nonneg_r; [lia|]. by apply Z.div_le_mono.
Qed.

Lemma place_high_spec size al :
  0 < size -> 0 < al ->
  place_spec (fun h => place_high 0 h size al) size (aligned al) (aligned al) (fun o o' => o' <= o) (2 ^ 64).
Proof.
  intros Hs Hal. unfold place_high, inside.
  assert (Hfl : forall x, 0 <= x -> x / al * al <= x /\ 0 <= x / al * al /\ (x / al * al) mod al = 0).
  { intros x Hx. split; [|split].
    - pose proof (Z.mul_div_le x al ltac:(lia)). lia.
    - apply Z.mul_nonneg_nonneg; [|lia]. by apply Z.div_pos.
    - by apply Z.mod_mul; lia. }
  assert (Hoff : forall h, hole_ok (2 ^ 64) h -> size <= h_size h ->
    u64 (u64 (h_size h - size) + h_offset h) = h_size h - size + h_offset h).
  { intros h (H1 & H2 & H3) Hle. rewrite !u64_small; unfold in_u64; rewrite ?u64_small; unfold in_u64; lia. }
  split.
  - intros h Hh. cbn [negb Z.eqb]. destruct (Z.ltb_spec (h_size h) size); [by eexists|].
    cbn [res_bind]. case_match; by eexists.
  - intros h o Hh. cbn [negb Z.eqb]. destruct (Z.ltb_spec (h_size h) size) as [|Hle]; [done|].
    cbn [res_bind]. rewrite Hoff by done. destruct Hh as (H1 & H2 & H3).
    destruct (Hfl (h_size h - size + h_offset h) ltac:(lia)) as (F1 & F2 & F3).
    destruct (Z.ltb_spec ((h_size h - size + h_offset h) / al * al) (h_offset h)); [done|]. intros [= <-].
    split; [split; lia|]. split; [done|]. intros o' [_ Hi] Ho'. apply aligned_le_floor; [done|done|lia].
  - intros h o Hh. cbn [negb Z.eqb]. destruct (Z.ltb_spec (h_size h) size) as [|Hle]; [intros _ [? ?]; lia|].
    cbn [res_bind]. rewrite Hoff by done.
    destruct (Z.ltb_spec ((h_size h - size + h_offset h) / al * al) (h_offset h)) as [Hlt|]; [|done]. intros _ [Hi1 Hi2] Ho.
    pose proof (aligned_le_floor al o (h_size h - size + h_offset h) Hal Ho ltac:(lia)). lia.
Qed.

(** The low end of a hole rounded up. *)
Definition round_up (x al : Z) : Z := if x mod al =? 0 then x else x + (al - x mod al).

Lemma round_up_spec x al : 0 < al ->
  x <= round_up x al /\ round_up x al mod al = 0 /\
  (forall o, o mod al = 0 -> x <= o -> round_up x al <= o).
Proof.
  intros Hal. unfold round_up. pose proof (Z.mod_pos_bound x al Hal).
  pose proof (Z.div_mod x al ltac:(lia)) as Hx.
  destruct (Z.eqb_spec (x mod al) 0) as [E|E].
  - split; [lia|]. split; [done|]. auto.
  - split; [lia|]. split.
    + replace (x + (al - x mod al)) with ((x / al + 1) * al) by lia. apply Z.mod_mul. lia.
    + intros o Ho Hle. pose proof (Z.div_mod o al ltac:(lia)) as Ho'.
      assert (x / al < o / al) by (apply (Z.mul_lt_mono_pos_l al); lia). nia.
Qed.

(** [place_low] computes the rounded low end when it fits. *)
Lemma place_low_offset h size al :
  hole_ok (2 ^ 64) h -> 0 < size -> 0 < al < 2 ^ 64 -> size <= h_size h ->
  let mis := h_offset h mod al in
  let pad := u64 (al - mis) in
  (negb (mis =? 0) && (u64 (h_size h - size) <? pad)) = negb (round_up (h_offset h) al + size <=? h_offset h + h_size h) /\
  (round_up (h_offset h) al + size <= h_offset h + h_size h ->
   (if negb (mis =? 0) then u64 (h_offset h + pad) else h_offset h) = round_up (h_offset h) al).
Proof.
  intros (H1 & H2 & H3) Hs Hal Hle mis pad. unfold round_up. fold mis.
  pose proof (Z.mod_pos_bound (h_offset h) al ltac:(lia)) as Hm. fold mis in Hm.
  unfold pad. rewrite (u64_small (al - mis)) by (unfold in_u64; lia).
  rewrite (u64_small (h_size h - size)) by (unfold in_u64; lia).
  destruct (Z.eqb_spec mis 0) as [E|E]; cbn [negb andb].
  - split; [|done]. symmetry. apply negb_false_iff, Z.leb_le. lia.
  - split.
    + destruct (Z.ltb_spec (h_size h - size) (al - mis)), (Z.leb_spec (h_offset h + (al - mis) + size) (h_offset h + h_size h));
        simpl; lia.
    + intros Hf. rewrite u64_small by (unfold in_u64; lia). done.
Qed.

Lemma place_low_spec size al :
  0 < size -> 0 < al < 2 ^ 64 ->
  place_spec (fun h => place_low 0 h size al) size (aligned al) (aligned al) (fun o o' => o <= o') (2 ^ 64).
Proof.
  intros Hs Hal. unfold place_low. cbn [negb Z.eqb].
  split; intros h; [|intros o|intros o]; intros Hh; destruct (Z.ltb_spec (h_size h) size) as [Hlt|Hle];
    try (by eexists); try done.
  2, 4: destruct (place_low_offset h size al Hh Hs Hal Hle) as (-> & Hval);
    destruct (round_up_spec (h_offset h) al ltac:(lia)) as (R1 & R2 & R3);
    destruct (Z.leb_spec (round_up (h_offset h) al + size) (h_offset h + h_size h)) as [Hf|Hf]; cbn [negb]; try done.
  - case_match; by eexists.
  - rewrite (Hval Hf). intros [= <-]. split; [split; lia|]. split; [done|].
    intros o' [Hi _] Ho'. by apply R3.
  - intros _ [Hi1 Hi2] Ho. specialize (R3 o Ho Hi1). lia.
  - intros _ [Hi1 Hi2]. lia.
Qed.

(** ** Allocation *)

(** An aligned region of free addresses. *)
Definition candidate (heap : util_vma_heap) (size al x : Z) : Prop :=
  x mod al = 0 /\ (forall a, x <= a < x + size -> is_free heap a).

(** [heap'] is [heap] without the region at [o]. *)
Definition carved (heap heap' : util_vma_heap) (o size : Z) : Prop :=
  heap_wf heap' /\ alloc_high heap' = alloc_high heap /\ nospan_shift heap' = nospan_shift heap /\
  (forall a, is_free heap' a <-> is_free heap a /\ ~ (o <= a < o + size)).

Lemma removed_carved heap l' o size :
  heap_wf heap -> removed (2 ^ 64 + 1) (holes heap) l' o size ->
  carved heap (with_holes heap l' (free_size heap - size)) o size.
Proof.
  intros [Hwf Hfs] (Hw & Ht & Hf). split; [|done]. split; [done|]. simpl. rewrite Hfs, <- Ht.
  apply u64_small. destruct (wf_total (2 ^ 64 + 1) l' ltac:(done) Hw) as [? [?|?]]; unfold in_u64; lia.
Qed.

Lemma candidate_inside heap size al x :
  heap_wf heap -> 0 < size -> candidate heap size al x <->
  aligned al x /\ exists h, h ∈ holes heap /\ inside h x size.
Proof.
  intros [Hwf _] Hs. split.
  - intros [Ha Hall]. split; [done|]. by eapply free_region_inside.
  - intros [Ha (h & Hin & Hi)]. split; [done|]. intros a. by apply (inside_free _ h).
Qed.

Lemma heap_alloc_spec heap size al :
  heap_wf heap -> nospan_shift heap = 0 -> 0 < size -> 0 < al < 2 ^ 64 ->
  exists o heap', util_vma_heap_alloc heap size al = Ok (o, heap') /\
    ((o = 0 /\ heap' = heap /\ forall x, ~ candidate heap size al x) \/
     (0 < o /\ candidate heap size al o /\ carved heap heap' o size /\
      forall x, candidate heap size al x -> if alloc_high heap then x <= o else o <= x)).
Proof.
  intros Hwf Hns Hs Hal. unfold util_vma_heap_alloc.
  step_assert; [|by apply Z.ltb_lt]. step_assert; [|apply Z.ltb_lt; lia].
  rewrite validate_ok by done. cbn [res_bind]. rewrite Hns. cbn [Z.eqb negb res_bind].
  set (better := fun o o' => if alloc_high heap then o' <= o else o <= o').
  assert (exists r, (if alloc_high heap
    then alloc_loop (fun h => place_high 0 h size al) (holes heap) size
    else alloc_loop_rev (fun h => place_low 0 h size al) (holes heap) size) = Ok r /\
    loop_result (2 ^ 64 + 1) (holes heap) size (aligned al) (aligned al) better r)
    as (r & -> & Hr).
  { unfold better. destruct (alloc_high heap).
    - apply (alloc_loop_spec _ _ _ _ Hs (2 ^ 64)); [done|apply place_high_spec; lia|apply Hwf|done].
    - apply (alloc_loop_rev_spec _ _ _ _ Hs (2 ^ 64)); [done|apply place_low_spec; lia|apply Hwf|done]. }
  cbn [res_bind]. destruct r as [[o l']|].
  - destruct Hr as (Hrem & (h & Hin & Hi) & Ha & Hbest).
    pose proof (removed_carved _ _ _ _ Hwf Hrem) as Hcv.
    rewrite validate_ok by apply Hcv. cbn [res_bind]. eexists _, _. split; [reflexivity|]. right.
    split; [eapply inside_bound; [apply Hwf|done|done]|].
    split; [apply candidate_inside; [done|done|]; split; [done|by exists h]|]. split; [done|].
    intros x (Hx & h' & Hin' & Hi')%candidate_inside; [|done|done]. by apply (Hbest h').
  - eexists _, _. split; [reflexivity|]. left. split; [done|]. split; [done|].
    intros x (Hx & h' & Hin' & Hi')%candidate_inside; [|done|done]. by apply (Hr h' x).
Qed.

(** C7: [util_vma_heap_alloc] on a well-formed heap without a nospan boundary never fails an
    assertion; it returns the highest ([alloc_high]) or the lowest aligned address whose whole
    region is free, removes exactly that region from the free addresses and keeps the heap
    well formed; it returns 0 and leaves the heap alone only when no such region exists. *)
Theorem heap_alloc_correct heap size al :
  heap_wf heap -> nospan_shift heap = 0 -> 0 < size -> 0 < al < 2 ^ 64 ->
  exists o heap', util_vma_heap_alloc heap size al = Ok (o, heap') /\
    ((o = 0 /\ heap' = heap /\ forall x, ~ candidate heap size al x) \/
     (0 < o /\ candidate heap size al o /\ carved heap heap' o size /\
      forall x, candidate heap size al x -> if alloc_high heap then x <= o else o <= x)).
Proof. apply heap_alloc_spec. Qed.

Definition heap2 (high : bool) : util_vma_heap :=
  mk_heap [mk_hole 0x9000 0x1800; mk_hole 0x1100 0x4000] 0x5800 high 0.

Lemma heap2_wf high : heap_wf (heap2 high).
Proof. split; [simpl; lia|reflexivity]. Qed.

Lemma heap_alloc_correct_witness :
  exists o heap', util_vma_heap_alloc (heap2 true) 0x1000 0x1000 = Ok (o, heap') /\
    ((o = 0 /\ heap' = heap2 true /\ forall x, ~ candidate (heap2 true) 0x1000 0x1000 x) \/
     (0 < o /\ candidate (heap2 true) 0x1000 0x1000 o /\ carved (heap2 true) heap' o 0x1000 /\
      forall x, candidate (heap2 true) 0x1000 0x1000 x -> x <= o)).
Proof. exact (heap_alloc_correct (heap2 true) 0x1000 0x1000 (heap2_wf true) eq_refl ltac:(lia) ltac:(lia)). Defined.

(** ** Fixed-address allocation *)

Lemma alloc_addr_loop_spec l ub o size :
  wf_from ub l -> ub <= 2 ^ 64 + 1 -> 0 < o -> 0 < size -> o + size <= 2 ^ 64 ->
  exists r, alloc_addr_loop l o size = Ok r /\
    match r with
    | Some l' => removed ub l l' o size /\ exists h, h ∈ l /\ inside h o size
    | None => forall h, h ∈ l -> ~ inside h o size
    end.
Proof.
  intros Hwf Hub Ho Hs Hend. revert ub Hwf Hub.
  induction l as [|h l IH]; intros ub Hwf Hub; cbn [alloc_addr_loop].
  { exists None. split; [done|]. intros h Hin. by inversion Hin. }
  pose proof Hwf as (H1 & H2 & H3 & H4).
  destruct (Z.ltb_spec o (h_offset h)) as [Hlt|Hge].
  - destruct (IH (h_offset h) H4 ltac:(lia)) as (r & -> & Hr). cbn [res_bind].
    destruct r as [l'|]; eexists; (split; [reflexivity|]).
    + destruct Hr as (Hrem & h' & Hin & Hi). pose proof (inside_bound _ _ _ _ _ H4 Hin Hi).
      split; [apply removed_cons; [done|done|intros; lia]|]. exists h'. split; [by right|done].
    + intros h' [->|Hin]%elem_of_cons; [intros [? _]; lia|by apply Hr].
  - rewrite (u64_small (o - h_offset h)), u64_small by (unfold in_u64; lia).
    destruct (Z.ltb_spec (h_size h) (o - h_offset h + size)) as [Hsm|Hfit].
    + eexists. split; [reflexivity|]. intros h' [->|Hin]%elem_of_cons Hi; [destruct Hi; lia|].
      pose proof (inside_bound _ _ _ _ _ H4 Hin Hi). lia.
    + assert (Hi : inside h o size) by (split; lia).
      destruct (hole_alloc_spec ub h l o size Hwf Hub Hs Hi) as (repl & -> & Hrem). cbn [res_bind].
      eexists. split; [reflexivity|]. split; [done|]. exists h. split; [by left|done].
Qed.

(** C25: [util_vma_heap_alloc_addr] succeeds exactly when the whole requested region is free; it
    then removes the region, and otherwise leaves the heap unchanged. *)
Theorem heap_alloc_addr_correct heap o size :
  heap_wf heap -> 0 < o -> 0 < size -> o + size <= 2 ^ 64 ->
  exists b heap', util_vma_heap_alloc_addr heap o size = Ok (b, heap') /\
    (b = true <-> forall a, o <= a < o + size -> is_free heap a) /\
    (if b then carved heap heap' o size else heap' = heap).
Proof.
  intros Hwf Ho Hs Hend. unfold util_vma_heap_alloc_addr.
  step_assert; [|by apply Z.ltb_lt]. step_assert; [|by apply Z.ltb_lt].
  step_assert; cycle 1.
  { destruct (Z.eq_dec (o + size) (2 ^ 64)) as [->|Hne]; [done|].
    rewrite u64_small by (unfold in_u64; lia). apply orb_true_iff. right. apply Z.ltb_lt. lia. }
  destruct (alloc_addr_loop_spec (holes heap) (2 ^ 64 + 1) o size (proj1 Hwf) ltac:(done) Ho Hs Hend)
    as (r & -> & Hr). cbn [res_bind]. destruct r as [l'|]; eexists _, _; (split; [reflexivity|]).
  - destruct Hr as (Hrem & h & Hin & Hi). split; [|by apply removed_carved].
    split; [|done]. intros _ a. by apply (inside_free _ h).
  - split; [|done]. split; [done|]. intros Hall.
    destruct (free_region_inside _ _ o size (proj1 Hwf) Hs Hall) as (h & Hin & Hi).
    by destruct (Hr h).
Qed.

Lemma heap_alloc_addr_correct_witness :
  exists b heap', util_vma_heap_alloc_addr (heap2 true) 0x2000 0x1000 = Ok (b, heap') /\
    (b = true <-> forall a, 0x2000 <= a < 0x3000 -> is_free (heap2 true) a) /\
    (if b then carved (heap2 true) heap' 0x2000 0x1000 else heap' = heap2 true).
Proof. exact (heap_alloc_addr_correct (heap2 true) 0x2000 0x1000 (heap2_wf true) ltac:(lia) ltac:(lia) ltac:(lia)). Defined.

(** ** Freeing *)

(** The bound the holes after [l] are under. *)
Definition low_of (ub : Z) (l : list util_vma_hole) : Z :=
  match last l with Some h => h_offset h | None => ub end.

Lemma low_of_snoc ub l h : low_of ub (l ++ [h]) = h_offset h.
Proof. unfold low_of. by rewrite last_snoc. Qed.

Lemma wf_app ub l1 l2 : wf_from ub (l1 ++ l2) <-> wf_from ub l1 /\ wf_from (low_of ub l1) l2.
Proof.
  revert ub. induction l1 as [|h l1 IH]; intros ub; cbn [app wf_from].
  { unfold low_of. simpl. tauto. }
  rewrite IH. replace (low_of (h_offset h) l1) with (low_of ub (h :: l1)); [tauto|].
  unfold low_of. rewrite last_cons. by destruct (last l1).
Qed.

Lemma low_of_le ub l : wf_from ub l -> low_of ub l <= ub.
Proof.
  destruct l as [|h l] using rev_ind; [intros _; unfold low_of; simpl; lia|].
  rewrite low_of_snoc. intros Hwf. assert (Hf : free_in (l ++ [h]) (h_offset h)).
  { apply wf_app in Hwf as [_ (? & ? & _)]. apply Exists_app. right. left. unfold in_hole. lia. }
  pose proof (wf_free_bound _ _ _ Hwf Hf). lia.
Qed.

Lemma free_in_app l1 l2 a : free_in (l1 ++ l2) a <-> free_in l1 a \/ free_in l2 a.
Proof. apply Exists_app. Qed.

Lemma total_app l1 l2 : total (l1 ++ l2) = total l1 + total l2.
Proof. induction l1 as [|h l1 IH]; simpl; [done|]. unfold total in *. lia. Qed.

Lemma split_at_spec l ub o above below :
  wf_from ub l -> split_at l o = (above, below) ->
  l = above ++ below /\ Forall (fun h => o < h_offset h) above /\
  (forall h, head below = Some h -> h_offset h <= o).
Proof.
  revert ub above. induction l as [|h l IH]; intros ub above Hwf E; cbn [split_at] in E.
  { injection E as <- <-. split; [done|]. split; [constructor|]. done. }
  destruct (Z.leb_spec (h_offset h) o) as [Hle|Hgt].
  - injection E as <- <-. split; [done|]. split; [constructor|]. by intros h' [= <-].
  - destruct (split_at l o) as [ab be] eqn:E'. injection E as <- <-.
    destruct Hwf as (_ & _ & _ & Hl). destruct (IH _ _ Hl eq_refl) as (-> & Hab & Hbe).
    split; [done|]. split; [by constructor|done].
Qed.

(** Two well-formed lists of holes with the same free addresses are equal. *)
Lemma wf_canonical l1 l2 ub1 ub2 :
  wf_from ub1 l1 -> wf_from ub2 l2 -> (forall a, free_in l1 a <-> free_in l2 a) -> l1 = l2.
Proof.
  revert l2 ub1 ub2. induction l1 as [|[o1 s1] l1 IH]; intros [|[o2 s2] l2] ub1 ub2 Hw1 Hw2 Hf.
  - done.
  - exfalso. destruct (free_in_nil o2). apply Hf. left. destruct Hw2 as (? & ? & _). unfold in_hole. simpl in *. lia.
  - exfalso. destruct (free_in_nil o1). apply Hf. left. destruct Hw1 as (? & ? & _). unfold in_hole. simpl in *. lia.
  - simpl in Hw1, Hw2. destruct Hw1 as (A1 & B1 & C1 & D1), Hw2 as (A2 & B2 & C2 & D2).
    assert (L1 : forall a, free_in l1 a -> a < o1 - 1) by (intros a Ha; apply (wf_free_bound _ _ _ D1) in Ha; lia).
    assert (L2 : forall a, free_in l2 a -> a < o2 - 1) by (intros a Ha; apply (wf_free_bound _ _ _ D2) in Ha; lia).
    assert (Hf' : forall a, (o1 <= a < o1 + s1 \/ free_in l1 a) <-> (o2 <= a < o2 + s2 \/ free_in l2 a)).
    { intros a. specialize (Hf a). by rewrite !free_in_cons in Hf. }
    assert (T1 : o1 + s1 - 1 < o2 + s2).
    { destruct (proj1 (Hf' (o1 + s1 - 1)) ltac:(left; lia)) as [?|H]; [lia|]. specialize (L2 _ H). lia. }
    assert (T2 : o2 + s2 - 1 < o1 + s1).
    { destruct (proj2 (Hf' (o2 + s2 - 1)) ltac:(left; lia)) as [?|H]; [lia|]. specialize (L1 _ H). lia. }
    assert (O : o1 = o2).
    { destruct (Z.lt_trichotomy o1 o2) as [H|[H|H]]; [|done|]; exfalso.
      - destruct (proj1 (Hf' (o2 - 1)) ltac:(left; lia)) as [?|X]; [lia|]. specialize (L2 _ X). lia.
      - destruct (proj2 (Hf' (o1 - 1)) ltac:(left; lia)) as [?|X]; [lia|]. specialize (L1 _ X). lia. }
    assert (s1 = s2) by lia. subst o2 s2. f_equal. eapply IH; [done|done|].
    intros a. split; intros Ha.
    + destruct (proj1 (Hf' a) (or_intror Ha)) as [?|?]; [|done]. specialize (L1 _ Ha). lia.
    + destruct (proj2 (Hf' a) (or_intror Ha)) as [?|?]; [|done]. specialize (L2 _ Ha). lia.
Qed.

(** [l'] has the holes of [l] and the region at [o]. *)
Definition added (l l' : list util_vma_hole) (o size : Z) : Prop :=
  wf_from (2 ^ 64 + 1) l' /\ total l' = total l + size /\
  (forall a, free_in l' a <-> free_in l a \/ o <= a < o + size).

(** Solves [added] once the holes around the region are explicit. *)
Ltac solve_added :=
  split; [rewrite ?wf_app, ?low_of_snoc in *; simpl in *; rewrite ?low_of_snoc in *;
          unfold low_of in *; simpl in *; intuition lia
         |split; [rewrite ?total_app; simpl; rewrite ?total_app; simpl; lia|]];
  let a := fresh "a" in intros a; rewrite ?free_in_app, ?free_in_cons, ?free_in_app;
  unfold in_hole; simpl;
  repeat match goal with |- context [free_in ?l a] => generalize (free_in l a); intro end;
  intuition lia.

Definition free_holes (above below : list util_vma_hole) (o size : Z) (ha la : bool)
  : list util_vma_hole :=
  match last above, head below, ha, la with
  | Some h, Some l, true, true =>
      removelast above ++ mk_hole (h_offset l) (u64 (h_size l + (size + h_size h))) :: tail below
  | _, Some l, _, true => above ++ mk_hole (h_offset l) (u64 (h_size l + size)) :: tail below
  | Some h, _, true, _ => removelast above ++ mk_hole o (u64 (h_size h + size)) :: below
  | _, _, _, _ => above ++ mk_hole o size :: below
  end.

Lemma removelast_snoc' {A} (l : list A) x : removelast (l ++ [x]) = l.
Proof. rewrite removelast_app by done. simpl. apply app_nil_r. Qed.

Section Free.
Context (o size : Z) (Ho : 0 < o) (Hs : 0 < size) (Hend : o + size <= 2 ^ 64).

Lemma free_holes_none_none : added [] (free_holes [] [] o size false false) o size.
Proof. cbn. solve_added. Qed.

Lemma free_holes_low l below :
  wf_from (2 ^ 64 + 1) (l :: below) -> h_offset l + h_size l <= o ->
  added (l :: below) (free_holes [] (l :: below) o size false (h_offset l + h_size l =? o)) o size.
Proof.
  intros Hwf Hle. cbn in Hwf. unfold free_holes. cbn [last head].
  destruct (Z.eqb_spec (h_offset l + h_size l) o) as [E|E]; cbn [app tail].
  - rewrite u64_small by (unfold in_u64; lia). solve_added.
  - solve_added.
Qed.

Lemma free_holes_high above h :
  wf_from (2 ^ 64 + 1) (above ++ [h]) -> o + size <= h_offset h ->
  added (above ++ [h]) (free_holes (above ++ [h]) [] o size (o + size =? h_offset h) false) o size.
Proof.
  intros Hwf Hle. apply wf_app in Hwf as [Hwa Hwh]. cbn in Hwh. unfold free_holes. rewrite last_snoc, removelast_snoc'.
  assert (h_offset h + h_size h <= 2 ^ 64).
  { pose proof (low_of_le _ _ Hwa). lia. }
  destruct (Z.eqb_spec (o + size) (h_offset h)) as [E|E]; cbn [head].
  - rewrite u64_small by (unfold in_u64; lia). solve_added.
  - rewrite <- (assoc_L app). solve_added.
Qed.

Lemma free_holes_both above h l below :
  wf_from (2 ^ 64 + 1) ((above ++ [h]) ++ l :: below) ->
  o + size <= h_offset h -> h_offset l + h_size l <= o ->
  added ((above ++ [h]) ++ l :: below)
    (free_holes (above ++ [h]) (l :: below) o size (o + size =? h_offset h)
       (h_offset l + h_size l =? o)) o size.
Proof.
  intros Hwf Hle Hle2. apply wf_app in Hwf as [Hwf Hwl]. rewrite low_of_snoc in Hwl.
  apply wf_app in Hwf as [Hwa Hwh]. pose proof (low_of_le _ _ Hwa). cbn in Hwh, Hwl.
  unfold free_holes. rewrite last_snoc, removelast_snoc'. cbn [head tail].
  destruct (Z.eqb_spec (o + size) (h_offset h)) as [E|E],
    (Z.eqb_spec (h_offset l + h_size l) o) as [E2|E2];
    rewrite ?u64_small by (unfold in_u64; lia); rewrite <- ?(assoc_L app); cbn [app]; solve_added.
Qed.
End Free.

(** [heap'] is [heap] with the region at [o] given back. *)
Definition refilled (heap heap' : util_vma_heap) (o size : Z) : Prop :=
  heap_wf heap' /\ alloc_high heap' = alloc_high heap /\ nospan_shift heap' = nospan_shift heap /\
  free_size heap' = free_size heap + size /\
  (forall a, is_free heap' a <-> is_free heap a \/ o <= a < o + size).

Lemma added_refilled heap l' o size :
  heap_wf heap -> added (holes heap) l' o size ->
  refilled heap (with_holes heap l' (free_size heap + size)) o size.
Proof.
  intros [Hwf Hfs] (Hw & Ht & Hf). unfold refilled, heap_wf. simpl. rewrite Hfs, <- Ht.
  destruct (wf_total (2 ^ 64 + 1) l' ltac:(done) Hw) as [? [?|?]]; rewrite u64_small by (unfold in_u64; lia); done.
Qed.

(** Freeing as [added], with the assertions discharged. *)
Lemma heap_free_spec heap o size :
  heap_wf heap -> 0 < o -> 0 < size -> o + size <= 2 ^ 64 ->
  (forall a, o <= a < o + size -> ~ is_free heap a) ->
  exists heap', util_vma_heap_free heap o size = Ok heap' /\ refilled heap heap' o size.
Proof.
  intros Hwf Ho Hs Hend Hnf. unfold util_vma_heap_free.
  step_assert; [|by apply Z.ltb_lt]. step_assert; [|by apply Z.ltb_lt].
  step_assert; cycle 1.
  { destruct (Z.eq_dec (o + size) (2 ^ 64)) as [->|Hne]; [done|].
    rewrite u64_small by (unfold in_u64; lia). apply orb_true_iff. right. apply Z.ltb_lt. lia. }
  rewrite validate_ok by done. cbn [res_bind].
  destruct (split_at (holes heap) o) as [above below] eqn:Esp.
  destruct (split_at_spec _ _ _ _ _ (proj1 Hwf) Esp) as (Eh & Hab & Hbe).
  assert (Hhigh : forall h, last above = Some h -> o + size <= h_offset h /\ 0 < h_size h /\ h_offset h < 2 ^ 64).
  { intros h Hl. apply last_Some in Hl as [ab ->]. apply Forall_app in Hab as [_ Hh].
    inversion Hh as [|? ? Hoh _]; subst. destruct Hwf as [Hw _]. rewrite Eh in Hw.
    apply wf_app in Hw as [Hw _]. pose proof Hw as [Hwa (H1 & H2 & H3 & _)]%wf_app.
    pose proof (low_of_le _ _ Hwa). split; [|lia].
    destruct (Z.le_gt_cases (o + size) (h_offset h)) as [?|Hgt]; [done|].
    exfalso. apply (Hnf (h_offset h)); [lia|]. unfold is_free. rewrite Eh.
    apply free_in_app. left. apply free_in_app. right. left. unfold in_hole. lia. }
  assert (Hlow : forall l, head below = Some l -> 0 < h_offset l /\ 0 < h_size l /\ h_offset l + h_size l <= o).
  { intros l Hl. pose proof (Hbe l Hl) as Hlo. destruct below as [|l0 be]; [done|]. injection Hl as ->.
    destruct Hwf as [Hw _]. rewrite Eh in Hw. apply wf_app in Hw as [_ (H1 & H2 & H3 & _)].
    split; [done|]. split; [done|].
    destruct (Z.le_gt_cases (h_offset l + h_size l) o) as [?|Hgt]; [done|].
    exfalso. apply (Hnf o); [lia|]. unfold is_free. rewrite Eh.
    apply free_in_app. right. left. unfold in_hole. lia. }
  set (ha := match last above with Some h => o + size =? h_offset h | None => false end).
  set (la := match head below with Some l => h_offset l + h_size l =? o | None => false end).
  match goal with |- context [res_bind ?m _] => assert (m = Ok ha) as -> end.
  { unfold ha. destruct (last above) as [h|]; [|done]. destruct (Hhigh h eq_refl) as (? & ? & ?).
    rewrite u64_small by (unfold in_u64; lia). step_assert; [done|apply Z.leb_le; lia]. }
  cbn [res_bind].
  match goal with |- context [res_bind ?m _] => assert (m = Ok la) as -> end.
  { unfold la. destruct (head below) as [l|]; [|done]. destruct (Hlow l eq_refl) as (? & ? & ?).
    rewrite u64_small by (unfold in_u64; lia). step_assert; [|apply Z.ltb_lt; lia].
    step_assert; [done|apply Z.leb_le; lia]. }
  cbn [res_bind]. fold (free_holes above below o size ha la).
  assert (Hadd : added (holes heap) (free_holes above below o size ha la) o size).
  { destruct Hwf as [Hw _]. unfold ha, la. rewrite Eh in *.
    destruct above as [|h above _] using rev_ind; destruct below as [|l below].
    - by apply free_holes_none_none.
    - apply free_holes_low; try done. by apply Hlow.
    - rewrite app_nil_r in *. rewrite last_snoc. apply free_holes_high; try done. apply Hhigh. by rewrite last_snoc.
    - rewrite last_snoc. apply free_holes_both; try done; [apply Hhigh; by rewrite last_snoc|by apply Hlow]. }
  pose proof (added_refilled _ _ _ _ Hwf Hadd) as Href.
  rewrite validate_ok by apply Href. cbn [res_bind]. eexists. split; [reflexivity|exact Href].
Qed.

(** C17: [util_vma_heap_free] of a region none of whose addresses is free passes every
    assertion and adds exactly that region to the free addresses: whichever of the four
    cases applies (merge both ways, down, up, or a new hole), the holes stay sorted and
    coalesced and [free_size] grows by the size. *)
Theorem heap_free_correct heap o size :
  heap_wf heap -> 0 < o -> 0 < size -> o + size <= 2 ^ 64 ->
  (forall a, o <= a < o + size -> ~ is_free heap a) ->
  exists heap', util_vma_heap_free heap o size = Ok heap' /\ refilled heap heap' o size.
Proof. apply heap_free_spec. Qed.

Lemma heap_free_correct_witness :
  exists heap', util_vma_heap_free (heap2 true) 0x5100 0x3f00 = Ok heap' /\
    refilled (heap2 true) heap' 0x5100 0x3f00.
Proof.
  apply heap_free_correct; [apply heap2_wf|lia|lia|lia|].
  intros a Ha Hf. unfold is_free in Hf. simpl in Hf. rewrite !free_in_cons in Hf. unfold in_hole in Hf.
  simpl in Hf. destruct Hf as [?|[?|?%free_in_nil]]; [lia|lia|done].
Defined.

(** C19: freeing what was just allocated restores the heap exactly: the same holes in the same
    order, the same [free_size].  Splitting and coalescing are inverse, so the heap does not
    fragment. *)
Theorem alloc_free_roundtrip heap size al o heap' :
  heap_wf heap -> nospan_shift heap = 0 -> 0 < size -> 0 < al < 2 ^ 64 ->
  util_vma_heap_alloc heap size al = Ok (o, heap') -> o <> 0 ->
  util_vma_heap_free heap' o size = Ok heap.
Proof.
  intros Hwf Hns Hs Hal E Hne.
  destruct (heap_alloc_spec heap size al Hwf Hns Hs Hal) as (o1 & h1 & E1 & [(Hz & _)|(Ho & Hc & Hcv & _)]);
    rewrite E in E1; injection E1 as Ea Eb; subst o1 h1; [done|].
  destruct Hcv as (Hwf' & Hah & Hns' & Hfree).
  assert (Hend : o + size <= 2 ^ 64).
  { destruct (proj1 (candidate_inside heap size al o Hwf Hs) Hc) as (_ & h & Hin & Hi).
    pose proof (inside_bound _ _ _ _ _ (proj1 Hwf) Hin Hi). lia. }
  destruct (heap_free_spec heap' o size Hwf' Ho Hs Hend) as (h2 & -> & Hw2 & Hah2 & Hns2 & Hfs2 & Hf2).
  { intros a Ha [_ Hn]%Hfree. done. }
  f_equal. destruct heap as [hl fs ah ns], h2 as [hl2 fs2 ah2 ns2]. simpl in *.
  assert (hl2 = hl) as ->.
  { eapply wf_canonical; [apply Hw2|apply Hwf|]. intros a.
    specialize (Hf2 a). specialize (Hfree a). unfold is_free in Hf2, Hfree. simpl in Hf2, Hfree.
    rewrite Hf2, Hfree. destruct Hc as [_ Hc]. specialize (Hc a). unfold is_free in Hc. simpl in Hc.
    destruct (Z.le_gt_cases o a), (Z.lt_ge_cases a (o + size)); intuition lia. }
  f_equal; [|congruence|congruence]. destruct Hw2 as [_ Hw2], Hwf as [_ Hwf]. simpl in *. congruence.
Qed.

Lemma alloc_free_roundtrip_witness :
  util_vma_heap_free (snd (match util_vma_heap_alloc (heap2 true) 0x800 0x1000 with
                           | Ok r => r | Fault _ => (0, heap2 true) end)) 0xa000 0x800 = Ok (heap2 true).
Proof.
  refine (alloc_free_roundtrip (heap2 true) 0x800 0x1000 0xa000 _ (heap2_wf true) eq_refl _ _ _ _);
    [lia|lia|vm_compute; reflexivity|lia].
Defined.

(** ** Boundaries that must not be crossed *)


(** The same step wraps around when the hole starts below the size of the request: the
    offset becomes [2^64 - 7], the test against the start of the hole passes, and
    [util_vma_hole_alloc] fails its assertion although [1, 13) is free and crosses no
    boundary. *)
Theorem nospan_high_wraps :
  place_high 4 (mk_hole 1 16) 12 1 = Ok (Some (2 ^ 64 - 7)) /\
  util_vma_heap_alloc (mk_heap [mk_hole 1 16] 16 true 4) 12 1 = Fault AssertFail /\
  heap_wf (mk_heap [mk_hole 1 16] 16 true 4).
Proof. split; [vm_compute; reflexivity|]. split; [vm_compute; reflexivity|]. split; [simpl; lia|done]. Qed.

Lemma mask64_clear x b : 0 <= b < 64 -> 0 <= x < 2 ^ 64 ->
  Z.land x (2 ^ 64 - 1 - (2 ^ b - 1)) = x - x mod 2 ^ b.
Proof.
  intros Hb Hx. replace (2 ^ 64 - 1 - (2 ^ b - 1)) with (Z.shiftl (Z.ones (64 - b)) b); cycle 1.
  { rewrite shiftl_mul, Z.ones_equiv by lia. replace 64 with ((64 - b) + b) at 2 by lia.
    rewrite (Z.pow_add_r 2 (64 - b) b) by lia. lia. }
  rewrite <- (Z.land_ones x b) by lia.
  replace (x - Z.land x (Z.ones b)) with (Z.ldiff x (Z.ones b)); cycle 1.
  { rewrite Z.ldiff_ones_r, shiftl_mul, shiftr_div, Z.land_ones by lia.
    pose proof (Z.div_mod x (2 ^ b) ltac:(apply Z.pow_nonzero; lia)). lia. }
  apply Z.bits_inj'. intros n Hn. rewrite Z.land_spec, Z.ldiff_spec.
  destruct (Z.lt_ge_cases n b) as [Hlt|Hge].
  - rewrite Z.shiftl_spec_low, (Z.ones_spec_low b n) by lia. by rewrite !andb_false_r.
  - rewrite Z.shiftl_spec_high, (Z.ones_spec_high b n) by lia. rewrite andb_true_r.
    destruct (Z.lt_ge_cases n 64) as [H64|H64].
    + rewrite Z.ones_spec_low by lia. by rewrite andb_true_r.
    + rewrite Z.ones_spec_high by lia. rewrite andb_false_r. symmetry. cbn [negb].
      destruct (Z.eq_dec x 0) as [->|Hx0]; [by rewrite Z.testbit_0_l|].
      apply Z.bits_above_log2; [lia|]. pose proof (proj1 (Z.log2_lt_pow2 x 64 ltac:(lia)) ltac:(lia)). lia.
Qed.

Lemma bit64 b : 0 <= b < 64 -> BITFIELD64_BIT b = 2 ^ b.
Proof.
  intros Hb. unfold BITFIELD64_BIT. rewrite shiftl_mul, Z.mul_1_l by lia. apply u64_small. unfold in_u64.
  pose proof (Z.pow_lt_mono_r 2 b 64 ltac:(lia) ltac:(lia) ltac:(lia)). pose proof (Z.pow_pos_nonneg 2 b). lia.
Qed.

Lemma clear_low_spec x b : 0 < b < 64 -> 0 <= x < 2 ^ 64 -> clear_low x b = x - x mod 2 ^ b.
Proof.
  intros Hb Hx. unfold clear_low, BITFIELD64_MASK.
  rewrite (proj2 (Z.eqb_neq _ _)) by lia. rewrite (land_mask_mod b 6 63) by done.
  rewrite Z.mod_small, bit64 by lia. apply mask64_clear; lia.
Qed.

(** The alignment requirement of a nospan heap holds for a power of two up to the boundary. *)
Lemma align64_boundary s k : 0 <= k <= s -> s < 64 -> align64 (2 ^ s) (2 ^ k) = Ok (2 ^ s).
Proof.
  intros Hk Hs. pose proof (Z.pow_pos_nonneg 2 k ltac:(lia) ltac:(lia)) as Hk0.
  pose proof (Z.pow_le_mono_r 2 k s ltac:(lia) ltac:(lia)) as Hks.
  pose proof (Z.pow_le_mono_r 2 s 63 ltac:(lia) ltac:(lia)) as Hs63.
  unfold align64. rewrite (u64_small (2 ^ k - 1)) by (unfold in_u64; lia). step_assert; cycle 1.
  { unfold util_is_power_of_two_nonzero64. rewrite u64_small by (unfold in_u64; lia).
    apply andb_true_iff. split; [apply negb_true_iff, Z.eqb_neq; lia|]. apply Z.eqb_eq.
    rewrite (land_mask_mod _ k) by lia. apply Z.mod_same. lia. }
  rewrite u64_small by (unfold in_u64; lia). rewrite mask64_clear by lia. f_equal.
  replace s with ((s - k) + k) at 1 2 by lia. rewrite Z.pow_add_r by lia.
  replace (2 ^ (s - k) * 2 ^ k + 2 ^ k - 1) with ((2 ^ k - 1) + 2 ^ (s - k) * 2 ^ k) by lia.
  rewrite Z.mod_add, Z.mod_small by lia. replace s with ((s - k) + k) at 2 by lia. rewrite Z.pow_add_r by lia. lia.
Qed.

(** No boundary of [2^s] inside the region. *)
Definition within_block (s size o : Z) : Prop := o / 2 ^ s = (o + size - 1) / 2 ^ s.

Section NospanLow.
Context (s k size : Z) (Hs : 0 < s < 64) (Hk : 0 <= k <= s) (Hsize : 0 < size <= 2 ^ s).

Lemma nospan_pows : 0 < 2 ^ k <= 2 ^ s /\ 2 ^ s < 2 ^ 64 /\ (2 ^ k | 2 ^ s).
Proof.
  pose proof (Z.pow_pos_nonneg 2 k ltac:(lia) ltac:(lia)).
  pose proof (Z.pow_le_mono_r 2 k s ltac:(lia) ltac:(lia)).
  pose proof (Z.pow_lt_mono_r 2 s 64 ltac:(lia) ltac:(lia) ltac:(lia)).
  split; [done|]. split; [done|]. exists (2 ^ (s - k)). rewrite <- Z.pow_add_r by lia. f_equal. lia.
Qed.

Lemma place_low_nospan_spec :
  place_spec (fun h => place_low s h size (2 ^ k)) size
    (fun o => o mod 2 ^ k = 0 /\ within_block s size o) (fun _ => False) (fun o o' => o <= o') (2 ^ 63).
Proof.
  destruct nospan_pows as (Hp1 & Hp2 & Hdiv). unfold place_low.
  rewrite (proj2 (Z.eqb_neq s 0)) by lia. cbn [negb].
  assert (Hok64 : forall h, hole_ok (2 ^ 63) h -> hole_ok (2 ^ 64) h)
    by (intros h (A & B & C); split; [done|split; [done|lia]]).
  split; [| |intros h o _ _ _ []].
  - intros h Hh. repeat case_match; by eexists.
  - intros h o Hh. destruct (Z.ltb_spec (h_size h) size) as [|Hle]; [done|].
    destruct (place_low_offset h size (2 ^ k) (Hok64 h Hh) ltac:(lia) ltac:(lia) Hle) as (-> & Hval).
    destruct (round_up_spec (h_offset h) (2 ^ k) ltac:(lia)) as (R1 & R2 & _).
    destruct (Z.leb_spec (round_up (h_offset h) (2 ^ k) + size) (h_offset h + h_size h)) as [Hf|]; [|done].
    cbn [negb]. rewrite (Hval Hf). set (o1 := round_up (h_offset h) (2 ^ k)) in *.
    destruct Hh as (H1 & H2 & H3).
    rewrite (u64_small (o1 + size - 1)), !shiftr_div by (unfold in_u64; lia).
    destruct (Z.eqb_spec ((o1 + size - 1) / 2 ^ s) (o1 / 2 ^ s)) as [E|E]; cbn [negb].
    + intros [= <-]. split; [split; lia|]. split; [by split|done].
    + rewrite clear_low_spec by lia. set (e := o1 + size - 1) in *.
      pose proof (Z.div_mod e (2 ^ s) ltac:(lia)) as He. pose proof (Z.mod_pos_bound e (2 ^ s) ltac:(lia)).
      pose proof (Z.div_mod o1 (2 ^ s) ltac:(lia)) as Ho1. pose proof (Z.mod_pos_bound o1 (2 ^ s) ltac:(lia)).
      rewrite (u64_small (h_offset h + h_size h)), u64_small by (unfold in_u64; lia).
      destruct (Z.ltb_spec (h_offset h + h_size h) (e - e mod 2 ^ s + size)); [done|]. intros [= <-].
      assert (Hq : o1 / 2 ^ s < e / 2 ^ s)
        by (pose proof (Z.div_le_mono o1 e (2 ^ s) ltac:(lia) ltac:(lia)); lia).
      pose proof (Z.mul_le_mono_nonneg_l (o1 / 2 ^ s + 1) (e / 2 ^ s) (2 ^ s) ltac:(lia) ltac:(lia)).
      split; [split; lia|]. split; [|intros ? _ []].
      replace (e - e mod 2 ^ s) with (e / 2 ^ s * 2 ^ s) by lia. split.
      * destruct Hdiv as [d ->]. rewrite Z.mul_assoc. apply Z.mod_mul. lia.
      * unfold within_block. rewrite Z.div_mul by lia.
        replace (e / 2 ^ s * 2 ^ s + size - 1) with (size - 1 + e / 2 ^ s * 2 ^ s) by lia.
        rewrite Z.div_add, (Z.div_small (size - 1)) by lia. lia.
Qed.
End NospanLow.

(** C24: in low mode the nospan rule is respected: for a power-of-two alignment up to the
    boundary and a size of at most one block, [util_vma_heap_alloc] passes its assertions on
    any well-formed heap below [2^63], and what it returns is an aligned free region inside
    one block, removed from the free addresses. *)
Theorem nospan_low_correct heap size k :
  heap_wf heap -> (forall a, is_free heap a -> a < 2 ^ 63) -> alloc_high heap = false ->
  0 < nospan_shift heap < 64 -> 0 <= k <= nospan_shift heap -> 0 < size <= 2 ^ nospan_shift heap ->
  exists o heap', util_vma_heap_alloc heap size (2 ^ k) = Ok (o, heap') /\
    ((o = 0 /\ heap' = heap) \/
     (candidate heap size (2 ^ k) o /\ within_block (nospan_shift heap) size o /\ carved heap heap' o size)).
Proof.
  intros Hwf Htop Hah Hsh Hk Hs. destruct (nospan_pows _ _ Hsh Hk) as (Hp1 & Hp2 & _).
  unfold util_vma_heap_alloc. step_assert; [|apply Z.ltb_lt; lia]. step_assert; [|apply Z.ltb_lt; lia].
  rewrite validate_ok by done. cbn [res_bind]. rewrite (proj2 (Z.eqb_neq (nospan_shift heap) 0)) by lia.
  cbn [negb]. rewrite bit64, align64_boundary by lia. cbn [res_bind]. rewrite Z.eqb_refl, Hah. cbn [res_bind assert_].
  assert (Hw63 : wf_from (2 ^ 63 + 1) (holes heap)).
  { destruct Hwf as [Hw _]. unfold is_free in Htop. destruct (holes heap) as [|h l]; [done|].
    destruct Hw as (H1 & H2 & H3 & H4). split; [done|]. split; [done|]. split; [|done].
    assert (free_in (h :: l) (h_offset h + h_size h - 1)) as Hf by (left; unfold in_hole; lia).
    specialize (Htop _ Hf). lia. }
  destruct (alloc_loop_rev_spec _ size _ _ ltac:(lia) (2 ^ 63) ltac:(lia) (holes heap) (2 ^ 63 + 1)
              (place_low_nospan_spec (nospan_shift heap) k size Hsh Hk Hs) Hw63 ltac:(lia)) as (r & -> & Hr).
  cbn [res_bind]. destruct r as [[o l']|]; [|eexists _, _; split; [reflexivity|by left]].
  destruct Hr as (Hrem & (h & Hin & Hi) & [Ha Hb] & _).
  assert (Hcv : carved heap (with_holes heap l' (free_size heap - size)) o size).
  { apply removed_carved; [done|]. destruct Hrem as (Hw & Hrem). split; [|done]. by apply (wf_weaken (2 ^ 63 + 1)). }
  rewrite validate_ok by apply Hcv. cbn [res_bind]. eexists _, _. split; [reflexivity|]. right.
  split; [|by split]. apply candidate_inside; [done|lia|]. split; [done|by exists h].
Qed.

Lemma nospan_low_correct_witness :
  exists o heap', util_vma_heap_alloc (mk_heap [mk_hole 1 34] 34 false 4) 10 (2 ^ 1) = Ok (o, heap') /\
    ((o = 0 /\ heap' = mk_heap [mk_hole 1 34] 34 false 4) \/
     (candidate (mk_heap [mk_hole 1 34] 34 false 4) 10 (2 ^ 1) o /\ within_block 4 10 o /\
      carved (mk_heap [mk_hole 1 34] 34 false 4) heap' o 10)).
Proof.
  refine (nospan_low_correct (mk_heap [mk_hole 1 34] 34 false 4) 10 1 _ _ eq_refl _ _ _);
    [split; [simpl; lia|reflexivity]| |simpl; lia|simpl; lia|simpl; lia].
  intros a Ha. unfold is_free in Ha. simpl in Ha. rewrite free_in_cons in Ha. unfold in_hole in Ha. simpl in Ha.
  destruct Ha as [?|?%free_in_nil]; [lia|done].
Defined.

(** [util_vma_heap_init] of a region that starts above 0 and ends at or below [2^64] gives a
    well-formed heap, in high mode and without boundary, whose free addresses are exactly the
    region; an empty region gives an empty heap. *)
Theorem heap_init_correct start size :
  0 <= size -> (0 < size -> 0 < start /\ start + size <= 2 ^ 64) ->
  exists heap, util_vma_heap_init start size = Ok heap /\ heap_wf heap /\ alloc_high heap = true /\
    nospan_shift heap = 0 /\ (forall a, is_free heap a <-> start <= a < start + size).
Proof.
  intros Hs Hst. unfold util_vma_heap_init. destruct (Z.ltb_spec 0 size) as [Hp|Hz].
  - destruct (Hst Hp) as [H1 H2].
    destruct (heap_free_spec (mk_heap [] 0 false 0) start size) as (h & -> & Hw & _ & _ & _ & Hf);
      [split; done|done|done|done|by intros a _ ?%free_in_nil|].
    eexists. split; [reflexivity|]. split; [exact Hw|]. split; [done|]. split; [done|].
    intros a. rewrite (Hf a). split; [intros [?%free_in_nil|?]; done|by right].
  - eexists. split; [reflexivity|]. split; [split; done|]. split; [done|]. split; [done|].
    intros a. split; [by intros ?%free_in_nil|lia].
Qed.

Lemma heap_init_correct_witness :
  exists heap, util_vma_heap_init 0x1000 0x8000 = Ok heap /\ heap_wf heap /\ alloc_high heap = true /\
    nospan_shift heap = 0 /\ (forall a, is_free heap a <-> 0x1000 <= a < 0x9000).
Proof. exact (heap_init_correct 0x1000 0x8000 ltac:(lia) ltac:(lia)). Defined.
