(* ===== verification/RegFields.v ===== *)
(** Registers, fields and enumerated values the preambles name: the macros of the register
    header that [amd/registers/makeregheader.py] builds from [amd/registers/*.json], and
    of the packet header built from [amd/packets/*.json].  [R_x_NAME] is the address [x]; [S_x_F]
    places a value in the bit range of field [F], [C_x_F] is the mask that clears it, [V_x_E]
    an enumerated value.  A field whose range grew over the generations has the widest one. *)

From S2P Require Import Prelude.

(** [S_x_F(v)] is [((unsigned)(v) & mask) << lo]. *)
Definition fld (lo hi : Z) (v : Z) : Z := u32 (Z.shiftl (Z.land (u32 v) (Z.ones (hi - lo + 1))) lo).

(** [C_x_F] is the complement of the field's mask. *)
Definition cfld (lo hi : Z) : Z := Z.lxor 0xffffffff (Z.shiftl (Z.ones (hi - lo + 1)) lo).

Lemma fld_u32 lo hi v : in_u32 (fld lo hi v).
Proof. apply u32_range. Qed.

(** ** Registers *)

Definition R_00802C_GRBM_GFX_INDEX : Z := 0x00802C.
Definition R_0084FC_CP_STRMOUT_CNTL : Z := 0x0084FC.
Definition R_008A14_PA_CL_ENHANCE : Z := 0x008A14.
Definition R_008A60_PA_SU_LINE_STIPPLE_VALUE : Z := 0x008A60.
Definition R_008B10_PA_SC_LINE_STIPPLE_STATE : Z := 0x008B10.
Definition R_00950C_TA_CS_BC_BASE_ADDR : Z := 0x00950C.
Definition R_00B004_SPI_SHADER_PGM_RSRC4_PS : Z := 0x00B004.
Definition R_00B018_SPI_SHADER_PGM_RSRC3_PS : Z := 0x00B018.
Definition R_00B01C_SPI_SHADER_PGM_RSRC3_PS : Z := 0x00B01C.
Definition R_00B024_SPI_SHADER_PGM_HI_PS : Z := 0x00B024.
Definition R_00B0C0_SPI_SHADER_REQ_CTRL_PS : Z := 0x00B0C0.
Definition R_00B0C8_SPI_SHADER_USER_ACCUM_PS_0 : Z := 0x00B0C8.
Definition R_00B0CC_SPI_SHADER_USER_ACCUM_PS_1 : Z := 0x00B0CC.
Definition R_00B0D0_SPI_SHADER_USER_ACCUM_PS_2 : Z := 0x00B0D0.
Definition R_00B0D4_SPI_SHADER_USER_ACCUM_PS_3 : Z := 0x00B0D4.
Definition R_00B104_SPI_SHADER_PGM_RSRC4_VS : Z := 0x00B104.
Definition R_00B1C0_SPI_SHADER_REQ_CTRL_VS : Z := 0x00B1C0.
Definition R_00B1C8_SPI_SHADER_USER_ACCUM_VS_0 : Z := 0x00B1C8.
Definition R_00B1CC_SPI_SHADER_USER_ACCUM_VS_1 : Z := 0x00B1CC.
Definition R_00B1D0_SPI_SHADER_USER_ACCUM_VS_2 : Z := 0x00B1D0.
Definition R_00B1D4_SPI_SHADER_USER_ACCUM_VS_3 : Z := 0x00B1D4.
Definition R_00B214_SPI_SHADER_PGM_HI_ES : Z := 0x00B214.
Definition R_00B218_SPI_SHADER_PGM_HI_ES : Z := 0x00B218.
Definition R_00B21C_SPI_SHADER_PGM_RSRC3_GS : Z := 0x00B21C.
Definition R_00B2B8_SPI_SHADER_GS_MESHLET_CTRL : Z := 0x00B2B8.
Definition R_00B2C8_SPI_SHADER_USER_ACCUM_ESGS_0 : Z := 0x00B2C8.
Definition R_00B2CC_SPI_SHADER_USER_ACCUM_ESGS_1 : Z := 0x00B2CC.
Definition R_00B2D0_SPI_SHADER_USER_ACCUM_ESGS_2 : Z := 0x00B2D0.
Definition R_00B2D4_SPI_SHADER_USER_ACCUM_ESGS_3 : Z := 0x00B2D4.
Definition R_00B31C_SPI_SHADER_PGM_RSRC3_ES : Z := 0x00B31C.
Definition R_00B324_SPI_SHADER_PGM_HI_ES : Z := 0x00B324.
Definition R_00B404_SPI_SHADER_PGM_RSRC4_HS : Z := 0x00B404.
Definition R_00B414_SPI_SHADER_PGM_HI_LS : Z := 0x00B414.
Definition R_00B418_SPI_SHADER_PGM_HI_LS : Z := 0x00B418.
Definition R_00B41C_SPI_SHADER_PGM_RSRC3_HS : Z := 0x00B41C.
Definition R_00B4C8_SPI_SHADER_USER_ACCUM_LSHS_0 : Z := 0x00B4C8.
Definition R_00B4CC_SPI_SHADER_USER_ACCUM_LSHS_1 : Z := 0x00B4CC.
Definition R_00B4D0_SPI_SHADER_USER_ACCUM_LSHS_2 : Z := 0x00B4D0.
Definition R_00B4D4_SPI_SHADER_USER_ACCUM_LSHS_3 : Z := 0x00B4D4.
Definition R_00B51C_SPI_SHADER_PGM_RSRC3_LS : Z := 0x00B51C.
Definition R_00B524_SPI_SHADER_PGM_HI_LS : Z := 0x00B524.
Definition R_00B82C_COMPUTE_PERFCOUNT_ENABLE : Z := 0x00B82C.
Definition R_00B834_COMPUTE_PGM_HI : Z := 0x00B834.
Definition R_00B838_COMPUTE_DISPATCH_PKT_ADDR_LO : Z := 0x00B838.
Definition R_00B83C_COMPUTE_DISPATCH_PKT_ADDR_HI : Z := 0x00B83C.
Definition R_00B858_COMPUTE_STATIC_THREAD_MGMT_SE0 : Z := 0x00B858.
Definition R_00B85C_COMPUTE_STATIC_THREAD_MGMT_SE1 : Z := 0x00B85C.
Definition R_00B864_COMPUTE_STATIC_THREAD_MGMT_SE2 : Z := 0x00B864.
Definition R_00B868_COMPUTE_STATIC_THREAD_MGMT_SE3 : Z := 0x00B868.
Definition R_00B878_COMPUTE_THREAD_TRACE_ENABLE : Z := 0x00B878.
Definition R_00B88C_COMPUTE_STATIC_THREAD_MGMT_SE8 : Z := 0x00B88C.
Definition R_00B890_COMPUTE_USER_ACCUM_0 : Z := 0x00B890.
Definition R_00B894_COMPUTE_STATIC_THREAD_MGMT_SE4 : Z := 0x00B894.
Definition R_00B894_COMPUTE_USER_ACCUM_1 : Z := 0x00B894.
Definition R_00B898_COMPUTE_STATIC_THREAD_MGMT_SE5 : Z := 0x00B898.
Definition R_00B898_COMPUTE_USER_ACCUM_2 : Z := 0x00B898.
Definition R_00B89C_COMPUTE_STATIC_THREAD_MGMT_SE6 : Z := 0x00B89C.
Definition R_00B89C_COMPUTE_TG_CHUNK_SIZE : Z := 0x00B89C.
Definition R_00B89C_COMPUTE_USER_ACCUM_3 : Z := 0x00B89C.
Definition R_00B8A0_COMPUTE_STATIC_THREAD_MGMT_SE7 : Z := 0x00B8A0.
Definition R_00B8AC_COMPUTE_STATIC_THREAD_MGMT_SE4 : Z := 0x00B8AC.
Definition R_00B8B0_COMPUTE_STATIC_THREAD_MGMT_SE5 : Z := 0x00B8B0.
Definition R_00B8B4_COMPUTE_PGM_RSRC3 : Z := 0x00B8B4.
Definition R_00B8B4_COMPUTE_STATIC_THREAD_MGMT_SE6 : Z := 0x00B8B4.
Definition R_00B8B8_COMPUTE_STATIC_THREAD_MGMT_SE7 : Z := 0x00B8B8.
Definition R_00B8BC_COMPUTE_DISPATCH_INTERLEAVE : Z := 0x00B8BC.
Definition R_00B9F4_COMPUTE_DISPATCH_TUNNEL : Z := 0x00B9F4.
Definition R_02800C_DB_RENDER_OVERRIDE : Z := 0x02800C.
Definition R_028030_PA_SC_SCREEN_SCISSOR_TL : Z := 0x028030.
Definition R_028034_PA_SC_SCREEN_SCISSOR_BR : Z := 0x028034.
Definition R_028038_DB_DFSM_CONTROL : Z := 0x028038.
Definition R_028040_DB_GL1_INTERFACE_CONTROL : Z := 0x028040.
Definition R_028048_DB_MEM_TEMPORAL : Z := 0x028048.
Definition R_028060_DB_DFSM_CONTROL : Z := 0x028060.
Definition R_028064_DB_VIEWPORT_CONTROL : Z := 0x028064.
Definition R_028068_DB_SPI_VRS_CENTER_LOCATION : Z := 0x028068.
Definition R_02807C_DB_RMI_L2_CACHE_CONTROL : Z := 0x02807C.
Definition R_028080_TA_BC_BASE_ADDR : Z := 0x028080.
Definition R_028084_TA_BC_BASE_ADDR_HI : Z := 0x028084.
Definition R_02808C_DB_STENCIL_OPVAL : Z := 0x02808C.
Definition R_0280F8_SC_MEM_TEMPORAL : Z := 0x0280F8.
Definition R_0280FC_SC_MEM_SPEC_READ : Z := 0x0280FC.
Definition R_028180_PA_SC_SCREEN_SCISSOR_TL : Z := 0x028180.
Definition R_028184_PA_SC_SCREEN_SCISSOR_BR : Z := 0x028184.
Definition R_028204_PA_SC_WINDOW_SCISSOR_TL : Z := 0x028204.
Definition R_028230_PA_SC_EDGERULE : Z := 0x028230.
Definition R_028240_PA_SC_GENERIC_SCISSOR_TL : Z := 0x028240.
Definition R_028244_PA_SC_GENERIC_SCISSOR_BR : Z := 0x028244.
Definition R_0282D0_PA_SC_VPORT_ZMIN_0 : Z := 0x0282D0.
Definition R_0282D4_PA_SC_VPORT_ZMAX_0 : Z := 0x0282D4.
Definition R_028350_PA_SC_RASTER_CONFIG : Z := 0x028350.
Definition R_028354_PA_SC_RASTER_CONFIG_1 : Z := 0x028354.
Definition R_028358_PA_SC_SCREEN_EXTENT_CONTROL : Z := 0x028358.
Definition R_02835C_PA_SC_TILE_STEERING_OVERRIDE : Z := 0x02835C.
Definition R_0283E0_PA_SC_VRS_INFO : Z := 0x0283E0.
Definition R_0283E4_PA_SC_VRS_RATE_CACHE_CNTL : Z := 0x0283E4.
Definition R_028400_VGT_MAX_VTX_INDX : Z := 0x028400.
Definition R_028404_VGT_MIN_VTX_INDX : Z := 0x028404.
Definition R_028408_VGT_INDX_OFFSET : Z := 0x028408.
Definition R_028410_CB_RMI_GL2_CACHE_CONTROL : Z := 0x028410.
Definition R_028428_CB_COVERAGE_OUT_CONTROL : Z := 0x028428.
Definition R_028648_SPI_SHADER_IDX_FORMAT : Z := 0x028648.
Definition R_028658_SPI_BARYC_CNTL : Z := 0x028658.
Definition R_0286DC_SPI_BARYC_SSAA_CNTL : Z := 0x0286DC.
Definition R_0286E0_SPI_BARYC_CNTL : Z := 0x0286E0.
Definition R_0286E4_SPI_BARYC_SSAA_CNTL : Z := 0x0286E4.
Definition R_028708_SPI_SHADER_IDX_FORMAT : Z := 0x028708.
Definition R_028750_SX_PS_DOWNCONVERT_CONTROL : Z := 0x028750.
Definition R_0287D4_PA_CL_POINT_X_RAD : Z := 0x0287D4.
Definition R_0287D8_PA_CL_POINT_Y_RAD : Z := 0x0287D8.
Definition R_0287DC_PA_CL_POINT_SIZE : Z := 0x0287DC.
Definition R_0287E0_PA_CL_POINT_CULL_RAD : Z := 0x0287E0.
Definition R_028820_PA_CL_NANINF_CNTL : Z := 0x028820.
Definition R_028824_PA_SU_LINE_STIPPLE_CNTL : Z := 0x028824.
Definition R_028828_PA_SU_LINE_STIPPLE_SCALE : Z := 0x028828.
Definition R_02882C_PA_SU_PRIM_FILTER_CNTL : Z := 0x02882C.
Definition R_028830_PA_SU_SMALL_PRIM_FILTER_CNTL : Z := 0x028830.
Definition R_02883C_PA_SU_OVER_RASTERIZATION_CNTL : Z := 0x02883C.
Definition R_028840_PA_STEREO_CNTL : Z := 0x028840.
Definition R_028848_PA_CL_VRS_CNTL : Z := 0x028848.
Definition R_028A18_VGT_HOS_MAX_TESS_LEVEL : Z := 0x028A18.
Definition R_028A1C_VGT_HOS_MIN_TESS_LEVEL : Z := 0x028A1C.
Definition R_028A44_VGT_GS_ONCHIP_CNTL : Z := 0x028A44.
Definition R_028A50_GE_SE_ENHANCE : Z := 0x028A50.
Definition R_028A50_VGT_ENHANCE : Z := 0x028A50.
Definition R_028A54_VGT_GS_PER_ES : Z := 0x028A54.
Definition R_028A58_VGT_ES_PER_GS : Z := 0x028A58.
Definition R_028A5C_VGT_GS_PER_VS : Z := 0x028A5C.
Definition R_028A70_GE_IA_ENHANCE : Z := 0x028A70.
Definition R_028A80_GE_WD_ENHANCE : Z := 0x028A80.
Definition R_028A8C_VGT_PRIMITIVEID_RESET : Z := 0x028A8C.
Definition R_028A98_VGT_DRAW_PAYLOAD_CNTL : Z := 0x028A98.
Definition R_028A9C_VGT_REUSE_OFF : Z := 0x028A9C.
Definition R_028AA0_VGT_DRAW_PAYLOAD_CNTL : Z := 0x028AA0.
Definition R_028AA0_VGT_INSTANCE_STEP_RATE_0 : Z := 0x028AA0.
Definition R_028AAC_VGT_ESGS_RING_ITEMSIZE : Z := 0x028AAC.
Definition R_028AB4_VGT_REUSE_OFF : Z := 0x028AB4.
Definition R_028AB8_VGT_VTX_CNT_EN : Z := 0x028AB8.
Definition R_028ABC_DB_HTILE_SURFACE : Z := 0x028ABC.
Definition R_028AC0_DB_SRESULTS_COMPARE_STATE0 : Z := 0x028AC0.
Definition R_028AC4_DB_SRESULTS_COMPARE_STATE1 : Z := 0x028AC4.
Definition R_028AC8_DB_PRELOAD_CONTROL : Z := 0x028AC8.
Definition R_028B28_VGT_STRMOUT_DRAW_OPAQUE_OFFSET : Z := 0x028B28.
Definition R_028B50_VGT_TESS_DISTRIBUTION : Z := 0x028B50.
Definition R_028B98_PA_SC_HIS_INFO : Z := 0x028B98.
Definition R_028B98_VGT_STRMOUT_BUFFER_CONFIG : Z := 0x028B98.
Definition R_028BC0_PA_SC_HISZ_RENDER_OVERRIDE : Z := 0x028BC0.
Definition R_028C40_PA_SC_BINNER_OUTPUT_TIMEOUT_COUNTER : Z := 0x028C40.
Definition R_028C40_PA_SC_SHADER_CONTROL : Z := 0x028C40.
Definition R_028C48_PA_SC_BINNER_CNTL_1 : Z := 0x028C48.
Definition R_028C4C_PA_SC_BINNER_CNTL_2 : Z := 0x028C4C.
Definition R_028C4C_PA_SC_CONSERVATIVE_RASTERIZATION_CNTL : Z := 0x028C4C.
Definition R_028C50_PA_SC_NGG_MODE_CNTL : Z := 0x028C50.
Definition R_028C54_PA_SC_BINNER_CNTL_2 : Z := 0x028C54.
Definition R_028C54_PA_SC_CONSERVATIVE_RASTERIZATION_CNTL : Z := 0x028C54.
Definition R_028C58_PA_SC_SHADER_CONTROL : Z := 0x028C58.
Definition R_028C58_VGT_VERTEX_REUSE_BLOCK_CNTL : Z := 0x028C58.
Definition R_028C5C_VGT_OUT_DEALLOC_CNTL : Z := 0x028C5C.
Definition R_028F00_CB_MEM0_INFO : Z := 0x028F00.
Definition R_0300FC_CP_STRMOUT_CNTL : Z := 0x0300FC.
Definition R_0301EC_CP_COHER_START_DELAY : Z := 0x0301EC.
Definition R_030800_GRBM_GFX_INDEX : Z := 0x030800.
Definition R_030920_VGT_MAX_VTX_INDX : Z := 0x030920.
Definition R_030924_GE_MIN_VTX_INDX : Z := 0x030924.
Definition R_030924_VGT_MIN_VTX_INDX : Z := 0x030924.
Definition R_030928_GE_INDX_OFFSET : Z := 0x030928.
Definition R_030928_VGT_INDX_OFFSET : Z := 0x030928.
Definition R_03092C_GE_MULTI_PRIM_IB_RESET_EN : Z := 0x03092C.
Definition R_030950_GE_GS_THROTTLE : Z := 0x030950.
Definition R_030964_GE_MAX_VTX_INDX : Z := 0x030964.
Definition R_030968_VGT_INSTANCE_BASE_ID : Z := 0x030968.
Definition R_03097C_GE_STEREO_CNTL : Z := 0x03097C.
Definition R_030980_GE_USER_VGPR_EN : Z := 0x030980.
Definition R_030988_GE_USER_VGPR_EN : Z := 0x030988.
Definition R_03098C_GE_VRS_RATE : Z := 0x03098C.
Definition R_0309B4_VGT_PRIMITIVEID_RESET : Z := 0x0309B4.
Definition R_030A00_PA_SU_LINE_STIPPLE_VALUE : Z := 0x030A00.
Definition R_030A04_PA_SC_LINE_STIPPLE_STATE : Z := 0x030A04.
Definition R_030E00_TA_CS_BC_BASE_ADDR : Z := 0x030E00.
Definition R_030E04_TA_CS_BC_BASE_ADDR_HI : Z := 0x030E04.
Definition R_031128_SPI_GRP_LAUNCH_GUARANTEE_ENABLE : Z := 0x031128.
Definition R_03112C_SPI_GRP_LAUNCH_GUARANTEE_CTRL : Z := 0x03112C.
Definition R_036020_CP_PERFMON_CNTL : Z := 0x036020.

(** ** Fields *)

Definition S_0084FC_OFFSET_UPDATE_DONE : Z -> Z := fld 0 0.
Definition S_008A14_CLIP_VTX_REORDER_ENA : Z -> Z := fld 0 0.
Definition S_008A14_NUM_CLIP_SEQ : Z -> Z := fld 1 2.
Definition S_00B004_CU_EN : Z -> Z := fld 0 15.
Definition S_00B018_CU_EN : Z -> Z := fld 0 15.
Definition S_00B01C_CU_EN : Z -> Z := fld 0 15.
Definition S_00B01C_LDS_GROUP_SIZE_GFX11 : Z -> Z := fld 22 23.
Definition S_00B01C_WAVE_LIMIT_GFX7 : Z -> Z := fld 16 21.
Definition S_00B024_MEM_BASE : Z -> Z := fld 0 7.
Definition S_00B0C0_NUMBER_OF_REQUESTS_PER_CU : Z -> Z := fld 1 4.
Definition S_00B0C0_SOFT_GROUPING_EN : Z -> Z := fld 0 0.
Definition S_00B104_CU_EN : Z -> Z := fld 0 15.
Definition S_00B214_MEM_BASE : Z -> Z := fld 0 7.
Definition S_00B31C_CU_EN : Z -> Z := fld 0 15.
Definition S_00B31C_WAVE_LIMIT : Z -> Z := fld 16 21.
Definition S_00B324_MEM_BASE : Z -> Z := fld 0 7.
Definition S_00B404_CU_EN : Z -> Z := fld 0 15.
Definition S_00B414_MEM_BASE : Z -> Z := fld 0 7.
Definition S_00B41C_CU_EN : Z -> Z := fld 16 31.
Definition S_00B41C_WAVE_LIMIT : Z -> Z := fld 0 5.
Definition S_00B51C_CU_EN : Z -> Z := fld 0 15.
Definition S_00B51C_WAVE_LIMIT : Z -> Z := fld 16 21.
Definition S_00B524_MEM_BASE : Z -> Z := fld 0 7.
Definition S_00B834_DATA : Z -> Z := fld 0 7.
Definition S_00B858_SH0_CU_EN : Z -> Z := fld 0 15.
Definition S_00B858_SH1_CU_EN : Z -> Z := fld 16 31.
Definition S_00B8BC_INTERLEAVE : Z -> Z := fld 0 9.
Definition S_028034_BR_X : Z -> Z := fld 0 15.
Definition S_028034_BR_Y : Z -> Z := fld 16 31.
Definition S_028038_PUNCHOUT_MODE : Z -> Z := fld 0 1.
Definition S_028048_OCCLUSION_TEMPORAL_WRITE : Z -> Z := fld 12 14.
Definition S_028048_STENCIL_TEMPORAL_READ : Z -> Z := fld 6 8.
Definition S_028048_STENCIL_TEMPORAL_WRITE : Z -> Z := fld 9 11.
Definition S_028048_Z_TEMPORAL_READ : Z -> Z := fld 0 2.
Definition S_028048_Z_TEMPORAL_WRITE : Z -> Z := fld 3 5.
Definition S_028060_PUNCHOUT_MODE : Z -> Z := fld 0 1.
Definition S_02807C_HTILE_RD_POLICY : Z -> Z := fld 20 21.
Definition S_02807C_HTILE_WR_POLICY : Z -> Z := fld 4 5.
Definition S_02807C_S_RD_POLICY : Z -> Z := fld 18 19.
Definition S_02807C_S_WR_POLICY : Z -> Z := fld 2 3.
Definition S_02807C_ZPCPSD_WR_POLICY : Z -> Z := fld 6 7.
Definition S_02807C_Z_RD_POLICY : Z -> Z := fld 16 17.
Definition S_02807C_Z_WR_POLICY : Z -> Z := fld 0 1.
Definition S_028084_ADDRESS : Z -> Z := fld 0 7.
Definition S_02808C_OPVAL : Z -> Z := fld 0 7.
Definition S_02808C_OPVAL_BF : Z -> Z := fld 8 15.
Definition S_0280F8_HIS_TEMPORAL_READ : Z -> Z := fld 12 14.
Definition S_0280F8_HIS_TEMPORAL_WRITE : Z -> Z := fld 15 17.
Definition S_0280F8_HIZ_TEMPORAL_READ : Z -> Z := fld 6 8.
Definition S_0280F8_HIZ_TEMPORAL_WRITE : Z -> Z := fld 9 11.
Definition S_0280F8_VRS_TEMPORAL_READ : Z -> Z := fld 0 2.
Definition S_0280F8_VRS_TEMPORAL_WRITE : Z -> Z := fld 3 5.
Definition S_0280FC_HIS_SPECULATIVE_READ : Z -> Z := fld 4 5.
Definition S_0280FC_HIZ_SPECULATIVE_READ : Z -> Z := fld 2 3.
Definition S_0280FC_VRS_SPECULATIVE_READ : Z -> Z := fld 0 1.
Definition S_028184_BR_X : Z -> Z := fld 0 15.
Definition S_028184_BR_Y : Z -> Z := fld 16 31.
Definition S_028204_WINDOW_OFFSET_DISABLE : Z -> Z := fld 31 31.
Definition S_028240_WINDOW_OFFSET_DISABLE : Z -> Z := fld 31 31.
Definition S_028244_BR_X : Z -> Z := fld 0 15.
Definition S_028244_BR_Y : Z -> Z := fld 16 31.
Definition S_028350_PKR_MAP : Z -> Z := fld 8 9.
Definition S_028350_RB_MAP_PKR0 : Z -> Z := fld 0 1.
Definition S_028350_RB_MAP_PKR1 : Z -> Z := fld 2 3.
Definition S_028350_SE_MAP : Z -> Z := fld 24 25.
Definition S_028354_SE_PAIR_MAP : Z -> Z := fld 0 1.
Definition S_028410_CMASK_RD_POLICY : Z -> Z := fld 16 17.
Definition S_028410_CMASK_WR_POLICY : Z -> Z := fld 0 1.
Definition S_028410_COLOR_RD_POLICY : Z -> Z := fld 22 23.
Definition S_028410_COLOR_WR_POLICY_GFX10 : Z -> Z := fld 6 7.
Definition S_028410_COLOR_WR_POLICY_GFX11 : Z -> Z := fld 2 3.
Definition S_028410_DCC_RD_POLICY : Z -> Z := fld 20 21.
Definition S_028410_DCC_WR_POLICY_GFX10 : Z -> Z := fld 4 5.
Definition S_028410_DCC_WR_POLICY_GFX11 : Z -> Z := fld 0 1.
Definition S_028410_FMASK_RD_POLICY : Z -> Z := fld 18 19.
Definition S_028410_FMASK_WR_POLICY : Z -> Z := fld 2 3.
Definition S_028648_IDX0_EXPORT_FORMAT : Z -> Z := fld 0 3.
Definition S_0286E4_COVERED_CENTROID_IS_CENTER : Z -> Z := fld 2 2.
Definition S_028708_IDX0_EXPORT_FORMAT : Z -> Z := fld 0 3.
Definition S_02882C_XMAX_RIGHT_EXCLUSION : Z -> Z := fld 30 30.
Definition S_02882C_YMAX_BOTTOM_EXCLUSION : Z -> Z := fld 31 31.
Definition S_028830_SC_1XMSAA_COMPATIBLE_DISABLE : Z -> Z := fld 6 6.
Definition S_028830_SMALL_PRIM_FILTER_ENABLE : Z -> Z := fld 0 0.
Definition S_028840_STEREO_MODE : Z -> Z := fld 1 4.
Definition S_028848_SAMPLE_ITER_COMBINER_MODE : Z -> Z := fld 9 11.
Definition S_028848_VERTEX_RATE_COMBINER_MODE : Z -> Z := fld 0 2.
Definition S_028A44_ES_VERTS_PER_SUBGRP : Z -> Z := fld 0 10.
Definition S_028A44_GS_PRIMS_PER_SUBGRP : Z -> Z := fld 11 21.
Definition S_028B50_ACCUM_ISOLINE : Z -> Z := fld 0 7.
Definition S_028B50_ACCUM_QUAD : Z -> Z := fld 16 23.
Definition S_028B50_ACCUM_TRI : Z -> Z := fld 8 15.
Definition S_028B50_DONUT_SPLIT_GFX81 : Z -> Z := fld 24 31.
Definition S_028B50_DONUT_SPLIT_GFX9 : Z -> Z := fld 24 28.
Definition S_028B50_TRAP_SPLIT : Z -> Z := fld 29 31.
Definition S_028B98_SURFACE_ENABLE : Z -> Z := fld 0 0.
Definition S_028C48_MAX_ALLOC_COUNT : Z -> Z := fld 0 15.
Definition S_028C48_MAX_PRIM_PER_BATCH : Z -> Z := fld 16 31.
Definition S_028C4C_ENABLE_PING_PONG_BIN_ORDER : Z -> Z := fld 23 23.
Definition S_028C4C_NULL_SQUAD_AA_MASK_ENABLE : Z -> Z := fld 20 20.
Definition S_028C50_MAX_DEALLOCS_IN_WAVE : Z -> Z := fld 0 10.
Definition S_028C54_ENABLE_PING_PONG_BIN_ORDER : Z -> Z := fld 23 23.
Definition S_028C54_NULL_SQUAD_AA_MASK_ENABLE : Z -> Z := fld 20 20.
Definition S_028C58_REALIGN_DQUADS_AFTER_N_WAVES : Z -> Z := fld 0 1.
Definition S_028F00_TEMPORAL_READ : Z -> Z := fld 0 2.
Definition S_028F00_TEMPORAL_WRITE : Z -> Z := fld 3 5.
Definition S_030800_INSTANCE_BROADCAST_WRITES : Z -> Z := fld 30 30.
Definition S_030800_SE_BROADCAST_WRITES : Z -> Z := fld 31 31.
Definition S_030800_SE_INDEX : Z -> Z := fld 16 23.
Definition S_030800_SH_BROADCAST_WRITES : Z -> Z := fld 29 29.
Definition S_03092C_DISABLE_FOR_AUTO_INDEX : Z -> Z := fld 2 2.
Definition S_030950_ENABLE_THROTTLE : Z -> Z := fld 22 22.
Definition S_030950_FACTOR1 : Z -> Z := fld 16 18.
Definition S_030950_FACTOR2 : Z -> Z := fld 19 21.
Definition S_030950_NUM_INIT_GRPS : Z -> Z := fld 23 30.
Definition S_030950_STALL_CYCLES : Z -> Z := fld 9 15.
Definition S_030950_T0 : Z -> Z := fld 0 2.
Definition S_030950_T1 : Z -> Z := fld 3 5.
Definition S_030950_T2 : Z -> Z := fld 6 8.
Definition S_030E04_ADDRESS : Z -> Z := fld 0 7.
Definition S_031128_CS_NUM_LOCK_WGP : Z -> Z := fld 8 10.
Definition S_031128_ENABLE : Z -> Z := fld 0 0.
Definition S_031128_GFX_NUM_LOCK_WGP : Z -> Z := fld 5 7.
Definition S_031128_GS_ASSIST_EN : Z -> Z := fld 2 2.
Definition S_031128_LOCK_MAINT_COUNT : Z -> Z := fld 15 17.
Definition S_031128_LOCK_PERIOD : Z -> Z := fld 11 14.
Definition S_031128_MRT_ASSIST_EN : Z -> Z := fld 3 3.
Definition S_03112C_ALLOC_SUCCESS_THRESHOLD : Z -> Z := fld 10 13.
Definition S_03112C_CS_WAVE_THRESHOLD_HIGH : Z -> Z := fld 19 23.
Definition S_03112C_GFX_PENDING_THRESHOLD : Z -> Z := fld 3 5.
Definition S_03112C_NUM_MRT_THRESHOLD : Z -> Z := fld 0 2.
Definition S_03112C_PRIORITY_LOST_THRESHOLD : Z -> Z := fld 6 9.
Definition S_036020_PERFMON_STATE : Z -> Z := fld 0 3.

Definition S_0301F0_TC_WB_ACTION_ENA : Z -> Z := fld 18 18.
Definition S_0301F0_TCL1_ACTION_ENA : Z -> Z := fld 22 22.
Definition S_0301F0_TC_ACTION_ENA : Z -> Z := fld 23 23.
Definition S_0301F0_SH_KCACHE_ACTION_ENA : Z -> Z := fld 27 27.
Definition S_0301F0_SH_ICACHE_ACTION_ENA : Z -> Z := fld 29 29.

(** ** Masks that clear a field *)

Definition C_00B004_CU_EN : Z := cfld 0 15.
Definition C_00B018_CU_EN : Z := cfld 0 15.
Definition C_00B01C_CU_EN : Z := cfld 0 15.
Definition C_00B104_CU_EN : Z := cfld 0 15.
Definition C_00B31C_CU_EN : Z := cfld 0 15.
Definition C_00B404_CU_EN : Z := cfld 0 15.
Definition C_00B41C_CU_EN : Z := cfld 16 31.
Definition C_00B51C_CU_EN : Z := cfld 0 15.
Definition C_028350_PKR_MAP : Z := cfld 8 9.
Definition C_028350_RB_MAP_PKR0 : Z := cfld 0 1.
Definition C_028350_RB_MAP_PKR1 : Z := cfld 2 3.
Definition C_028350_SE_MAP : Z := cfld 24 25.
Definition C_028354_SE_PAIR_MAP : Z := cfld 0 1.

(** ** Enumerated values *)

Definition V_028038_FORCE_OFF : Z := 2.
Definition V_028060_FORCE_OFF : Z := 2.
Definition V_02807C_CACHE_LRU_RD : Z := 0.
Definition V_02807C_CACHE_LRU_WR : Z := 0.
Definition V_02807C_CACHE_NOA_GFX10 : Z := 1.
Definition V_02807C_CACHE_NOA_GFX11 : Z := 2.
Definition V_02807C_CACHE_STREAM : Z := 1.
Definition V_028350_RASTER_CONFIG_PKR_MAP_0 : Z := 0.
Definition V_028350_RASTER_CONFIG_PKR_MAP_3 : Z := 3.
Definition V_028350_RASTER_CONFIG_RB_MAP_0 : Z := 0.
Definition V_028350_RASTER_CONFIG_RB_MAP_3 : Z := 3.
Definition V_028350_RASTER_CONFIG_SE_MAP_0 : Z := 0.
Definition V_028350_RASTER_CONFIG_SE_MAP_3 : Z := 3.
Definition V_028354_RASTER_CONFIG_SE_PAIR_MAP_0 : Z := 0.
Definition V_028354_RASTER_CONFIG_SE_PAIR_MAP_3 : Z := 3.
Definition V_028410_CACHE_LRU_RD : Z := 0.
Definition V_028410_CACHE_LRU_WR : Z := 0.
Definition V_028410_CACHE_STREAM : Z := 1.
Definition V_028648_SPI_SHADER_1COMP : Z := 1.
Definition V_028708_SPI_SHADER_1COMP : Z := 1.
Definition V_028848_SC_VRS_COMB_MODE_OVERRIDE : Z := 1.
Definition V_028A90_BOTTOM_OF_PIPE_TS : Z := 40.
Definition V_028A90_BREAK_BATCH : Z := 14.
Definition V_028A90_PIXEL_PIPE_STAT_CONTROL : Z := 56.
Definition V_028A90_SO_VGTSTREAMOUT_FLUSH : Z := 31.
Definition V_028A90_VGT_FLUSH : Z := 36.
Definition V_028A90_VS_PARTIAL_FLUSH : Z := 15.
Definition V_036020_CP_PERFMON_STATE_STOP_COUNTING : Z := 2.

(** ** Fields of packets *)

Definition S_281_LOAD_CS_SH_REGS : Z -> Z := fld 24 24.
Definition S_281_LOAD_GFX_SH_REGS : Z -> Z := fld 16 16.
Definition S_281_LOAD_GLOBAL_UCONFIG : Z -> Z := fld 15 15.
Definition S_281_LOAD_PER_CONTEXT_STATE : Z -> Z := fld 1 1.
Definition S_281_UPDATE_LOAD_ENABLES : Z -> Z := fld 31 31.
Definition S_282_SHADOW_CS_SH_REGS : Z -> Z := fld 24 24.
Definition S_282_SHADOW_GFX_SH_REGS : Z -> Z := fld 16 16.
Definition S_282_SHADOW_GLOBAL_CONFIG : Z -> Z := fld 0 0.
Definition S_282_SHADOW_GLOBAL_UCONFIG : Z -> Z := fld 15 15.
Definition S_282_SHADOW_PER_CONTEXT_STATE : Z -> Z := fld 1 1.
Definition S_282_UPDATE_SHADOW_ENABLES : Z -> Z := fld 31 31.
Definition S_371_DST_SEL : Z -> Z := fld 8 11.
Definition S_371_ENGINE_SEL : Z -> Z := fld 30 31.
Definition S_461_EVENT_TYPE : Z -> Z := fld 0 5.
Definition S_461_EVENT_INDEX : Z -> Z := fld 8 11.
Definition S_491_EVENT_TYPE : Z -> Z := fld 0 5.
Definition S_491_EVENT_INDEX : Z -> Z := fld 8 11.
Definition S_491_PWS_ENABLE : Z -> Z := fld 31 31.
Definition S_581B_PWS_STAGE_SEL : Z -> Z := fld 11 13.
Definition S_581B_PWS_COUNTER_SEL : Z -> Z := fld 14 15.
Definition S_581B_PWS_ENA2 : Z -> Z := fld 17 17.
Definition S_581B_PWS_COUNT : Z -> Z := fld 18 23.
Definition V_581B_CP_PFP : Z := 4.
Definition V_581B_TS_SELECT : Z := 0.
Definition S_586B_PWS_ENA : Z -> Z := fld 31 31.
Definition S_587_GLI_INV : Z -> Z := fld 0 1.
Definition S_587_GLM_WB : Z -> Z := fld 4 4.
Definition S_587_GLM_INV : Z -> Z := fld 5 5.
Definition S_587_GLK_INV : Z -> Z := fld 7 7.
Definition S_587_GLV_INV : Z -> Z := fld 8 8.
Definition S_587_GL1_INV : Z -> Z := fld 9 9.
Definition S_587_GL2_INV : Z -> Z := fld 14 14.
Definition S_587_GL2_WB : Z -> Z := fld 15 15.
Definition V_587_GLI_ALL : Z := 1.
