(* ===== verification/Preamble.v ===== *)
(** The preamble register state of [ac_cmdbuf.c]: what a context programs at the start of every
    command buffer.  A function of the source that calls [ac_pm4_set_reg] and
    [ac_pm4_cmd_add] is the list of the calls it makes, in order; [run_ops] performs them on
    a PM4 state. *)

From stdpp Require Import strings.
From S2P Require Import Prelude.
From S2P Require Import CLib.
From S2P Require Import TitanRegMap.
From S2P Require Import Packets.
From S2P Require Import Pm4.
From S2P Require Import RegFields.

Declare Scope creg_scope.
Infix "|||" := Z.lor (at level 50, left associativity) : creg_scope.
#[local] Open Scope creg_scope.

(** ** The GPU *)

(** [enum radeon_family], in its order. *)
Inductive radeon_family : Set :=
| CHIP_UNKNOWN | CHIP_R300 | CHIP_R350 | CHIP_RV350 | CHIP_RV370 | CHIP_RV380 | CHIP_RS400
| CHIP_RC410 | CHIP_RS480 | CHIP_R420 | CHIP_R423 | CHIP_R430 | CHIP_R480 | CHIP_R481
| CHIP_RV410 | CHIP_RS600 | CHIP_RS690 | CHIP_RS740 | CHIP_RV515 | CHIP_R520 | CHIP_RV530
| CHIP_R580 | CHIP_RV560 | CHIP_RV570 | CHIP_R600 | CHIP_RV610 | CHIP_RV630 | CHIP_RV670
| CHIP_RV620 | CHIP_RV635 | CHIP_RS780 | CHIP_RS880 | CHIP_RV770 | CHIP_RV730 | CHIP_RV710
| CHIP_RV740 | CHIP_CEDAR | CHIP_REDWOOD | CHIP_JUNIPER | CHIP_CYPRESS | CHIP_HEMLOCK
| CHIP_PALM | CHIP_SUMO | CHIP_SUMO2 | CHIP_BARTS | CHIP_TURKS | CHIP_CAICOS | CHIP_CAYMAN
| CHIP_ARUBA | CHIP_TAHITI | CHIP_PITCAIRN | CHIP_VERDE | CHIP_OLAND | CHIP_HAINAN
| CHIP_BONAIRE | CHIP_KAVERI | CHIP_KABINI | CHIP_HAWAII | CHIP_TONGA | CHIP_ICELAND
| CHIP_CARRIZO | CHIP_FIJI | CHIP_STONEY | CHIP_POLARIS10 | CHIP_POLARIS11 | CHIP_POLARIS12
| CHIP_VEGAM | CHIP_VEGA10 | CHIP_VEGA12 | CHIP_VEGA20 | CHIP_RAVEN | CHIP_RAVEN2 | CHIP_RENOIR
| CHIP_MI100 | CHIP_MI200 | CHIP_GFX940 | CHIP_NAVI10 | CHIP_NAVI12 | CHIP_NAVI14
| CHIP_GFX1013 | CHIP_NAVI21 | CHIP_NAVI22 | CHIP_VANGOGH | CHIP_NAVI23 | CHIP_NAVI24
| CHIP_REMBRANDT | CHIP_RAPHAEL_MENDOCINO | CHIP_TITAN | CHIP_NAVI31 | CHIP_NAVI32
| CHIP_NAVI33 | CHIP_PHOENIX | CHIP_PHOENIX2 | CHIP_STRIX1 | CHIP_STRIX_HALO | CHIP_KRACKAN1
| CHIP_GFX1153 | CHIP_GFX1156 | CHIP_GFX1170 | CHIP_GFX1171 | CHIP_GFX1200 | CHIP_GFX1201
| CHIP_GFX1210 | CHIP_LAST.

Definition family_rank (f : radeon_family) : Z :=
  match f with
  | CHIP_UNKNOWN => 0 | CHIP_R300 => 1 | CHIP_R350 => 2 | CHIP_RV350 => 3 | CHIP_RV370 => 4
  | CHIP_RV380 => 5 | CHIP_RS400 => 6 | CHIP_RC410 => 7 | CHIP_RS480 => 8 | CHIP_R420 => 9
  | CHIP_R423 => 10 | CHIP_R430 => 11 | CHIP_R480 => 12 | CHIP_R481 => 13 | CHIP_RV410 => 14
  | CHIP_RS600 => 15 | CHIP_RS690 => 16 | CHIP_RS740 => 17 | CHIP_RV515 => 18 | CHIP_R520 => 19
  | CHIP_RV530 => 20 | CHIP_R580 => 21 | CHIP_RV560 => 22 | CHIP_RV570 => 23 | CHIP_R600 => 24
  | CHIP_RV610 => 25 | CHIP_RV630 => 26 | CHIP_RV670 => 27 | CHIP_RV620 => 28
  | CHIP_RV635 => 29 | CHIP_RS780 => 30 | CHIP_RS880 => 31 | CHIP_RV770 => 32
  | CHIP_RV730 => 33 | CHIP_RV710 => 34 | CHIP_RV740 => 35 | CHIP_CEDAR => 36
  | CHIP_REDWOOD => 37 | CHIP_JUNIPER => 38 | CHIP_CYPRESS => 39 | CHIP_HEMLOCK => 40
  | CHIP_PALM => 41 | CHIP_SUMO => 42 | CHIP_SUMO2 => 43 | CHIP_BARTS => 44 | CHIP_TURKS => 45
  | CHIP_CAICOS => 46 | CHIP_CAYMAN => 47 | CHIP_ARUBA => 48 | CHIP_TAHITI => 49
  | CHIP_PITCAIRN => 50 | CHIP_VERDE => 51 | CHIP_OLAND => 52 | CHIP_HAINAN => 53
  | CHIP_BONAIRE => 54 | CHIP_KAVERI => 55 | CHIP_KABINI => 56 | CHIP_HAWAII => 57
  | CHIP_TONGA => 58 | CHIP_ICELAND => 59 | CHIP_CARRIZO => 60 | CHIP_FIJI => 61
  | CHIP_STONEY => 62 | CHIP_POLARIS10 => 63 | CHIP_POLARIS11 => 64 | CHIP_POLARIS12 => 65
  | CHIP_VEGAM => 66 | CHIP_VEGA10 => 67 | CHIP_VEGA12 => 68 | CHIP_VEGA20 => 69
  | CHIP_RAVEN => 70 | CHIP_RAVEN2 => 71 | CHIP_RENOIR => 72 | CHIP_MI100 => 73
  | CHIP_MI200 => 74 | CHIP_GFX940 => 75 | CHIP_NAVI10 => 76 | CHIP_NAVI12 => 77
  | CHIP_NAVI14 => 78 | CHIP_GFX1013 => 79 | CHIP_NAVI21 => 80 | CHIP_NAVI22 => 81
  | CHIP_VANGOGH => 82 | CHIP_NAVI23 => 83 | CHIP_NAVI24 => 84 | CHIP_REMBRANDT => 85
  | CHIP_RAPHAEL_MENDOCINO => 86 | CHIP_TITAN => 87 | CHIP_NAVI31 => 88 | CHIP_NAVI32 => 89
  | CHIP_NAVI33 => 90 | CHIP_PHOENIX => 91 | CHIP_PHOENIX2 => 92 | CHIP_STRIX1 => 93
  | CHIP_STRIX_HALO => 94 | CHIP_KRACKAN1 => 95 | CHIP_GFX1153 => 96 | CHIP_GFX1156 => 97
  | CHIP_GFX1170 => 98 | CHIP_GFX1171 => 99 | CHIP_GFX1200 => 100 | CHIP_GFX1201 => 101
  | CHIP_GFX1210 => 102 | CHIP_LAST => 103
  end.

(** The fields of [struct radeon_info] the preambles read; [pm4_info] are those of the
    packet builder. *)
Record gpu_info : Type := mk_gpu {
  pm4_info : radeon_info;
  family : radeon_family;
  address32_hi : Z;
  spi_cu_en : Z;
  max_se : Z;
  max_sa_per_se : Z;
  max_render_backends : Z;
  enabled_rb_mask : Z;
  pa_sc_raster_config : Z;
  pa_sc_raster_config_1 : Z;
  pa_sc_tile_steering_override : Z;
  pbb_max_alloc_count : Z;
  min_good_cu_per_sa : Z;
  max_good_cu_per_sa : Z;
  has_graphics : bool;
  has_clear_state : bool;
  gfx11_shader_core : bool;
  has_small_prim_filter_sample_loc_bug : bool
}.

(** [struct ac_preamble_state]. *)
Record ac_preamble_state : Type := mk_preamble {
  border_color_va : Z;
  cache_cb_gl2 : bool;
  cache_db_gl2 : bool;
  compute_dispatch_interleave : Z
}.

(** [info->gfx_level >= g], [< g], [<= g] and [== g]. *)
Definition gfx_ge (I : gpu_info) (g : amd_gfx_level) : bool := gfx_le g (gfx_level (pm4_info I)).
Definition gfx_lt (I : gpu_info) (g : amd_gfx_level) : bool := negb (gfx_ge I g).
Definition gfx_upto (I : gpu_info) (g : amd_gfx_level) : bool := gfx_le (gfx_level (pm4_info I)) g.
Definition gfx_is (I : gpu_info) (g : amd_gfx_level) : bool := gfx_ge I g && gfx_upto I g.
Definition family_ge (I : gpu_info) (f : radeon_family) : bool :=
  family_rank f <=? family_rank (family I).
Definition family_is (I : gpu_info) (f : radeon_family) : bool :=
  family_rank (family I) =? family_rank f.

(** ** Calls on a PM4 state *)

Definition set_reg (reg val : Z) : list pm4_op := [SetReg reg val].

(** The calls under an [if]. *)
Definition when (b : bool) (ops : list pm4_op) : list pm4_op := if b then ops else [].

(** [for (i = lo; i < lo + n; i++)]. *)
Definition for_ (lo : Z) (n : Z) (body : Z -> list pm4_op) : list pm4_op :=
  concat (body <$> seqZ lo n).

(** ** Compute preambles *)

Definition compute_cu_en (I : gpu_info) : Z :=
  S_00B858_SH0_CU_EN (spi_cu_en I) ||| S_00B858_SH1_CU_EN (spi_cu_en I).

(** [i < info->max_se ? compute_cu_en : 0x0]. *)
Definition cu_en_se (I : gpu_info) (i : Z) : Z := if i <? max_se I then compute_cu_en I else 0.

Definition gfx6_init_compute_preamble_state (I : gpu_info) (st : ac_preamble_state) : list pm4_op :=
  set_reg R_00B834_COMPUTE_PGM_HI (S_00B834_DATA (address32_hi I ≫ 8)) ++
  for_ 0 2 (fun i => set_reg (R_00B858_COMPUTE_STATIC_THREAD_MGMT_SE0 + i * 4) (cu_en_se I i)) ++
  when (gfx_ge I GFX7)
    (for_ 2 2 (fun i => set_reg (R_00B864_COMPUTE_STATIC_THREAD_MGMT_SE2 + (i - 2) * 4)
                          (cu_en_se I i))) ++
  when (gfx_ge I GFX9) (set_reg R_0301EC_CP_COHER_START_DELAY 0) ++
  if gfx_ge I GFX7 then
    set_reg R_030E00_TA_CS_BC_BASE_ADDR (border_color_va st ≫ 8) ++
    set_reg R_030E04_TA_CS_BC_BASE_ADDR_HI (S_030E04_ADDRESS (border_color_va st ≫ 40))
  else
    when (gfx_is I GFX6) (set_reg R_00950C_TA_CS_BC_BASE_ADDR (border_color_va st ≫ 8)).

Definition gfx10_init_compute_preamble_state (I : gpu_info) (st : ac_preamble_state) : list pm4_op :=
  when (gfx_lt I GFX11) (set_reg R_0301EC_CP_COHER_START_DELAY 0x20) ++
  set_reg R_030E00_TA_CS_BC_BASE_ADDR (border_color_va st ≫ 8) ++
  set_reg R_030E04_TA_CS_BC_BASE_ADDR_HI (S_030E04_ADDRESS (border_color_va st ≫ 40)) ++
  set_reg R_00B834_COMPUTE_PGM_HI (S_00B834_DATA (address32_hi I ≫ 8)) ++
  for_ 0 2 (fun i => set_reg (R_00B858_COMPUTE_STATIC_THREAD_MGMT_SE0 + i * 4) (cu_en_se I i)) ++
  for_ 2 2 (fun i => set_reg (R_00B864_COMPUTE_STATIC_THREAD_MGMT_SE2 + (i - 2) * 4)
                       (cu_en_se I i)) ++
  set_reg R_00B890_COMPUTE_USER_ACCUM_0 0 ++
  set_reg R_00B894_COMPUTE_USER_ACCUM_1 0 ++
  set_reg R_00B898_COMPUTE_USER_ACCUM_2 0 ++
  set_reg R_00B89C_COMPUTE_USER_ACCUM_3 0 ++
  when (gfx_ge I GFX11)
    (for_ 4 4 (fun i => set_reg (R_00B8AC_COMPUTE_STATIC_THREAD_MGMT_SE4 + (i - 4) * 4)
                          (cu_en_se I i)) ++
     set_reg R_00B8BC_COMPUTE_DISPATCH_INTERLEAVE
       (S_00B8BC_INTERLEAVE (compute_dispatch_interleave st))) ++
  set_reg R_00B9F4_COMPUTE_DISPATCH_TUNNEL 0.

Definition gfx12_init_compute_preamble_state (I : gpu_info) (st : ac_preamble_state) : list pm4_op :=
  set_reg R_030E00_TA_CS_BC_BASE_ADDR (border_color_va st ≫ 8) ++
  set_reg R_030E04_TA_CS_BC_BASE_ADDR_HI (S_030E04_ADDRESS (border_color_va st ≫ 40)) ++
  set_reg R_00B82C_COMPUTE_PERFCOUNT_ENABLE 0 ++
  set_reg R_00B834_COMPUTE_PGM_HI (S_00B834_DATA (address32_hi I ≫ 8)) ++
  set_reg R_00B838_COMPUTE_DISPATCH_PKT_ADDR_LO 0 ++
  set_reg R_00B83C_COMPUTE_DISPATCH_PKT_ADDR_HI 0 ++
  set_reg R_00B858_COMPUTE_STATIC_THREAD_MGMT_SE0 (compute_cu_en I) ++
  set_reg R_00B85C_COMPUTE_STATIC_THREAD_MGMT_SE1 (cu_en_se I 1) ++
  set_reg R_00B864_COMPUTE_STATIC_THREAD_MGMT_SE2 (cu_en_se I 2) ++
  set_reg R_00B868_COMPUTE_STATIC_THREAD_MGMT_SE3 (cu_en_se I 3) ++
  set_reg R_00B88C_COMPUTE_STATIC_THREAD_MGMT_SE8 (cu_en_se I 8) ++
  set_reg R_00B890_COMPUTE_USER_ACCUM_0 0 ++
  set_reg R_00B894_COMPUTE_USER_ACCUM_1 0 ++
  set_reg R_00B898_COMPUTE_USER_ACCUM_2 0 ++
  set_reg R_00B89C_COMPUTE_USER_ACCUM_3 0 ++
  set_reg R_00B8AC_COMPUTE_STATIC_THREAD_MGMT_SE4 (cu_en_se I 4) ++
  set_reg R_00B8B0_COMPUTE_STATIC_THREAD_MGMT_SE5 (cu_en_se I 5) ++
  set_reg R_00B8B4_COMPUTE_STATIC_THREAD_MGMT_SE6 (cu_en_se I 6) ++
  set_reg R_00B8B8_COMPUTE_STATIC_THREAD_MGMT_SE7 (cu_en_se I 7) ++
  set_reg R_00B9F4_COMPUTE_DISPATCH_TUNNEL 0.

Definition cdna_init_compute_preamble_state (I : gpu_info) (st : ac_preamble_state) : list pm4_op :=
  set_reg R_00B82C_COMPUTE_PERFCOUNT_ENABLE 0 ++
  set_reg R_00B834_COMPUTE_PGM_HI (S_00B834_DATA (address32_hi I ≫ 8)) ++
  set_reg R_00B858_COMPUTE_STATIC_THREAD_MGMT_SE0 (compute_cu_en I) ++
  set_reg R_00B85C_COMPUTE_STATIC_THREAD_MGMT_SE1 (compute_cu_en I) ++
  set_reg R_00B864_COMPUTE_STATIC_THREAD_MGMT_SE2 (compute_cu_en I) ++
  set_reg R_00B868_COMPUTE_STATIC_THREAD_MGMT_SE3 (compute_cu_en I) ++
  set_reg R_00B878_COMPUTE_THREAD_TRACE_ENABLE 0 ++
  (if family_ge I CHIP_GFX940 then
     set_reg R_00B89C_COMPUTE_TG_CHUNK_SIZE 0 ++
     set_reg R_00B8B4_COMPUTE_PGM_RSRC3 0
   else
     set_reg R_00B894_COMPUTE_STATIC_THREAD_MGMT_SE4 (compute_cu_en I) ++
     set_reg R_00B898_COMPUTE_STATIC_THREAD_MGMT_SE5 (compute_cu_en I) ++
     set_reg R_00B89C_COMPUTE_STATIC_THREAD_MGMT_SE6 (compute_cu_en I) ++
     set_reg R_00B8A0_COMPUTE_STATIC_THREAD_MGMT_SE7 (compute_cu_en I)) ++
  set_reg R_0301EC_CP_COHER_START_DELAY 0 ++
  when (family_is I CHIP_MI100)
    (set_reg R_030E00_TA_CS_BC_BASE_ADDR (border_color_va st ≫ 8) ++
     set_reg R_030E04_TA_CS_BC_BASE_ADDR_HI (S_030E04_ADDRESS (border_color_va st ≫ 40))).

Definition ac_init_compute_preamble_state (I : gpu_info) (st : ac_preamble_state) : list pm4_op :=
  if negb (has_graphics I) then cdna_init_compute_preamble_state I st
  else if gfx_ge I GFX12 then gfx12_init_compute_preamble_state I st
  else if gfx_ge I GFX10 then gfx10_init_compute_preamble_state I st
  else gfx6_init_compute_preamble_state I st.

(** ** The rasterizer configuration of GFX6-8 *)

(** The four [se_mask]s of [ac_get_harvested_configs]. *)
Definition harvest_se_mask (rb_per_se rb_mask : Z) : list Z :=
  let m0 := Z.land (u32 (Z.shiftl 1 rb_per_se) - 1) rb_mask in
  let m1 := Z.land (u32 (Z.shiftl m0 rb_per_se)) rb_mask in
  let m2 := Z.land (u32 (Z.shiftl m1 rb_per_se)) rb_mask in
  let m3 := Z.land (u32 (Z.shiftl m2 rb_per_se)) rb_mask in
  [m0; m1; m2; m3].

(** The replacement of one map field: [_3] when the first of two units is gone, [_0] when
    only the second is. *)
Definition remap_field (cfg clear : Z) (place : Z -> Z) (a b : Z) : Z :=
  if (a =? 0) || (b =? 0) then Z.land cfg clear ||| place (if a =? 0 then 3 else 0) else cfg.

(** One iteration of the [for] loop of [ac_get_harvested_configs]. *)
Definition harvest_se (raster_config num_se rb_mask rb_per_pkr rb_per_se : Z) (masks : list Z)
    (se : Z) : res Z :=
  let pkr0_mask := u32 (Z.shiftl (u32 (Z.shiftl 1 rb_per_pkr) - 1) (se * rb_per_se)) in
  let pkr1_mask := u32 (Z.shiftl pkr0_mask rb_per_pkr) in
  let idx := se / 2 * 2 in
  let* c1 :=
    if 1 <? num_se then
      let* a := arr_get masks idx in
      let* b := arr_get masks (idx + 1) in
      Ok (remap_field raster_config C_028350_SE_MAP S_028350_SE_MAP a b)
    else Ok raster_config in
  let c2 :=
    if 2 <? rb_per_se then
      remap_field c1 C_028350_PKR_MAP S_028350_PKR_MAP
        (Z.land pkr0_mask rb_mask) (Z.land pkr1_mask rb_mask)
    else c1 in
  let c3 :=
    if 2 <=? rb_per_se then
      let rb0 := u32 (Z.shiftl 1 (se * rb_per_se)) in
      remap_field c2 C_028350_RB_MAP_PKR0 S_028350_RB_MAP_PKR0
        (Z.land rb0 rb_mask) (Z.land (u32 (Z.shiftl rb0 1)) rb_mask)
    else c2 in
  Ok (if 2 <? rb_per_se then
        let rb0 := u32 (Z.shiftl 1 (se * rb_per_se + rb_per_pkr)) in
        remap_field c3 C_028350_RB_MAP_PKR1 S_028350_RB_MAP_PKR1
          (Z.land rb0 rb_mask) (Z.land (u32 (Z.shiftl rb0 1)) rb_mask)
      else c3).

Fixpoint harvest_loop (raster_config num_se rb_mask rb_per_pkr rb_per_se : Z) (masks : list Z)
    (se : Z) (n : nat) : res (list Z) :=
  match n with
  | O => Ok []
  | S n' =>
      let* c := harvest_se raster_config num_se rb_mask rb_per_pkr rb_per_se masks se in
      let* cs := harvest_loop raster_config num_se rb_mask rb_per_pkr rb_per_se masks (se + 1) n' in
      Ok (c :: cs)
  end.

(** The new [raster_config_1] and [raster_config_se[0 .. num_se - 1]]. *)
Definition ac_get_harvested_configs (I : gpu_info) (raster_config raster_config_1 : Z)
  : res (Z * list Z) :=
  let sh_per_se := Z.max (max_sa_per_se I) 1 in
  let num_se := Z.max (max_se I) 1 in
  let rb_mask := u32 (enabled_rb_mask I) in
  let num_rb := Z.min (max_render_backends I) 16 in
  let rb_per_pkr := Z.min (num_rb / num_se / sh_per_se) 2 in
  let rb_per_se := num_rb / num_se in
  let masks := harvest_se_mask rb_per_se rb_mask in
  assert! (num_se =? 1) || (num_se =? 2) || (num_se =? 4) in
  assert! (sh_per_se =? 1) || (sh_per_se =? 2) in
  assert! (rb_per_pkr =? 1) || (rb_per_pkr =? 2) in
  let* m0 := arr_get masks 0 in
  let* m1 := arr_get masks 1 in
  let* m2 := arr_get masks 2 in
  let* m3 := arr_get masks 3 in
  let cfg1 :=
    if gfx_ge I GFX7 && (2 <? num_se) &&
       (((m0 =? 0) && (m1 =? 0)) || ((m2 =? 0) && (m3 =? 0))) then
      Z.land raster_config_1 C_028354_SE_PAIR_MAP |||
      S_028354_SE_PAIR_MAP (if (m0 =? 0) && (m1 =? 0)
                            then V_028354_RASTER_CONFIG_SE_PAIR_MAP_3
                            else V_028354_RASTER_CONFIG_SE_PAIR_MAP_0)
    else raster_config_1 in
  let* cs := harvest_loop raster_config num_se rb_mask rb_per_pkr rb_per_se masks 0
               (Z.to_nat num_se) in
  Ok (cfg1, cs).

Definition ac_set_grbm_gfx_index (I : gpu_info) (value : Z) : list pm4_op :=
  set_reg (if gfx_ge I GFX7 then R_030800_GRBM_GFX_INDEX else R_00802C_GRBM_GFX_INDEX) value.

Definition ac_set_grbm_gfx_index_se (I : gpu_info) (se : Z) : res (list pm4_op) :=
  assert! (se =? 0xffffffff) || (se <? max_se I) in
  Ok (ac_set_grbm_gfx_index I
        ((if se =? 0xffffffff then S_030800_SE_BROADCAST_WRITES 1 else S_030800_SE_INDEX se) |||
         S_030800_SH_BROADCAST_WRITES 1 ||| S_030800_INSTANCE_BROADCAST_WRITES 1)).

(** The loop of [ac_write_harvested_raster_configs]; [cfgs] is [raster_config_se] from [se] on. *)
Fixpoint harvest_ops (I : gpu_info) (se : Z) (cfgs : list Z) : res (list pm4_op) :=
  match cfgs with
  | [] => Ok []
  | c :: cfgs' =>
      let* a := ac_set_grbm_gfx_index_se I se in
      let* b := harvest_ops I (se + 1) cfgs' in
      Ok (a ++ set_reg R_028350_PA_SC_RASTER_CONFIG c ++ b)
  end.

Definition ac_write_harvested_raster_configs (I : gpu_info) (raster_config raster_config_1 : Z)
  : res (list pm4_op) :=
  let* r := ac_get_harvested_configs I raster_config raster_config_1 in
  let* os := harvest_ops I 0 (snd r) in
  Ok (os ++ ac_set_grbm_gfx_index I 0xffffffff ++
      when (gfx_ge I GFX7) (set_reg R_028354_PA_SC_RASTER_CONFIG_1 (fst r))).

Definition ac_emit_raster_config (I : gpu_info) : res (list pm4_op) :=
  let num_rb := Z.min (max_render_backends I) 16 in
  let rb_mask := enabled_rb_mask I in
  if (rb_mask =? 0) || (num_rb <=? util_bitcount64 rb_mask) then
    Ok (set_reg R_028350_PA_SC_RASTER_CONFIG (pa_sc_raster_config I) ++
        when (gfx_ge I GFX7)
          (set_reg R_028354_PA_SC_RASTER_CONFIG_1 (pa_sc_raster_config_1 I)))
  else
    ac_write_harvested_raster_configs I (pa_sc_raster_config I) (pa_sc_raster_config_1 I).

(** ** CU masks *)

(** [ffs(m) - 1] for a non-zero mask [m]: the index of its lowest bit. *)
Definition ffs_minus_1 (m : Z) : Z := default (-1) (list_find (fun i => Z.testbit m i = true) (seqZ 0 32) ≫= fun p => Some p.2).

(** [ac_apply_cu_en].  The local [set_cu_en] of the source is never read. *)
Definition ac_apply_cu_en (value clear_mask value_shift : Z) (I : gpu_info) : Z :=
  let cu_en_mask := Z.lxor clear_mask 0xffffffff in
  let cu_en_shift := ffs_minus_1 cu_en_mask in
  let cu_en := Z.land value cu_en_mask ≫ cu_en_shift in
  let spi_cu_en := spi_cu_en I ≫ value_shift in
  Z.land value (Z.lxor cu_en_mask 0xffffffff) |||
  Z.land (u32 (Z.land cu_en spi_cu_en ≪ cu_en_shift)) cu_en_mask.

Definition ac_gfx103_get_cu_mask_ps (I : gpu_info) : Z := BITFIELD_MASK (min_good_cu_per_sa I).

(** ** The graphics preamble of GFX6-9 *)

Definition SI_GS_PER_ES : Z := 128.

Definition gfx6_vgt_tess_distribution (I : gpu_info) : Z :=
  if gfx_is I GFX9 then
    S_028B50_ACCUM_ISOLINE 12 ||| S_028B50_ACCUM_TRI 30 ||| S_028B50_ACCUM_QUAD 24 |||
    S_028B50_DONUT_SPLIT_GFX9 24 ||| S_028B50_TRAP_SPLIT 6
  else
    let v := S_028B50_ACCUM_ISOLINE 32 ||| S_028B50_ACCUM_TRI 11 ||| S_028B50_ACCUM_QUAD 11 |||
             S_028B50_DONUT_SPLIT_GFX81 16 in
    if family_is I CHIP_FIJI || family_ge I CHIP_POLARIS10 then v ||| S_028B50_TRAP_SPLIT 3 else v.

Definition gfx6_init_graphics_preamble_state (I : gpu_info) (st : ac_preamble_state)
  : res (list pm4_op) :=
  let* raster := if gfx_upto I GFX8 then ac_emit_raster_config I else Ok [] in
  Ok (
  set_reg R_028240_PA_SC_GENERIC_SCISSOR_TL (S_028240_WINDOW_OFFSET_DISABLE 1) ++
  set_reg R_028244_PA_SC_GENERIC_SCISSOR_BR (S_028244_BR_X 16384 ||| S_028244_BR_Y 16384) ++
  set_reg R_028A18_VGT_HOS_MAX_TESS_LEVEL (fui 64) ++
  when (negb (has_clear_state I)) (set_reg R_028A1C_VGT_HOS_MIN_TESS_LEVEL (fui 0)) ++
  when (negb (has_clear_state I))
    (set_reg R_028820_PA_CL_NANINF_CNTL 0 ++
     set_reg R_028AC0_DB_SRESULTS_COMPARE_STATE0 0x0 ++
     set_reg R_028AC4_DB_SRESULTS_COMPARE_STATE1 0x0 ++
     set_reg R_028AC8_DB_PRELOAD_CONTROL 0x0 ++
     set_reg R_028A8C_VGT_PRIMITIVEID_RESET 0x0 ++
     set_reg R_028B98_VGT_STRMOUT_BUFFER_CONFIG 0x0 ++
     set_reg R_028A5C_VGT_GS_PER_VS 0x2 ++
     set_reg R_028AB8_VGT_VTX_CNT_EN 0x0) ++
  set_reg R_028080_TA_BC_BASE_ADDR (border_color_va st ≫ 8) ++
  when (gfx_ge I GFX7)
    (set_reg R_028084_TA_BC_BASE_ADDR_HI (S_028084_ADDRESS (border_color_va st ≫ 40))) ++
  when (gfx_is I GFX6)
    (set_reg R_008A14_PA_CL_ENHANCE
       (S_008A14_NUM_CLIP_SEQ 3 ||| S_008A14_CLIP_VTX_REORDER_ENA 1)) ++
  (if gfx_ge I GFX7 then
     set_reg R_030A00_PA_SU_LINE_STIPPLE_VALUE 0 ++
     set_reg R_030A04_PA_SC_LINE_STIPPLE_STATE 0
   else
     set_reg R_008A60_PA_SU_LINE_STIPPLE_VALUE 0 ++
     set_reg R_008B10_PA_SC_LINE_STIPPLE_STATE 0) ++
  when (gfx_upto I GFX7 || negb (has_clear_state I))
    (set_reg R_028C58_VGT_VERTEX_REUSE_BLOCK_CNTL 14 ++
     set_reg R_028C5C_VGT_OUT_DEALLOC_CNTL 16 ++
     set_reg R_028204_PA_SC_WINDOW_SCISSOR_TL (S_028204_WINDOW_OFFSET_DISABLE 1) ++
     set_reg R_028030_PA_SC_SCREEN_SCISSOR_TL 0) ++
  when (gfx_ge I GFX7)
    (set_reg R_00B01C_SPI_SHADER_PGM_RSRC3_PS
       (ac_apply_cu_en (S_00B01C_CU_EN 0xffffffff ||| S_00B01C_WAVE_LIMIT_GFX7 0x3F)
          C_00B01C_CU_EN 0 I)) ++
  when (gfx_upto I GFX8)
    (raster ++
     set_reg R_028A54_VGT_GS_PER_ES SI_GS_PER_ES ++
     set_reg R_028A58_VGT_ES_PER_GS 0x40 ++
     set_reg R_028400_VGT_MAX_VTX_INDX 0xffffffff ++
     set_reg R_028404_VGT_MIN_VTX_INDX 0 ++
     set_reg R_028408_VGT_INDX_OFFSET 0) ++
  (if gfx_is I GFX9 then
     set_reg R_00B414_SPI_SHADER_PGM_HI_LS (S_00B414_MEM_BASE (address32_hi I ≫ 8)) ++
     set_reg R_00B214_SPI_SHADER_PGM_HI_ES (S_00B214_MEM_BASE (address32_hi I ≫ 8))
   else
     set_reg R_00B524_SPI_SHADER_PGM_HI_LS (S_00B524_MEM_BASE (address32_hi I ≫ 8))) ++
  when (gfx_ge I GFX7 && gfx_upto I GFX8)
    (set_reg R_00B51C_SPI_SHADER_PGM_RSRC3_LS
       (ac_apply_cu_en (S_00B51C_CU_EN 0xffff ||| S_00B51C_WAVE_LIMIT 0x3F) C_00B51C_CU_EN 0 I) ++
     set_reg R_00B41C_SPI_SHADER_PGM_RSRC3_HS (S_00B41C_WAVE_LIMIT 0x3F) ++
     set_reg R_00B31C_SPI_SHADER_PGM_RSRC3_ES
       (ac_apply_cu_en (S_00B31C_CU_EN 0xffff ||| S_00B31C_WAVE_LIMIT 0x3F) C_00B31C_CU_EN 0 I) ++
     set_reg R_028A44_VGT_GS_ONCHIP_CNTL
       (S_028A44_ES_VERTS_PER_SUBGRP 64 ||| S_028A44_GS_PRIMS_PER_SUBGRP 4)) ++
  when (gfx_ge I GFX8)
    (set_reg R_028B50_VGT_TESS_DISTRIBUTION (gfx6_vgt_tess_distribution I)) ++
  set_reg R_028AA0_VGT_INSTANCE_STEP_RATE_0 1 ++
  when (gfx_is I GFX9)
    (set_reg R_030920_VGT_MAX_VTX_INDX 0xffffffff ++
     set_reg R_030924_VGT_MIN_VTX_INDX 0 ++
     set_reg R_030928_VGT_INDX_OFFSET 0 ++
     set_reg R_028060_DB_DFSM_CONTROL (S_028060_PUNCHOUT_MODE V_028060_FORCE_OFF) ++
     set_reg R_00B41C_SPI_SHADER_PGM_RSRC3_HS
       (ac_apply_cu_en (S_00B41C_CU_EN 0xffff ||| S_00B41C_WAVE_LIMIT 0x3F) C_00B41C_CU_EN 0 I) ++
     set_reg R_028C48_PA_SC_BINNER_CNTL_1
       (S_028C48_MAX_ALLOC_COUNT (pbb_max_alloc_count I - 1) |||
        S_028C48_MAX_PRIM_PER_BATCH 1023) ++
     set_reg R_028AAC_VGT_ESGS_RING_ITEMSIZE 1 ++
     set_reg R_030968_VGT_INSTANCE_BASE_ID 0)).

(** ** The graphics preamble of GFX10-11 *)

(** The cache policies the function chooses first. *)
Record cache_policies : Type := mk_policies {
  color_write_policy : Z; color_read_policy : Z;
  dcc_write_policy : Z; dcc_read_policy : Z;
  zs_write_policy : Z; zs_read_policy : Z;
  htile_write_policy : Z; htile_read_policy : Z
}.

Definition gfx10_cache_policies (I : gpu_info) (st : ac_preamble_state) : cache_policies :=
  let cache_no_alloc :=
    if gfx_ge I GFX11 then V_02807C_CACHE_NOA_GFX11 else V_02807C_CACHE_NOA_GFX10 in
  let '(cw, cr, dw, dr) :=
    if cache_cb_gl2 st then
      (V_028410_CACHE_LRU_WR, V_028410_CACHE_LRU_RD, V_02807C_CACHE_LRU_WR, V_02807C_CACHE_LRU_RD)
    else if max_render_backends I <=? 4 then
      (V_028410_CACHE_STREAM, cache_no_alloc, V_02807C_CACHE_LRU_WR, V_02807C_CACHE_LRU_RD)
    else
      (V_028410_CACHE_STREAM, cache_no_alloc, V_02807C_CACHE_STREAM, cache_no_alloc) in
  let '(zw, zr, hw, hr) :=
    if cache_db_gl2 st then
      (V_028410_CACHE_LRU_WR, V_028410_CACHE_LRU_RD, V_028410_CACHE_LRU_WR, V_028410_CACHE_LRU_RD)
    else
      (V_02807C_CACHE_STREAM, cache_no_alloc, V_02807C_CACHE_STREAM, cache_no_alloc) in
  mk_policies cw cr dw dr zw zr hw hr.

Definition gfx10_db_rmi_val (p : cache_policies) : Z :=
  S_02807C_Z_WR_POLICY (zs_write_policy p) |||
  S_02807C_S_WR_POLICY (zs_write_policy p) |||
  S_02807C_HTILE_WR_POLICY (htile_write_policy p) |||
  S_02807C_ZPCPSD_WR_POLICY V_02807C_CACHE_STREAM |||
  S_02807C_Z_RD_POLICY (zs_read_policy p) |||
  S_02807C_S_RD_POLICY (zs_read_policy p) |||
  S_02807C_HTILE_RD_POLICY (htile_read_policy p).

Definition gfx10_cb_rmi_val (I : gpu_info) (p : cache_policies) : Z :=
  (if gfx_ge I GFX11 then
     S_028410_COLOR_WR_POLICY_GFX11 (color_write_policy p) |||
     S_028410_COLOR_RD_POLICY (color_read_policy p) |||
     S_028410_DCC_WR_POLICY_GFX11 (dcc_write_policy p) |||
     S_028410_DCC_RD_POLICY (dcc_read_policy p)
   else
     S_028410_COLOR_WR_POLICY_GFX10 (color_write_policy p) |||
     S_028410_COLOR_RD_POLICY (color_read_policy p)) |||
  S_028410_FMASK_WR_POLICY (color_write_policy p) |||
  S_028410_FMASK_RD_POLICY (color_read_policy p) |||
  S_028410_CMASK_WR_POLICY (dcc_write_policy p) |||
  S_028410_CMASK_RD_POLICY (dcc_read_policy p) |||
  S_028410_DCC_WR_POLICY_GFX10 (dcc_write_policy p) |||
  S_028410_DCC_RD_POLICY (dcc_read_policy p).

(** The shader registers. *)
Definition gfx10_sh_preamble (I : gpu_info) : list pm4_op :=
  let cu_mask_ps := if gfx_ge I GFX10_3 then ac_gfx103_get_cu_mask_ps I else 0xffffffff in
  set_reg R_00B01C_SPI_SHADER_PGM_RSRC3_PS
    (ac_apply_cu_en (S_00B01C_CU_EN cu_mask_ps ||| S_00B01C_WAVE_LIMIT_GFX7 0x3F |||
                     S_00B01C_LDS_GROUP_SIZE_GFX11 (Z.b2z (gfx_ge I GFX11)))
       C_00B01C_CU_EN 0 I) ++
  set_reg R_00B0C0_SPI_SHADER_REQ_CTRL_PS
    (S_00B0C0_SOFT_GROUPING_EN 1 ||| S_00B0C0_NUMBER_OF_REQUESTS_PER_CU (4 - 1)) ++
  set_reg R_00B0C8_SPI_SHADER_USER_ACCUM_PS_0 0 ++
  set_reg R_00B0CC_SPI_SHADER_USER_ACCUM_PS_1 0 ++
  set_reg R_00B0D0_SPI_SHADER_USER_ACCUM_PS_2 0 ++
  set_reg R_00B0D4_SPI_SHADER_USER_ACCUM_PS_3 0 ++
  when (gfx_lt I GFX11)
    (set_reg R_00B104_SPI_SHADER_PGM_RSRC4_VS
       (ac_apply_cu_en (S_00B104_CU_EN 0xffff) C_00B104_CU_EN 16 I) ++
     set_reg R_00B1C0_SPI_SHADER_REQ_CTRL_VS 0 ++
     set_reg R_00B1C8_SPI_SHADER_USER_ACCUM_VS_0 0 ++
     set_reg R_00B1CC_SPI_SHADER_USER_ACCUM_VS_1 0 ++
     set_reg R_00B1D0_SPI_SHADER_USER_ACCUM_VS_2 0 ++
     set_reg R_00B1D4_SPI_SHADER_USER_ACCUM_VS_3 0 ++
     set_reg R_00B004_SPI_SHADER_PGM_RSRC4_PS
       (ac_apply_cu_en (S_00B004_CU_EN (cu_mask_ps ≫ 16)) C_00B004_CU_EN 16 I) ++
     set_reg R_00B404_SPI_SHADER_PGM_RSRC4_HS
       (ac_apply_cu_en (S_00B404_CU_EN 0xffff) C_00B404_CU_EN 16 I)) ++
  set_reg R_00B2C8_SPI_SHADER_USER_ACCUM_ESGS_0 0 ++
  set_reg R_00B2CC_SPI_SHADER_USER_ACCUM_ESGS_1 0 ++
  set_reg R_00B2D0_SPI_SHADER_USER_ACCUM_ESGS_2 0 ++
  set_reg R_00B2D4_SPI_SHADER_USER_ACCUM_ESGS_3 0 ++
  set_reg R_00B324_SPI_SHADER_PGM_HI_ES (S_00B324_MEM_BASE (address32_hi I ≫ 8)) ++
  set_reg R_00B41C_SPI_SHADER_PGM_RSRC3_HS
    (ac_apply_cu_en (S_00B41C_CU_EN 0xffff ||| S_00B41C_WAVE_LIMIT 0x3F) C_00B41C_CU_EN 0 I) ++
  set_reg R_00B4C8_SPI_SHADER_USER_ACCUM_LSHS_0 0 ++
  set_reg R_00B4CC_SPI_SHADER_USER_ACCUM_LSHS_1 0 ++
  set_reg R_00B4D0_SPI_SHADER_USER_ACCUM_LSHS_2 0 ++
  set_reg R_00B4D4_SPI_SHADER_USER_ACCUM_LSHS_3 0 ++
  set_reg R_00B524_SPI_SHADER_PGM_HI_LS (S_00B524_MEM_BASE (address32_hi I ≫ 8)).

(** The context registers; [t] is the state of the TITAN map. *)
Definition gfx10_ctx_preamble (t : titan) (I : gpu_info) (st : ac_preamble_state) : list pm4_op :=
  let p := gfx10_cache_policies I st in
  when (gfx_ge I GFX11)
    (set_reg R_028030_PA_SC_SCREEN_SCISSOR_TL 0 ++
     set_reg R_028240_PA_SC_GENERIC_SCISSOR_TL (S_028240_WINDOW_OFFSET_DISABLE 1) ++
     set_reg R_028244_PA_SC_GENERIC_SCISSOR_BR (S_028244_BR_X 16384 ||| S_028244_BR_Y 16384) ++
     set_reg R_02835C_PA_SC_TILE_STEERING_OVERRIDE (pa_sc_tile_steering_override I) ++
     set_reg R_0283E4_PA_SC_VRS_RATE_CACHE_CNTL 0 ++
     set_reg R_028428_CB_COVERAGE_OUT_CONTROL 0 ++
     set_reg R_0286DC_SPI_BARYC_SSAA_CNTL 0 ++
     set_reg R_0287D4_PA_CL_POINT_X_RAD 0 ++
     set_reg R_0287D8_PA_CL_POINT_Y_RAD 0 ++
     set_reg R_0287DC_PA_CL_POINT_SIZE 0 ++
     set_reg R_0287E0_PA_CL_POINT_CULL_RAD 0 ++
     set_reg R_028820_PA_CL_NANINF_CNTL 0 ++
     set_reg R_028824_PA_SU_LINE_STIPPLE_CNTL 0 ++
     set_reg R_02883C_PA_SU_OVER_RASTERIZATION_CNTL 0 ++
     set_reg R_028840_PA_STEREO_CNTL 0 ++
     set_reg R_028A50_VGT_ENHANCE 0 ++
     set_reg R_028A8C_VGT_PRIMITIVEID_RESET 0 ++
     set_reg R_028AB4_VGT_REUSE_OFF 0 ++
     set_reg R_028C40_PA_SC_SHADER_CONTROL 0) ++
  when (gfx_lt I GFX11 && negb (ac_titan_db_active t))
    (set_reg R_028038_DB_DFSM_CONTROL (S_028038_PUNCHOUT_MODE V_028038_FORCE_OFF)) ++
  set_reg R_02807C_DB_RMI_L2_CACHE_CONTROL (gfx10_db_rmi_val p) ++
  set_reg R_028080_TA_BC_BASE_ADDR (border_color_va st ≫ 8) ++
  set_reg R_028084_TA_BC_BASE_ADDR_HI (S_028084_ADDRESS (border_color_va st ≫ 40)) ++
  set_reg R_028410_CB_RMI_GL2_CACHE_CONTROL (gfx10_cb_rmi_val I p) ++
  when (gfx_ge I GFX10_3) (set_reg R_028750_SX_PS_DOWNCONVERT_CONTROL 0xff) ++
  set_reg R_028830_PA_SU_SMALL_PRIM_FILTER_CNTL (S_028830_SMALL_PRIM_FILTER_ENABLE 1) ++
  set_reg R_028A18_VGT_HOS_MAX_TESS_LEVEL (fui 64) ++
  when (gfx_ge I GFX11) (set_reg R_028A1C_VGT_HOS_MIN_TESS_LEVEL (fui 0)) ++
  set_reg R_028AAC_VGT_ESGS_RING_ITEMSIZE 1 ++
  set_reg R_028B50_VGT_TESS_DISTRIBUTION
    (if gfx_ge I GFX11 then
       S_028B50_ACCUM_ISOLINE 128 ||| S_028B50_ACCUM_TRI 128 ||| S_028B50_ACCUM_QUAD 128 |||
       S_028B50_DONUT_SPLIT_GFX9 24 ||| S_028B50_TRAP_SPLIT 6
     else
       S_028B50_ACCUM_ISOLINE 12 ||| S_028B50_ACCUM_TRI 30 ||| S_028B50_ACCUM_QUAD 24 |||
       S_028B50_DONUT_SPLIT_GFX9 24 ||| S_028B50_TRAP_SPLIT 6) ++
  set_reg R_028C48_PA_SC_BINNER_CNTL_1
    (S_028C48_MAX_ALLOC_COUNT (pbb_max_alloc_count I - Z.b2z (gfx_lt I GFX11)) |||
     S_028C48_MAX_PRIM_PER_BATCH 1023) ++
  when (gfx_ge I GFX11)
    (set_reg R_028C54_PA_SC_BINNER_CNTL_2 (S_028C54_ENABLE_PING_PONG_BIN_ORDER 0)) ++
  set_reg R_028C50_PA_SC_NGG_MODE_CNTL
    (S_028C50_MAX_DEALLOCS_IN_WAVE (if gfx_ge I GFX11 then 16 else 512)) ++
  when (gfx_lt I GFX11) (set_reg R_028C58_VGT_VERTEX_REUSE_BLOCK_CNTL 14).

(** [EVENT_WRITE] that enables the occlusion counters of the render backends. *)
Definition EVENT_TYPE : Z -> Z := S_461_EVENT_TYPE.
Definition EVENT_INDEX : Z -> Z := S_461_EVENT_INDEX.
Definition PIXEL_PIPE_STATE_CNTL_COUNTER_ID (x : Z) : Z := x ≪ 3.
Definition PIXEL_PIPE_STATE_CNTL_STRIDE (x : Z) : Z := x ≪ 9.
Definition PIXEL_PIPE_STATE_CNTL_INSTANCE_EN_LO (x : Z) : Z := u64 (x ≪ 11).
Definition PIXEL_PIPE_STATE_CNTL_INSTANCE_EN_HI (x : Z) : Z := x ≫ 21.

Definition pixel_pipe_stat_control (I : gpu_info) : list pm4_op :=
  let rb_mask := BITFIELD64_MASK (max_render_backends I) in
  [CmdAdds
     [PKT3 PKT3_EVENT_WRITE 2 0;
      EVENT_TYPE V_028A90_PIXEL_PIPE_STAT_CONTROL ||| EVENT_INDEX 1;
      PIXEL_PIPE_STATE_CNTL_COUNTER_ID 0 ||| PIXEL_PIPE_STATE_CNTL_STRIDE 2 |||
        PIXEL_PIPE_STATE_CNTL_INSTANCE_EN_LO rb_mask;
      PIXEL_PIPE_STATE_CNTL_INSTANCE_EN_HI rb_mask]].

Definition gfx10_init_graphics_preamble_state (t : titan) (I : gpu_info) (st : ac_preamble_state)
  : list pm4_op :=
  gfx10_sh_preamble I ++
  gfx10_ctx_preamble t I st ++
  set_reg R_030924_GE_MIN_VTX_INDX 0 ++
  set_reg R_030928_GE_INDX_OFFSET 0 ++
  when (gfx_ge I GFX11)
    (set_reg R_03092C_GE_MULTI_PRIM_IB_RESET_EN (S_03092C_DISABLE_FOR_AUTO_INDEX 1)) ++
  set_reg R_030964_GE_MAX_VTX_INDX 0xffffffff ++
  set_reg R_030968_VGT_INSTANCE_BASE_ID 0 ++
  set_reg R_03097C_GE_STEREO_CNTL 0 ++
  set_reg R_030988_GE_USER_VGPR_EN 0 ++
  set_reg R_030A00_PA_SU_LINE_STIPPLE_VALUE 0 ++
  set_reg R_030A04_PA_SC_LINE_STIPPLE_STATE 0 ++
  when (gfx_ge I GFX11 || gfx11_shader_core I) (pixel_pipe_stat_control I).

(** ** The graphics preamble of GFX12 *)

(** [enum gfx12_load_temporal_hint], [gfx12_store_temporal_hint] and
    [gfx12_speculative_data_read]. *)
Definition gfx12_load_regular_temporal : Z := 0.
Definition gfx12_load_near_non_temporal_far_regular_temporal : Z := 4.
Definition gfx12_store_regular_temporal : Z := 0.
Definition gfx12_store_near_non_temporal_far_regular_temporal : Z := 4.
Definition gfx12_spec_read_force_on : Z := 1.

(** The shader registers. *)
Definition gfx12_sh_preamble (t : titan) (I : gpu_info) : list pm4_op :=
  set_reg R_00B018_SPI_SHADER_PGM_RSRC3_PS
    (ac_apply_cu_en (S_00B018_CU_EN 0xffff) C_00B018_CU_EN 0 I) ++
  set_reg R_00B0C0_SPI_SHADER_REQ_CTRL_PS
    (S_00B0C0_SOFT_GROUPING_EN 1 ||| S_00B0C0_NUMBER_OF_REQUESTS_PER_CU (4 - 1)) ++
  set_reg R_00B0C8_SPI_SHADER_USER_ACCUM_PS_0 0 ++
  set_reg R_00B0CC_SPI_SHADER_USER_ACCUM_PS_1 0 ++
  set_reg R_00B0D0_SPI_SHADER_USER_ACCUM_PS_2 0 ++
  set_reg R_00B0D4_SPI_SHADER_USER_ACCUM_PS_3 0 ++
  set_reg R_00B218_SPI_SHADER_PGM_HI_ES (S_00B324_MEM_BASE (address32_hi I ≫ 8)) ++
  set_reg R_00B21C_SPI_SHADER_PGM_RSRC3_GS
    (if 7 <=? regmap_level t then S_00B324_MEM_BASE (address32_hi I ≫ 8)
     else if ac_titan_sh_suppressed t R_00B21C_SPI_SHADER_PGM_RSRC3_GS then 0
     else ac_apply_cu_en 0xfffffdfd 0 0 I) ++
  set_reg R_00B2C8_SPI_SHADER_USER_ACCUM_ESGS_0 0 ++
  set_reg R_00B2CC_SPI_SHADER_USER_ACCUM_ESGS_1 0 ++
  set_reg R_00B2D0_SPI_SHADER_USER_ACCUM_ESGS_2 0 ++
  set_reg R_00B2D4_SPI_SHADER_USER_ACCUM_ESGS_3 0 ++
  set_reg R_00B418_SPI_SHADER_PGM_HI_LS (S_00B524_MEM_BASE (address32_hi I ≫ 8)) ++
  set_reg R_00B41C_SPI_SHADER_PGM_RSRC3_HS (ac_apply_cu_en 0xffffffff 0 0 I) ++
  set_reg R_00B4C8_SPI_SHADER_USER_ACCUM_LSHS_0 0 ++
  set_reg R_00B4CC_SPI_SHADER_USER_ACCUM_LSHS_1 0 ++
  set_reg R_00B4D0_SPI_SHADER_USER_ACCUM_LSHS_2 0 ++
  set_reg R_00B4D4_SPI_SHADER_USER_ACCUM_LSHS_3 0 ++
  set_reg R_00B024_SPI_SHADER_PGM_HI_PS (S_00B024_MEM_BASE (address32_hi I ≫ 8)).

(** The context registers; the first three lines are the choice of cache policies. *)
Definition gfx12_ctx_preamble (I : gpu_info) (st : ac_preamble_state) : list pm4_op :=
  let '(color_write, color_read, color_write_hint, color_read_hint) :=
    if cache_cb_gl2 st then
      (V_028410_CACHE_LRU_WR, V_028410_CACHE_LRU_RD, gfx12_store_regular_temporal,
       gfx12_load_regular_temporal)
    else
      (V_028410_CACHE_STREAM, V_02807C_CACHE_NOA_GFX11,
       gfx12_store_near_non_temporal_far_regular_temporal,
       gfx12_load_near_non_temporal_far_regular_temporal) in
  let '(zs_write_hint, zs_read_hint) :=
    if cache_db_gl2 st then (gfx12_store_regular_temporal, gfx12_load_regular_temporal)
    else (gfx12_store_near_non_temporal_far_regular_temporal,
          gfx12_load_near_non_temporal_far_regular_temporal) in
  set_reg R_028040_DB_GL1_INTERFACE_CONTROL 0 ++
  set_reg R_028048_DB_MEM_TEMPORAL
    (S_028048_Z_TEMPORAL_READ zs_read_hint ||| S_028048_Z_TEMPORAL_WRITE zs_write_hint |||
     S_028048_STENCIL_TEMPORAL_READ zs_read_hint |||
     S_028048_STENCIL_TEMPORAL_WRITE zs_write_hint |||
     S_028048_OCCLUSION_TEMPORAL_WRITE gfx12_store_regular_temporal) ++
  set_reg R_028064_DB_VIEWPORT_CONTROL 0 ++
  set_reg R_028068_DB_SPI_VRS_CENTER_LOCATION 0 ++
  set_reg R_028080_TA_BC_BASE_ADDR (border_color_va st ≫ 8) ++
  set_reg R_028084_TA_BC_BASE_ADDR_HI (S_028084_ADDRESS (border_color_va st ≫ 40)) ++
  set_reg R_02808C_DB_STENCIL_OPVAL (S_02808C_OPVAL 1 ||| S_02808C_OPVAL_BF 1) ++
  set_reg R_0280F8_SC_MEM_TEMPORAL
    (S_0280F8_VRS_TEMPORAL_READ gfx12_load_regular_temporal |||
     S_0280F8_VRS_TEMPORAL_WRITE gfx12_store_regular_temporal |||
     S_0280F8_HIZ_TEMPORAL_READ gfx12_load_regular_temporal |||
     S_0280F8_HIZ_TEMPORAL_WRITE gfx12_store_regular_temporal |||
     S_0280F8_HIS_TEMPORAL_READ gfx12_load_regular_temporal |||
     S_0280F8_HIS_TEMPORAL_WRITE gfx12_store_regular_temporal) ++
  set_reg R_0280FC_SC_MEM_SPEC_READ
    (S_0280FC_VRS_SPECULATIVE_READ gfx12_spec_read_force_on |||
     S_0280FC_HIZ_SPECULATIVE_READ gfx12_spec_read_force_on |||
     S_0280FC_HIS_SPECULATIVE_READ gfx12_spec_read_force_on) ++
  set_reg R_028180_PA_SC_SCREEN_SCISSOR_TL 0 ++
  set_reg R_028184_PA_SC_SCREEN_SCISSOR_BR (S_028184_BR_X 65535 ||| S_028184_BR_Y 65535) ++
  set_reg R_028204_PA_SC_WINDOW_SCISSOR_TL 0 ++
  set_reg R_028240_PA_SC_GENERIC_SCISSOR_TL 0 ++
  set_reg R_028244_PA_SC_GENERIC_SCISSOR_BR (S_028244_BR_X 65535 ||| S_028244_BR_Y 65535) ++
  set_reg R_028358_PA_SC_SCREEN_EXTENT_CONTROL 0 ++
  set_reg R_02835C_PA_SC_TILE_STEERING_OVERRIDE (pa_sc_tile_steering_override I) ++
  set_reg R_0283E0_PA_SC_VRS_INFO 0 ++
  set_reg R_028410_CB_RMI_GL2_CACHE_CONTROL
    (S_028410_COLOR_WR_POLICY_GFX11 color_write ||| S_028410_COLOR_RD_POLICY color_read) ++
  set_reg R_0286E4_SPI_BARYC_SSAA_CNTL (S_0286E4_COVERED_CENTROID_IS_CENTER 1) ++
  set_reg R_028750_SX_PS_DOWNCONVERT_CONTROL 0xff ++
  set_reg R_0287D4_PA_CL_POINT_X_RAD 0 ++
  set_reg R_0287D8_PA_CL_POINT_Y_RAD 0 ++
  set_reg R_0287DC_PA_CL_POINT_SIZE 0 ++
  set_reg R_0287E0_PA_CL_POINT_CULL_RAD 0 ++
  set_reg R_028820_PA_CL_NANINF_CNTL 0 ++
  set_reg R_028824_PA_SU_LINE_STIPPLE_CNTL 0 ++
  set_reg R_028828_PA_SU_LINE_STIPPLE_SCALE 0 ++
  set_reg R_028830_PA_SU_SMALL_PRIM_FILTER_CNTL
    (S_028830_SMALL_PRIM_FILTER_ENABLE 1 ||| S_028830_SC_1XMSAA_COMPATIBLE_DISABLE 1) ++
  set_reg R_02883C_PA_SU_OVER_RASTERIZATION_CNTL 0 ++
  set_reg R_028840_PA_STEREO_CNTL (S_028840_STEREO_MODE 1) ++
  set_reg R_028A18_VGT_HOS_MAX_TESS_LEVEL (fui 64) ++
  set_reg R_028A1C_VGT_HOS_MIN_TESS_LEVEL (fui 0) ++
  set_reg R_028A50_GE_SE_ENHANCE 0 ++
  set_reg R_028A70_GE_IA_ENHANCE 0 ++
  set_reg R_028A80_GE_WD_ENHANCE 0 ++
  set_reg R_028A9C_VGT_REUSE_OFF 0 ++
  set_reg R_028AA0_VGT_DRAW_PAYLOAD_CNTL 0 ++
  set_reg R_028ABC_DB_HTILE_SURFACE 0 ++
  set_reg R_028B50_VGT_TESS_DISTRIBUTION
    (S_028B50_ACCUM_ISOLINE 128 ||| S_028B50_ACCUM_TRI 128 ||| S_028B50_ACCUM_QUAD 128 |||
     S_028B50_DONUT_SPLIT_GFX9 24 ||| S_028B50_TRAP_SPLIT 6) ++
  set_reg R_028B98_PA_SC_HIS_INFO (S_028B98_SURFACE_ENABLE 0) ++
  set_reg R_028BC0_PA_SC_HISZ_RENDER_OVERRIDE 0 ++
  set_reg R_028C40_PA_SC_BINNER_OUTPUT_TIMEOUT_COUNTER 0x800 ++
  set_reg R_028C48_PA_SC_BINNER_CNTL_1
    (S_028C48_MAX_ALLOC_COUNT 254 ||| S_028C48_MAX_PRIM_PER_BATCH 511) ++
  set_reg R_028C4C_PA_SC_BINNER_CNTL_2 (S_028C4C_ENABLE_PING_PONG_BIN_ORDER 1) ++
  set_reg R_028C50_PA_SC_NGG_MODE_CNTL (S_028C50_MAX_DEALLOCS_IN_WAVE 64) ++
  set_reg R_028C58_PA_SC_SHADER_CONTROL (S_028C58_REALIGN_DQUADS_AFTER_N_WAVES 1) ++
  for_ 0 8 (fun i => set_reg (R_028F00_CB_MEM0_INFO + i * 4)
                       (S_028F00_TEMPORAL_READ color_read_hint |||
                        S_028F00_TEMPORAL_WRITE color_write_hint)).

(** The uconfig registers and the event. *)
Definition gfx12_uconfig_preamble (I : gpu_info) : list pm4_op :=
  set_reg R_030924_GE_MIN_VTX_INDX 0 ++
  set_reg R_030928_GE_INDX_OFFSET 0 ++
  set_reg R_03092C_GE_MULTI_PRIM_IB_RESET_EN (S_03092C_DISABLE_FOR_AUTO_INDEX 1) ++
  set_reg R_030950_GE_GS_THROTTLE
    (S_030950_T0 0x1 ||| S_030950_T1 0x4 ||| S_030950_T2 0x3 ||| S_030950_STALL_CYCLES 0x40 |||
     S_030950_FACTOR1 0x2 ||| S_030950_FACTOR2 0x3 ||| S_030950_ENABLE_THROTTLE 0 |||
     S_030950_NUM_INIT_GRPS 0xff) ++
  set_reg R_030964_GE_MAX_VTX_INDX 0xffffffff ++
  set_reg R_030968_VGT_INSTANCE_BASE_ID 0 ++
  set_reg R_03097C_GE_STEREO_CNTL 0 ++
  set_reg R_030980_GE_USER_VGPR_EN 0 ++
  set_reg R_0309B4_VGT_PRIMITIVEID_RESET 0 ++
  set_reg R_03098C_GE_VRS_RATE 0 ++
  set_reg R_030A00_PA_SU_LINE_STIPPLE_VALUE 0 ++
  set_reg R_030A04_PA_SC_LINE_STIPPLE_STATE 0 ++
  set_reg R_02882C_PA_SU_PRIM_FILTER_CNTL 0 ++
  set_reg R_031128_SPI_GRP_LAUNCH_GUARANTEE_ENABLE
    (S_031128_ENABLE 1 ||| S_031128_GS_ASSIST_EN 1 ||| S_031128_MRT_ASSIST_EN 1 |||
     S_031128_GFX_NUM_LOCK_WGP 2 ||| S_031128_CS_NUM_LOCK_WGP 2 ||| S_031128_LOCK_PERIOD 1 |||
     S_031128_LOCK_MAINT_COUNT 1) ++
  set_reg R_03112C_SPI_GRP_LAUNCH_GUARANTEE_CTRL
    (S_03112C_NUM_MRT_THRESHOLD 3 ||| S_03112C_GFX_PENDING_THRESHOLD 4 |||
     S_03112C_PRIORITY_LOST_THRESHOLD 4 ||| S_03112C_ALLOC_SUCCESS_THRESHOLD 4 |||
     S_03112C_CS_WAVE_THRESHOLD_HIGH 8) ++
  pixel_pipe_stat_control I.

Definition gfx12_init_graphics_preamble_state (t : titan) (I : gpu_info) (st : ac_preamble_state)
  : list pm4_op :=
  gfx12_sh_preamble t I ++ gfx12_ctx_preamble I st ++ gfx12_uconfig_preamble I.

Definition ac_init_graphics_preamble_state (t : titan) (I : gpu_info) (st : ac_preamble_state)
  : res (list pm4_op) :=
  if gfx_ge I GFX12 then Ok (gfx12_init_graphics_preamble_state t I st)
  else if gfx_ge I GFX10 then Ok (gfx10_init_graphics_preamble_state t I st)
  else gfx6_init_graphics_preamble_state I st.
