(* ===== verification/SiPreamble.v ===== *)
(** The command-buffer preamble of radeonsi ([si_state.c]): the PM4 state that
    [si_init_gfx_preamble_state] builds once per context and every command buffer begins with.
    On the Xclipse 530 (TITAN) [CLEAR_STATE] is not used, and the context registers are
    programmed from the captured table [ac_xclipse_ctx_init] instead. *)

From stdpp Require Import strings.
From S2P Require Import Prelude.
From S2P Require Import CLib.
From S2P Require Import TitanRegMap.
From S2P Require Import Packets.
From S2P Require Import Pm4.
From S2P Require Import RegFields.
From S2P Require Import Preamble.

#[local] Open Scope creg_scope.

(** ** The table of [ac_xclipse_ctxinit.h] *)

Definition ctx_init_1 : list (Z * Z) := [
  (0x028000, 0); (0x028004, 0); (0x028008, 0); (0x02800C, 0); (0x028010, 0); (0x028014, 0);
  (0x028018, 0); (0x02801C, 0); (0x028020, 0); (0x028024, 0); (0x028028, 0); (0x02802C, 0);
  (0x028030, 0); (0x028034, 0x40004000); (0x02803C, 0); (0x028040, 0); (0x028044, 0);
  (0x028048, 0); (0x02804C, 0); (0x028050, 0); (0x028054, 0); (0x028058, 0); (0x02805C, 0);
  (0x028060, 0); (0x028064, 0); (0x028068, 0); (0x02806C, 0); (0x028070, 0); (0x028074, 0);
  (0x028078, 0); (0x028088, 0); (0x02808C, 0); (0x0281E8, 0); (0x0281EC, 0); (0x0281F0, 0);
  (0x0281F4, 0); (0x0281F8, 0); (0x0281FC, 0); (0x028200, 0); (0x028204, 0x80000000);
  (0x028208, 0x40004000); (0x02820C, 0x0000ffff); (0x028210, 0); (0x028214, 0x40004000);
  (0x028218, 0); (0x02821C, 0x40004000); (0x028220, 0); (0x028224, 0x40004000); (0x028228, 0);
  (0x02822C, 0x40004000); (0x028234, 0); (0x028238, 0); (0x02823C, 0); (0x028240, 0x80000000);
  (0x028244, 0x40004000); (0x028248, 0); (0x02824C, 0); (0x028250, 0x80000000);
  (0x028254, 0x40004000); (0x028258, 0x80000000); (0x02825C, 0x40004000); (0x028260, 0x80000000);
  (0x028264, 0x40004000); (0x028268, 0x80000000); (0x02826C, 0x40004000); (0x028270, 0x80000000);
  (0x028274, 0x40004000); (0x028278, 0x80000000); (0x02827C, 0x40004000); (0x028280, 0x80000000);
  (0x028284, 0x40004000); (0x028288, 0x80000000); (0x02828C, 0x40004000); (0x028290, 0x80000000);
  (0x028294, 0x40004000); (0x028298, 0x80000000); (0x02829C, 0x40004000); (0x0282A0, 0x80000000);
  (0x0282A4, 0x40004000); (0x0282A8, 0x80000000); (0x0282AC, 0x40004000); (0x0282B0, 0x80000000);
  (0x0282B4, 0x40004000); (0x0282B8, 0x80000000); (0x0282BC, 0x40004000); (0x0282C0, 0x80000000);
  (0x0282C4, 0x40004000); (0x0282C8, 0x80000000); (0x0282CC, 0x40004000); (0x028350, 0);
  (0x028354, 0); (0x028358, 0); (0x02835C, 0); (0x028374, 0); (0x028378, 0); (0x02837C, 0);
  (0x028380, 0); (0x02840C, 0); (0x028414, 0); (0x028418, 0); (0x02841C, 0); (0x028420, 0);
  (0x028424, 0); (0x028428, 0); (0x02842C, 0); (0x028430, 0); (0x028434, 0); (0x028438, 0);
  (0x02843C, 0); (0x028440, 0); (0x028444, 0); (0x028448, 0); (0x02844C, 0); (0x028450, 0);
  (0x028454, 0); (0x028458, 0); (0x02845C, 0); (0x028460, 0); (0x028464, 0); (0x028468, 0);
  (0x02846C, 0); (0x028470, 0); (0x028474, 0); (0x028478, 0); (0x02847C, 0); (0x028480, 0);
  (0x028484, 0); (0x028488, 0); (0x02848C, 0); (0x028490, 0); (0x028494, 0); (0x028498, 0);
  (0x02849C, 0); (0x0284A0, 0); (0x0284A4, 0); (0x0284A8, 0); (0x0284AC, 0); (0x0284B0, 0);
  (0x0284B4, 0); (0x0284B8, 0)].

Definition ctx_init_2 : list (Z * Z) := [
  (0x0284BC, 0); (0x0284C0, 0); (0x0284C4, 0); (0x0284C8, 0); (0x0284CC, 0); (0x0284D0, 0);
  (0x0284D4, 0); (0x0284D8, 0); (0x0284DC, 0); (0x0284E0, 0); (0x0284E4, 0); (0x0284E8, 0);
  (0x0284EC, 0); (0x0284F0, 0); (0x0284F4, 0); (0x0284F8, 0); (0x0284FC, 0); (0x028500, 0);
  (0x028504, 0); (0x028508, 0); (0x02850C, 0); (0x028510, 0); (0x028514, 0); (0x028518, 0);
  (0x02851C, 0); (0x028520, 0); (0x028524, 0); (0x028528, 0); (0x02852C, 0); (0x028530, 0);
  (0x028534, 0); (0x028538, 0); (0x02853C, 0); (0x028540, 0); (0x028544, 0); (0x028548, 0);
  (0x02854C, 0); (0x028550, 0); (0x028554, 0); (0x028558, 0); (0x02855C, 0); (0x028560, 0);
  (0x028564, 0); (0x028568, 0); (0x02856C, 0); (0x028570, 0); (0x028574, 0); (0x028578, 0);
  (0x02857C, 0); (0x028580, 0); (0x028584, 0); (0x028588, 0); (0x02858C, 0); (0x028590, 0);
  (0x028594, 0); (0x028598, 0); (0x02859C, 0); (0x0285A0, 0); (0x0285A4, 0); (0x0285A8, 0);
  (0x0285AC, 0); (0x0285B0, 0); (0x0285B4, 0); (0x0285B8, 0); (0x0285BC, 0); (0x0285C0, 0);
  (0x0285C4, 0); (0x0285C8, 0); (0x0285CC, 0); (0x0285D0, 0); (0x0285D4, 0); (0x0285D8, 0);
  (0x0285DC, 0); (0x0285E0, 0); (0x0285E4, 0); (0x0285E8, 0); (0x0285EC, 0); (0x0285F0, 0);
  (0x0285F4, 0); (0x0285F8, 0); (0x0285FC, 0); (0x028600, 0); (0x028604, 0); (0x028608, 0);
  (0x02860C, 0); (0x028610, 0); (0x028614, 0); (0x028618, 0); (0x02861C, 0); (0x028620, 0);
  (0x028624, 0); (0x028628, 0); (0x02862C, 0); (0x028630, 0); (0x028634, 0); (0x028638, 0);
  (0x028640, 0); (0x028644, 0); (0x028648, 0); (0x02864C, 0); (0x028650, 0); (0x028654, 0);
  (0x028658, 0); (0x02865C, 0); (0x028660, 0); (0x028664, 0); (0x028668, 0); (0x02866C, 0);
  (0x028670, 0); (0x028674, 0); (0x028678, 0); (0x02867C, 0); (0x028680, 0); (0x028684, 0);
  (0x028688, 0); (0x02868C, 0); (0x028690, 0); (0x028694, 0); (0x028698, 0); (0x02869C, 0);
  (0x0286A0, 0); (0x0286A4, 0); (0x0286A8, 0); (0x0286AC, 0); (0x0286B0, 0); (0x0286B4, 0);
  (0x0286B8, 0); (0x0286BC, 0); (0x0286C0, 0); (0x0286C4, 0); (0x0286C8, 0); (0x0286CC, 0);
  (0x0286D0, 0); (0x0286D8, 0); (0x0286DC, 0); (0x0286E0, 0); (0x0286E4, 0); (0x0286E8, 0);
  (0x0286EC, 0); (0x0286F0, 0)].

Definition ctx_init_3 : list (Z * Z) := [
  (0x028708, 0); (0x02870C, 0); (0x028710, 0); (0x028754, 0); (0x028758, 0); (0x02875C, 0);
  (0x028760, 0); (0x028764, 0); (0x028768, 0); (0x02876C, 0); (0x028770, 0); (0x028774, 0);
  (0x028778, 0); (0x02877C, 0); (0x028780, 0); (0x028784, 0); (0x028788, 0); (0x02878C, 0);
  (0x028790, 0); (0x028794, 0); (0x028798, 0); (0x02879C, 0); (0x0287D4, 0); (0x0287D8, 0);
  (0x0287DC, 0); (0x0287E0, 0); (0x0287FC, 0); (0x028800, 0); (0x028804, 0); (0x028808, 0);
  (0x02880C, 0); (0x028810, 0); (0x028814, 0); (0x02881C, 0); (0x028820, 0); (0x028824, 0);
  (0x02882C, 0); (0x028834, 0); (0x02883C, 0); (0x028840, 0); (0x028844, 0); (0x028848, 0);
  (0x028A08, 0); (0x028A0C, 0); (0x028A1C, 0); (0x028A4C, 0); (0x028A50, 0); (0x028A8C, 0);
  (0x028A94, 0); (0x028A98, 0); (0x028A9C, 0); (0x028AA0, 0); (0x028AA4, 0); (0x028AA8, 0);
  (0x028AB0, 0); (0x028AB4, 0); (0x028AB8, 0); (0x028ABC, 0); (0x028AC0, 0); (0x028AC4, 0);
  (0x028AC8, 0); (0x028AD0, 0); (0x028AD4, 0); (0x028ADC, 0); (0x028AE0, 0); (0x028AE4, 0);
  (0x028AEC, 0); (0x028AF0, 0); (0x028AF4, 0); (0x028AFC, 0); (0x028B00, 0); (0x028B04, 0);
  (0x028B0C, 0); (0x028B28, 0); (0x028B2C, 0); (0x028B30, 0); (0x028B38, 0); (0x028B3C, 0);
  (0x028B4C, 0); (0x028B54, 0); (0x028B58, 0); (0x028B5C, 0); (0x028B60, 0); (0x028B64, 0);
  (0x028B68, 0); (0x028B6C, 0); (0x028B70, 0); (0x028B74, 0); (0x028B78, 0); (0x028B7C, 0);
  (0x028B80, 0); (0x028B84, 0); (0x028B88, 0); (0x028B8C, 0); (0x028BDC, 0x00001000);
  (0x028BE0, 0); (0x028BE8, 0); (0x028BEC, 0); (0x028BF0, 0); (0x028BF4, 0); (0x028BF8, 0);
  (0x028BFC, 0); (0x028C00, 0); (0x028C04, 0); (0x028C08, 0); (0x028C0C, 0); (0x028C10, 0);
  (0x028C14, 0); (0x028C18, 0); (0x028C1C, 0); (0x028C20, 0); (0x028C24, 0); (0x028C28, 0);
  (0x028C2C, 0); (0x028C30, 0); (0x028C34, 0); (0x028C38, 0xffffffff); (0x028C3C, 0xffffffff);
  (0x028C40, 0); (0x028C44, 0x00000003); (0x028C4C, 0); (0x028C54, 0); (0x028C5C, 0);
  (0x028C60, 0); (0x028C64, 0); (0x028C68, 0); (0x028C6C, 0); (0x028C70, 0); (0x028C74, 0);
  (0x028C78, 0); (0x028C7C, 0); (0x028C80, 0); (0x028C84, 0); (0x028C88, 0); (0x028C8C, 0);
  (0x028C90, 0); (0x028C94, 0); (0x028C98, 0); (0x028C9C, 0); (0x028CA0, 0)].

Definition ctx_init_4 : list (Z * Z) := [
  (0x028CA4, 0); (0x028CA8, 0); (0x028CAC, 0); (0x028CB0, 0); (0x028CB4, 0); (0x028CB8, 0);
  (0x028CBC, 0); (0x028CC0, 0); (0x028CC4, 0); (0x028CC8, 0); (0x028CCC, 0); (0x028CD0, 0);
  (0x028CD4, 0); (0x028CD8, 0); (0x028CDC, 0); (0x028CE0, 0); (0x028CE4, 0); (0x028CE8, 0);
  (0x028CEC, 0); (0x028CF0, 0); (0x028CF4, 0); (0x028CF8, 0); (0x028CFC, 0); (0x028D00, 0);
  (0x028D04, 0); (0x028D08, 0); (0x028D0C, 0); (0x028D10, 0); (0x028D14, 0); (0x028D18, 0);
  (0x028D1C, 0); (0x028D20, 0); (0x028D24, 0); (0x028D28, 0); (0x028D2C, 0); (0x028D30, 0);
  (0x028D34, 0); (0x028D38, 0); (0x028D3C, 0); (0x028D40, 0); (0x028D44, 0); (0x028D48, 0);
  (0x028D4C, 0); (0x028D50, 0); (0x028D54, 0); (0x028D58, 0); (0x028D5C, 0); (0x028D60, 0);
  (0x028D64, 0); (0x028D68, 0); (0x028D6C, 0); (0x028D70, 0); (0x028D74, 0); (0x028D78, 0);
  (0x028D7C, 0); (0x028D80, 0); (0x028D84, 0); (0x028D88, 0); (0x028D8C, 0); (0x028D90, 0);
  (0x028D94, 0); (0x028D98, 0); (0x028D9C, 0); (0x028DA0, 0); (0x028DA4, 0); (0x028DA8, 0);
  (0x028DAC, 0); (0x028DB0, 0); (0x028DB4, 0); (0x028DB8, 0); (0x028DBC, 0); (0x028DC0, 0);
  (0x028DC4, 0); (0x028DC8, 0); (0x028DCC, 0); (0x028DD0, 0); (0x028DD4, 0); (0x028DD8, 0);
  (0x028DDC, 0); (0x028DE0, 0); (0x028DE4, 0); (0x028DE8, 0); (0x028DEC, 0); (0x028E40, 0);
  (0x028E44, 0); (0x028E48, 0); (0x028E4C, 0); (0x028E50, 0); (0x028E54, 0); (0x028E58, 0);
  (0x028E5C, 0); (0x028E60, 0); (0x028E64, 0); (0x028E68, 0); (0x028E6C, 0); (0x028E70, 0);
  (0x028E74, 0); (0x028E78, 0); (0x028E7C, 0); (0x028E80, 0); (0x028E84, 0); (0x028E88, 0);
  (0x028E8C, 0); (0x028E90, 0); (0x028E94, 0); (0x028E98, 0); (0x028E9C, 0); (0x028EA0, 0);
  (0x028EA4, 0); (0x028EA8, 0); (0x028EAC, 0); (0x028EB0, 0); (0x028EB4, 0); (0x028EB8, 0);
  (0x028EBC, 0)].

Definition ac_xclipse_ctx_init : list (Z * Z) :=
  ctx_init_1 ++ ctx_init_2 ++ ctx_init_3 ++ ctx_init_4.

(** ** The context *)

(** The fields of [struct si_context] and [struct si_screen] the preamble reads;
    [is_gputest_fur] is the result of [is_process_name_param("GpuTest", "fur")]. *)
Record si_context : Type := mk_sctx {
  s_info : gpu_info;
  border_color_buffer : option Z;
  is_gfx_queue : bool;
  uses_userq_reg_shadowing : bool;
  uses_kernelq_reg_shadowing : bool;
  dpbb_allowed : bool;
  opt_cache_cb_gl2 : bool;
  opt_cache_db_gl2 : bool;
  is_gputest_fur : bool;
  dbg_sqtt : bool
}.

(** [si_pm4_create_sized]: an array of [max_dw0] dwords, [max_dw] a [uint16_t]. *)
Definition si_pm4_create_sized (c : si_context) (max_dw0 : Z) (is_compute : bool) : ac_pm4_state :=
  ac_pm4_clear_state
    (mk_pm4 (pm4_info (s_info c)) 0 0 0 0 0 false false (u16 max_dw0) false 0
       (replicate (Z.to_nat max_dw0) 0))
    (pm4_info (s_info c)) (dbg_sqtt c) is_compute.

Definition si_border_color_va (c : si_context) : Z := default 0 (border_color_buffer c).

Definition si_init_compute_preamble_state (c : si_context) : list pm4_op :=
  ac_init_compute_preamble_state (s_info c) (mk_preamble (si_border_color_va c) false false 256).

Definition si_init_graphics_preamble_state (t : titan) (c : si_context) : res (list pm4_op) :=
  let I := s_info c in
  let xclipse := gfx11_shader_core I in
  let st := mk_preamble (si_border_color_va c)
              (gfx_ge I GFX10 && opt_cache_cb_gl2 c && negb xclipse)
              (gfx_ge I GFX10 && opt_cache_db_gl2 c && negb (is_gputest_fur c) && negb xclipse) 0 in
  let* os := ac_init_graphics_preamble_state t I st in
  Ok (os ++
      when xclipse
        (set_reg R_036020_CP_PERFMON_CNTL
           (S_036020_PERFMON_STATE V_036020_CP_PERFMON_STATE_STOP_COUNTING)) ++
      when (gfx_ge I GFX7 && gfx_lt I GFX12)
        (set_reg R_02882C_PA_SU_PRIM_FILTER_CNTL
           (S_02882C_XMAX_RIGHT_EXCLUSION 1 ||| S_02882C_YMAX_BOTTOM_EXCLUSION 1))).

(** ** Control packets *)

Definition context_control : list pm4_op :=
  [CmdAdds [PKT3 PKT3_CONTEXT_CONTROL 1 0; S_281_UPDATE_LOAD_ENABLES 1;
            S_282_UPDATE_SHADOW_ENABLES 1]].

Definition context_control_shadow : list pm4_op :=
  [CmdAdds [PKT3 PKT3_CONTEXT_CONTROL 1 0;
            S_281_UPDATE_LOAD_ENABLES 1 ||| S_281_LOAD_PER_CONTEXT_STATE 1 |||
              S_281_LOAD_CS_SH_REGS 1 ||| S_281_LOAD_GFX_SH_REGS 1 ||| S_281_LOAD_GLOBAL_UCONFIG 1;
            S_282_UPDATE_SHADOW_ENABLES 1 ||| S_282_SHADOW_PER_CONTEXT_STATE 1 |||
              S_282_SHADOW_CS_SH_REGS 1 ||| S_282_SHADOW_GFX_SH_REGS 1 |||
              S_282_SHADOW_GLOBAL_UCONFIG 1 ||| S_282_SHADOW_GLOBAL_CONFIG 1]].

Definition break_batch : list pm4_op :=
  [CmdAdds [PKT3 PKT3_EVENT_WRITE 0 0; EVENT_TYPE V_028A90_BREAK_BATCH ||| EVENT_INDEX 0]].

Definition clear_state : list pm4_op := [CmdAdds [PKT3 PKT3_CLEAR_STATE 0 0; 0]].

(** ** The preambles of each generation: the size of the PM4 state and the calls on it *)

Definition gfx6_preamble_ops (t : titan) (c : si_context) : res (list pm4_op) :=
  let I := s_info c in
  let* graphics := if is_gfx_queue c then si_init_graphics_preamble_state t c else Ok [] in
  Ok (
  when (is_gfx_queue c && negb (uses_kernelq_reg_shadowing c))
    (context_control ++
     when (dpbb_allowed c) break_batch ++
     when (has_clear_state I) clear_state) ++
  si_init_compute_preamble_state c ++
  when (is_gfx_queue c)
    (graphics ++
     when (negb (has_clear_state I))
       (set_reg R_02800C_DB_RENDER_OVERRIDE 0 ++ set_reg R_0286E0_SPI_BARYC_CNTL 0) ++
     when (family_ge I CHIP_POLARIS10 && negb (has_small_prim_filter_sample_loc_bug I))
       (set_reg R_028830_PA_SU_SMALL_PRIM_FILTER_CNTL (S_028830_SMALL_PRIM_FILTER_ENABLE 1)) ++
     when (gfx_upto I GFX7 || negb (has_clear_state I))
       (set_reg R_028B28_VGT_STRMOUT_DRAW_OPAQUE_OFFSET 0 ++
        set_reg R_028034_PA_SC_SCREEN_SCISSOR_BR (S_028034_BR_X 16384 ||| S_028034_BR_Y 16384)) ++
     when (gfx_is I GFX9)
       (set_reg R_028C4C_PA_SC_CONSERVATIVE_RASTERIZATION_CNTL
          (S_028C4C_NULL_SQUAD_AA_MASK_ENABLE 1)))).

Definition gfx10_preamble_ops (t : titan) (c : si_context) : res (list pm4_op) :=
  let I := s_info c in
  let titan := regmap_active t in
  let* graphics := if is_gfx_queue c then si_init_graphics_preamble_state t c else Ok [] in
  Ok (
  (if uses_userq_reg_shadowing c then
     when (gfx_lt I GFX11_5 || negb (gfx_upto I GFX11_7)) context_control_shadow
   else
     when (is_gfx_queue c && negb (uses_kernelq_reg_shadowing c))
       (context_control ++
        when (dpbb_allowed c) break_batch ++
        when (gfx_lt I GFX11 && negb titan) clear_state)) ++
  when (titan && is_gfx_queue c)
    (concat ((fun w => set_reg w.1 w.2) <$> ac_xclipse_ctx_init)) ++
  si_init_compute_preamble_state c ++
  when (is_gfx_queue c)
    (graphics ++
     when titan
       (for_ 0 16 (fun i => set_reg (R_0282D0_PA_SC_VPORT_ZMIN_0 + i * 8) 0 ++
                            set_reg (R_0282D4_PA_SC_VPORT_ZMAX_0 + i * 8) (fui 1)) ++
        set_reg R_028230_PA_SC_EDGERULE 0xAAAAAAAA) ++
     set_reg R_028708_SPI_SHADER_IDX_FORMAT (S_028708_IDX0_EXPORT_FORMAT V_028708_SPI_SHADER_1COMP) ++
     when (gfx_ge I GFX10_3)
       (set_reg R_028848_PA_CL_VRS_CNTL
          (S_028848_VERTEX_RATE_COMBINER_MODE V_028848_SC_VRS_COMB_MODE_OVERRIDE |||
           S_028848_SAMPLE_ITER_COMBINER_MODE V_028848_SC_VRS_COMB_MODE_OVERRIDE)) ++
     when (gfx_ge I GFX11 || titan)
       (set_reg R_028034_PA_SC_SCREEN_SCISSOR_BR (S_028034_BR_X 16384 ||| S_028034_BR_Y 16384) ++
        set_reg R_028204_PA_SC_WINDOW_SCISSOR_TL (S_028204_WINDOW_OFFSET_DISABLE 1) ++
        set_reg R_0286E0_SPI_BARYC_CNTL 0 ++
        set_reg R_028828_PA_SU_LINE_STIPPLE_SCALE 0 ++
        set_reg R_028A98_VGT_DRAW_PAYLOAD_CNTL 0 ++
        set_reg R_028B28_VGT_STRMOUT_DRAW_OPAQUE_OFFSET 0 ++
        set_reg R_028C4C_PA_SC_CONSERVATIVE_RASTERIZATION_CNTL
          (S_028C4C_NULL_SQUAD_AA_MASK_ENABLE 1)))).

Definition gfx12_preamble_ops (t : titan) (c : si_context) : res (list pm4_op) :=
  let* graphics := if is_gfx_queue c then si_init_graphics_preamble_state t c else Ok [] in
  Ok (
  (if uses_userq_reg_shadowing c then context_control_shadow
   else when (is_gfx_queue c && negb (uses_kernelq_reg_shadowing c)) context_control) ++
  when (is_gfx_queue c && dpbb_allowed c && negb (uses_userq_reg_shadowing c)) break_batch ++
  si_init_compute_preamble_state c ++
  when (is_gfx_queue c)
    (graphics ++
     set_reg R_028648_SPI_SHADER_IDX_FORMAT (S_028648_IDX0_EXPORT_FORMAT V_028648_SPI_SHADER_1COMP) ++
     set_reg R_028658_SPI_BARYC_CNTL 0 ++
     set_reg R_028B28_VGT_STRMOUT_DRAW_OPAQUE_OFFSET 0 ++
     set_reg R_028848_PA_CL_VRS_CNTL
       (S_028848_VERTEX_RATE_COMBINER_MODE V_028848_SC_VRS_COMB_MODE_OVERRIDE |||
        S_028848_SAMPLE_ITER_COMBINER_MODE V_028848_SC_VRS_COMB_MODE_OVERRIDE) ++
     set_reg R_028C54_PA_SC_CONSERVATIVE_RASTERIZATION_CNTL
       (S_028C54_NULL_SQUAD_AA_MASK_ENABLE 1) ++
     set_reg R_00B2B8_SPI_SHADER_GS_MESHLET_CTRL 0)).

Section Init.
Context (is_pgm_lo : Z -> bool) (getenv : string -> option string).

Definition gfx6_init_gfx_preamble_state (t : titan) (c : si_context) : res (titan * ac_pm4_state) :=
  let* os := gfx6_preamble_ops t c in
  build is_pgm_lo getenv t (si_pm4_create_sized c 214 (is_gfx_queue c)) os true.

Definition si_cdna_init_compute_preamble_state (t : titan) (c : si_context)
  : res (titan * ac_pm4_state) :=
  build is_pgm_lo getenv t (si_pm4_create_sized c 48 true) (si_init_compute_preamble_state c) true.

Definition gfx10_init_gfx_preamble_state (t : titan) (c : si_context) : res (titan * ac_pm4_state) :=
  let* os := gfx10_preamble_ops t c in
  build is_pgm_lo getenv t (si_pm4_create_sized c (if regmap_active t then 2048 else 214) (is_gfx_queue c)) os true.

Definition gfx12_init_gfx_preamble_state (t : titan) (c : si_context) : res (titan * ac_pm4_state) :=
  let* os := gfx12_preamble_ops t c in
  build is_pgm_lo getenv t (si_pm4_create_sized c 300 (is_gfx_queue c)) os false.

Definition si_init_gfx_preamble_state (t : titan) (c : si_context) : res (titan * ac_pm4_state) :=
  let I := s_info c in
  if negb (has_graphics I) then si_cdna_init_compute_preamble_state t c
  else if gfx_ge I GFX12 then gfx12_init_gfx_preamble_state t c
  else if gfx_ge I GFX10 then gfx10_init_gfx_preamble_state t c
  else gfx6_init_gfx_preamble_state t c.
End Init.
