(* ===== verification/RasterProofs.v ===== *)
(** Shader-engine masks and CU masks: what the bit manipulation of
    [ac_get_harvested_configs] ([ac_gpu_info.c]) and [ac_apply_cu_en] ([ac_shader_util.c])
    computes. *)

From stdpp Require Import strings.
From S2P Require Import Prelude.
From S2P Require Import CLib.
From S2P Require Import TitanRegMap.
From S2P Require Import Packets.
From S2P Require Import Pm4.
From S2P Require Import RegFields.
From S2P Require Import Preamble.

(** ** Bits of machine words *)

Lemma u32_testbit x n : 0 <= n -> Z.testbit (u32 x) n = (n <? 32) && Z.testbit x n.
Proof.
  intros Hn. unfold u32. destruct (Z.ltb_spec n 32).
  - by rewrite Z.mod_pow2_bits_low.
  - by rewrite Z.mod_pow2_bits_high by lia.
Qed.

Lemma high_bits_u32 x n : in_u32 x -> 32 <= n -> Z.testbit x n = false.
Proof.
  intros Hx Hn. rewrite <- (u32_small x Hx), u32_testbit by lia.
  by rewrite (proj2 (Z.ltb_ge _ _)) by lia.
Qed.

(** ** Harvested render backends *)

Lemma forallb_seqZ_iff (f : Z -> bool) m n :
  forallb f (seqZ m n) = true <-> forall i, m <= i < m + n -> f i = true.
Proof. rewrite forallb_forall. setoid_rewrite <- list_elem_of_In. by setoid_rewrite elem_of_seqZ. Qed.

(** Render backend [n] is one of shader engine [k], and every lower engine has its own
    render backend at the same place. *)
Definition column_alive (rb_per_se rb_mask : Z) (k n : Z) : bool :=
  (k * rb_per_se <=? n) && (n <? (k + 1) * rb_per_se) &&
  forallb (fun i => Z.testbit rb_mask (n - i * rb_per_se)) (seqZ 0 (k + 1)).

Lemma column_alive_iff rps mask k n :
  column_alive rps mask k n = true <->
  k * rps <= n < (k + 1) * rps /\ forall i, 0 <= i <= k -> Z.testbit mask (n - i * rps) = true.
Proof.
  unfold column_alive. rewrite !andb_true_iff, Z.leb_le, Z.ltb_lt, forallb_seqZ_iff.
  split; (intros [H H']; split; [lia|]; intros i Hi; apply H'; lia).
Qed.

Lemma first_mask_bit rps mask n :
  0 <= rps < 32 -> 0 <= n ->
  Z.testbit (Z.land (u32 (Z.shiftl 1 rps) - 1) mask) n = column_alive rps mask 0 n.
Proof.
  intros Hr Hn. rewrite Z.land_spec.
  assert (Hp : 0 < 2 ^ rps < 2 ^ 32) by (split; [lia|apply Z.pow_lt_mono_r; lia]).
  rewrite shiftl_mul, Z.mul_1_l, u32_small by (unfold in_u32; lia).
  replace (2 ^ rps - 1) with (Z.ones rps) by (rewrite Z.ones_equiv; lia).
  rewrite Z.testbit_ones by lia. apply eq_true_iff_eq.
  rewrite column_alive_iff, !andb_true_iff, Z.leb_le, Z.ltb_lt. split.
  - intros [[_ H] Hb]. split; [lia|]. intros i Hi. replace i with 0 by lia.
    by rewrite Z.mul_0_l, Z.sub_0_r.
  - intros [H Hb]. split; [lia|]. specialize (Hb 0 ltac:(lia)).
    by rewrite Z.mul_0_l, Z.sub_0_r in Hb.
Qed.

Lemma next_mask_bit rps mask k m n :
  0 < rps -> 0 <= k -> 0 <= n < 32 ->
  (forall j, 0 <= j < 32 -> Z.testbit m j = column_alive rps mask k j) ->
  Z.testbit (Z.land (u32 (Z.shiftl m rps)) mask) n = column_alive rps mask (k + 1) n.
Proof.
  intros Hr Hk Hn Hm. rewrite Z.land_spec, u32_testbit by lia.
  rewrite (proj2 (Z.ltb_lt _ _)) by lia. cbn [andb]. rewrite Z.shiftl_spec by lia.
  apply eq_true_iff_eq. rewrite column_alive_iff, andb_true_iff. split.
  - intros [Hb Hmask]. destruct (Z.ltb_spec n rps) as [Hlt|Hge].
    { by rewrite Z.testbit_neg_r in Hb by lia. }
    rewrite Hm, column_alive_iff in Hb by lia. destruct Hb as [Hrange Hcol]. split; [lia|].
    intros i Hi. destruct (decide (i = 0)) as [->|Hne]; [by rewrite Z.mul_0_l, Z.sub_0_r|].
    specialize (Hcol (i - 1) ltac:(lia)). by replace (n - i * rps) with (n - rps - (i - 1) * rps) by lia.
  - intros [Hrange Hcol]. split.
    + rewrite Hm, column_alive_iff by nia. split; [lia|]. intros i Hi.
      specialize (Hcol (i + 1) ltac:(lia)). by replace (n - rps - i * rps) with (n - (i + 1) * rps) by lia.
    + specialize (Hcol 0 ltac:(lia)). by rewrite Z.mul_0_l, Z.sub_0_r in Hcol.
Qed.

(** C38: the four shader-engine masks of [ac_get_harvested_configs].  Mask [k] has the render
    backends of engine [k] whose counterparts in every lower engine are alive as well, because
    each mask is made from the one before after harvesting, not from the full column. *)
Theorem harvest_se_mask_spec rb_per_se rb_mask k n m :
  0 < rb_per_se < 32 -> 0 <= n < 32 ->
  harvest_se_mask rb_per_se rb_mask !! k = Some m ->
  Z.testbit m n = column_alive rb_per_se rb_mask (Z.of_nat k) n.
Proof.
  intros Hr Hn. unfold harvest_se_mask. cbv zeta.
  set (m0 := Z.land (u32 (Z.shiftl 1 rb_per_se) - 1) rb_mask).
  assert (H0 : forall j, 0 <= j < 32 -> Z.testbit m0 j = column_alive rb_per_se rb_mask 0 j)
    by (intros; apply first_mask_bit; lia).
  set (m1 := Z.land (u32 (Z.shiftl m0 rb_per_se)) rb_mask).
  assert (H1 : forall j, 0 <= j < 32 -> Z.testbit m1 j = column_alive rb_per_se rb_mask 1 j)
    by (intros; apply (next_mask_bit _ _ 0); try done; lia).
  set (m2 := Z.land (u32 (Z.shiftl m1 rb_per_se)) rb_mask).
  assert (H2 : forall j, 0 <= j < 32 -> Z.testbit m2 j = column_alive rb_per_se rb_mask 2 j)
    by (intros; apply (next_mask_bit _ _ 1); try done; lia).
  set (m3 := Z.land (u32 (Z.shiftl m2 rb_per_se)) rb_mask).
  assert (H3 : forall j, 0 <= j < 32 -> Z.testbit m3 j = column_alive rb_per_se rb_mask 3 j)
    by (intros; apply (next_mask_bit _ _ 2); try done; lia).
  destruct k as [|[|[|[|k]]]]; cbn; intros Hk; simplify_eq; auto.
Qed.

Lemma harvest_se_mask_spec_witness :
  Z.testbit 0x30 5 = column_alive 4 0x73 (Z.of_nat 1) 5.
Proof. apply (harvest_se_mask_spec 4 0x73 1 5); [lia|lia|reflexivity]. Defined.

(** So a shader engine is taken for harvested when the engine below it is: with four
    engines of four render backends and only the first engine gone, all four masks are empty,
    and the pair map of [PA_SC_RASTER_CONFIG_1] sends both pairs to the second one (3). *)
Theorem harvested_engine_hides_the_rest I rc1 :
  gfx_ge I GFX7 = true -> max_se I = 4 -> max_sa_per_se I = 2 -> max_render_backends I = 16 ->
  enabled_rb_mask I = 0xfff0 ->
  harvest_se_mask 4 0xfff0 = [0; 0; 0; 0] /\
  exists cs, ac_get_harvested_configs I 0 rc1 =
    Ok (Z.lor (Z.land rc1 C_028354_SE_PAIR_MAP)
          (S_028354_SE_PAIR_MAP V_028354_RASTER_CONFIG_SE_PAIR_MAP_3), cs).
Proof.
  intros Hg Hse Hsa Hrb Hm. split; [reflexivity|]. unfold ac_get_harvested_configs.
  rewrite Hse, Hsa, Hrb, Hm, Hg. eexists. cbn -[Z.lor Z.land C_028354_SE_PAIR_MAP].
  reflexivity.
Qed.

Lemma harvested_engine_hides_the_rest_witness :
  exists cs, ac_get_harvested_configs
    (mk_gpu (Build_radeon_info GFX7 false false false false false) CHIP_HAWAII 0 0x7ff 4 2 16 0xfff0 0 0 0
       0 0 0 true true false false) 0 0x2a =
    Ok (Z.lor (Z.land 0x2a C_028354_SE_PAIR_MAP)
          (S_028354_SE_PAIR_MAP V_028354_RASTER_CONFIG_SE_PAIR_MAP_3), cs).
Proof. apply harvested_engine_hides_the_rest; reflexivity. Defined.

(** ** CU masks *)

Lemma ffs_minus_1_spec m :
  in_u32 m -> m <> 0 ->
  0 <= ffs_minus_1 m < 32 /\ Z.testbit m (ffs_minus_1 m) = true /\
  forall j, 0 <= j < ffs_minus_1 m -> Z.testbit m j = false.
Proof.
  intros Hm Hne. unfold ffs_minus_1.
  destruct (list_find _ (seqZ 0 32)) as [[k x]|] eqn:E; cbn [option_bind mbind default].
  - apply list_find_Some in E as (Hk & Hx & Hlow). apply lookup_seqZ in Hk as [-> Hk].
    cbn [fst snd id]. split; [lia|]. split; [done|]. intros j Hj.
    apply not_true_is_false. apply (Hlow (Z.to_nat j) j); [|lia].
    apply lookup_seqZ. lia.
  - apply list_find_None in E. exfalso. apply Hne. apply Z.bits_inj'. intros n Hn.
    rewrite Z.bits_0. destruct (decide (n < 32)); [|by apply high_bits_u32; [|lia]].
    apply not_true_is_false. rewrite Forall_forall in E. apply E. apply elem_of_seqZ. lia.
Qed.

Lemma compl_testbit x n : 0 <= n < 32 -> Z.testbit (Z.lxor x 0xffffffff) n = negb (Z.testbit x n).
Proof.
  intros Hn. rewrite Z.lxor_spec. change 0xffffffff with (Z.ones 32).
  rewrite Z.ones_spec_low by lia. by rewrite xorb_true_r.
Qed.

Lemma compl_u32 x : in_u32 x -> in_u32 (Z.lxor x 0xffffffff).
Proof.
  intros Hx. assert (H0 : 0 <= Z.lxor x 0xffffffff).
  { apply Z.lxor_nonneg. unfold in_u32 in *. lia. }
  unfold in_u32. split; [done|].
  destruct (Z.eq_dec (Z.lxor x 0xffffffff) 0) as [->|Hne]; [lia|].
  apply Z.log2_lt_pow2; [lia|]. apply Z.nle_gt. intros Hl.
  assert (Hpos : 0 < Z.lxor x 0xffffffff) by lia. pose proof (Z.bit_log2 _ Hpos) as Hb.
    revert Hl Hb. generalize (Z.log2 (Z.lxor x 0xffffffff)). intros l Hl Hb.
  rewrite Z.lxor_spec, high_bits_u32 in Hb by done.
  change 0xffffffff with (Z.ones 32) in Hb. by rewrite Z.ones_spec_high in Hb by lia.
Qed.

(** C37: [ac_apply_cu_en] keeps the bits outside the field [clear_mask] clears, and ANDs the
    field with [spi_cu_en] shifted right by [value_shift].  Nothing else of the GPU plays a
    part: the mask widened for the two shader arrays of a GFX12 shader engine, which the
    source computes first, is not used. *)
Theorem ac_apply_cu_en_spec value clear_mask value_shift I n :
  in_u32 value -> in_u32 clear_mask -> clear_mask <> 0xffffffff ->
  0 <= value_shift -> 0 <= n < 32 ->
  exists lo, 0 <= lo < 32 /\ Z.testbit clear_mask lo = false /\
    (forall j, 0 <= j < lo -> Z.testbit clear_mask j = true) /\
    Z.testbit (ac_apply_cu_en value clear_mask value_shift I) n =
      Z.testbit value n &&
      (Z.testbit clear_mask n || Z.testbit (spi_cu_en I) (n - lo + value_shift)).
Proof.
  intros Hv Hc Hne Hs Hn. set (mask := Z.lxor clear_mask 0xffffffff).
  assert (Hmask : in_u32 mask) by (by apply compl_u32).
  assert (Hm0 : mask <> 0) by (intros ?%Z.lxor_eq; done).
  destruct (ffs_minus_1_spec mask Hmask Hm0) as (Hlo & Hbit & Hbelow).
  exists (ffs_minus_1 mask). split; [done|].
  split; [unfold mask in Hbit; by rewrite compl_testbit, negb_true_iff in Hbit by done|].
  split.
  { intros j Hj. specialize (Hbelow j Hj). unfold mask in Hbelow.
    by rewrite compl_testbit, negb_false_iff in Hbelow by lia. }
  unfold ac_apply_cu_en. fold mask. set (lo := ffs_minus_1 mask) in *. cbv zeta.
  rewrite Z.lor_spec, Z.land_spec, compl_testbit by done.
  rewrite Z.land_spec, u32_testbit by lia. rewrite (proj2 (Z.ltb_lt n 32)) by lia.
  rewrite Z.shiftl_spec by lia.
  assert (Hcm : Z.testbit clear_mask n = negb (Z.testbit mask n))
    by (unfold mask; rewrite compl_testbit, negb_involutive by done; done).
  rewrite Hcm. destruct (Z.testbit mask n) eqn:Em; cbn [negb orb andb];
    rewrite ?andb_true_r, ?andb_false_r, ?orb_false_l, ?orb_false_r; [|done].
  assert (lo <= n). { apply Z.nlt_ge. intros Hlt. by rewrite Hbelow in Em by lia. }
  rewrite Z.land_spec, !Z.shiftr_spec, Z.land_spec by lia.
  replace (n - lo + lo) with n by lia. by rewrite Em, andb_true_r.
Qed.

Lemma ac_apply_cu_en_spec_witness :
  exists lo, 0 <= lo < 32 /\ Z.testbit C_00B51C_CU_EN lo = false /\
    (forall j, 0 <= j < lo -> Z.testbit C_00B51C_CU_EN j = true) /\
    Z.testbit (ac_apply_cu_en 0xffffffff C_00B51C_CU_EN 0
      (mk_gpu (Build_radeon_info GFX8 false false false false false) CHIP_TONGA 0 0x3ff 4 1 8 0xff 0 0 0
         0 0 0 true true false false)) 5 =
      Z.testbit 0xffffffff 5 && (Z.testbit C_00B51C_CU_EN 5 || Z.testbit 0x3ff (5 - lo + 0)).
Proof.
  apply (ac_apply_cu_en_spec 0xffffffff C_00B51C_CU_EN 0 (mk_gpu _ _ _ 0x3ff _ _ _ _ _ _ _ _ _ _ _ _ _ _));
    try (vm_compute; split; congruence); try lia. vm_compute. congruence.
Defined.
