(* ===== verification/PreambleProofs.v ===== *)
(** The calls of the preambles, bounded and classified: how many dwords a list of calls can
    take at most ([Frugal]) and that every register in it is an ordinary one of the four
    spaces ([Plain]).  Both are type classes, so that the instances compute the bound of a
    preamble from its text. *)

From stdpp Require Import strings.
From S2P Require Import Prelude.
From S2P Require Import CLib.
From S2P Require Import TitanRegMap.
From S2P Require Import Packets.
From S2P Require Import Pm4.
From S2P Require Import Pm4Proofs.
From S2P Require Import Pm4States.
From S2P Require Import RegFields.
From S2P Require Import Preamble.

(** ** Firmware without packed packets: at most three dwords for a register *)

Definition op_cost (o : pm4_op) : Z :=
  match o with SetReg _ _ => 3 | CmdAdds dws => Z.of_nat (length dws) end.

Definition total (os : list pm4_op) : Z := foldr (fun o n => op_cost o + n) 0 os.

Lemma cost_total_app a b : total (a ++ b) = total a + total b.
Proof. induction a as [|o a IH]; [done|]. simpl. rewrite IH. lia. Qed.

Lemma total_nonneg os : 0 <= total os.
Proof. induction os as [|[reg val|dws] os IH]; simpl; lia. Qed.

Lemma lay_step_unpacked op r l : packed_base op = None -> (lay_step op r l).1 <= 3.
Proof.
  intros Hp. unfold lay_step. rewrite Hp. destruct l as [[[op' r'] pad]|]; simpl;
    rewrite ?(bool_decide_eq_false_2 (is_Some None)) by (by intros []);
    repeat case_match; simpl; lia.
Qed.

Lemma pairs_opcode_unpacked i reg opcode off :
  packed_info i = false -> reg_space reg = Some (opcode, off) ->
  packed_base (pairs_opcode i opcode) = None.
Proof.
  intros [Hc Hs]%orb_false_iff Hsp. unfold pairs_opcode. rewrite Hc, Hs.
  unfold reg_space in Hsp.
  repeat (case_match; simplify_eq); reflexivity.
Qed.

Lemma lay_size_total getenv i t os l :
  packed_info i = false -> lay_size getenv i t l os <= total os.
Proof.
  intros Hp. revert l. induction os as [|[reg val|dws] os IH]; intros l; cbn [lay_size total foldr op_cost];
    [lia| |pose proof (IH None); unfold total in *; lia].
  unfold reg_slot. destruct (reg_space reg) as [[opcode off]|] eqn:Hsp.
  - pose proof (lay_step_unpacked _ (snd (preamble_reg getenv t opcode off) / 4) l
                  (pairs_opcode_unpacked _ _ _ _ Hp Hsp)) as Hc.
    destruct (lay_step _ _ l) as [c l']. pose proof (IH l'). unfold total in *. simpl in Hc. lia.
  - pose proof (IH l). unfold total in *. lia.
Qed.

(** ** Bounds *)

Class Frugal (os : list pm4_op) (n : Z) : Prop := frugal : total os <= n.

Lemma frugal_le os m n : Frugal os m -> m <= n -> Frugal os n.
Proof. unfold Frugal. lia. Qed.

#[export] Instance frugal_nil : Frugal [] 0.
Proof. unfold Frugal. simpl. lia. Qed.
#[export] Instance frugal_app a b m n : Frugal a m -> Frugal b n -> Frugal (a ++ b) (m + n).
Proof. unfold Frugal. rewrite cost_total_app. lia. Qed.
#[export] Instance frugal_set_reg reg val : Frugal (set_reg reg val) 3.
Proof. unfold Frugal. simpl. lia. Qed.
#[export] Instance frugal_cmd dws : Frugal [CmdAdds dws] (Z.of_nat (length dws)).
Proof. unfold Frugal. simpl. lia. Qed.
#[export] Instance frugal_when b os n : Frugal os n -> Frugal (when b os) n.
Proof. unfold Frugal, when. pose proof (total_nonneg os). destruct b; simpl; lia. Qed.
#[export] Instance frugal_if (b : bool) os1 os2 m n :
  Frugal os1 m -> Frugal os2 n -> Frugal (if b then os1 else os2) (Z.max m n).
Proof. unfold Frugal. destruct b; lia. Qed.
#[export] Instance frugal_for lo n body k :
  (forall i, Frugal (body i) k) -> TCEq (0 <=? n) true -> Frugal (for_ lo n body) (n * k).
Proof.
  intros Hb Hn. unfold Frugal, for_. apply TCEq_eq, Z.leb_le in Hn.
  replace n with (Z.of_nat (length (seqZ lo n))) at 2 by (rewrite length_seqZ; lia).
  induction (seqZ lo n) as [|i l IH]; [done|]. cbn [fmap list_fmap concat length].
  rewrite cost_total_app, Nat2Z.inj_succ. pose proof (Hb i). unfold Frugal in *. lia.
Qed.

(** ** Ordinary registers *)

(** A dword of one of the four spaces that is privileged on no generation. *)
Definition plain_reg (reg : Z) : bool :=
  forallb (fun p => negb (reg =? p)) [0x8D04; 0x8D00; 0x8D14; 0x8D18; 0x8D1C; 0x9100] &&
  (reg mod 4 =? 0) && bool_decide (is_Some (reg_space reg)).

Definition plain_op (o : pm4_op) : bool :=
  match o with SetReg reg _ => plain_reg reg | CmdAdds dws => cmd_ok dws end.

Class Plain (os : list pm4_op) : Prop := plain : forallb plain_op os = true.

#[export] Instance plain_nil : Plain [].
Proof. done. Qed.
#[export] Instance plain_app a b : Plain a -> Plain b -> Plain (a ++ b).
Proof. unfold Plain. intros Ha Hb. by rewrite forallb_app, Ha, Hb. Qed.
#[export] Instance plain_set_reg reg val : TCEq (plain_reg reg) true -> Plain (set_reg reg val).
Proof. intros H. unfold Plain. simpl. by rewrite (proj1 (TCEq_eq _ _) H). Qed.
#[export] Instance plain_cmd dws : TCEq (cmd_ok dws) true -> Plain [CmdAdds dws].
Proof. intros H. unfold Plain. simpl. by rewrite (proj1 (TCEq_eq _ _) H). Qed.
#[export] Instance plain_when b os : Plain os -> Plain (when b os).
Proof. by destruct b. Qed.
#[export] Instance plain_if (b : bool) os1 os2 : Plain os1 -> Plain os2 -> Plain (if b then os1 else os2).
Proof. by destruct b. Qed.

Lemma plain_for lo n body : Forall (fun i => Plain (body i)) (seqZ lo n) -> Plain (for_ lo n body).
Proof.
  unfold for_. induction 1 as [|i l Hi Hl IH]; [done|]. cbn [fmap list_fmap concat]. by apply plain_app.
Qed.

#[export] Hint Extern 0 (TCEq _ true) => vm_compute; reflexivity : typeclass_instances.
#[export] Hint Extern 1 (Plain (for_ ?lo ?n _)) =>
  apply plain_for; (let l := eval vm_compute in (seqZ lo n) in change (seqZ lo n) with l);
  repeat (apply Forall_cons; split); [cbv beta; apply _ ..|apply Forall_nil; exact I]
  : typeclass_instances.

(** With the map inactive every register stays where it is. *)
Lemma preamble_reg_inactive getenv t opcode off :
  regmap_active t = false -> preamble_reg getenv t opcode off = (t, off).
Proof. intros Ht. unfold preamble_reg. by rewrite Ht. Qed.

Lemma reg_space_end reg opcode off :
  reg_space reg = Some (opcode, off) ->
  match opcode =? PKT3_SET_CONTEXT_REG, opcode =? PKT3_SET_SH_REG with
  | true, _ => off < 0x8000
  | _, true => off < 0x1000
  | _, _ => True
  end.
Proof.
  unfold reg_space. intros H.
  repeat (case_match; simplify_eq); rewrite ?andb_true_iff, ?Z.leb_le, ?Z.ltb_lt in *; try done;
    unfold SI_SH_REG_OFFSET, SI_SH_REG_END, SI_CONTEXT_REG_OFFSET, SI_CONTEXT_REG_END in *; lia.
Qed.

Lemma reg_space_range reg opcode off :
  reg_space reg = Some (opcode, off) -> 0 <= off < 0x40000 /\ reg = space_base opcode + off.
Proof.
  unfold reg_space. intros H.
  repeat case_match; simplify_eq; rewrite ?andb_true_iff, ?Z.leb_le, ?Z.ltb_lt in *;
    unfold SI_CONFIG_REG_OFFSET, SI_CONFIG_REG_END, SI_SH_REG_OFFSET, SI_SH_REG_END,
      SI_CONTEXT_REG_OFFSET, SI_CONTEXT_REG_END, CIK_UCONFIG_REG_OFFSET, CIK_UCONFIG_REG_END in *;
    split; try lia; match goal with |- _ = space_base ?o + _ =>
      let v := eval vm_compute in (space_base o) in change (space_base o) with v end; lia.
Qed.

(** A map that is off or stays in the spaces keeps ordinary registers usable. *)
Lemma plain_reg_ok getenv i t reg :
  regmap_active t = false \/ map_in_space getenv t -> plain_reg reg = true ->
  reg_ok getenv i t reg = true.
Proof.
  intros Ht. unfold plain_reg, reg_ok. rewrite !andb_true_iff, bool_decide_eq_true.
  intros ((Hp & H4) & [[opcode off] Hsp]). rewrite Hsp, ?andb_true_iff. split.
  { simpl in Hp. rewrite !andb_true_iff, !negb_true_iff in Hp.
    destruct Hp as (E1 & E2 & E3 & E4 & E5 & E6 & _).
    unfold privileged_on. rewrite E1, E2, E3, E4, E5, E6. by repeat case_match. }
  destruct (reg_space_range _ _ _ Hsp) as [Hoff Hreg].
  rewrite Z.leb_le, Z.ltb_lt.
  destruct Ht as [Ht|[Hc Hs]]; [by rewrite preamble_reg_inactive|].
  unfold preamble_reg. rewrite !remap_dw_quiet_agree. unfold ac_titan_remap_dw_quiet.
  destruct (regmap_active t); [|done]. cbn [negb andb].
  destruct (ac_titan_preamble_remap getenv); [|done].
  change (SI_CONTEXT_REG_OFFSET =? SI_CONTEXT_REG_OFFSET) with true.
  change (SI_SH_REG_OFFSET =? SI_CONTEXT_REG_OFFSET) with false.
  change (SI_SH_REG_OFFSET =? SI_SH_REG_OFFSET) with true. cbv zeta.
  assert (Hd : forall d, 0 <= d < 0x10000 -> 0 <= u32 (Z.shiftl d 2) < 0x40000).
  { intros d Hd. rewrite shiftl_mul, u32_small by (unfold in_u32; lia). lia. }
  destruct (opcode =? PKT3_SET_CONTEXT_REG) eqn:Ec; [apply Z.eqb_eq in Ec as ->|].
  { apply Hd. assert (Ho : off < 0x8000). { apply (reg_space_end _ _ _ Hsp). }
    rewrite shiftr_div by lia. pose proof (Hc (off / 2 ^ 2)) as H.
    change AC_TITAN_CTX_DWORDS with 0x2000 in H. zdivmod. }
  destruct (opcode =? PKT3_SET_SH_REG) eqn:Es; [apply Z.eqb_eq in Es as ->|done].
  apply Hd. assert (Ho : off < 0x1000). { apply (reg_space_end _ _ _ Hsp). }
  rewrite shiftr_div by lia. pose proof (Hs (off / 2 ^ 2)) as H.
  change AC_TITAN_SH_DWORDS with 0x400 in H. zdivmod.
Qed.

Lemma plain_ops_ok getenv i t os :
  regmap_active t = false \/ map_in_space getenv t -> Plain os ->
  forallb (op_ok getenv i t) os = true.
Proof.
  intros Ht. unfold Plain. induction os as [|[reg val|dws] os IH]; [done| |]; simpl;
    intros [Ho H]%andb_true_iff; rewrite IH by done; [by rewrite plain_reg_ok|by rewrite Ho].
Qed.

Section Inactive.
Context (getenv : string -> option string) (t : titan) (Ht : regmap_active t = false).

(** The writes a list of calls names in its text. *)
Definition asked (os : list pm4_op) : list write :=
  omap (fun o => match o with SetReg reg val => Some (reg, u32 val) | CmdAdds _ => None end) os.

Lemma requested_inactive os : Plain os -> requested getenv t os = asked os.
Proof.
  unfold Plain. induction os as [|[reg val|dws] os IH]; [done| |]; simpl;
    intros [Ho H]%andb_true_iff; [|by apply IH]. unfold requested, asked in *. cbn.
  rewrite IH by done. f_equal. unfold reg_dst. unfold plain_reg in Ho.
  rewrite !andb_true_iff, bool_decide_eq_true, Z.eqb_eq in Ho. destruct Ho as ((_ & H4) & [[opcode off] Hsp]).
  rewrite Hsp, preamble_reg_inactive by done. destruct (reg_space_range _ _ _ Hsp) as [Hoff Hr].
  cbn [snd default]. f_equal. rewrite Hr.
  assert (space_base opcode mod 4 = 0).
  { unfold reg_space in Hsp. repeat case_match; simplify_eq; reflexivity. }
  cbn [id]. zdivmod.
Qed.

Lemma lay_size_inactive i l os : lay_size getenv i t l os = lay_size no_env i titan_init l os.
Proof.
  revert l. induction os as [|[reg val|dws] os IH]; intros l; cbn [lay_size]; [done| |by rewrite IH].
  unfold reg_slot. destruct (reg_space reg) as [[opcode off]|]; [|done].
  rewrite !preamble_reg_inactive by done. cbn [snd]. destruct (lay_step _ _ l) as [c l']. by rewrite IH.
Qed.
End Inactive.
