(* ===== verification/SiPreambleProofs.v ===== *)
(** radeonsi's preamble is built without a fault, fits the array its function allocates and
    programs exactly the registers its text names. *)

From stdpp Require Import strings.
From S2P Require Import Prelude.
From S2P Require Import CLib.
From S2P Require Import TitanRegMap.
From S2P Require Import Packets.
From S2P Require Import Pm4.
From S2P Require Import Pm4Proofs.
From S2P Require Import Pm4States.
From S2P Require Import RegFields.
From S2P Require Import Preamble.
From S2P Require Import PreambleProofs.
From S2P Require Import SiPreamble.

(** ** The raster configuration *)

(** What [ac_get_harvested_configs] asserts, and [ac_set_grbm_gfx_index_se] for each shader
    engine: the conditions under which a harvested configuration can be written. *)
Definition raster_ok (I : gpu_info) : bool :=
  let sh_per_se := Z.max (max_sa_per_se I) 1 in
  let num_se := max_se I in
  let num_rb := Z.min (max_render_backends I) 16 in
  let rb_per_pkr := Z.min (num_rb / num_se / sh_per_se) 2 in
  (enabled_rb_mask I =? 0) || (num_rb <=? util_bitcount64 (enabled_rb_mask I)) ||
  ((num_se =? 1) || (num_se =? 2) || (num_se =? 4)) &&
  ((sh_per_se =? 1) || (sh_per_se =? 2)) && ((rb_per_pkr =? 1) || (rb_per_pkr =? 2)).

Lemma harvest_se_ok rc num_se m pkr rps m0 m1 m2 m3 se :
  0 <= se < 4 -> exists c, harvest_se rc num_se m pkr rps [m0; m1; m2; m3] se = Ok c.
Proof.
  intros Hse. unfold harvest_se. case_match; cbn [res_bind]; [|by eexists].
  assert (se / 2 * 2 = 0 \/ se / 2 * 2 = 2) as [-> | ->] by zdivmod; cbn; by eexists.
Qed.

Lemma harvest_loop_ok rc num_se m pkr rps m0 m1 m2 m3 n : forall se,
  0 <= se -> se + Z.of_nat n <= 4 ->
  exists cs, harvest_loop rc num_se m pkr rps [m0; m1; m2; m3] se n = Ok cs /\ length cs = n.
Proof.
  induction n as [|n IH]; intros se H0 H4; cbn [harvest_loop]; [by eexists|].
  destruct (harvest_se_ok rc num_se m pkr rps m0 m1 m2 m3 se) as [c ->]; [lia|]. cbn [res_bind].
  destruct (IH (se + 1)) as (cs & -> & Hl); [lia..|]. cbn [res_bind]. eexists. split; [done|].
  simpl. by rewrite Hl.
Qed.

#[local] Instance grbm_plain I v : Plain (ac_set_grbm_gfx_index I v).
Proof. unfold ac_set_grbm_gfx_index. destruct (gfx_ge I GFX7); apply _. Qed.
#[local] Instance grbm_frugal I v : Frugal (ac_set_grbm_gfx_index I v) 3.
Proof. apply frugal_set_reg. Qed.

Lemma harvest_ops_ok I cs : forall se,
  0 <= se -> se + Z.of_nat (length cs) <= max_se I ->
  exists os, harvest_ops I se cs = Ok os /\ Plain os /\ Frugal os (6 * Z.of_nat (length cs)).
Proof.
  induction cs as [|c cs IH]; intros se H0 Hm; cbn [harvest_ops length] in *.
  { eexists. split; [done|]. split; [apply _|]. unfold Frugal. simpl. lia. }
  unfold ac_set_grbm_gfx_index_se. rewrite (proj2 (Z.ltb_lt _ _)), orb_true_r by lia.
  cbn [assert_ res_bind]. destruct (IH (se + 1)) as (os & -> & Hp & Hf); [lia..|]. cbn [res_bind].
  eexists. split; [done|]. split; [apply _|]. eapply frugal_le; [apply _|lia].
Qed.

Lemma ac_get_harvested_configs_ok I rc rc1 :
  (max_se I =? 1) || (max_se I =? 2) || (max_se I =? 4) = true ->
  (let sh := Z.max (max_sa_per_se I) 1 in
   let pkr := Z.min (Z.min (max_render_backends I) 16 / max_se I / sh) 2 in
   ((sh =? 1) || (sh =? 2)) && ((pkr =? 1) || (pkr =? 2)) = true) ->
  exists c1 cs, ac_get_harvested_configs I rc rc1 = Ok (c1, cs) /\
    Z.of_nat (length cs) = max_se I /\ max_se I <= 4.
Proof.
  intros Hse Hrest. pose proof Hse as Hm. rewrite !orb_true_iff, !Z.eqb_eq in Hm.
  apply andb_true_iff in Hrest as [Hsh Hpkr]. unfold ac_get_harvested_configs.
  replace (Z.max (max_se I) 1) with (max_se I) by (clear -Hm; lia). cbv beta zeta in *.
  rewrite Hse, Hsh, Hpkr. clear Hse Hsh Hpkr.
  assert (Hmask : forall a b, exists m0 m1 m2 m3, harvest_se_mask a b = [m0; m1; m2; m3])
    by (intros; by eexists _, _, _, _).
  edestruct Hmask as (m0 & m1 & m2 & m3 & ->). cbn [assert_ res_bind arr_get Z.ltb Z.compare].
  edestruct harvest_loop_ok as (cs & Ecs & Hl); [| |rewrite Ecs]; [lia|lia|].
  eexists _, cs. split; [reflexivity|]. clear -Hl Hm. lia.
Qed.

Lemma ac_emit_raster_config_ok I :
  raster_ok I = true -> exists os, ac_emit_raster_config I = Ok os /\ Plain os /\ Frugal os 30.
Proof.
  intros Hok. unfold ac_emit_raster_config, raster_ok in *. cbv zeta in *.
  destruct ((enabled_rb_mask I =? 0) || _) eqn:E.
  { eexists. split; [done|]. split; [apply _|]. eapply frugal_le; [apply _|lia]. }
  rewrite orb_false_l, <- andb_assoc in Hok. apply andb_true_iff in Hok as [Hse Hrest].
  unfold ac_write_harvested_raster_configs.
  destruct (ac_get_harvested_configs_ok I (pa_sc_raster_config I) (pa_sc_raster_config_1 I) Hse Hrest)
    as (c1 & cs & -> & Hl & H4). clear Hse Hrest E. cbn [res_bind fst snd].
  destruct (harvest_ops_ok I cs 0) as (os & -> & Hp & Hf); [lia..|]. cbn [res_bind].
  eexists. split; [done|]. split; [apply _|]. eapply frugal_le; [apply _|lia].
Qed.

(** ** The packets the firmware understands *)

(** [ac_fill_feature_info]: [has_kernelq_reg_shadowing] is false from GFX11 on, so the packed
    SH packet is never chosen. *)
Definition packet_features (g : amd_gfx_level) (dedicated_vram preemption userq : bool) : radeon_info :=
  let kq := preemption && negb (gfx_le GFX11 g) && negb userq in
  if gfx_le GFX12 g then Build_radeon_info g false true false true true
  else if gfx_le GFX11 g && dedicated_vram then Build_radeon_info g true false kq false false
  else Build_radeon_info g false false false false false.

(** ** The calls, in one function *)

Definition si_preamble_ops (t : titan) (c : si_context) : res (list pm4_op) :=
  let I := s_info c in
  if negb (has_graphics I) then Ok (si_init_compute_preamble_state c)
  else if gfx_ge I GFX12 then gfx12_preamble_ops t c
  else if gfx_ge I GFX10 then gfx10_preamble_ops t c
  else gfx6_preamble_ops t c.

(** The array each function allocates. *)
Definition si_preamble_dw (t : titan) (c : si_context) : Z :=
  let I := s_info c in
  if negb (has_graphics I) then 48
  else if gfx_ge I GFX12 then 300
  else if gfx_ge I GFX10 then if regmap_active t then 2048 else 214
  else 214.

Lemma si_init_gfx_preamble_state_eq is_pgm_lo getenv t c :
  si_init_gfx_preamble_state is_pgm_lo getenv t c =
    let* os := si_preamble_ops t c in
    build is_pgm_lo getenv t
      (si_pm4_create_sized c (si_preamble_dw t c) (negb (has_graphics (s_info c)) || is_gfx_queue c))
      os (negb (has_graphics (s_info c)) || negb (gfx_ge (s_info c) GFX12)).
Proof.
  unfold si_init_gfx_preamble_state, si_preamble_ops, si_preamble_dw,
    si_cdna_init_compute_preamble_state, gfx12_init_gfx_preamble_state,
    gfx10_init_gfx_preamble_state, gfx6_init_gfx_preamble_state.
  destruct (has_graphics (s_info c)); [|done]. cbn [negb orb].
  destruct (gfx_ge (s_info c) GFX12); [done|]. by destruct (gfx_ge (s_info c) GFX10).
Qed.

(** A GPU radeonsi drives: GFX6 or later, GFX9 when it has no graphics, with the packets the
    kernel reports and a raster configuration that can be written. *)
Definition supported (c : si_context) : Prop :=
  let I := s_info c in
  (exists vram pre uq, pm4_info I = packet_features (gfx_level (pm4_info I)) vram pre uq) /\
  gfx_ge I GFX6 = true /\ (has_graphics I = false -> gfx_is I GFX9 = true) /\
  raster_ok I = true.

(** ** Which registers *)

Lemma features_unpacked g vram pre uq :
  gfx_le GFX11 g = false -> packed_info (packet_features g vram pre uq) = false.
Proof. by destruct g. Qed.

Lemma compute_plain I st : Plain (ac_init_compute_preamble_state I st).
Proof.
  unfold ac_init_compute_preamble_state, cdna_init_compute_preamble_state,
    gfx12_init_compute_preamble_state, gfx10_init_compute_preamble_state,
    gfx6_init_compute_preamble_state. apply _.
Qed.

Lemma gfx6_graphics_ok I st :
  raster_ok I = true ->
  exists os, gfx6_init_graphics_preamble_state I st = Ok os /\ Plain os /\
    (gfx_ge I GFX6 = true -> gfx_ge I GFX10 = false -> Frugal os 140).
Proof.
  intros Hr. destruct (ac_emit_raster_config_ok I Hr) as (raster & Er & Hp & Hf). clear Hr.
  unfold gfx6_init_graphics_preamble_state. rewrite Er. clear Er.
  assert (Hraster : exists r, (if gfx_upto I GFX8 then Ok raster else Ok []) = Ok r /\ Plain r /\
    Frugal r 30).
  { destruct (gfx_upto I GFX8); eexists; (split; [done|]); (split; [apply _|]); [done|].
    eapply frugal_le; [apply _|lia]. }
  clear Hp Hf. destruct Hraster as (r & -> & Hp & Hf). cbn [res_bind]. eexists. split; [done|].
  split; [apply _|]. unfold gfx_is, gfx_upto, gfx_ge. destruct (gfx_level (pm4_info I)); try done;
    intros _ _; cbn [gfx_le gfx_rank Z.leb Z.compare Pos.compare Pos.compare_cont andb orb negb when];
    (eapply frugal_le; [apply _|vm_compute; discriminate]).
Qed.

Lemma gfx10_graphics_plain t I st : Plain (gfx10_init_graphics_preamble_state t I st).
Proof.
  unfold gfx10_init_graphics_preamble_state, gfx10_sh_preamble, gfx10_ctx_preamble,
    pixel_pipe_stat_control. cbv zeta. apply _.
Qed.

Lemma gfx12_graphics_plain t I st : Plain (gfx12_init_graphics_preamble_state t I st).
Proof.
  unfold gfx12_init_graphics_preamble_state, gfx12_sh_preamble, gfx12_ctx_preamble,
    gfx12_uconfig_preamble, pixel_pipe_stat_control. cbv zeta.
  destruct (cache_cb_gl2 st), (cache_db_gl2 st); apply _.
Qed.

Lemma gfx10_graphics_frugal t I st :
  gfx_ge I GFX10 = true -> gfx_ge I GFX11 = false ->
  Frugal (gfx10_init_graphics_preamble_state t I st) 148.
Proof.
  unfold gfx10_init_graphics_preamble_state, gfx10_sh_preamble, gfx10_ctx_preamble,
    pixel_pipe_stat_control, gfx_lt, gfx_ge. cbv zeta.
  destruct (gfx_level (pm4_info I)); try done; intros _ _;
    cbn [gfx_le gfx_rank Z.leb Z.compare Pos.compare Pos.compare_cont andb orb negb when];
    (eapply frugal_le; [apply _|vm_compute; discriminate]).
Qed.

Lemma ac_graphics_ok t I st :
  raster_ok I = true ->
  exists os, ac_init_graphics_preamble_state t I st = Ok os /\ Plain os /\
    (gfx_ge I GFX6 = true -> gfx_ge I GFX11 = false -> Frugal os 148).
Proof.
  intros Hr. unfold ac_init_graphics_preamble_state.
  destruct (gfx_ge I GFX12) eqn:E12.
  { eexists. split; [done|]. split; [apply gfx12_graphics_plain|]. intros _ E. exfalso.
    revert E12 E. unfold gfx_ge. by destruct (gfx_level (pm4_info I)). }
  destruct (gfx_ge I GFX10) eqn:E10.
  - eexists. split; [done|]. split; [apply gfx10_graphics_plain|]. intros _. by apply gfx10_graphics_frugal.
  - destruct (gfx6_graphics_ok I st Hr) as (os & -> & Hp & Hf). exists os. split_and!; [done|done|].
    intros H6 _. eapply frugal_le; [by apply Hf|lia].
Qed.

Lemma si_graphics_ok t c :
  raster_ok (s_info c) = true ->
  exists os, si_init_graphics_preamble_state t c = Ok os /\ Plain os /\
    (gfx_ge (s_info c) GFX6 = true -> gfx_ge (s_info c) GFX11 = false -> Frugal os 154).
Proof.
  intros Hr. unfold si_init_graphics_preamble_state. cbv zeta.
  set (st := mk_preamble _ _ _ _). destruct (ac_graphics_ok t (s_info c) st Hr) as (os & -> & Hp & Hf).
  cbn [res_bind]. eexists. split; [done|]. split; [apply _|]. intros H6 H11. specialize (Hf H6 H11).
  eapply frugal_le; [apply _|lia].
Qed.

(** ** All the calls *)

Lemma si_preamble_plain t c :
  regmap_active t = false -> raster_ok (s_info c) = true ->
  exists os, si_preamble_ops t c = Ok os /\ Plain os.
Proof.
  intros Ht Hr. destruct (si_graphics_ok t c Hr) as (gr & Eg & Hp & _). clear Hr.
  pose proof (compute_plain (s_info c)) as Hc. unfold si_preamble_ops.
  assert (Hgr : exists g, (if is_gfx_queue c then si_init_graphics_preamble_state t c else Ok []) = Ok g
    /\ Plain g) by (destruct (is_gfx_queue c); eexists; (split; [done|]); apply _).
  clear Eg Hp. destruct Hgr as (g & Eg & Hp).
  destruct (negb (has_graphics (s_info c))); [by eexists; split; [done|apply Hc]|].
  unfold gfx12_preamble_ops, gfx10_preamble_ops, gfx6_preamble_ops, si_init_compute_preamble_state,
    context_control, context_control_shadow, break_batch, clear_state in *.
  rewrite Eg, Ht. cbv zeta. cbn [res_bind andb when].
  repeat case_match; eexists; (split; [done|]); apply _.
Qed.

(** Before GFX11: at most three dwords for a register. *)
Lemma si_preamble_frugal t c os :
  regmap_active t = false -> raster_ok (s_info c) = true ->
  gfx_ge (s_info c) GFX6 = true -> gfx_ge (s_info c) GFX11 = false ->
  si_preamble_ops t c = Ok os -> Frugal os (if has_graphics (s_info c) then 208 else 42).
Proof.
  intros Ht Hr H6 H11. destruct (si_graphics_ok t c Hr) as (gr & Eg & _ & Hf). clear Hr.
  specialize (Hf H6 H11). unfold si_preamble_ops.
  assert (Hgr : exists g, (if is_gfx_queue c then si_init_graphics_preamble_state t c else Ok []) = Ok g
    /\ Frugal g 154).
  { destruct (is_gfx_queue c); eexists; (split; [done|]); [done|]. eapply frugal_le; [apply _|lia]. }
  clear Eg Hf. destruct Hgr as (g & Eg & Hp).
  unfold gfx10_preamble_ops, gfx6_preamble_ops, si_init_compute_preamble_state,
    ac_init_compute_preamble_state, cdna_init_compute_preamble_state, gfx10_init_compute_preamble_state,
    gfx6_init_compute_preamble_state, context_control, context_control_shadow, break_batch, clear_state.
  rewrite Eg, Ht. clear Eg. cbv zeta. destruct (has_graphics (s_info c)); cbn [negb]; cycle 1.
  { intros <-%(inj Ok). eapply frugal_le; [apply _|vm_compute; discriminate]. }
  unfold gfx_is, gfx_upto, gfx_lt, gfx_ge in *.
  destruct (gfx_level (pm4_info (s_info c))); try done;
    cbn [gfx_le gfx_rank Z.leb Z.compare Pos.compare Pos.compare_cont andb orb negb when res_bind];
    intros <-%(inj Ok); (eapply frugal_le; [apply _|vm_compute; discriminate]).
Qed.

(** From GFX11 on: the size with the packets each generation has, and no register twice
    where packets are packed.  The values play no part, and the control packets at the head
    close every open packet. *)

Definition is_cmd (o : pm4_op) : bool := match o with CmdAdds _ => true | SetReg _ _ => false end.

Lemma lay_size_head getenv i t hd os :
  forallb is_cmd hd = true ->
  lay_size getenv i t None (hd ++ os) = total hd + lay_size getenv i t None os.
Proof.
  induction hd as [|[reg val|dws] hd IH]; [done..|]. simpl. intros H.
  rewrite IH by done. unfold total. lia.
Qed.

Definition regs (os : list pm4_op) : list Z :=
  omap (fun o => match o with SetReg reg _ => Some reg | CmdAdds _ => None end) os.

Lemma asked_regs os : (asked os).*1 = regs os.
Proof. unfold asked, regs. induction os as [|[reg val|dws] os IH]; cbn; [done| |done]. by f_equal. Qed.

Lemma regs_head hd os : forallb is_cmd hd = true -> regs (hd ++ os) = regs os.
Proof. induction hd as [|[reg val|dws] hd IH]; done. Qed.

(** The context without the control packets at the head of its preamble. *)
Definition no_head (c : si_context) : si_context :=
  mk_sctx (s_info c) (border_color_buffer c) (is_gfx_queue c) false true false (opt_cache_cb_gl2 c)
    (opt_cache_db_gl2 c) (is_gputest_fur c) (dbg_sqtt c).

Lemma si_preamble_head t c os :
  regmap_active t = false -> has_graphics (s_info c) = true -> gfx_ge (s_info c) GFX11 = true ->
  si_preamble_ops t (no_head c) = Ok os ->
  exists hd, si_preamble_ops t c = Ok (hd ++ os) /\ forallb is_cmd hd = true /\ total hd <= 7.
Proof.
  intros Ht Hg H11. unfold si_preamble_ops, gfx12_preamble_ops, gfx10_preamble_ops.
  assert (H10 : gfx_ge (s_info c) GFX10 = true).
  { revert H11. unfold gfx_ge. by destruct (gfx_level (pm4_info (s_info c))). }
  change (si_init_graphics_preamble_state t (no_head c)) with (si_init_graphics_preamble_state t c).
  change (si_init_compute_preamble_state (no_head c)) with (si_init_compute_preamble_state c).
  cbn [no_head s_info is_gfx_queue uses_userq_reg_shadowing uses_kernelq_reg_shadowing dpbb_allowed].
  rewrite Hg, H10, Ht. cbv zeta. cbn [negb]. rewrite !andb_false_r. cbn [andb when app].
  destruct (gfx_ge (s_info c) GFX12); (destruct (if is_gfx_queue c then _ else _) as [g|f]; [|done]);
    cbn [res_bind]; intros <-%(inj Ok).
  - eexists ((if uses_userq_reg_shadowing c then context_control_shadow else _) ++ when _ break_batch).
    rewrite <- (assoc_L app). split; [reflexivity|].
    by destruct (uses_userq_reg_shadowing c), (is_gfx_queue c), (uses_kernelq_reg_shadowing c), (dpbb_allowed c).
  - eexists. split; [reflexivity|]. unfold gfx_lt.
    by destruct (uses_userq_reg_shadowing c), (is_gfx_queue c), (uses_kernelq_reg_shadowing c),
      (dpbb_allowed c), (gfx_ge (s_info c) GFX11), (gfx_ge (s_info c) GFX11_5), (gfx_upto (s_info c) GFX11_7).
Qed.

Definition modern_fits (t : titan) (c : si_context) : bool :=
  match si_preamble_ops t c with
  | Fault _ => false
  | Ok os =>
      (lay_size no_env (pm4_info (s_info c)) titan_init None os + 13 <=? si_preamble_dw t c) &&
      (gfx_ge (s_info c) GFX12 || bool_decide (NoDup (regs os)))
  end.

Lemma modern_preamble_fits t c vram pre uq :
  regmap_active t = false -> gfx_ge (s_info c) GFX11 = true -> has_graphics (s_info c) = true ->
  pm4_info (s_info c) = packet_features (gfx_level (pm4_info (s_info c))) vram pre uq ->
  modern_fits t (no_head c) = true.
Proof.
  intros Ht. destruct t as [act lev sup hits ovr], c as [[pi fam a2 a3 a4 a5 a6 a7 a8 a9 b1 b2 b3 b4 hg cs xc ss]
    buf gq uq1 kq dpbb cb db fur sq]. unfold no_head.
  cbn [s_info gfx_ge pm4_info has_graphics regmap_active border_color_buffer is_gfx_queue
    opt_cache_cb_gl2 opt_cache_db_gl2 is_gputest_fur dbg_sqtt] in *.
  subst act. intros H11 -> Hpi. unfold gfx_ge in H11. cbn [pm4_info] in *.
  assert (Hv : exists g v, pi = packet_features g v false false /\ gfx_le GFX11 g = true).
  { exists (gfx_level pi), vram. split; [|done]. rewrite Hpi at 1. clear Hpi.
    destruct (gfx_level pi); try done; by destruct vram, pre, uq. }
  clear Hpi H11. destruct Hv as (g & v & -> & H11).
  destruct g; try done; destruct gq, xc;
    try (match goal with |- context [packet_features GFX12] => fail 1 | |- context [packet_features GFX12_1] => fail 1 | _ => idtac end; destruct v; vm_compute; reflexivity);
    destruct cb, db, fur; vm_compute; reflexivity.
Qed.

(** ** The state *)

Lemma si_create_fresh c m compute :
  0 < m < 0x4000 -> let s := si_pm4_create_sized c m compute in
  pm4_inv s [] None /\ ndw s = 0 /\ info s = pm4_info (s_info c) /\ max_dw s = m.
Proof.
  intros Hm. unfold si_pm4_create_sized, ac_pm4_clear_state. cbn [max_dw pm4].
  rewrite (u16_small m) by (unfold in_u16; lia). rewrite (proj2 (Z.eqb_neq _ _)) by lia.
  split; [|done]. unfold pm4_inv. split_and!; try done.
  - by eexists.
  - cbn [max_dw pm4]. rewrite length_replicate. lia.
  - cbn [max_dw]. lia.
Qed.

Lemma preamble_dw_range t c : 0 < si_preamble_dw t c < 0x4000.
Proof. unfold si_preamble_dw. repeat case_match; lia. Qed.

(** What the size and the registers give: a state that stands for what was asked. *)
Lemma si_preamble_built is_pgm_lo getenv t c :
  regmap_active t = false -> supported c ->
  exists t' s os, si_preamble_ops t c = Ok os /\
    si_init_gfx_preamble_state is_pgm_lo getenv t c = Ok (t', s) /\
    stands_for s (asked os) (packed_info (pm4_info (s_info c))) /\
    ndw s <= si_preamble_dw t c /\
    (packed_info (pm4_info (s_info c)) = true -> NoDup (asked os).*1).
Proof.
  intros Ht ((vram & pre & uq & Hpi) & H6 & Hcdna & Hr).
  destruct (si_preamble_plain t c Ht Hr) as (os & Eos & Hp).
  assert (Hfit : lay_size getenv (pm4_info (s_info c)) t None os + 6 <= si_preamble_dw t c /\
    (packed_info (pm4_info (s_info c)) = true -> NoDup (asked os).*1)).
  { rewrite lay_size_inactive by done.
    destruct (gfx_ge (s_info c) GFX11) eqn:H11; cycle 1.
    - pose proof (si_preamble_frugal t c os Ht Hr H6 H11 Eos) as Hf.
      assert (Hpk : packed_info (pm4_info (s_info c)) = false)
        by (rewrite Hpi; by apply features_unpacked).
      split; [|by rewrite Hpk].
      pose proof (lay_size_total no_env _ titan_init os None Hpk). unfold Frugal in Hf.
      unfold si_preamble_dw. rewrite Ht.
      assert (H12 : gfx_ge (s_info c) GFX12 = false).
      { revert H11. unfold gfx_ge. by destruct (gfx_level _). }
      rewrite H12. destruct (has_graphics (s_info c)); cbn [negb]; [case_match|]; lia.
    - assert (Hg : has_graphics (s_info c) = true).
      { destruct (has_graphics (s_info c)); [done|]. specialize (Hcdna eq_refl). revert H11 Hcdna.
        unfold gfx_is, gfx_upto, gfx_ge. by destruct (gfx_level _). }
      pose proof (modern_preamble_fits t c vram pre uq Ht H11 Hg Hpi) as Hm. unfold modern_fits in Hm.
      destruct (si_preamble_ops t (no_head c)) as [os0|f] eqn:E0; [|done].
      apply andb_true_iff in Hm as [Hs%Z.leb_le Hn].
      destruct (si_preamble_head t c os0 Ht Hg H11 E0) as (hd & E & Hcmd & Hhd).
      rewrite E in Eos. apply (inj Ok) in Eos as <-. rewrite lay_size_head, asked_regs, regs_head by done.
      change (si_preamble_dw t (no_head c)) with (si_preamble_dw t c) in Hs.
      change (s_info (no_head c)) with (s_info c) in *.
      split; [lia|]. intros Hpk. apply orb_true_iff in Hn as [H12|Hnd%bool_decide_eq_true]; [|done].
      exfalso. revert Hpk H12. rewrite Hpi. unfold gfx_ge. by destruct (gfx_level (pm4_info (s_info c))). }
  destruct Hfit as [Hfit Hnd]. set (compute := negb (has_graphics (s_info c)) || is_gfx_queue c).
  destruct (si_create_fresh c (si_preamble_dw t c) compute (preamble_dw_range t c)) as (Hinv & Hz & Hi & Hx).
  destruct (build_spec is_pgm_lo getenv t _ os
              (negb (has_graphics (s_info c)) || negb (gfx_ge (s_info c) GFX12)) Hinv Hz)
    as (t' & s & E & Hst & Hn).
  { apply plain_ops_ok; [by left|done]. }
  { by rewrite Hi, Hx. }
  rewrite Hi in Hst, Hn. rewrite requested_inactive in Hst by done.
  exists t', s, os. split; [done|]. rewrite si_init_gfx_preamble_state_eq, Eos.
  split; [exact E|]. split; [done|]. split; [lia|done].
Qed.


(** ** The Xclipse *)

Definition ctx_init_ops : list pm4_op := concat ((fun w => set_reg w.1 w.2) <$> ac_xclipse_ctx_init).

#[local] Instance ctx_init_plain : Plain ctx_init_ops.
Proof. unfold Plain. vm_compute. reflexivity. Qed.
#[local] Instance ctx_init_frugal : Frugal ctx_init_ops 1620.
Proof. apply Z.leb_le. vm_compute. reflexivity. Qed.

Lemma titan_preamble_ops t c :
  raster_ok (s_info c) = true -> gfx_is (s_info c) GFX10_3 = true -> has_graphics (s_info c) = true ->
  exists os, si_preamble_ops t c = Ok os /\ Plain os /\ Frugal os 2042.
Proof.
  intros Hr H103 Hg. destruct (si_graphics_ok t c Hr) as (gr & Eg & Hp & Hf). clear Hr.
  pose proof (compute_plain (s_info c)) as Hc.
  assert (Hlv : gfx_level (pm4_info (s_info c)) = GFX10_3).
  { revert H103. unfold gfx_is, gfx_upto, gfx_ge. by destruct (gfx_level (pm4_info (s_info c))). }
  assert (Hgr : exists g, (if is_gfx_queue c then si_init_graphics_preamble_state t c else Ok []) = Ok g
    /\ Plain g /\ Frugal g 154).
  { destruct (is_gfx_queue c); eexists; (split; [done|]); split; try apply _.
    - apply Hf; unfold gfx_ge; by rewrite Hlv.
    - eapply frugal_le; [apply _|lia]. }
  clear Eg Hf Hp H103. destruct Hgr as (g & Eg & Hp & Hf).
  unfold si_preamble_ops, gfx10_preamble_ops.
  unfold gfx_lt, gfx_ge, gfx_upto. rewrite Hlv, Hg, Eg. cbv zeta.
  cbn [gfx_le gfx_rank Z.leb Z.compare Pos.compare Pos.compare_cont andb orb negb res_bind].
  fold ctx_init_ops. eexists. split; [reflexivity|].
  unfold si_init_compute_preamble_state, context_control, context_control_shadow, break_batch,
    clear_state in *. split; [apply _|].
  clear Hc. unfold ac_init_compute_preamble_state, gfx10_init_compute_preamble_state, gfx_lt, gfx_ge.
  rewrite Hlv, Hg.
  cbn [gfx_le gfx_rank Z.leb Z.compare Pos.compare Pos.compare_cont andb orb negb when].
  eapply frugal_le; [apply _|vm_compute; discriminate].
Qed.

Lemma titan_preamble_built is_pgm_lo getenv t0 level c other :
  let t := ac_titan_regmap_set_level getenv t0 level in
  other_skips other -> regmap_active t = true -> supported c ->
  gfx_is (s_info c) GFX10_3 = true -> has_graphics (s_info c) = true ->
  exists t' s os, si_preamble_ops t c = Ok os /\
    si_init_gfx_preamble_state is_pgm_lo getenv t c = Ok (t', s) /\ ndw s <= 2048 /\
    parse_gfx_compute_ib (dump s) other = requested getenv t os.
Proof.
  intros t Ho Hact ((vram & pre & uq & Hpi) & _ & _ & Hr) H103 Hg.
  assert (Hsp : map_in_space getenv t) by (by apply set_level_in_space).
  destruct (titan_preamble_ops t c Hr H103 Hg) as (os & Eos & Hp & Hf).
  assert (Hlv : gfx_level (pm4_info (s_info c)) = GFX10_3).
  { revert H103. unfold gfx_is, gfx_upto, gfx_ge. by destruct (gfx_level (pm4_info (s_info c))). }
  assert (Hpk : packed_info (pm4_info (s_info c)) = false).
  { rewrite Hpi, Hlv. by apply features_unpacked. }
  pose proof (lay_size_total getenv _ t os None Hpk) as Hsize. unfold Frugal in Hf.
  destruct (si_create_fresh c 2048 (negb (has_graphics (s_info c)) || is_gfx_queue c) ltac:(lia))
    as (Hinv & Hz & Hi & Hx).
  destruct (build_spec is_pgm_lo getenv t _ os true Hinv Hz) as (t' & s & E & Hst & Hn).
  { apply plain_ops_ok; [by right|done]. }
  { rewrite Hi, Hx. lia. }
  rewrite Hi, Hpk in Hst. rewrite Hi in Hn. exists t', s, os. split; [done|].
  rewrite si_init_gfx_preamble_state_eq, Eos. cbn [res_bind]. unfold si_preamble_dw, gfx_ge.
  rewrite Hlv, Hg, Hact. split; [rewrite Hg in E; exact E|]. split; [lia|]. by apply stands_for_parse.
Qed.


(** ** Concrete GPUs *)

(** A GPU of family [f] at level [g] with every render backend but those of [rb_off]. *)
Definition gpu (g : amd_gfx_level) (f : radeon_family) (vram gfx xclipse : bool) (rb : Z) : gpu_info :=
  mk_gpu (packet_features g vram false false) f 0xffff8000 0xffff 2 1 8 rb 0x16000012 0 0 128 4 4
    gfx (gfx_le g GFX9) xclipse false.

Definition sctx (I : gpu_info) : si_context :=
  mk_sctx I (Some 0x800000000) true false false true true true false false.

Definition xclipse530 : si_context := sctx (gpu GFX10_3 CHIP_TITAN false true true 0xff).


Lemma xclipse530_supported : supported xclipse530.
Proof.
  split; [by exists false, false, false|]. split; [reflexivity|]. split; [done|]. reflexivity.
Qed.


(** C33: the vertex reuse depth that [ac_cmdbuf.c] writes on every GPU before GFX11 lands on
    the Xclipse's [PA_SC_SHADER_CONTROL]: the captured table asks 0 for that register, the
    map moves it to [0x28C58], and the preamble leaves 14 there, because
    [VGT_VERTEX_REUSE_BLOCK_CNTL] is not moved and is written later. *)
Theorem titan_reuse_clobbers_shader_control is_pgm_lo other :
  other_skips other ->
  let t := ac_titan_regmap_set_level no_env titan_init 10 in
  (R_028C40_PA_SC_SHADER_CONTROL, 0) ∈ ac_xclipse_ctx_init /\
  reg_dst no_env t R_028C40_PA_SC_SHADER_CONTROL = Some R_028C58_VGT_VERTEX_REUSE_BLOCK_CNTL /\
  exists t' s, si_init_gfx_preamble_state is_pgm_lo no_env t xclipse530 = Ok (t', s) /\
    reg_file ∅ (parse_gfx_compute_ib (dump s) other) !! R_028C58_VGT_VERTEX_REUSE_BLOCK_CNTL = Some 14.
Proof.
  intros Ho t. assert (Ht : t = titan10). 
  { unfold t, ac_titan_regmap_set_level, ac_titan_mapovr_parse. cbn [no_env nonempty].
    rewrite validate_good by reflexivity. reflexivity. }
  split; [apply (bool_decide_unpack _); vm_compute; exact I|].
  split; [rewrite Ht; vm_compute; reflexivity|].
  destruct (titan_preamble_built is_pgm_lo no_env titan_init 10 xclipse530 other Ho
              set_level_no_env_active xclipse530_supported eq_refl eq_refl)
    as (t' & s & os & Eos & E & _ & Hparse).
  exists t', s. split; [exact E|]. rewrite Hparse. fold t in Eos |- *. rewrite Ht in *.
  revert Eos. clear. intros Eos.
  assert (Hv : (let* os := si_preamble_ops titan10 xclipse530 in
                Ok (reg_file ∅ (requested no_env titan10 os) !! R_028C58_VGT_VERTEX_REUSE_BLOCK_CNTL))
               = Ok (Some 14)) by (vm_compute; reflexivity).
  rewrite Eos in Hv. cbn [res_bind] in Hv. by apply (inj Ok) in Hv.
Qed.

Lemma titan_reuse_clobbers_shader_control_witness :
  exists t' s,
    si_init_gfx_preamble_state never no_env (ac_titan_regmap_set_level no_env titan_init 10) xclipse530
      = Ok (t', s) /\
    reg_file ∅ (parse_gfx_compute_ib (dump s) skip_other) !! R_028C58_VGT_VERTEX_REUSE_BLOCK_CNTL = Some 14.
Proof. apply titan_reuse_clobbers_shader_control, skip_other_ok. Defined.

(** The headers of a stream of type-3 packets. *)
Fixpoint pkt3_headers (fuel : nat) (dws : list Z) : list Z :=
  match fuel, dws with
  | S fuel', h :: body => h :: pkt3_headers fuel' (drop (Z.to_nat (PKT_COUNT_G h + 1)) body)
  | _, _ => []
  end.

Definition is_pairs_header (h : Z) : bool :=
  opcode_is_pairs (PKT3_IT_OPCODE_G h) || opcode_is_pairs_packed (PKT3_IT_OPCODE_G h).

(** The [RESET_FILTER_CAM] bits of the pairs packets in the preamble of [c]. *)
Definition pairs_cams (c : si_context) : res (list Z) :=
  let* r := si_init_gfx_preamble_state never no_env titan_init c in
  Ok ((fun h => Z.land (Z.shiftr h 2) 1) <$>
        filter (fun h => is_pairs_header h = true) (pkt3_headers (length (dump (snd r))) (dump (snd r)))).

