(* ===== verification/ShadowRegs.v ===== *)
(** Register shadowing ([amd/common/ac_shadowed_regs.c]): the ranges of registers the firmware
    saves and restores, the command stream that gives every context register the value
    [CLEAR_STATE] would give it, and the preamble that loads the shadowed registers. *)

From S2P Require Import Prelude.
From S2P Require Import CLib.
From S2P Require Import TitanRegMap.
From S2P Require Import Packets.
From S2P Require Import Pm4.
From S2P Require Import RegFields.
From S2P Require Import Preamble.

#[local] Open Scope creg_scope.

(** ** Ranges of registers *)

(** [struct ac_reg_range]: a byte address and a size in bytes. *)
Abbreviation ac_reg_range := (Z * Z)%type.

Inductive ac_reg_range_type : Set :=
| SI_REG_RANGE_UCONFIG | SI_REG_RANGE_CONTEXT | SI_REG_RANGE_SH | SI_REG_RANGE_CS_SH.

Definition Gfx9UserConfigShadowRange : list ac_reg_range := [
  (0x0300FC, 4); (* CP_STRMOUT_CNTL *)
  (0x0301EC, 4); (* CP_COHER_START_DELAY *)
  (0x030904, 0x030908 - 0x030904 + 4); (* VGT_GSVS_RING_SIZE .. VGT_PRIMITIVE_TYPE *)
  (0x030920, 0x03092C - 0x030920 + 4); (* VGT_MAX_VTX_INDX .. VGT_MULTI_PRIM_IB_RESET_EN *)
  (0x030934, 0x030944 - 0x030934 + 4); (* VGT_NUM_INSTANCES .. VGT_TF_MEMORY_BASE_HI *)
  (0x030960, 4); (* IA_MULTI_VGT_PARAM *)
  (0x030968, 4); (* VGT_INSTANCE_BASE_ID *)
  (0x030E00, 0x030E04 - 0x030E00 + 4); (* TA_CS_BC_BASE_ADDR .. TA_CS_BC_BASE_ADDR_HI *)
  (0x030AD4, 4)]. (* PA_STATE_STEREO_X *)

Definition Gfx9ContextShadowRange : list ac_reg_range := [
  (0x028000, 0x028084 - 0x028000 + 4); (* DB_RENDER_CONTROL .. TA_BC_BASE_ADDR_HI *)
  (0x0281E8, 0x02835C - 0x0281E8 + 4); (* COHER_DEST_BASE_HI_0 .. PA_SC_TILE_STEERING_OVERRIDE *)
  (0x02840C, 4); (* VGT_MULTI_PRIM_IB_RESET_INDX *)
  (0x028414, 0x028618 - 0x028414 + 4); (* CB_BLEND_RED .. PA_CL_UCP_5_W *)
  (0x028644, 0x028714 - 0x028644 + 4); (* SPI_PS_INPUT_CNTL_0 .. SPI_SHADER_COL_FORMAT *)
  (0x028754, 0x0287BC - 0x028754 + 4); (* SX_PS_DOWNCONVERT .. CB_MRT7_EPITCH *)
  (0x028800, 0x028840 - 0x028800 + 4); (* DB_DEPTH_CONTROL .. PA_STEREO_CNTL *)
  (0x028A00, 0x028A0C - 0x028A00 + 4); (* PA_SU_POINT_SIZE .. PA_SC_LINE_STIPPLE *)
  (0x028A18, 0x028A1C - 0x028A18 + 4); (* VGT_HOS_MAX_TESS_LEVEL .. VGT_HOS_MIN_TESS_LEVEL *)
  (0x028A40, 0x028A6C - 0x028A40 + 4); (* VGT_GS_MODE .. VGT_GS_OUT_PRIM_TYPE *)
  (0x028A84, 4); (* VGT_PRIMITIVEID_EN *)
  (0x028A8C, 4); (* VGT_PRIMITIVEID_RESET *)
  (0x028A94, 0x028AD4 - 0x028A94 + 4); (* VGT_GS_MAX_PRIMS_PER_SUBGROUP .. VGT_STRMOUT_VTX_STRIDE_0 *)
  (0x028AE0, 0x028AE4 - 0x028AE0 + 4); (* VGT_STRMOUT_BUFFER_SIZE_1 .. VGT_STRMOUT_VTX_STRIDE_1 *)
  (0x028AF0, 0x028AF4 - 0x028AF0 + 4); (* VGT_STRMOUT_BUFFER_SIZE_2 .. VGT_STRMOUT_VTX_STRIDE_2 *)
  (0x028B00, 0x028B04 - 0x028B00 + 4); (* VGT_STRMOUT_BUFFER_SIZE_3 .. VGT_STRMOUT_VTX_STRIDE_3 *)
  (0x028B28, 0x028B30 - 0x028B28 + 4); (* VGT_STRMOUT_DRAW_OPAQUE_OFFSET .. VGT_STRMOUT_DRAW_OPAQUE_VERTEX_STRIDE *)
  (0x028B38, 0x028B98 - 0x028B38 + 4); (* VGT_GS_MAX_VERT_OUT .. VGT_STRMOUT_BUFFER_CONFIG *)
  (0x028BD4, 0x028E3C - 0x028BD4 + 4)]. (* PA_SC_CENTROID_PRIORITY_0 .. CB_COLOR7_DCC_BASE_EXT *)

Definition Gfx9ShShadowRange : list ac_reg_range := [
  (0x00B020, 0x00B0AC - 0x00B020 + 4); (* SPI_SHADER_PGM_LO_PS .. SPI_SHADER_USER_DATA_PS_31 *)
  (0x00B11C, 0x00B1AC - 0x00B11C + 4); (* SPI_SHADER_LATE_ALLOC_VS .. SPI_SHADER_USER_DATA_VS_31 *)
  (0x00B204, 0x00B214 - 0x00B204 + 4); (* SPI_SHADER_PGM_RSRC4_GS .. SPI_SHADER_PGM_HI_ES *)
  (0x00B220, 0x00B22C - 0x00B220 + 4); (* SPI_SHADER_PGM_LO_GS .. SPI_SHADER_PGM_RSRC2_GS *)
  (0x00B330, 0x00B3AC - 0x00B330 + 4); (* SPI_SHADER_USER_DATA_ES_0 .. SPI_SHADER_USER_DATA_ES_31 *)
  (0x00B404, 0x00B414 - 0x00B404 + 4); (* SPI_SHADER_PGM_RSRC4_HS .. SPI_SHADER_PGM_HI_LS *)
  (0x00B420, 0x00B4AC - 0x00B420 + 4)]. (* SPI_SHADER_PGM_LO_HS .. SPI_SHADER_USER_DATA_LS_31 *)

Definition Gfx9CsShShadowRange : list ac_reg_range := [
  (0x00B810, 0x00B824 - 0x00B810 + 4); (* COMPUTE_START_X .. COMPUTE_NUM_THREAD_Z *)
  (0x00B82C, 0x00B834 - 0x00B82C + 4); (* COMPUTE_PERFCOUNT_ENABLE .. COMPUTE_PGM_HI *)
  (0x00B848, 0x00B84C - 0x00B848 + 4); (* COMPUTE_PGM_RSRC1 .. COMPUTE_PGM_RSRC2 *)
  (0x00B854, 4); (* COMPUTE_RESOURCE_LIMITS *)
  (0x00B860, 4); (* COMPUTE_TMPRING_SIZE *)
  (0x00B878, 4); (* COMPUTE_THREAD_TRACE_ENABLE *)
  (0x00B900, 0x00B93C - 0x00B900 + 4)]. (* COMPUTE_USER_DATA_0 .. COMPUTE_USER_DATA_15 *)

Definition Gfx9ShShadowRangeRaven2 : list ac_reg_range := [
  (0x00B018, 4); (* SPI_SHADER_PGM_CHKSUM_PS *)
  (0x00B020, 0x00B0AC - 0x00B020 + 4); (* SPI_SHADER_PGM_LO_PS .. SPI_SHADER_USER_DATA_PS_31 *)
  (0x00B114, 4); (* SPI_SHADER_PGM_CHKSUM_VS *)
  (0x00B11C, 0x00B1AC - 0x00B11C + 4); (* SPI_SHADER_LATE_ALLOC_VS .. SPI_SHADER_USER_DATA_VS_31 *)
  (0x00B200, 0x00B214 - 0x00B200 + 4); (* SPI_SHADER_PGM_CHKSUM_GS .. SPI_SHADER_PGM_HI_ES *)
  (0x00B220, 0x00B22C - 0x00B220 + 4); (* SPI_SHADER_PGM_LO_GS .. SPI_SHADER_PGM_RSRC2_GS *)
  (0x00B330, 0x00B3AC - 0x00B330 + 4); (* SPI_SHADER_USER_DATA_ES_0 .. SPI_SHADER_USER_DATA_ES_31 *)
  (0x00B400, 0x00B414 - 0x00B400 + 4); (* SPI_SHADER_PGM_CHKSUM_HS .. SPI_SHADER_PGM_HI_LS *)
  (0x00B420, 0x00B4AC - 0x00B420 + 4)]. (* SPI_SHADER_PGM_LO_HS .. SPI_SHADER_USER_DATA_LS_31 *)

Definition Gfx9CsShShadowRangeRaven2 : list ac_reg_range := [
  (0x00B810, 0x00B824 - 0x00B810 + 4); (* COMPUTE_START_X .. COMPUTE_NUM_THREAD_Z *)
  (0x00B82C, 0x00B834 - 0x00B82C + 4); (* COMPUTE_PERFCOUNT_ENABLE .. COMPUTE_PGM_HI *)
  (0x00B848, 0x00B84C - 0x00B848 + 4); (* COMPUTE_PGM_RSRC1 .. COMPUTE_PGM_RSRC2 *)
  (0x00B854, 4); (* COMPUTE_RESOURCE_LIMITS *)
  (0x00B860, 4); (* COMPUTE_TMPRING_SIZE *)
  (0x00B878, 4); (* COMPUTE_THREAD_TRACE_ENABLE *)
  (0x00B894, 4); (* COMPUTE_SHADER_CHKSUM *)
  (0x00B900, 0x00B93C - 0x00B900 + 4)]. (* COMPUTE_USER_DATA_0 .. COMPUTE_USER_DATA_15 *)

Definition Nv10ContextShadowRange : list ac_reg_range := [
  (0x028000, 0x028084 - 0x028000 + 4); (* DB_RENDER_CONTROL .. TA_BC_BASE_ADDR_HI *)
  (0x0281E8, 0x02835C - 0x0281E8 + 4); (* COHER_DEST_BASE_HI_0 .. PA_SC_TILE_STEERING_OVERRIDE *)
  (0x02840C, 0x028618 - 0x02840C + 4); (* VGT_MULTI_PRIM_IB_RESET_INDX .. PA_CL_UCP_5_W *)
  (0x028644, 0x028714 - 0x028644 + 4); (* SPI_PS_INPUT_CNTL_0 .. SPI_SHADER_COL_FORMAT *)
  (0x028754, 0x02879C - 0x028754 + 4); (* SX_PS_DOWNCONVERT .. CB_BLEND7_CONTROL *)
  (0x0287D4, 0x0287E0 - 0x0287D4 + 4); (* PA_CL_POINT_X_RAD .. PA_CL_POINT_CULL_RAD *)
  (0x0287FC, 0x028844 - 0x0287FC + 4); (* GE_MAX_OUTPUT_PER_SUBGROUP .. PA_STATE_STEREO_X *)
  (0x028A00, 0x028A0C - 0x028A00 + 4); (* PA_SU_POINT_SIZE .. PA_SC_LINE_STIPPLE *)
  (0x028A18, 0x028A1C - 0x028A18 + 4); (* VGT_HOS_MAX_TESS_LEVEL .. VGT_HOS_MIN_TESS_LEVEL *)
  (0x028A40, 0x028A6C - 0x028A40 + 4); (* VGT_GS_MODE .. VGT_GS_OUT_PRIM_TYPE *)
  (0x028A84, 4); (* VGT_PRIMITIVEID_EN *)
  (0x028A8C, 4); (* VGT_PRIMITIVEID_RESET *)
  (0x028A98, 0x028B98 - 0x028A98 + 4); (* VGT_DRAW_PAYLOAD_CNTL .. VGT_STRMOUT_BUFFER_CONFIG *)
  (0x028BD4, 0x028EFC - 0x028BD4 + 4)]. (* PA_SC_CENTROID_PRIORITY_0 .. CB_COLOR7_ATTRIB3 *)

Definition Nv10UserConfigShadowRange : list ac_reg_range := [
  (0x0300FC, 4); (* CP_STRMOUT_CNTL *)
  (0x0301EC, 4); (* CP_COHER_START_DELAY *)
  (0x030904, 0x030908 - 0x030904 + 4); (* VGT_GSVS_RING_SIZE .. VGT_PRIMITIVE_TYPE *)
  (0x030964, 4); (* GE_MAX_VTX_INDX *)
  (0x030924, 0x03092C - 0x030924 + 4); (* GE_MIN_VTX_INDX .. GE_MULTI_PRIM_IB_RESET_EN *)
  (0x030934, 0x030940 - 0x030934 + 4); (* VGT_NUM_INSTANCES .. VGT_TF_MEMORY_BASE *)
  (0x03097C, 0x030984 - 0x03097C + 4); (* GE_STEREO_CNTL .. VGT_TF_MEMORY_BASE_HI *)
  (0x03096C, 4); (* GE_CNTL *)
  (0x030968, 4); (* VGT_INSTANCE_BASE_ID *)
  (0x030988, 4); (* GE_USER_VGPR_EN *)
  (0x030E00, 0x030E04 - 0x030E00 + 4)]. (* TA_CS_BC_BASE_ADDR .. TA_CS_BC_BASE_ADDR_HI *)

Definition Gfx10ShShadowRange : list ac_reg_range := [
  (0x00B018, 4); (* SPI_SHADER_PGM_CHKSUM_PS *)
  (0x00B020, 0x00B0AC - 0x00B020 + 4); (* SPI_SHADER_PGM_LO_PS .. SPI_SHADER_USER_DATA_PS_31 *)
  (0x00B0C8, 0x00B0D4 - 0x00B0C8 + 4); (* SPI_SHADER_USER_ACCUM_PS_0 .. SPI_SHADER_USER_ACCUM_PS_3 *)
  (0x00B114, 4); (* SPI_SHADER_PGM_CHKSUM_VS *)
  (0x00B11C, 0x00B1AC - 0x00B11C + 4); (* SPI_SHADER_LATE_ALLOC_VS .. SPI_SHADER_USER_DATA_VS_31 *)
  (0x00B1C8, 0x00B1D4 - 0x00B1C8 + 4); (* SPI_SHADER_USER_ACCUM_VS_0 .. SPI_SHADER_USER_ACCUM_VS_3 *)
  (0x00B320, 0x00B324 - 0x00B320 + 4); (* SPI_SHADER_PGM_LO_ES .. SPI_SHADER_PGM_HI_ES *)
  (0x00B520, 0x00B524 - 0x00B520 + 4); (* SPI_SHADER_PGM_LO_LS .. SPI_SHADER_PGM_HI_LS *)
  (0x00B200, 4); (* SPI_SHADER_PGM_CHKSUM_GS *)
  (0x00B220, 0x00B2AC - 0x00B220 + 4); (* SPI_SHADER_PGM_LO_GS .. SPI_SHADER_USER_DATA_GS_31 *)
  (0x00B208, 0x00B20C - 0x00B208 + 4); (* SPI_SHADER_USER_DATA_ADDR_LO_GS .. SPI_SHADER_USER_DATA_ADDR_HI_GS *)
  (0x00B408, 0x00B40C - 0x00B408 + 4); (* SPI_SHADER_USER_DATA_ADDR_LO_HS .. SPI_SHADER_USER_DATA_ADDR_HI_HS *)
  (0x00B2C8, 0x00B2D4 - 0x00B2C8 + 4); (* SPI_SHADER_USER_ACCUM_ESGS_0 .. SPI_SHADER_USER_ACCUM_ESGS_3 *)
  (0x00B400, 4); (* SPI_SHADER_PGM_CHKSUM_HS *)
  (0x00B420, 0x00B4AC - 0x00B420 + 4); (* SPI_SHADER_PGM_LO_HS .. SPI_SHADER_USER_DATA_HS_31 *)
  (0x00B4C8, 0x00B4D4 - 0x00B4C8 + 4); (* SPI_SHADER_USER_ACCUM_LSHS_0 .. SPI_SHADER_USER_ACCUM_LSHS_3 *)
  (0x00B0C0, 4); (* SPI_SHADER_REQ_CTRL_PS *)
  (0x00B1C0, 4)]. (* SPI_SHADER_REQ_CTRL_VS *)

Definition Gfx10CsShShadowRange : list ac_reg_range := [
  (0x00B810, 0x00B824 - 0x00B810 + 4); (* COMPUTE_START_X .. COMPUTE_NUM_THREAD_Z *)
  (0x00B82C, 0x00B834 - 0x00B82C + 4); (* COMPUTE_PERFCOUNT_ENABLE .. COMPUTE_PGM_HI *)
  (0x00B848, 0x00B84C - 0x00B848 + 4); (* COMPUTE_PGM_RSRC1 .. COMPUTE_PGM_RSRC2 *)
  (0x00B854, 4); (* COMPUTE_RESOURCE_LIMITS *)
  (0x00B860, 4); (* COMPUTE_TMPRING_SIZE *)
  (0x00B878, 4); (* COMPUTE_THREAD_TRACE_ENABLE *)
  (0x00B890, 0x00B8A0 - 0x00B890 + 4); (* COMPUTE_USER_ACCUM_0 .. COMPUTE_PGM_RSRC3 *)
  (0x00B8A8, 4); (* COMPUTE_SHADER_CHKSUM *)
  (0x00B900, 0x00B93C - 0x00B900 + 4); (* COMPUTE_USER_DATA_0 .. COMPUTE_USER_DATA_15 *)
  (0x00B9F4, 4)]. (* COMPUTE_DISPATCH_TUNNEL *)

Definition Gfx103ContextShadowRange : list ac_reg_range := [
  (0x028000, 0x028084 - 0x028000 + 4); (* DB_RENDER_CONTROL .. TA_BC_BASE_ADDR_HI *)
  (0x0281E8, 0x02835C - 0x0281E8 + 4); (* COHER_DEST_BASE_HI_0 .. PA_SC_TILE_STEERING_OVERRIDE *)
  (0x02840C, 0x028618 - 0x02840C + 4); (* VGT_MULTI_PRIM_IB_RESET_INDX .. PA_CL_UCP_5_W *)
  (0x028644, 0x028714 - 0x028644 + 4); (* SPI_PS_INPUT_CNTL_0 .. SPI_SHADER_COL_FORMAT *)
  (0x028750, 0x02879C - 0x028750 + 4); (* SX_PS_DOWNCONVERT_CONTROL .. CB_BLEND7_CONTROL *)
  (0x0287D4, 0x0287E0 - 0x0287D4 + 4); (* PA_CL_POINT_X_RAD .. PA_CL_POINT_CULL_RAD *)
  (0x0287FC, 0x028848 - 0x0287FC + 4); (* GE_MAX_OUTPUT_PER_SUBGROUP .. PA_CL_VRS_CNTL *)
  (0x028A00, 0x028A0C - 0x028A00 + 4); (* PA_SU_POINT_SIZE .. PA_SC_LINE_STIPPLE *)
  (0x028A18, 0x028A1C - 0x028A18 + 4); (* VGT_HOS_MAX_TESS_LEVEL .. VGT_HOS_MIN_TESS_LEVEL *)
  (0x028A40, 0x028A6C - 0x028A40 + 4); (* VGT_GS_MODE .. VGT_GS_OUT_PRIM_TYPE *)
  (0x028A84, 4); (* VGT_PRIMITIVEID_EN *)
  (0x028A8C, 4); (* VGT_PRIMITIVEID_RESET *)
  (0x028A98, 0x028B98 - 0x028A98 + 4); (* VGT_DRAW_PAYLOAD_CNTL .. VGT_STRMOUT_BUFFER_CONFIG *)
  (0x028BD4, 0x028EFC - 0x028BD4 + 4)]. (* PA_SC_CENTROID_PRIORITY_0 .. CB_COLOR7_ATTRIB3 *)

Definition Gfx103UserConfigShadowRange : list ac_reg_range := [
  (0x0300FC, 4); (* CP_STRMOUT_CNTL *)
  (0x0301EC, 4); (* CP_COHER_START_DELAY *)
  (0x030904, 0x030908 - 0x030904 + 4); (* VGT_GSVS_RING_SIZE .. VGT_PRIMITIVE_TYPE *)
  (0x030964, 4); (* GE_MAX_VTX_INDX *)
  (0x030924, 0x03092C - 0x030924 + 4); (* GE_MIN_VTX_INDX .. GE_MULTI_PRIM_IB_RESET_EN *)
  (0x030934, 0x030940 - 0x030934 + 4); (* VGT_NUM_INSTANCES .. VGT_TF_MEMORY_BASE *)
  (0x03097C, 0x030984 - 0x03097C + 4); (* GE_STEREO_CNTL .. VGT_TF_MEMORY_BASE_HI *)
  (0x03096C, 4); (* GE_CNTL *)
  (0x030968, 4); (* VGT_INSTANCE_BASE_ID *)
  (0x030E00, 0x030E04 - 0x030E00 + 4); (* TA_CS_BC_BASE_ADDR .. TA_CS_BC_BASE_ADDR_HI *)
  (0x030988, 0x03098C - 0x030988 + 4)]. (* GE_USER_VGPR_EN *)

Definition Gfx11ShShadowRange : list ac_reg_range := [
  (0x00B004, 1 * 4); (* SPI_SHADER_PGM_RSRC4_PS *)
  (0x00B018, 38 * 4); (* SPI_SHADER_PGM_CHKSUM_PS *)
  (0x00B0C0, 1 * 4); (* SPI_SHADER_REQ_CTRL_PS *)
  (0x00B0C8, 4 * 4); (* SPI_SHADER_USER_ACCUM_PS_0 *)
  (0x00B200, 2 * 4); (* SPI_SHADER_PGM_CHKSUM_GS *)
  (0x00B21C, 39 * 4); (* SPI_SHADER_PGM_RSRC3_GS *)
  (0x00B2C8, 4 * 4); (* SPI_SHADER_USER_ACCUM_ESGS_0 *)
  (0x00B320, 2 * 4); (* SPI_SHADER_PGM_LO_ES *)
  (0x00B400, 2 * 4); (* SPI_SHADER_PGM_CHKSUM_HS *)
  (0x00B41C, 37 * 4); (* SPI_SHADER_PGM_RSRC3_HS *)
  (0x00B4C8, 4 * 4); (* SPI_SHADER_USER_ACCUM_LSHS_0 *)
  (0x00B520, 2 * 4)]. (* SPI_SHADER_PGM_LO_LS *)

Definition Gfx11CsShShadowRange : list ac_reg_range := [
  (0x00B810, 6 * 4); (* COMPUTE_START_X *)
  (0x00B82C, 5 * 4); (* COMPUTE_PERFCOUNT_ENABLE *)
  (0x00B840, 4 * 4); (* COMPUTE_DISPATCH_SCRATCH_BASE_LO *)
  (0x00B854, 6 * 4); (* COMPUTE_RESOURCE_LIMITS *)
  (0x00B878, 1 * 4); (* COMPUTE_THREAD_TRACE_ENABLE *)
  (0x00B890, 5 * 4); (* COMPUTE_USER_ACCUM_0 *)
  (0x00B8A8, 6 * 4); (* COMPUTE_SHADER_CHKSUM *)
  (0x00B900, 16 * 4); (* COMPUTE_USER_DATA_0 *)
  (0x00B9F4, 1 * 4)]. (* COMPUTE_DISPATCH_TUNNEL *)

Definition Gfx11ContextShadowRange : list ac_reg_range := [
  (0x028000, 6 * 4); (* DB_RENDER_CONTROL *)
  (0x02801C, 7 * 4); (* DB_DEPTH_SIZE_XY *)
  (0x02803C, 10 * 4); (* DB_RESERVED_REG_2 *)
  (0x028068, 8 * 4); (* DB_Z_READ_BASE_HI *)
  (0x0281E8, 94 * 4); (* COHER_DEST_BASE_HI_0 *)
  (0x0283D0, 4 * 4); (* PA_SC_VRS_OVERRIDE_CNTL *)
  (0x0283E4, 1 * 4); (* PA_SC_VRS_RATE_CACHE_CNTL *)
  (0x0283F0, 3 * 4); (* PA_SC_VRS_RATE_BASE *)
  (0x02840C, 11 * 4); (* VGT_MULTI_PRIM_IB_RESET_INDX *)
  (0x02843C, 120 * 4); (* PA_CL_VPORT_XSCALE *)
  (0x02861C, 2 * 4); (* PA_CL_PROG_NEAR_CLIP_Z *)
  (0x028644, 33 * 4); (* SPI_PS_INPUT_CNTL_0 *)
  (0x0286CC, 6 * 4); (* SPI_PS_INPUT_ENA *)
  (0x0286E8, 3 * 4); (* SPI_TMPRING_SIZE *)
  (0x028708, 4 * 4); (* SPI_SHADER_IDX_FORMAT *)
  (0x028750, 20 * 4); (* SX_PS_DOWNCONVERT_CONTROL *)
  (0x0287D4, 4 * 4); (* PA_CL_POINT_X_RAD *)
  (0x0287FC, 14 * 4); (* GE_MAX_OUTPUT_PER_SUBGROUP *)
  (0x028838, 5 * 4); (* PA_CL_NGG_CNTL *)
  (0x028A00, 4 * 4); (* PA_SU_POINT_SIZE *)
  (0x028A18, 2 * 4); (* VGT_HOS_MAX_TESS_LEVEL *)
  (0x028A48, 3 * 4); (* PA_SC_MODE_CNTL_0 *)
  (0x028A84, 1 * 4); (* VGT_PRIMITIVEID_EN *)
  (0x028A8C, 1 * 4); (* VGT_PRIMITIVEID_RESET *)
  (0x028A98, 1 * 4); (* VGT_DRAW_PAYLOAD_CNTL *)
  (0x028AAC, 1 * 4); (* VGT_ESGS_RING_ITEMSIZE *)
  (0x028AB4, 1 * 4); (* VGT_REUSE_OFF *)
  (0x028ABC, 4 * 4); (* DB_HTILE_SURFACE *)
  (0x028B28, 3 * 4); (* VGT_STRMOUT_DRAW_OPAQUE_OFFSET *)
  (0x028B38, 1 * 4); (* VGT_GS_MAX_VERT_OUT *)
  (0x028B4C, 4 * 4); (* GE_NGG_SUBGRP_CNTL *)
  (0x028B6C, 2 * 4); (* VGT_TF_PARAM *)
  (0x028B78, 7 * 4); (* PA_SU_POLY_OFFSET_DB_FMT_CNTL *)
  (0x028BD4, 33 * 4); (* PA_SC_CENTROID_PRIORITY_0 *)
  (0x028C60, 1 * 4); (* CB_COLOR0_BASE *)
  (0x028C6C, 4 * 4); (* CB_COLOR0_VIEW *)
  (0x028C94, 1 * 4); (* CB_COLOR0_DCC_BASE *)
  (0x028C9C, 1 * 4); (* CB_COLOR1_BASE *)
  (0x028CA8, 4 * 4); (* CB_COLOR1_VIEW *)
  (0x028CD0, 1 * 4); (* CB_COLOR1_DCC_BASE *)
  (0x028CD8, 1 * 4); (* CB_COLOR2_BASE *)
  (0x028CE4, 4 * 4); (* CB_COLOR2_VIEW *)
  (0x028D0C, 1 * 4); (* CB_COLOR2_DCC_BASE *)
  (0x028D14, 1 * 4); (* CB_COLOR3_BASE *)
  (0x028D20, 4 * 4); (* CB_COLOR3_VIEW *)
  (0x028D48, 1 * 4); (* CB_COLOR3_DCC_BASE *)
  (0x028D50, 1 * 4); (* CB_COLOR4_BASE *)
  (0x028D5C, 4 * 4); (* CB_COLOR4_VIEW *)
  (0x028D84, 1 * 4); (* CB_COLOR4_DCC_BASE *)
  (0x028D8C, 1 * 4); (* CB_COLOR5_BASE *)
  (0x028D98, 4 * 4); (* CB_COLOR5_VIEW *)
  (0x028DC0, 1 * 4); (* CB_COLOR5_DCC_BASE *)
  (0x028DC8, 1 * 4); (* CB_COLOR6_BASE *)
  (0x028DD4, 4 * 4); (* CB_COLOR6_VIEW *)
  (0x028DFC, 1 * 4); (* CB_COLOR6_DCC_BASE *)
  (0x028E04, 1 * 4); (* CB_COLOR7_BASE *)
  (0x028E10, 4 * 4); (* CB_COLOR7_VIEW *)
  (0x028E38, 1 * 4); (* CB_COLOR7_DCC_BASE *)
  (0x028E40, 8 * 4); (* CB_COLOR0_BASE_EXT *)
  (0x028EA0, 24 * 4)]. (* CB_COLOR0_DCC_BASE_EXT *)

Definition Gfx11UserConfigShadowRange : list ac_reg_range := [
  (0x030908, 1 * 4); (* VGT_PRIMITIVE_TYPE *)
  (0x030924, 3 * 4); (* GE_MIN_VTX_INDX *)
  (0x030934, 4 * 4); (* VGT_NUM_INSTANCES *)
  (0x030964, 3 * 4); (* GE_MAX_VTX_INDX *)
  (0x03097C, 5 * 4); (* GE_STEREO_CNTL *)
  (0x030998, 1 * 4); (* VGT_GS_OUT_PRIM_TYPE *)
  (0x030A00, 2 * 4); (* PA_SU_LINE_STIPPLE_VALUE *)
  (0x030E00, 2 * 4); (* TA_CS_BC_BASE_ADDR *)
  (0x031110, 4 * 4)]. (* SPI_GS_THROTTLE_CNTL1 *)

(** [ac_get_reg_ranges]; with no table for the generation the list is empty. *)
Definition ac_get_reg_ranges (g : amd_gfx_level) (f : radeon_family) (type : ac_reg_range_type)
  : res (list ac_reg_range) :=
  assert! negb (gfx_le GFX12 g) in
  let at_level x := gfx_rank g =? gfx_rank x in
  let gfx11 := gfx_le GFX11 g && negb (gfx_le GFX12 g) in
  let raven2 := (family_rank f =? family_rank CHIP_RAVEN2) || (family_rank f =? family_rank CHIP_RENOIR) in
  Ok match type with
     | SI_REG_RANGE_UCONFIG =>
         if gfx11 then Gfx11UserConfigShadowRange
         else if at_level GFX10_3 then Gfx103UserConfigShadowRange
         else if at_level GFX10 then Nv10UserConfigShadowRange
         else if at_level GFX9 then Gfx9UserConfigShadowRange else []
     | SI_REG_RANGE_CONTEXT =>
         if gfx11 then Gfx11ContextShadowRange
         else if at_level GFX10_3 then Gfx103ContextShadowRange
         else if at_level GFX10 then Nv10ContextShadowRange
         else if at_level GFX9 then Gfx9ContextShadowRange else []
     | SI_REG_RANGE_SH =>
         if gfx11 then Gfx11ShShadowRange
         else if at_level GFX10_3 || at_level GFX10 then Gfx10ShShadowRange
         else if raven2 then Gfx9ShShadowRangeRaven2
         else if at_level GFX9 then Gfx9ShShadowRange else []
     | SI_REG_RANGE_CS_SH =>
         if gfx11 then Gfx11CsShShadowRange
         else if at_level GFX10_3 || at_level GFX10 then Gfx10CsShShadowRange
         else if raven2 then Gfx9CsShShadowRangeRaven2
         else if at_level GFX9 then Gfx9CsShShadowRange else []
     end.

(** ** The values of CLEAR_STATE *)

Definition DbRenderControlGfx9 : list Z := [
  0; 0; 0; 0; 0; 0; 0; 0;
  0; 0; 0; 0; 0; 0x40004000; 0; 0;
  0; 0; 0; 0; 0; 0; 0; 0;
  0; 0; 0; 0; 0; 0; 0; 0;
  0; 0].

Definition CoherDestBaseHi0Gfx9 : list Z := [
  0; 0; 0; 0; 0; 0; 0; 0x80000000;
  0x40004000; 0xffff; 0; 0x40004000; 0; 0x40004000; 0; 0x40004000;
  0; 0x40004000; 0xaa99aaaa; 0; 0xffffffff; 0xffffffff; 0x80000000; 0x40004000;
  0; 0; 0x80000000; 0x40004000; 0x80000000; 0x40004000; 0x80000000; 0x40004000;
  0x80000000; 0x40004000; 0x80000000; 0x40004000; 0x80000000; 0x40004000; 0x80000000; 0x40004000;
  0x80000000; 0x40004000; 0x80000000; 0x40004000; 0x80000000; 0x40004000; 0x80000000; 0x40004000;
  0x80000000; 0x40004000; 0x80000000; 0x40004000; 0x80000000; 0x40004000; 0x80000000; 0x40004000;
  0x80000000; 0x40004000; 0; 0x3f800000; 0; 0x3f800000; 0; 0x3f800000;
  0; 0x3f800000; 0; 0x3f800000; 0; 0x3f800000; 0; 0x3f800000;
  0; 0x3f800000; 0; 0x3f800000; 0; 0x3f800000; 0; 0x3f800000;
  0; 0x3f800000; 0; 0x3f800000; 0; 0x3f800000; 0; 0x3f800000;
  0; 0x3f800000; 0; 0; 0; 0].

Definition VgtMultiPrimIbResetIndxGfx9 : list Z := [
  0].

Definition CbBlendRedGfx9 : list Z := [
  0; 0; 0; 0; 0; 0; 0; 0x1000000;
  0x1000000; 0; 0; 0; 0; 0; 0; 0;
  0; 0; 0; 0; 0; 0; 0; 0;
  0; 0; 0; 0; 0; 0; 0; 0;
  0; 0; 0; 0; 0; 0; 0; 0;
  0; 0; 0; 0; 0; 0; 0; 0;
  0; 0; 0; 0; 0; 0; 0; 0;
  0; 0; 0; 0; 0; 0; 0; 0;
  0; 0; 0; 0; 0; 0; 0; 0;
  0; 0; 0; 0; 0; 0; 0; 0;
  0; 0; 0; 0; 0; 0; 0; 0;
  0; 0; 0; 0; 0; 0; 0; 0;
  0; 0; 0; 0; 0; 0; 0; 0;
  0; 0; 0; 0; 0; 0; 0; 0;
  0; 0; 0; 0; 0; 0; 0; 0;
  0; 0; 0; 0; 0; 0; 0; 0;
  0; 0].

Definition SpiPsInputCntl0Gfx9 : list Z := [
  0; 0; 0; 0; 0; 0; 0; 0;
  0; 0; 0; 0; 0; 0; 0; 0;
  0; 0; 0; 0; 0; 0; 0; 0;
  0; 0; 0; 0; 0; 0; 0; 0;
  0; 0; 0; 0; 0; 2; 0; 0;
  0; 0; 0; 0; 0; 0; 0; 0;
  0; 0; 0; 0; 0].

Definition SxPsDownconvertGfx9 : list Z := [
  0; 0; 0; 0; 0; 0; 0; 0;
  0; 0; 0; 0; 0; 0; 0; 0;
  0; 0; 0; 0; 0; 0; 0; 0;
  0; 0; 0].

Definition DbDepthControlGfx9 : list Z := [
  0; 0; 0; 0; 0x90000; 4; 0; 0;
  0; 0; 0; 0; 0; 0; 0; 0;
  0].

Definition PaSuPointSizeGfx9 : list Z := [
  0; 0; 0; 0].

Definition VgtHosMaxTessLevelGfx9 : list Z := [
  0; 0].

Definition VgtGsModeGfx9 : list Z := [
  0; 0; 0; 0; 0; 0x100; 0x80; 2;
  0; 0; 0; 0].

Definition VgtPrimitiveidEnGfx9 : list Z := [
  0].

Definition VgtPrimitiveidResetGfx9 : list Z := [
  0].

Definition VgtGsMaxPrimsPerSubgroupGfx9 : list Z := [
  0; 0; 0; 0; 0; 0; 0; 0;
  0; 0; 0; 0; 0; 0; 0; 0;
  0].

Definition VgtStrmoutBufferSize1Gfx9 : list Z := [
  0; 0].

Definition VgtStrmoutBufferSize2Gfx9 : list Z := [
  0; 0].

Definition VgtStrmoutBufferSize3Gfx9 : list Z := [
  0; 0].

Definition VgtStrmoutDrawOpaqueOffsetGfx9 : list Z := [
  0; 0; 0].

Definition VgtGsMaxVertOutGfx9 : list Z := [
  0; 0; 0; 0; 0; 0; 0; 0;
  0; 0; 0; 0; 0; 0; 0; 0;
  0; 0; 0; 0; 0; 0; 0; 0;
  0].

Definition PaScCentroidPriority0Gfx9 : list Z := [
  0; 0; 0x1000; 0; 5; 0x3f800000; 0x3f800000; 0x3f800000;
  0x3f800000; 0; 0; 0; 0; 0; 0; 0;
  0; 0; 0; 0; 0; 0; 0; 0;
  0; 0xffffffff; 0xffffffff; 0; 3; 0; 0x100000; 0;
  0; 0x1e; 0x20; 0; 0; 0; 0; 0;
  0; 0; 0; 0; 0; 0; 0; 0;
  0; 0; 0; 0; 0; 0; 0; 0;
  0; 0; 0; 0; 0; 0; 0; 0;
  0; 0; 0; 0; 0; 0; 0; 0;
  0; 0; 0; 0; 0; 0; 0; 0;
  0; 0; 0; 0; 0; 0; 0; 0;
  0; 0; 0; 0; 0; 0; 0; 0;
  0; 0; 0; 0; 0; 0; 0; 0;
  0; 0; 0; 0; 0; 0; 0; 0;
  0; 0; 0; 0; 0; 0; 0; 0;
  0; 0; 0; 0; 0; 0; 0; 0;
  0; 0; 0; 0; 0; 0; 0; 0;
  0; 0; 0; 0; 0; 0; 0; 0;
  0; 0; 0; 0; 0; 0; 0; 0;
  0; 0; 0].

Definition DbRenderControlNv10 : list Z := [
  0; 0; 0; 0; 0; 0; 0; 0;
  0; 0; 0; 0; 0; 0x40004000; 0; 0;
  0; 0; 0; 0; 0; 0; 0; 0;
  0; 0; 0; 0; 0; 0; 0; 0;
  0; 0].

Definition CoherDestBaseHi0Nv10 : list Z := [
  0; 0; 0; 0; 0; 0; 0; 0x80000000;
  0x40004000; 0xffff; 0; 0x40004000; 0; 0x40004000; 0; 0x40004000;
  0; 0x40004000; 0xaa99aaaa; 0; 0xffffffff; 0xffffffff; 0x80000000; 0x40004000;
  0; 0; 0x80000000; 0x40004000; 0x80000000; 0x40004000; 0x80000000; 0x40004000;
  0x80000000; 0x40004000; 0x80000000; 0x40004000; 0x80000000; 0x40004000; 0x80000000; 0x40004000;
  0x80000000; 0x40004000; 0x80000000; 0x40004000; 0x80000000; 0x40004000; 0x80000000; 0x40004000;
  0x80000000; 0x40004000; 0x80000000; 0x40004000; 0x80000000; 0x40004000; 0x80000000; 0x40004000;
  0x80000000; 0x40004000; 0; 0x3f800000; 0; 0x3f800000; 0; 0x3f800000;
  0; 0x3f800000; 0; 0x3f800000; 0; 0x3f800000; 0; 0x3f800000;
  0; 0x3f800000; 0; 0x3f800000; 0; 0x3f800000; 0; 0x3f800000;
  0; 0x3f800000; 0; 0x3f800000; 0; 0x3f800000; 0; 0x3f800000;
  0; 0x3f800000; 0; 0; 0; 0].

Definition VgtMultiPrimIbResetIndxNv10 : list Z := [
  0; 0; 0; 0; 0; 0; 0; 0;
  0; 0x1000000; 0x1000000; 0; 0; 0; 0; 0;
  0; 0; 0; 0; 0; 0; 0; 0;
  0; 0; 0; 0; 0; 0; 0; 0;
  0; 0; 0; 0; 0; 0; 0; 0;
  0; 0; 0; 0; 0; 0; 0; 0;
  0; 0; 0; 0; 0; 0; 0; 0;
  0; 0; 0; 0; 0; 0; 0; 0;
  0; 0; 0; 0; 0; 0; 0; 0;
  0; 0; 0; 0; 0; 0; 0; 0;
  0; 0; 0; 0; 0; 0; 0; 0;
  0; 0; 0; 0; 0; 0; 0; 0;
  0; 0; 0; 0; 0; 0; 0; 0;
  0; 0; 0; 0; 0; 0; 0; 0;
  0; 0; 0; 0; 0; 0; 0; 0;
  0; 0; 0; 0; 0; 0; 0; 0;
  0; 0; 0; 0].

Definition SpiPsInputCntl0Nv10 : list Z := [
  0; 0; 0; 0; 0; 0; 0; 0;
  0; 0; 0; 0; 0; 0; 0; 0;
  0; 0; 0; 0; 0; 0; 0; 0;
  0; 0; 0; 0; 0; 0; 0; 0;
  0; 0; 0; 0; 0; 2; 0; 0;
  0; 0; 0; 0; 0; 0; 0; 0;
  0; 0; 0; 0; 0].

Definition SxPsDownconvertNv10 : list Z := [
  0; 0; 0; 0; 0; 0; 0; 0;
  0; 0; 0; 0; 0; 0; 0; 0;
  0; 0; 0].

Definition PaClPointXRadNv10 : list Z := [
  0; 0; 0; 0].

Definition GeMaxOutputPerSubgroupNv10 : list Z := [
  0; 0; 0; 0; 0; 0x90000; 4; 0;
  0; 0; 0; 0; 0; 0; 0; 0;
  0; 0; 0].

Definition PaSuPointSizeNv10 : list Z := [
  0; 0; 0; 0].

Definition VgtHosMaxTessLevelNv10 : list Z := [
  0; 0].

Definition VgtGsModeNv10 : list Z := [
  0; 0; 0; 0; 0; 0x100; 0x80; 2;
  0; 0; 0; 0].

Definition VgtPrimitiveidEnNv10 : list Z := [
  0].

Definition VgtPrimitiveidResetNv10 : list Z := [
  0].

Definition VgtDrawPayloadCntlNv10 : list Z := [
  0; 0; 0; 0; 0; 0; 0; 0;
  0; 0; 0; 0; 0; 0; 0; 0;
  0; 0; 0; 0; 0; 0; 0; 0;
  0; 0; 0; 0; 0; 0; 0; 0;
  0; 0; 0; 0; 0; 0; 0; 0;
  0; 0; 0; 0; 0; 0; 0; 0;
  0; 0; 0; 0; 0; 0; 0; 0;
  0; 0; 0; 0; 0; 0; 0; 0;
  0].

Definition PaScCentroidPriority0Nv10 : list Z := [
  0; 0; 0x1000; 0; 5; 0x3f800000; 0x3f800000; 0x3f800000;
  0x3f800000; 0; 0; 0; 0; 0; 0; 0;
  0; 0; 0; 0; 0; 0; 0; 0;
  0; 0xffffffff; 0xffffffff; 0; 3; 0; 0x100000; 0;
  0; 0x1e; 0x20; 0; 0; 0; 0; 0;
  0; 0; 0; 0; 0; 0; 0; 0;
  0; 0; 0; 0; 0; 0; 0; 0;
  0; 0; 0; 0; 0; 0; 0; 0;
  0; 0; 0; 0; 0; 0; 0; 0;
  0; 0; 0; 0; 0; 0; 0; 0;
  0; 0; 0; 0; 0; 0; 0; 0;
  0; 0; 0; 0; 0; 0; 0; 0;
  0; 0; 0; 0; 0; 0; 0; 0;
  0; 0; 0; 0; 0; 0; 0; 0;
  0; 0; 0; 0; 0; 0; 0; 0;
  0; 0; 0; 0; 0; 0; 0; 0;
  0; 0; 0; 0; 0; 0; 0; 0;
  0; 0; 0; 0; 0; 0; 0; 0;
  0; 0; 0; 0; 0; 0; 0; 0;
  0; 0; 0; 0; 0; 0; 0; 0;
  0; 0; 0; 0; 0; 0; 0; 0;
  0; 0; 0; 0; 0; 0; 0; 0;
  0; 0; 0; 0; 0; 0; 0; 0;
  0; 0; 0; 0; 0; 0; 0; 0;
  0; 0; 0; 0; 0; 0; 0; 0;
  0; 0; 0].

Definition DbRenderControlGfx103 : list Z := [
  0; 0; 0; 0; 0; 0; 0; 0;
  0; 0; 0; 0; 0; 0x40004000; 0; 0;
  0; 0; 0; 0; 0; 0; 0; 0;
  0; 0; 0; 0; 0; 0; 0; 0;
  0; 0].

Definition CoherDestBaseHi0Gfx103 : list Z := [
  0; 0; 0; 0; 0; 0; 0; 0x80000000;
  0x40004000; 0xffff; 0; 0x40004000; 0; 0x40004000; 0; 0x40004000;
  0; 0x40004000; 0xaa99aaaa; 0; 0xffffffff; 0xffffffff; 0x80000000; 0x40004000;
  0; 0; 0x80000000; 0x40004000; 0x80000000; 0x40004000; 0x80000000; 0x40004000;
  0x80000000; 0x40004000; 0x80000000; 0x40004000; 0x80000000; 0x40004000; 0x80000000; 0x40004000;
  0x80000000; 0x40004000; 0x80000000; 0x40004000; 0x80000000; 0x40004000; 0x80000000; 0x40004000;
  0x80000000; 0x40004000; 0x80000000; 0x40004000; 0x80000000; 0x40004000; 0x80000000; 0x40004000;
  0x80000000; 0x40004000; 0; 0x3f800000; 0; 0x3f800000; 0; 0x3f800000;
  0; 0x3f800000; 0; 0x3f800000; 0; 0x3f800000; 0; 0x3f800000;
  0; 0x3f800000; 0; 0x3f800000; 0; 0x3f800000; 0; 0x3f800000;
  0; 0x3f800000; 0; 0x3f800000; 0; 0x3f800000; 0; 0x3f800000;
  0; 0x3f800000; 0; 0; 0; 0].

Definition VgtMultiPrimIbResetIndxGfx103 : list Z := [
  0; 0; 0; 0; 0; 0; 0; 0;
  0; 0x1000000; 0x1000000; 0; 0; 0; 0; 0;
  0; 0; 0; 0; 0; 0; 0; 0;
  0; 0; 0; 0; 0; 0; 0; 0;
  0; 0; 0; 0; 0; 0; 0; 0;
  0; 0; 0; 0; 0; 0; 0; 0;
  0; 0; 0; 0; 0; 0; 0; 0;
  0; 0; 0; 0; 0; 0; 0; 0;
  0; 0; 0; 0; 0; 0; 0; 0;
  0; 0; 0; 0; 0; 0; 0; 0;
  0; 0; 0; 0; 0; 0; 0; 0;
  0; 0; 0; 0; 0; 0; 0; 0;
  0; 0; 0; 0; 0; 0; 0; 0;
  0; 0; 0; 0; 0; 0; 0; 0;
  0; 0; 0; 0; 0; 0; 0; 0;
  0; 0; 0; 0; 0; 0; 0; 0;
  0; 0; 0; 0].

Definition SpiPsInputCntl0Gfx103 : list Z := [
  0; 0; 0; 0; 0; 0; 0; 0;
  0; 0; 0; 0; 0; 0; 0; 0;
  0; 0; 0; 0; 0; 0; 0; 0;
  0; 0; 0; 0; 0; 0; 0; 0;
  0; 0; 0; 0; 0; 2; 0; 0;
  0; 0; 0; 0; 0; 0; 0; 0;
  0; 0; 0; 0; 0].

Definition SxPsDownconvertControlGfx103 : list Z := [
  0; 0; 0; 0; 0; 0; 0; 0;
  0; 0; 0; 0; 0; 0; 0; 0;
  0; 0; 0; 0].

Definition PaClPointXRadGfx103 : list Z := [
  0; 0; 0; 0].

Definition GeMaxOutputPerSubgroupGfx103 : list Z := [
  0; 0; 0; 0; 0; 0x90000; 4; 0;
  0; 0; 0; 0; 0; 0; 0; 0;
  0; 0; 0; 0].

Definition PaSuPointSizeGfx103 : list Z := [
  0; 0; 0; 0].

Definition VgtHosMaxTessLevelGfx103 : list Z := [
  0; 0].

Definition VgtGsModeGfx103 : list Z := [
  0; 0; 0; 0; 0; 0x100; 0x80; 2;
  0; 0; 0; 0].

Definition VgtPrimitiveidEnGfx103 : list Z := [
  0].

Definition VgtPrimitiveidResetGfx103 : list Z := [
  0].

Definition VgtDrawPayloadCntlGfx103 : list Z := [
  0; 0; 0; 0; 0; 0; 0; 0;
  0; 0; 0; 0; 0; 0; 0; 0;
  0; 0; 0; 0; 0; 0; 0; 0;
  0; 0; 0; 0; 0; 0; 0; 0;
  0; 0; 0; 0; 0; 0; 0; 0;
  0; 0; 0; 0; 0; 0; 0; 0;
  0; 0; 0; 0; 0; 0; 0; 0;
  0; 0; 0; 0; 0; 0; 0; 0;
  0].

Definition PaScCentroidPriority0Gfx103 : list Z := [
  0; 0; 0x1000; 0; 5; 0x3f800000; 0x3f800000; 0x3f800000;
  0x3f800000; 0; 0; 0; 0; 0; 0; 0;
  0; 0; 0; 0; 0; 0; 0; 0;
  0; 0xffffffff; 0xffffffff; 0; 3; 0; 0x100000; 0;
  0; 0x1e; 0x20; 0; 0; 0; 0; 0;
  0; 0; 0; 0; 0; 0; 0; 0;
  0; 0; 0; 0; 0; 0; 0; 0;
  0; 0; 0; 0; 0; 0; 0; 0;
  0; 0; 0; 0; 0; 0; 0; 0;
  0; 0; 0; 0; 0; 0; 0; 0;
  0; 0; 0; 0; 0; 0; 0; 0;
  0; 0; 0; 0; 0; 0; 0; 0;
  0; 0; 0; 0; 0; 0; 0; 0;
  0; 0; 0; 0; 0; 0; 0; 0;
  0; 0; 0; 0; 0; 0; 0; 0;
  0; 0; 0; 0; 0; 0; 0; 0;
  0; 0; 0; 0; 0; 0; 0; 0;
  0; 0; 0; 0; 0; 0; 0; 0;
  0; 0; 0; 0; 0; 0; 0; 0;
  0; 0; 0; 0; 0; 0; 0; 0;
  0; 0; 0; 0; 0; 0; 0; 0;
  0; 0; 0; 0; 0; 0; 0; 0;
  0; 0; 0; 0; 0; 0; 0; 0;
  0; 0; 0; 0; 0; 0; 0; 0;
  0; 0; 0; 0; 0; 0; 0; 0;
  0; 0; 0].

(** ** Emulating CLEAR_STATE *)

Definition set_context_reg_seq_array (s : ac_pm4_state) (reg : Z) (values : list Z) : res ac_pm4_state :=
  let* s1 := ac_pm4_cmd_add s (PKT3 PKT3_SET_CONTEXT_REG (Z.of_nat (length values)) 0) in
  let* s2 := ac_pm4_cmd_add s1 (Z.shiftr (u32 (reg - SI_CONTEXT_REG_OFFSET)) 2) in
  cmd_adds s2 values.

(** A sequence of calls of [set_context_reg_seq_array]. *)
Fixpoint set_arrays (s : ac_pm4_state) (calls : list (Z * list Z)) : res ac_pm4_state :=
  match calls with
  | [] => Ok s
  | (reg, values) :: calls' => let* s1 := set_context_reg_seq_array s reg values in set_arrays s1 calls'
  end.

(** The calls of [gfx9_emulate_clear_state], in their order. *)
Definition gfx9_clear_arrays : list (Z * list Z) := [
  (0x028000, DbRenderControlGfx9); (* DB_RENDER_CONTROL *)
  (0x0281E8, CoherDestBaseHi0Gfx9); (* COHER_DEST_BASE_HI_0 *)
  (0x02840C, VgtMultiPrimIbResetIndxGfx9); (* VGT_MULTI_PRIM_IB_RESET_INDX *)
  (0x028414, CbBlendRedGfx9); (* CB_BLEND_RED *)
  (0x028644, SpiPsInputCntl0Gfx9); (* SPI_PS_INPUT_CNTL_0 *)
  (0x028754, SxPsDownconvertGfx9); (* SX_PS_DOWNCONVERT *)
  (0x028800, DbDepthControlGfx9); (* DB_DEPTH_CONTROL *)
  (0x028A00, PaSuPointSizeGfx9); (* PA_SU_POINT_SIZE *)
  (0x028A18, VgtHosMaxTessLevelGfx9); (* VGT_HOS_MAX_TESS_LEVEL *)
  (0x028A40, VgtGsModeGfx9); (* VGT_GS_MODE *)
  (0x028A84, VgtPrimitiveidEnGfx9); (* VGT_PRIMITIVEID_EN *)
  (0x028A8C, VgtPrimitiveidResetGfx9); (* VGT_PRIMITIVEID_RESET *)
  (0x028A94, VgtGsMaxPrimsPerSubgroupGfx9); (* VGT_GS_MAX_PRIMS_PER_SUBGROUP *)
  (0x028AE0, VgtStrmoutBufferSize1Gfx9); (* VGT_STRMOUT_BUFFER_SIZE_1 *)
  (0x028AF0, VgtStrmoutBufferSize2Gfx9); (* VGT_STRMOUT_BUFFER_SIZE_2 *)
  (0x028B00, VgtStrmoutBufferSize3Gfx9); (* VGT_STRMOUT_BUFFER_SIZE_3 *)
  (0x028B28, VgtStrmoutDrawOpaqueOffsetGfx9); (* VGT_STRMOUT_DRAW_OPAQUE_OFFSET *)
  (0x028B38, VgtGsMaxVertOutGfx9); (* VGT_GS_MAX_VERT_OUT *)
  (0x028BD4, PaScCentroidPriority0Gfx9)]. (* PA_SC_CENTROID_PRIORITY_0 *)

(** The calls of [gfx10_emulate_clear_state], in their order. *)
Definition gfx10_clear_arrays : list (Z * list Z) := [
  (0x028000, DbRenderControlNv10); (* DB_RENDER_CONTROL *)
  (0x0281E8, CoherDestBaseHi0Nv10); (* COHER_DEST_BASE_HI_0 *)
  (0x02840C, VgtMultiPrimIbResetIndxNv10); (* VGT_MULTI_PRIM_IB_RESET_INDX *)
  (0x028644, SpiPsInputCntl0Nv10); (* SPI_PS_INPUT_CNTL_0 *)
  (0x028754, SxPsDownconvertNv10); (* SX_PS_DOWNCONVERT *)
  (0x0287D4, PaClPointXRadNv10); (* PA_CL_POINT_X_RAD *)
  (0x0287FC, GeMaxOutputPerSubgroupNv10); (* GE_MAX_OUTPUT_PER_SUBGROUP *)
  (0x028A00, PaSuPointSizeNv10); (* PA_SU_POINT_SIZE *)
  (0x028A18, VgtHosMaxTessLevelNv10); (* VGT_HOS_MAX_TESS_LEVEL *)
  (0x028A40, VgtGsModeNv10); (* VGT_GS_MODE *)
  (0x028A84, VgtPrimitiveidEnNv10); (* VGT_PRIMITIVEID_EN *)
  (0x028A8C, VgtPrimitiveidResetNv10); (* VGT_PRIMITIVEID_RESET *)
  (0x028A98, VgtDrawPayloadCntlNv10); (* VGT_DRAW_PAYLOAD_CNTL *)
  (0x028BD4, PaScCentroidPriority0Nv10)]. (* PA_SC_CENTROID_PRIORITY_0 *)

(** The calls of [gfx103_emulate_clear_state], in their order. *)
Definition gfx103_clear_arrays : list (Z * list Z) := [
  (0x028000, DbRenderControlGfx103); (* DB_RENDER_CONTROL *)
  (0x0281E8, CoherDestBaseHi0Gfx103); (* COHER_DEST_BASE_HI_0 *)
  (0x02840C, VgtMultiPrimIbResetIndxGfx103); (* VGT_MULTI_PRIM_IB_RESET_INDX *)
  (0x028644, SpiPsInputCntl0Gfx103); (* SPI_PS_INPUT_CNTL_0 *)
  (0x028750, SxPsDownconvertControlGfx103); (* SX_PS_DOWNCONVERT_CONTROL *)
  (0x0287D4, PaClPointXRadGfx103); (* PA_CL_POINT_X_RAD *)
  (0x0287FC, GeMaxOutputPerSubgroupGfx103); (* GE_MAX_OUTPUT_PER_SUBGROUP *)
  (0x028A00, PaSuPointSizeGfx103); (* PA_SU_POINT_SIZE *)
  (0x028A18, VgtHosMaxTessLevelGfx103); (* VGT_HOS_MAX_TESS_LEVEL *)
  (0x028A40, VgtGsModeGfx103); (* VGT_GS_MODE *)
  (0x028A84, VgtPrimitiveidEnGfx103); (* VGT_PRIMITIVEID_EN *)
  (0x028A8C, VgtPrimitiveidResetGfx103); (* VGT_PRIMITIVEID_RESET *)
  (0x028A98, VgtDrawPayloadCntlGfx103); (* VGT_DRAW_PAYLOAD_CNTL *)
  (0x028BD4, PaScCentroidPriority0Gfx103)]. (* PA_SC_CENTROID_PRIORITY_0 *)

Definition gfx9_emulate_clear_state (s : ac_pm4_state) : res ac_pm4_state :=
  set_arrays s gfx9_clear_arrays.

(** The last loop sets the [num_reg_pairs] extra registers, one array element each. *)
Definition gfx10_emulate_clear_state (s : ac_pm4_state) (pairs : list (Z * Z)) : res ac_pm4_state :=
  let* s1 := set_arrays s gfx10_clear_arrays in
  set_arrays s1 ((fun p => (p.1, [p.2])) <$> pairs).

Definition gfx103_emulate_clear_state (s : ac_pm4_state) (pairs : list (Z * Z)) : res ac_pm4_state :=
  let* s1 := set_arrays s gfx103_clear_arrays in
  set_arrays s1 ((fun p => (p.1, [p.2])) <$> pairs).
(** [ac_emulate_clear_state], after a successful allocation. *)
Definition ac_emulate_clear_state (I : gpu_info) : res ac_pm4_state :=
  let s := ac_pm4_create_sized (pm4_info I) false 768 false in
  assert! gfx_lt I GFX11 in
  let pairs := [(0x02835C, pa_sc_tile_steering_override I)] in
  let* s1 :=
    if gfx_is I GFX10_3 then gfx103_emulate_clear_state s pairs
    else if gfx_is I GFX10 then gfx10_emulate_clear_state s pairs
    else if gfx_is I GFX9 then gfx9_emulate_clear_state s
    else Fault AssertFail (* UNREACHABLE *) in
  ac_pm4_finalize (fun _ => false) s1.

(** ** Loading the shadowed registers *)

Definition SI_SH_REG_SPACE_SIZE : Z := SI_SH_REG_END - SI_SH_REG_OFFSET.
Definition SI_CONTEXT_REG_SPACE_SIZE : Z := SI_CONTEXT_REG_END - SI_CONTEXT_REG_OFFSET.
Definition SI_UCONFIG_REG_SPACE_SIZE : Z := CIK_UCONFIG_REG_END - CIK_UCONFIG_REG_OFFSET.
Definition SI_SHADOWED_SH_REG_OFFSET : Z := 0.
Definition SI_SHADOWED_CONTEXT_REG_OFFSET : Z := SI_SH_REG_SPACE_SIZE.
Definition SI_SHADOWED_UCONFIG_REG_OFFSET : Z := SI_SH_REG_SPACE_SIZE + SI_CONTEXT_REG_SPACE_SIZE.
Definition SI_SHADOWED_REG_BUFFER_SIZE : Z :=
  SI_SH_REG_SPACE_SIZE + SI_CONTEXT_REG_SPACE_SIZE + SI_UCONFIG_REG_SPACE_SIZE.

Definition PKT3_PFP_SYNC_ME : Z := 0x42.
Definition PKT3_RELEASE_MEM : Z := 0x49.
Definition PKT3_ACQUIRE_MEM : Z := 0x58.
Definition PKT3_LOAD_UCONFIG_REG : Z := 0x5E.
Definition PKT3_LOAD_SH_REG : Z := 0x5F.
Definition PKT3_LOAD_CONTEXT_REG : Z := 0x61.

(** The [switch] of [ac_build_load_reg]: the place of the space in the shadow buffer, the base
    of the space, and the opcode. *)
Definition load_space (type : ac_reg_range_type) : Z * Z * Z :=
  match type with
  | SI_REG_RANGE_UCONFIG => (SI_SHADOWED_UCONFIG_REG_OFFSET, CIK_UCONFIG_REG_OFFSET, PKT3_LOAD_UCONFIG_REG)
  | SI_REG_RANGE_CONTEXT => (SI_SHADOWED_CONTEXT_REG_OFFSET, SI_CONTEXT_REG_OFFSET, PKT3_LOAD_CONTEXT_REG)
  | _ => (SI_SHADOWED_SH_REG_OFFSET, SI_SH_REG_OFFSET, PKT3_LOAD_SH_REG)
  end.

Fixpoint load_ranges_loop (s : ac_pm4_state) (offset : Z) (ranges : list ac_reg_range)
  : res ac_pm4_state :=
  match ranges with
  | [] => Ok s
  | (o, size) :: ranges' =>
      let* s1 := ac_pm4_cmd_add s (u32 (o - offset) / 4) in
      let* s2 := ac_pm4_cmd_add s1 (size / 4) in
      load_ranges_loop s2 offset ranges'
  end.

Definition ac_build_load_reg (I : gpu_info) (s : ac_pm4_state) (type : ac_reg_range_type)
    (gpu_address : Z) : res ac_pm4_state :=
  let* ranges := ac_get_reg_ranges (gfx_level (pm4_info I)) (family I) type in
  let '(place, offset, packet) := load_space type in
  let gpu_address := u64 (gpu_address + place) in
  let* s := ac_pm4_cmd_add s (PKT3 packet (1 + Z.of_nat (length ranges) * 2) 0) in
  let* s := ac_pm4_cmd_add s gpu_address in
  let* s := ac_pm4_cmd_add s (gpu_address ≫ 32) in
  load_ranges_loop s offset ranges.

(** [for (i = 0; i < SI_NUM_REG_RANGES; i++)]. *)
Definition all_range_types : list ac_reg_range_type :=
  [SI_REG_RANGE_UCONFIG; SI_REG_RANGE_CONTEXT; SI_REG_RANGE_SH; SI_REG_RANGE_CS_SH].

Fixpoint load_regs_loop (I : gpu_info) (s : ac_pm4_state) (gpu_address : Z)
    (types : list ac_reg_range_type) : res ac_pm4_state :=
  match types with
  | [] => Ok s
  | ty :: types' =>
      let* s1 := ac_build_load_reg I s ty gpu_address in load_regs_loop I s1 gpu_address types'
  end.

(** The cache flush and wait of each generation. *)
Definition shadowing_sync (I : gpu_info) : res (list Z) :=
  if gfx_ge I GFX11 then
    let rb_mask := BITFIELD64_MASK (max_render_backends I) in
    let gcr_cntl :=
      S_587_GL2_INV 1 ||| S_587_GL2_WB 1 |||
      (if gfx_ge I GFX12 then 0 else S_587_GLM_INV 1 ||| S_587_GLM_WB 1 ||| S_587_GL1_INV 1) |||
      S_587_GLV_INV 1 ||| S_587_GLK_INV 1 ||| S_587_GLI_INV V_587_GLI_ALL in
    Ok [PKT3 PKT3_EVENT_WRITE 2 0;
        EVENT_TYPE V_028A90_PIXEL_PIPE_STAT_CONTROL ||| EVENT_INDEX 1;
        PIXEL_PIPE_STATE_CNTL_COUNTER_ID 0 ||| PIXEL_PIPE_STATE_CNTL_STRIDE 2 |||
          PIXEL_PIPE_STATE_CNTL_INSTANCE_EN_LO rb_mask;
        PIXEL_PIPE_STATE_CNTL_INSTANCE_EN_HI rb_mask;
        PKT3 PKT3_RELEASE_MEM 6 0;
        S_491_EVENT_TYPE V_028A90_BOTTOM_OF_PIPE_TS ||| S_491_EVENT_INDEX 5 ||| S_491_PWS_ENABLE 1;
        0; 0; 0; 0; 0; 0;
        PKT3 PKT3_ACQUIRE_MEM 6 0;
        S_581B_PWS_STAGE_SEL V_581B_CP_PFP ||| S_581B_PWS_COUNTER_SEL V_581B_TS_SELECT |||
          S_581B_PWS_ENA2 1 ||| S_581B_PWS_COUNT 0;
        0xffffffff; 0x01ffffff; 0; 0; S_586B_PWS_ENA 1; gcr_cntl]
  else if gfx_ge I GFX10 then
    let gcr_cntl :=
      S_587_GL2_INV 1 ||| S_587_GL2_WB 1 ||| S_587_GLM_INV 1 ||| S_587_GLM_WB 1 |||
      S_587_GL1_INV 1 ||| S_587_GLV_INV 1 ||| S_587_GLK_INV 1 ||| S_587_GLI_INV V_587_GLI_ALL in
    Ok [PKT3 PKT3_ACQUIRE_MEM 6 0; 0; 0xffffffff; 0xffffff; 0; 0; 0x0000000A; gcr_cntl;
        PKT3 PKT3_PFP_SYNC_ME 0 0; 0]
  else if gfx_is I GFX9 then
    let cp_coher_cntl :=
      S_0301F0_SH_ICACHE_ACTION_ENA 1 ||| S_0301F0_SH_KCACHE_ACTION_ENA 1 |||
      S_0301F0_TC_ACTION_ENA 1 ||| S_0301F0_TCL1_ACTION_ENA 1 ||| S_0301F0_TC_WB_ACTION_ENA 1 in
    Ok [PKT3 PKT3_ACQUIRE_MEM 5 0; cp_coher_cntl; 0xffffffff; 0xffffff; 0; 0; 0x0000000A;
        PKT3 PKT3_PFP_SYNC_ME 0 0; 0]
  else Fault AssertFail. (* UNREACHABLE *)

(** [ac_create_shadowing_ib_preamble], after a successful allocation. *)
Definition ac_create_shadowing_ib_preamble (I : gpu_info) (gpu_address : Z) (dpbb_allowed : bool)
  : res ac_pm4_state :=
  let s := ac_pm4_create_sized (pm4_info I) false 256 false in
  let* s := cmd_adds s (if dpbb_allowed
                        then [PKT3 PKT3_EVENT_WRITE 0 0; EVENT_TYPE V_028A90_BREAK_BATCH ||| EVENT_INDEX 0]
                        else []) in
  let* s := cmd_adds s [PKT3 PKT3_EVENT_WRITE 0 0; EVENT_TYPE V_028A90_VS_PARTIAL_FLUSH ||| EVENT_INDEX 4] in
  let* s := cmd_adds s [PKT3 PKT3_EVENT_WRITE 0 0; EVENT_TYPE V_028A90_VGT_FLUSH ||| EVENT_INDEX 0] in
  let* sync := shadowing_sync I in
  let* s := cmd_adds s sync in
  let* s := cmd_adds s
    [PKT3 PKT3_CONTEXT_CONTROL 1 0;
     S_281_UPDATE_LOAD_ENABLES 1 ||| S_281_LOAD_PER_CONTEXT_STATE 1 ||| S_281_LOAD_CS_SH_REGS 1 |||
       S_281_LOAD_GFX_SH_REGS 1 ||| S_281_LOAD_GLOBAL_UCONFIG 1;
     S_282_UPDATE_SHADOW_ENABLES 1 ||| S_282_SHADOW_PER_CONTEXT_STATE 1 |||
       S_282_SHADOW_CS_SH_REGS 1 ||| S_282_SHADOW_GFX_SH_REGS 1 |||
       S_282_SHADOW_GLOBAL_UCONFIG 1 ||| S_282_SHADOW_GLOBAL_CONFIG 1] in
  let* s := load_regs_loop I s gpu_address all_range_types in
  ac_pm4_finalize (fun _ => false) s.

(** ** The check of the tables *)

(** What [ac_print_nonshadowed_reg] prints. *)
Inductive shadow_message : Set := Found_multiple_times (reg : Z) | Not_found (reg : Z).

Definition in_reg_range (reg : Z) (r : ac_reg_range) : bool := (r.1 <=? reg) && (reg <? r.1 + r.2).

(** The loop over the ranges of one type, with [found]. *)
Fixpoint print_ranges_loop (reg : Z) (found : bool) (ranges : list ac_reg_range)
  : bool * list shadow_message :=
  match ranges with
  | [] => (found, [])
  | r :: ranges' =>
      if in_reg_range reg r then
        let '(f, ms) := print_ranges_loop reg true ranges' in
        (f, if found then Found_multiple_times reg :: ms else ms)
      else print_ranges_loop reg found ranges'
  end.

Fixpoint print_types_loop (g : amd_gfx_level) (f : radeon_family) (reg : Z) (found : bool)
    (types : list ac_reg_range_type) : res (bool * list shadow_message) :=
  match types with
  | [] => Ok (found, [])
  | ty :: types' =>
      if found then Ok (found, [])
      else
        let* ranges := ac_get_reg_ranges g f ty in
        let '(found1, ms) := print_ranges_loop reg found ranges in
        let* r := print_types_loop g f reg found1 types' in
        Ok (fst r, ms ++ snd r)
  end.

Definition ac_print_nonshadowed_reg (g : amd_gfx_level) (f : radeon_family) (reg_offset : Z)
  : res (list shadow_message) :=
  let* r := print_types_loop g f reg_offset false all_range_types in
  Ok (snd r ++ if fst r then [] else [Not_found reg_offset]).
