(* ===== verification/ShadowProofs.v ===== *)
(** Correctness of register shadowing: the emulated [CLEAR_STATE] writes every context register
    of the shadow ranges and no other, the ranges of a generation are disjoint, and the
    preamble loads each of their registers from its own place in the shadow buffer. *)

From S2P Require Import Prelude.
From S2P Require Import CLib.
From S2P Require Import TitanRegMap.
From S2P Require Import Packets.
From S2P Require Import Pm4.
From S2P Require Import Pm4Proofs.
From S2P Require Import Pm4States.
From S2P Require Import RegFields.
From S2P Require Import Preamble.
From S2P Require Import PreambleProofs.
From S2P Require Import SiPreambleProofs.
From S2P Require Import ShadowRegs.

#[local] Open Scope creg_scope.

(** ** Streams of hand-made dwords *)

Lemma cmd_adds_app s a b : cmd_adds s (a ++ b) = let* s1 := cmd_adds s a in cmd_adds s1 b.
Proof.
  revert s. induction a as [|x a IH]; intros s; [done|]. cbn [app cmd_adds].
  destruct (ac_pm4_cmd_add s x); cbn [res_bind]; [apply IH|done].
Qed.

(** A fresh state that receives dwords and is closed holds those dwords. *)
Lemma raw_built is_pgm_lo i m dws :
  0 <= m < 0x4000 -> dws <> [] -> Z.of_nat (length dws) <= Z.max m 64 ->
  exists s, (let* s := cmd_adds (ac_pm4_create_sized i false m false) dws in ac_pm4_finalize is_pgm_lo s) = Ok s /\
    dump s = u32 <$> dws /\ ndw s = Z.of_nat (length dws).
Proof.
  intros Hm Hne Hlen. destruct (create_fresh is_pgm_lo i false m false ltac:(lia)) as (Hinv & _ & _ & Hx).
  set (s0 := ac_pm4_create_sized i false m false) in *.
  destruct (inv_view _ _ _ Hinv) as [junk Hs]. pose proof Hinv as (_ & _ & Hp & Hm4 & _).
  change (buffer [] None) with (@nil Z) in Hs.
  assert (Hj : Z.of_nat (length junk) = max_dw s0) by (rewrite Hp, Hs; done).
  rewrite (cmd_adds_at is_pgm_lo s0 [] junk dws Hs) by (done || (simpl; lia)). cbn [res_bind app].
  set (s1 := at_buf s0 (u32 <$> dws) (drop (length dws) junk)).
  rewrite finalize_split. cbn [set_last_opcode last_opcode].
  change (opcode_is_pairs_packed (u8 255)) with false. cbn [res_bind].
  rewrite sqtt_tail_other by discriminate. eexists. split; [reflexivity|].
  unfold dump. cbn [ndw pm4 set_pgm_lo set_last_opcode]. unfold s1. cbn [ndw pm4 at_buf].
  rewrite length_fmap, Nat2Z.id. split; [|done]. rewrite <- (length_fmap u32 dws) at 1. apply take_app_length.
Qed.

(** ** The emulated CLEAR_STATE *)

(** The packet of a call of [set_context_reg_seq_array]. *)
Definition array_packet (c : Z * list Z) : packet :=
  PktSeq PKT3_SET_CONTEXT_REG false ((c.1 - SI_CONTEXT_REG_OFFSET) / 4) 0 c.2.

(** A call the theorems speak of. *)
Definition array_ok (c : Z * list Z) : bool :=
  (SI_CONTEXT_REG_OFFSET <=? c.1) && (c.1 mod 4 =? 0) &&
  (c.1 + 4 * Z.of_nat (length c.2) <=? SI_CONTEXT_REG_END) && negb (bool_decide (c.2 = [])).

Lemma array_packet_ok c : array_ok c = true -> packet_ok (array_packet c).
Proof.
  unfold array_ok. rewrite !andb_true_iff, negb_true_iff, bool_decide_eq_false, Z.eqb_eq, !Z.leb_le.
  unfold SI_CONTEXT_REG_OFFSET, SI_CONTEXT_REG_END. intros (((H1 & H2) & H3) & H4).
  assert (0 < length c.2)%nat by (destruct c.2; [done|simpl; lia]).
  cbn [array_packet packet_ok]. unfold SI_CONTEXT_REG_OFFSET.
  split; [by eexists|]. split_and!; zdivmod.
Qed.

(** The dwords of a call. *)
Definition array_dws (c : Z * list Z) : list Z :=
  PKT3 PKT3_SET_CONTEXT_REG (Z.of_nat (length c.2)) 0
    :: Z.shiftr (u32 (c.1 - SI_CONTEXT_REG_OFFSET)) 2 :: c.2.

Lemma u32_id l : Forall in_u32 l -> u32 <$> l = l.
Proof. induction 1 as [|x l Hx Hl IH]; [done|]. cbn. by rewrite IH, u32_small. Qed.

Lemma array_dws_encode c :
  array_ok c = true -> Forall in_u32 c.2 -> u32 <$> array_dws c = encode_packet (array_packet c).
Proof.
  intros Hc Hv. pose proof (array_packet_ok c Hc) as Hp. cbn [array_packet packet_ok] in Hp.
  unfold array_ok in Hc. rewrite !andb_true_iff, Z.eqb_eq, !Z.leb_le in Hc. destruct Hc as (((H1 & H2) & H3) & _).
  unfold array_dws. cbn [fmap list_fmap array_packet encode_packet]. f_equal; [|f_equal; [|by apply u32_id]].
  - rewrite <- (header_u32 PKT3_SET_CONTEXT_REG _ false) by (unfold PKT3_SET_CONTEXT_REG; lia). f_equal.
    unfold pkt3_header. change (PKT3_RESET_FILTER_CAM_S _) with 0. by rewrite Z.lor_0_r.
  - change (u32 (Z.shiftl 0 28)) with 0. rewrite Z.lor_0_r. unfold SI_CONTEXT_REG_OFFSET, SI_CONTEXT_REG_END in *.
    rewrite (u32_small (c.1 - _)), shiftr_div by (unfold in_u32; lia). apply u32_small. unfold in_u32. zdivmod.
Qed.

Lemma set_arrays_adds calls : forall s, set_arrays s calls = cmd_adds s (concat (array_dws <$> calls)).
Proof.
  induction calls as [|[reg values] calls IH]; intros s; [done|]. cbn [set_arrays fmap list_fmap concat].
  rewrite cmd_adds_app. change (cmd_adds s (array_dws (reg, values))) with (set_context_reg_seq_array s reg values).
  destruct (set_context_reg_seq_array s reg values); cbn [res_bind]; [apply IH|done].
Qed.

Lemma arrays_encode calls :
  forallb array_ok calls = true -> Forall (fun c => Forall in_u32 c.2) calls ->
  u32 <$> concat (array_dws <$> calls) = encode_packets (array_packet <$> calls).
Proof.
  intros Hok Hv. induction Hv as [|c calls Hc Hv IH]; [done|].
  cbn [forallb] in Hok. apply andb_true_iff in Hok as [Ho Hok]. unfold encode_packets in *.
  cbn [fmap list_fmap concat]. by rewrite fmap_app, IH, array_dws_encode.
Qed.

(** The arrays of a generation, with the extra register. *)
Definition clear_arrays (I : gpu_info) : list (Z * list Z) :=
  if gfx_is I GFX10_3 then gfx103_clear_arrays ++ [(0x02835C, [pa_sc_tile_steering_override I])]
  else if gfx_is I GFX10 then gfx10_clear_arrays ++ [(0x02835C, [pa_sc_tile_steering_override I])]
  else gfx9_clear_arrays.

(** The generations [ac_emulate_clear_state] knows. *)
Definition emulated (I : gpu_info) : bool := gfx_is I GFX9 || gfx_is I GFX10 || gfx_is I GFX10_3.

Lemma emulated_cases I (P : bool -> list (Z * list Z) -> Prop) :
  emulated I = true ->
  P true (gfx103_clear_arrays ++ [(0x02835C, [pa_sc_tile_steering_override I])]) ->
  P true (gfx10_clear_arrays ++ [(0x02835C, [pa_sc_tile_steering_override I])]) ->
  P false gfx9_clear_arrays -> P (gfx_ge I GFX10) (clear_arrays I).
Proof.
  unfold emulated, clear_arrays, gfx_is, gfx_ge, gfx_upto.
  by destruct (gfx_level (pm4_info I)).
Qed.

Lemma emulate_adds I :
  emulated I = true ->
  ac_emulate_clear_state I =
    let* s := cmd_adds (ac_pm4_create_sized (pm4_info I) false 768 false) (concat (array_dws <$> clear_arrays I)) in
    ac_pm4_finalize (fun _ => false) s.
Proof.
  intros He. unfold ac_emulate_clear_state. rewrite <- set_arrays_adds.
  assert (H11 : gfx_lt I GFX11 = true).
  { revert He. unfold emulated, gfx_is, gfx_lt, gfx_ge, gfx_upto. by destruct (gfx_level (pm4_info I)). }
  rewrite H11. cbn [assert_ res_bind].
  assert (Happ : forall s a b, set_arrays s (a ++ b) = let* s1 := set_arrays s a in set_arrays s1 b).
  { intros s a b. rewrite !set_arrays_adds, fmap_app, concat_app, cmd_adds_app.
    destruct (cmd_adds s _); cbn [res_bind]; [by rewrite set_arrays_adds|done]. }
  unfold clear_arrays, gfx103_emulate_clear_state, gfx10_emulate_clear_state, gfx9_emulate_clear_state.
  cbn [fmap list_fmap fst snd].
  destruct (gfx_is I GFX10_3) eqn:E3; [rewrite Happ; reflexivity|].
  destruct (gfx_is I GFX10) eqn:E0; [rewrite Happ; reflexivity|].
  unfold emulated in He. rewrite E3, E0, !orb_false_r in He. rewrite He. reflexivity.
Qed.

Definition in_u32b (x : Z) : bool := (0 <=? x) && (x <? 2 ^ 32).

Lemma in_u32b_ok l : forallb in_u32b l = true -> Forall in_u32 l.
Proof.
  intros H. apply Forall_forall. intros x Hx. apply (forallb_elem _ _ _ H) in Hx.
  unfold in_u32b in Hx. rewrite andb_true_iff, Z.leb_le, Z.ltb_lt in Hx. exact Hx.
Qed.

(** The writes of the emulated state. *)
Definition clear_writes (I : gpu_info) : list write :=
  concat (packet_writes <$> (array_packet <$> clear_arrays I)).

Definition array_fine (c : Z * list Z) : bool := array_ok c && forallb in_u32b c.2.

Lemma array_fine_all l :
  forallb array_fine l = true -> forallb array_ok l = true /\ Forall (fun c => Forall in_u32 c.2) l.
Proof.
  induction l as [|c l IH]; [done|]. cbn [forallb]. unfold array_fine at 1. rewrite !andb_true_iff.
  intros [[H1 H2] Hl]. destruct (IH Hl) as [H3 H4]. split; [by split|].
  constructor; [by apply in_u32b_ok|done].
Qed.

Lemma gfx9_arrays_fine : forallb array_fine gfx9_clear_arrays = true.
Proof. vm_compute. reflexivity. Qed.
Lemma gfx10_arrays_fine : forallb array_fine gfx10_clear_arrays = true.
Proof. vm_compute. reflexivity. Qed.
Lemma gfx103_arrays_fine : forallb array_fine gfx103_clear_arrays = true.
Proof. vm_compute. reflexivity. Qed.

Lemma fine_snoc l v :
  in_u32 v -> forallb array_fine l = true -> forallb array_fine (l ++ [(0x02835C, [v])]) = true.
Proof.
  intros Hv Hl. assert (Hb : in_u32b v = true).
  { unfold in_u32b. apply andb_true_iff. rewrite Z.leb_le, Z.ltb_lt. exact Hv. }
  rewrite forallb_app, Hl. cbn [forallb andb]. unfold array_fine. cbn [snd forallb]. rewrite Hb. reflexivity.
Qed.

Lemma arrays_fine I :
  emulated I = true -> in_u32 (pa_sc_tile_steering_override I) ->
  forallb array_ok (clear_arrays I) = true /\ Forall (fun c => Forall in_u32 c.2) (clear_arrays I).
Proof.
  intros He Hv. apply array_fine_all.
  apply (emulated_cases I (fun _ l => forallb array_fine l = true) He).
  - apply fine_snoc; [exact Hv|exact gfx103_arrays_fine].
  - apply fine_snoc; [exact Hv|exact gfx10_arrays_fine].
  - exact gfx9_arrays_fine.
Qed.

(** The registers of a range, and of all ranges of a type. *)
Definition range_regs (r : ac_reg_range) : list Z := (fun k => r.1 + 4 * k) <$> seqZ 0 (r.2 / 4).

Definition shadow_regs (g : amd_gfx_level) (f : radeon_family) (type : ac_reg_range_type) : list Z :=
  match ac_get_reg_ranges g f type with Ok rs => concat (range_regs <$> rs) | Fault _ => [] end.

Definition context_regs (I : gpu_info) : list Z :=
  shadow_regs (gfx_level (pm4_info I)) (family I) SI_REG_RANGE_CONTEXT.

Definition memb (x : Z) (l : list Z) : bool := existsb (Z.eqb x) l.

Lemma memb_ok x l : memb x l = true <-> x ∈ l.
Proof.
  unfold memb. rewrite existsb_exists. setoid_rewrite Z.eqb_eq. rewrite list_elem_of_In.
  split; [intros (y & Hy & ->); exact Hy|by exists x].
Qed.

Definition same_set (a b : list Z) : bool :=
  forallb (fun x => memb x b) a && forallb (fun x => memb x a) b.

Lemma same_set_ok a b r : same_set a b = true -> r ∈ a <-> r ∈ b.
Proof.
  unfold same_set. intros [Ha Hb]%andb_true_iff. split; intros Hr;
    [apply (forallb_elem _ _ _ Ha) in Hr|apply (forallb_elem _ _ _ Hb) in Hr];
    by apply memb_ok in Hr.
Qed.

Lemma clear_writes_regs I r : emulated I = true -> r ∈ (clear_writes I).*1 <-> r ∈ context_regs I.
Proof.
  intros He. apply same_set_ok. unfold context_regs, clear_writes, clear_arrays.
  unfold emulated, gfx_is, gfx_ge, gfx_upto in *. generalize (pa_sc_tile_steering_override I). intros v.
  generalize (family I). intros f.
  destruct (gfx_level (pm4_info I)); try done; vm_compute; reflexivity.
Qed.

(** A register that is written does not depend on the registers before. *)
Lemma reg_file_written ws r : r ∈ ws.*1 -> exists v, forall m, reg_file m ws !! r = Some v.
Proof.
  induction ws as [|w ws IH] using rev_ind; [by intros ?%not_elem_of_nil|].
  rewrite fmap_app. intros Hr%elem_of_app. change ([w].*1) with [w.1] in Hr. rewrite list_elem_of_singleton in Hr.
  destruct (decide (r = w.1)) as [->|Hne].
  - exists w.2. intros m. rewrite reg_file_app. apply lookup_insert_eq.
  - destruct Hr as [Hr|Hr]; [|congruence]. destruct (IH Hr) as [v Hv]. exists v. intros m.
    rewrite reg_file_app. simpl. by rewrite lookup_insert_ne.
Qed.

Lemma clear_state_built I other :
  emulated I = true -> in_u32 (pa_sc_tile_steering_override I) -> other_skips other ->
  exists s, ac_emulate_clear_state I = Ok s /\ ndw s <= 768 /\
    parse_gfx_compute_ib (dump s) other = clear_writes I.
Proof.
  intros He Hv Ho. destruct (arrays_fine I He Hv) as [Hok H32].
  assert (Hlen : Z.of_nat (length (concat (array_dws <$> clear_arrays I))) <= 768 /\
    concat (array_dws <$> clear_arrays I) <> []).
  { apply (emulated_cases I (fun _ l => Z.of_nat (length (concat (array_dws <$> l))) <= 768 /\
      concat (array_dws <$> l) <> []) He); (split; [vm_compute; discriminate|discriminate]). }
  destruct (raw_built (fun _ => false) (pm4_info I) 768 (concat (array_dws <$> clear_arrays I)))
    as (s & E & Hd & Hn); [lia|apply Hlen|lia|].
  exists s. rewrite emulate_adds by done. split; [exact E|]. split; [lia|].
  rewrite Hd, arrays_encode by done. apply parse_encode_packets; [done|].
  apply Forall_fmap, Forall_forall. intros c Hc. apply array_packet_ok. by apply (forallb_elem _ _ _ Hok).
Qed.

Lemma override_last m l v :
  reg_file m (concat (packet_writes <$> (array_packet <$> (l ++ [(0x02835C, [v])])))) !! 0x02835C = Some v.
Proof. rewrite !fmap_app, concat_app, reg_file_app. apply lookup_insert_eq. Qed.


(** ** The tables *)

(** The ranges of all types. *)
Definition all_ranges (g : amd_gfx_level) (f : radeon_family) : list (ac_reg_range_type * ac_reg_range) :=
  concat ((fun ty => match ac_get_reg_ranges g f ty with
                     | Ok rs => pair ty <$> rs | Fault _ => [] end) <$> all_range_types).

Definition apart (a b : ac_reg_range) : bool := (a.1 + a.2 <=? b.1) || (b.1 + b.2 <=? a.1).

Fixpoint pairwise_apart (l : list ac_reg_range) : bool :=
  match l with [] => true | r :: l' => forallb (apart r) l' && pairwise_apart l' end.

(** A range of whole dwords inside its space. *)
Definition range_ok (p : ac_reg_range_type * ac_reg_range) : bool :=
  let base := snd (fst (load_space p.1)) in
  let space_end := match p.1 with
                   | SI_REG_RANGE_UCONFIG => CIK_UCONFIG_REG_END
                   | SI_REG_RANGE_CONTEXT => SI_CONTEXT_REG_END
                   | _ => SI_SH_REG_END end in
  (base <=? p.2.1) && (p.2.1 mod 4 =? 0) && (0 <? p.2.2) && (p.2.2 mod 4 =? 0) &&
  (p.2.1 + p.2.2 <=? space_end).

Lemma tables_ok g f :
  gfx_le GFX12 g = false -> pairwise_apart (all_ranges g f).*2 && forallb range_ok (all_ranges g f) = true.
Proof.
  unfold all_ranges, ac_get_reg_ranges. cbn [all_range_types fmap list_fmap concat].
  generalize ((family_rank f =? family_rank CHIP_RAVEN2) || (family_rank f =? family_rank CHIP_RENOIR)).
  intros b. destruct g; try done; intros _; destruct b; vm_compute; reflexivity.
Qed.

Lemma pairwise_apart_lookup l i j a b :
  pairwise_apart l = true -> (i < j)%nat -> l !! i = Some a -> l !! j = Some b -> apart a b = true.
Proof.
  revert i j. induction l as [|r l IH]; intros i j; [done|]. cbn [pairwise_apart].
  intros [Hr Hl]%andb_true_iff Hij Hi Hj. destruct j as [|j]; [lia|]. cbn in Hj. destruct i as [|i].
  - injection Hi as ->. apply (forallb_elem _ _ _ Hr). by apply list_elem_of_lookup_2 in Hj.
  - apply (IH i j); [done|lia|done|done].
Qed.

(** No register is in two ranges. *)
Lemma apart_unique l i j a b reg :
  pairwise_apart l = true -> l !! i = Some a -> l !! j = Some b -> in_reg_range reg a = true -> in_reg_range reg b = true -> i = j.
Proof.
  intros Hl Hi Hj. unfold in_reg_range. rewrite !andb_true_iff, !Z.leb_le, !Z.ltb_lt. intros Ha Hb.
  assert (Hap : apart a b = false).
  { unfold apart. apply orb_false_iff. rewrite !Z.leb_gt. lia. }
  destruct (decide (i < j)%nat) as [Hlt|]; [by rewrite (pairwise_apart_lookup l i j a b) in Hap|].
  destruct (decide (j < i)%nat) as [Hlt|]; [|lia].
  pose proof (pairwise_apart_lookup l j i b a Hl Hlt Hj Hi) as H. unfold apart in *.
  rewrite orb_comm in H. congruence.
Qed.

(** ** The check of the tables *)

Lemma get_ranges_ok g f ty : gfx_le GFX12 g = false -> exists rs, ac_get_reg_ranges g f ty = Ok rs.
Proof. unfold ac_get_reg_ranges. intros ->. by eexists. Qed.

Lemma print_ranges_clean reg rs :
  pairwise_apart rs = true -> print_ranges_loop reg false rs = (existsb (in_reg_range reg) rs, []).
Proof.
  induction rs as [|r rs IH]; [done|]. cbn [pairwise_apart print_ranges_loop existsb].
  intros [Hr Hap]%andb_true_iff. destruct (in_reg_range reg r) eqn:E; [|by rewrite IH]. cbn [orb].
  assert (Hno : forallb (fun r' => negb (in_reg_range reg r')) rs = true).
  { apply forallb_forall. intros r' Hr'%list_elem_of_In. apply (forallb_elem _ _ _ Hr) in Hr'.
    revert Hr' E. unfold apart, in_reg_range.
    rewrite orb_true_iff, negb_true_iff, andb_true_iff, andb_false_iff, !Z.leb_le, !Z.ltb_lt, Z.leb_gt, Z.ltb_ge. lia. }
  clear -Hno. induction rs as [|r' rs IH]; [done|]. cbn [forallb] in Hno.
  apply andb_true_iff in Hno as [H1%negb_true_iff H2]. cbn [print_ranges_loop]. rewrite H1. by apply IH.
Qed.

Lemma pairwise_apart_app a b : pairwise_apart (a ++ b) = true -> pairwise_apart a = true /\ pairwise_apart b = true.
Proof.
  induction a as [|r a IH]; [done|]. cbn [app pairwise_apart]. rewrite forallb_app, !andb_true_iff.
  intros [[H1 H2] H3]. destruct (IH H3). by split_and!.
Qed.

(** The tables list a register at most once, as the comment of [ac_print_nonshadowed_reg]
    asserts: it never warns, and reports exactly the registers of no range. *)
Lemma print_nonshadowed g f reg :
  gfx_le GFX12 g = false ->
  ac_print_nonshadowed_reg g f reg =
    Ok (if existsb (in_reg_range reg) (all_ranges g f).*2 then [] else [Not_found reg]).
Proof.
  intros H12. pose proof (proj1 (andb_prop _ _ (tables_ok g f H12))) as Hap.
  assert (Hloop : print_types_loop g f reg false all_range_types =
    Ok (existsb (in_reg_range reg) (all_ranges g f).*2, [])).
  { revert Hap. unfold all_ranges. generalize all_range_types as tys.
    induction tys as [|ty tys IH]; [done|]. cbn [print_types_loop]. rewrite fmap_cons. cbn [concat].
    destruct (get_ranges_ok g f ty H12) as [rs ->]. cbn [res_bind].
    assert (E : (pair ty <$> rs).*2 = rs) by (rewrite <- list_fmap_compose; apply list_fmap_id).
    rewrite fmap_app, E, existsb_app. intros [H1 H2]%pairwise_apart_app. rewrite print_ranges_clean by done.
    destruct (existsb (in_reg_range reg) rs); cbn [orb]; [by destruct tys|]. by rewrite IH. }
  unfold ac_print_nonshadowed_reg. rewrite Hloop. cbn [res_bind fst snd app]. by destruct (existsb _ _).
Qed.

(** ** The shadow buffer *)

(** Packets of any opcode, as header and body; [frames] cuts a stream at the counts of its
    headers. *)
Definition frame_dws (f : Z * list Z) : list Z := PKT3 f.1 (Z.of_nat (length f.2) - 1) 0 :: f.2.

Fixpoint frames (fuel : nat) (dws : list Z) : option (list (Z * list Z)) :=
  match fuel, dws with
  | _, [] => Some []
  | O, _ => None
  | S fuel', h :: rest =>
      let n := Z.to_nat (PKT_COUNT_G h + 1) in
      if (PKT_TYPE_G h =? 3) && bool_decide (n <= length rest)%nat then
        (fun fs => (PKT3_IT_OPCODE_G h, take n rest) :: fs) <$> frames fuel' (drop n rest)
      else None
  end.

Definition frame_ok (f : Z * list Z) : bool :=
  (0 <=? f.1) && (f.1 <? 256) && (0 <? Z.of_nat (length f.2)) && (Z.of_nat (length f.2) <? 0x4000).

Lemma frames_app fs : forall fuel, (length fs <= fuel)%nat ->
  forallb frame_ok fs = true -> frames fuel (concat (frame_dws <$> fs)) = Some fs.
Proof.
  induction fs as [|[op body] fs IH]; intros fuel Hf Hok; [by destruct fuel|].
  destruct fuel as [|fuel]; [simpl in Hf; lia|]. cbn [forallb] in Hok. apply andb_true_iff in Hok as [H1 Hok].
  unfold frame_ok in H1. cbn [fst snd] in H1. rewrite !andb_true_iff, Z.leb_le, !Z.ltb_lt in H1.
  destruct H1 as (((H1 & H2) & H3) & H4). cbn [fmap list_fmap concat frame_dws fst snd app frames].
  destruct (pkt3_header_fields op (Z.of_nat (length body) - 1) false) as (Ht & Hc & Ho); [lia|lia|].
  assert (Eh : pkt3_header op (Z.of_nat (length body) - 1) false = PKT3 op (Z.of_nat (length body) - 1) 0).
  { unfold pkt3_header. change (PKT3_RESET_FILTER_CAM_S _) with 0. by rewrite Z.lor_0_r. }
  rewrite Eh in *. rewrite Ht, Hc, Ho, Z.sub_add, Nat2Z.id. cbn [andb Z.eqb].
  rewrite bool_decide_eq_true_2 by (rewrite length_app; lia).
  rewrite drop_app_length, take_app_length, IH by (done || (simpl in Hf; lia)). done.
Qed.

(** What a LOAD packet does: every register of its (offset, count) pairs is read from its
    place in memory.  The result pairs the memory address with the register. *)
Fixpoint load_pairs (addr base : Z) (l : list Z) : list (Z * Z) :=
  match l with
  | o :: n :: l' => ((fun k => (addr + 4 * (o + k), base + 4 * (o + k))) <$> seqZ 0 n) ++ load_pairs addr base l'
  | _ => []
  end.

Definition load_base (op : Z) : option Z :=
  if op =? PKT3_LOAD_UCONFIG_REG then Some CIK_UCONFIG_REG_OFFSET
  else if op =? PKT3_LOAD_CONTEXT_REG then Some SI_CONTEXT_REG_OFFSET
  else if op =? PKT3_LOAD_SH_REG then Some SI_SH_REG_OFFSET
  else None.

Definition loads (f : Z * list Z) : list (Z * Z) :=
  match load_base f.1, f.2 with
  | Some base, lo :: hi :: l => load_pairs (lo + 2 ^ 32 * hi) base l
  | _, _ => []
  end.

(** Where the shadow buffer at [addr] keeps the registers of a range. *)
Definition shadow_place (addr : Z) (p : ac_reg_range_type * ac_reg_range) : list (Z * Z) :=
  let '(place, base, _) := load_space p.1 in
  (fun r => (addr + place + (r - base), r)) <$> range_regs p.2.

(** The body of the LOAD packet of a type. *)
Definition load_body (addr : Z) (ty : ac_reg_range_type) (rs : list ac_reg_range) : list Z :=
  let '(place, base, _) := load_space ty in
  let a := u64 (addr + place) in
  a :: Z.shiftr a 32 :: concat ((fun r : ac_reg_range => [u32 (r.1 - base) / 4; r.2 / 4]) <$> rs).

Definition load_frame (addr : Z) (ty : ac_reg_range_type) (rs : list ac_reg_range) : Z * list Z :=
  (snd (load_space ty), load_body addr ty rs).

Lemma load_ranges_adds base rs : forall s,
  load_ranges_loop s base rs = cmd_adds s (concat ((fun r : ac_reg_range => [u32 (r.1 - base) / 4; r.2 / 4]) <$> rs)).
Proof.
  induction rs as [|[o n] rs IH]; intros s; [done|]. cbn [load_ranges_loop fmap list_fmap concat app cmd_adds fst snd].
  destruct (ac_pm4_cmd_add s _) as [s1|]; [|done]. cbn [res_bind].
  destruct (ac_pm4_cmd_add s1 _) as [s2|]; [|done]. cbn [res_bind]. apply IH.
Qed.

Lemma length_load_body addr ty rs : length (load_body addr ty rs) = (2 + 2 * length rs)%nat.
Proof.
  unfold load_body. destruct (load_space ty) as [[place base] op]. cbn [length].
  induction rs as [|r rs IH]; [done|]. cbn in *. lia.
Qed.

Lemma build_load_adds I s ty addr rs :
  ac_get_reg_ranges (gfx_level (pm4_info I)) (family I) ty = Ok rs ->
  ac_build_load_reg I s ty addr = cmd_adds s (frame_dws (load_frame addr ty rs)).
Proof.
  intros Ers. unfold ac_build_load_reg. rewrite Ers. cbn [res_bind].
  unfold frame_dws, load_frame. cbn [fst snd]. rewrite length_load_body.
  replace (Z.of_nat (2 + 2 * length rs) - 1) with (1 + Z.of_nat (length rs) * 2) by lia.
  unfold load_body. destruct (load_space ty) as [[place base] op]. cbn [fst snd].
  cbn [cmd_adds]. destruct (ac_pm4_cmd_add s _) as [s1|]; [|done]. cbn [res_bind].
  destruct (ac_pm4_cmd_add s1 _) as [s2|]; [|done]. cbn [res_bind].
  destruct (ac_pm4_cmd_add s2 _) as [s3|]; [|done]. cbn [res_bind]. apply load_ranges_adds.
Qed.

(** The LOAD packets of the types [tys]. *)
Definition load_frames (I : gpu_info) (addr : Z) (tys : list ac_reg_range_type) : list (Z * list Z) :=
  (fun ty => load_frame addr ty
     match ac_get_reg_ranges (gfx_level (pm4_info I)) (family I) ty with Ok rs => rs | Fault _ => [] end) <$> tys.

Lemma load_regs_adds I addr tys : gfx_ge I GFX12 = false -> forall s,
  load_regs_loop I s addr tys = cmd_adds s (concat (frame_dws <$> load_frames I addr tys)).
Proof.
  intros H12. induction tys as [|ty tys IH]; intros s; [done|]. cbn [load_regs_loop load_frames fmap list_fmap concat].
  destruct (get_ranges_ok (gfx_level (pm4_info I)) (family I) ty H12) as [rs Ers].
  rewrite Ers, cmd_adds_app, (build_load_adds I s ty addr rs Ers).
  destruct (cmd_adds s _); cbn [res_bind]; [apply IH|done].
Qed.

(** The packets before the loads. *)
Definition event_frame (x : Z) : Z * list Z := (PKT3_EVENT_WRITE, [x]).

Definition sync_frames (I : gpu_info) : list (Z * list Z) :=
  match shadowing_sync I with
  | Ok dws => default [] (frames 4 dws)
  | Fault _ => []
  end.

Definition control_frame : Z * list Z :=
  (PKT3_CONTEXT_CONTROL,
   [S_281_UPDATE_LOAD_ENABLES 1 ||| S_281_LOAD_PER_CONTEXT_STATE 1 ||| S_281_LOAD_CS_SH_REGS 1 |||
      S_281_LOAD_GFX_SH_REGS 1 ||| S_281_LOAD_GLOBAL_UCONFIG 1;
    S_282_UPDATE_SHADOW_ENABLES 1 ||| S_282_SHADOW_PER_CONTEXT_STATE 1 |||
      S_282_SHADOW_CS_SH_REGS 1 ||| S_282_SHADOW_GFX_SH_REGS 1 |||
      S_282_SHADOW_GLOBAL_UCONFIG 1 ||| S_282_SHADOW_GLOBAL_CONFIG 1]).

Definition head_frames (I : gpu_info) (dpbb_allowed : bool) : list (Z * list Z) :=
  (if dpbb_allowed then [event_frame (Z.lor (EVENT_TYPE V_028A90_BREAK_BATCH) (EVENT_INDEX 0))] else []) ++
  [event_frame (Z.lor (EVENT_TYPE V_028A90_VS_PARTIAL_FLUSH) (EVENT_INDEX 4));
   event_frame (Z.lor (EVENT_TYPE V_028A90_VGT_FLUSH) (EVENT_INDEX 0))] ++
  sync_frames I ++ [control_frame].

(** The generations with shadow tables. *)
Definition has_shadow (I : gpu_info) : Prop := gfx_ge I GFX9 = true /\ gfx_ge I GFX12 = false.

Definition heads_ok (fs : list (Z * list Z)) : bool :=
  forallb (fun f => frame_ok f && negb (bool_decide (is_Some (load_base f.1)))) fs.

Lemma sync_ok I :
  has_shadow I -> shadowing_sync I = Ok (concat (frame_dws <$> sync_frames I)) /\
    heads_ok (sync_frames I) = true /\ (length (concat (frame_dws <$> sync_frames I)) <= 20)%nat.
Proof.
  intros [H9 H12]. unfold sync_frames, shadowing_sync, gfx_is, gfx_upto, gfx_ge in *.
  generalize (max_render_backends I). intros rb.
  destruct (gfx_level (pm4_info I)); try done; split_and!; vm_compute; (reflexivity || lia).
Qed.

Lemma head_ok I dpbb :
  has_shadow I -> heads_ok (head_frames I dpbb) = true /\
    (length (concat (frame_dws <$> head_frames I dpbb)) <= 29)%nat.
Proof.
  intros H. destruct (sync_ok I H) as (_ & Hs & Hl). unfold head_frames, heads_ok in *.
  rewrite !forallb_app, Hs, !fmap_app, !concat_app, !length_app. split; [by destruct dpbb|].
  assert (H1 : (length (concat (frame_dws <$> [control_frame])) = 3)%nat) by done.
  destruct dpbb; cbn [fmap list_fmap concat length app frame_dws event_frame snd] in *; lia.
Qed.

Definition load_dws_length (rs : list ac_reg_range) : nat := 3 + 2 * length rs.

Lemma load_frames_ok I addr :
  gfx_ge I GFX12 = false ->
  forallb frame_ok (load_frames I addr all_range_types) = true /\
  (length (concat (frame_dws <$> load_frames I addr all_range_types)) <= 227)%nat.
Proof.
  intros H12. unfold load_frames. cbn [all_range_types fmap list_fmap concat forallb].
  unfold frame_ok, frame_dws, load_frame. rewrite !length_app. cbn [fst snd length]. rewrite !length_load_body.
  unfold gfx_ge in H12. unfold ac_get_reg_ranges. rewrite H12. cbn [negb assert_ res_bind].
  generalize ((family_rank (family I) =? family_rank CHIP_RAVEN2) ||
    (family_rank (family I) =? family_rank CHIP_RENOIR)). intros b.
  destruct (gfx_level (pm4_info I)); try done; destruct b; vm_compute;
    (split; [reflexivity|lia]).
Qed.

Lemma shadowing_adds I addr dpbb :
  has_shadow I ->
  ac_create_shadowing_ib_preamble I addr dpbb =
    let* s := cmd_adds (ac_pm4_create_sized (pm4_info I) false 256 false)
                (concat (frame_dws <$> head_frames I dpbb ++ load_frames I addr all_range_types)) in
    ac_pm4_finalize (fun _ => false) s.
Proof.
  intros H. destruct (sync_ok I H) as (Hs & _ & _). destruct H as [H9 H12].
  unfold ac_create_shadowing_ib_preamble. rewrite Hs.
  set (s0 := ac_pm4_create_sized _ _ _ _).
  assert (E : concat (frame_dws <$> head_frames I dpbb ++ load_frames I addr all_range_types) =
    (if dpbb then [PKT3 PKT3_EVENT_WRITE 0 0; EVENT_TYPE V_028A90_BREAK_BATCH ||| EVENT_INDEX 0] else []) ++
    [PKT3 PKT3_EVENT_WRITE 0 0; EVENT_TYPE V_028A90_VS_PARTIAL_FLUSH ||| EVENT_INDEX 4] ++
    [PKT3 PKT3_EVENT_WRITE 0 0; EVENT_TYPE V_028A90_VGT_FLUSH ||| EVENT_INDEX 0] ++
    concat (frame_dws <$> sync_frames I) ++ (PKT3 PKT3_CONTEXT_CONTROL 1 0 :: snd control_frame) ++
    concat (frame_dws <$> load_frames I addr all_range_types)).
  { unfold head_frames. rewrite !fmap_app, !concat_app, <- !(assoc_L app). by destruct dpbb. }
  rewrite E. clear E.
  cbn [control_frame snd res_bind].
  do 5 (rewrite cmd_adds_app; match goal with |- context [let* x := cmd_adds ?s ?l in _] =>
    destruct (cmd_adds s l); cbn [res_bind]; [|reflexivity] end).
  by rewrite (load_regs_adds I addr all_range_types H12).
Qed.

(** Truncation to 32 bits keeps the headers. *)
Definition frame_u32 (f : Z * list Z) : Z * list Z := (f.1, u32 <$> f.2).

Lemma frames_u32 fs :
  forallb frame_ok fs = true ->
  u32 <$> concat (frame_dws <$> fs) = concat (frame_dws <$> (frame_u32 <$> fs)) /\
  forallb frame_ok (frame_u32 <$> fs) = true.
Proof.
  induction fs as [|[op body] fs IH]; [done|]. cbn [forallb]. intros [H1 Hok]%andb_true_iff.
  destruct (IH Hok) as [IH1 IH2]. rewrite !fmap_cons. cbn [concat forallb].
  assert (Hl : length (u32 <$> body) = length body) by apply length_fmap.
  unfold frame_ok in *. cbn [frame_u32 fst snd] in *. rewrite Hl, H1. split; [|exact IH2].
  rewrite fmap_app, IH1. f_equal. unfold frame_dws. cbn [frame_u32 fst snd]. rewrite Hl, fmap_cons. f_equal.
  rewrite !andb_true_iff, Z.leb_le, !Z.ltb_lt in H1. destruct H1 as (((H1 & H2) & H3) & H4).
  pose proof (header_u32 op (Z.of_nat (length body) - 1) false ltac:(lia) ltac:(lia)) as Hh.
  unfold pkt3_header in Hh. change (PKT3_RESET_FILTER_CAM_S _) with 0 in Hh. by rewrite Z.lor_0_r in Hh.
Qed.

Lemma heads_load_nothing fs : heads_ok fs = true -> concat (loads <$> (frame_u32 <$> fs)) = [].
Proof.
  unfold heads_ok. induction fs as [|f fs IH]; [done|]. cbn [forallb]. intros [[_ H1]%andb_true_iff Hok]%andb_true_iff.
  cbn [fmap list_fmap concat]. rewrite IH by done. rewrite app_nil_r. unfold loads. cbn [frame_u32 fst].
  destruct (load_base f.1); [|done]. by rewrite bool_decide_eq_true_2 in H1.
Qed.

Lemma range_ok_facts ty r :
  range_ok (ty, r) = true ->
  let base := snd (fst (load_space ty)) in
  base <= r.1 /\ r.1 mod 4 = 0 /\ 0 < r.2 /\ r.2 mod 4 = 0 /\ base mod 4 = 0 /\ 0 <= base /\
  base + fst (fst (load_space ty)) <= 0x40000 /\ 0 <= fst (fst (load_space ty)) /\
  fst (fst (load_space ty)) + (r.1 + r.2 - base) <= SI_SHADOWED_REG_BUFFER_SIZE /\ r.1 + r.2 <= 0x40000.
Proof.
  unfold range_ok. cbn [fst snd]. rewrite !andb_true_iff, !Z.leb_le, !Z.eqb_eq, Z.ltb_lt.
  intros ((((H1 & H2) & H3) & H4) & H5).
  destruct ty; cbn [load_space fst snd] in *; unfold SI_SHADOWED_REG_BUFFER_SIZE, SI_SHADOWED_UCONFIG_REG_OFFSET,
    SI_SHADOWED_CONTEXT_REG_OFFSET, SI_SHADOWED_SH_REG_OFFSET, SI_UCONFIG_REG_SPACE_SIZE,
    SI_CONTEXT_REG_SPACE_SIZE, SI_SH_REG_SPACE_SIZE, CIK_UCONFIG_REG_OFFSET, CIK_UCONFIG_REG_END,
    SI_CONTEXT_REG_OFFSET, SI_CONTEXT_REG_END, SI_SH_REG_OFFSET, SI_SH_REG_END in *;
    split_and!; (done || lia).
Qed.

(** The LOAD packet of a type reads each register of its ranges from its place. *)
Lemma load_frame_places addr ty rs :
  0 <= addr -> addr + SI_SHADOWED_REG_BUFFER_SIZE <= 2 ^ 64 -> forallb range_ok (pair ty <$> rs) = true ->
  loads (frame_u32 (load_frame addr ty rs)) = concat (shadow_place addr <$> (pair ty <$> rs)).
Proof.
  intros Ha Hb Hok. unfold loads, load_frame. cbn [frame_u32 fst snd].
  assert (Hop : load_base (snd (load_space ty)) = Some (snd (fst (load_space ty)))) by (by destruct ty).
  rewrite Hop. unfold load_body. rewrite (surjective_pairing (load_space ty)), (surjective_pairing (fst (load_space ty))).
  set (place := fst (fst (load_space ty))). set (base := snd (fst (load_space ty))).
  assert (Hp : 0 <= place /\ place < SI_SHADOWED_REG_BUFFER_SIZE) by (by destruct ty).
  rewrite (u64_small (addr + place)) by (unfold in_u64; lia). rewrite !fmap_cons.
  assert (Esplit : u32 (addr + place) + 2 ^ 32 * u32 (Z.shiftr (addr + place) 32) = addr + place).
  { rewrite shiftr_div by lia. unfold u32. zdivmod. }
  rewrite Esplit. clear Esplit Hop. induction rs as [|r rs IH]; [done|].
  rewrite !fmap_cons in *. cbn [concat forallb] in *. apply andb_true_iff in Hok as [Hr Hok].
  destruct (range_ok_facts _ _ Hr) as (R1 & R2 & R3 & R4 & R5 & R6 & R7 & R8 & R9 & R10).
  fold base place in R1, R5, R6, R7, R8, R9.
  cbn [app]. rewrite !fmap_cons. cbn [load_pairs]. rewrite IH by done. f_equal. clear IH Hok Hr.
  unfold shadow_place. cbn [fst snd]. rewrite (surjective_pairing (load_space ty)), (surjective_pairing (fst (load_space ty))).
  fold place base. unfold range_regs. rewrite <- list_fmap_compose.
  rewrite (u32_small (r.1 - base)) by (unfold in_u32; lia).
  assert (E1 : u32 ((r.1 - base) / 4) = (r.1 - base) / 4) by (apply u32_small; unfold in_u32; zdivmod).
  assert (E2 : u32 (r.2 / 4) = r.2 / 4) by (apply u32_small; unfold in_u32; zdivmod).
  rewrite E1, E2. apply list_fmap_ext. intros _ k _. cbn [compose]. f_equal; zdivmod.
Qed.

Lemma range_regs_in r reg : 0 < r.2 -> r.2 mod 4 = 0 -> reg ∈ range_regs r -> in_reg_range reg r = true.
Proof.
  intros H1 H2 (k & -> & Hk%elem_of_seqZ)%list_elem_of_fmap. unfold in_reg_range.
  rewrite andb_true_iff, Z.leb_le, Z.ltb_lt. split; zdivmod.
Qed.

Lemma nodup_ranges rs :
  pairwise_apart rs = true -> Forall (fun r => 0 < r.2 /\ r.2 mod 4 = 0) rs -> NoDup (concat (range_regs <$> rs)).
Proof.
  induction rs as [|r rs IH]; [constructor|]. cbn [pairwise_apart]. intros [Hr Hap]%andb_true_iff Hok.
  inversion Hok as [|? ? [R1 R2] Hok']; subst. rewrite fmap_cons. cbn [concat]. apply NoDup_app. split_and!.
  - unfold range_regs. apply NoDup_fmap_2; [intros x y; lia|apply NoDup_seqZ].
  - intros x Hx%range_regs_in Hx'; [|done|done].
    apply list_elem_of_In, in_concat in Hx' as (l & Hl & Hin). apply list_elem_of_In, list_elem_of_fmap in Hl as (r' & -> & Hr').
    rewrite Forall_forall in Hok'. destruct (Hok' _ Hr') as [R3 R4].
    apply list_elem_of_In, range_regs_in in Hin; [|done|done]. apply (forallb_elem _ _ _ Hr) in Hr'.
    revert Hr' Hx Hin. unfold apart, in_reg_range. rewrite orb_true_iff, !andb_true_iff, !Z.leb_le, !Z.ltb_lt. lia.
  - by apply IH.
Qed.

(** The place of a register in the shadow buffer. *)
Definition place_of (reg : Z) : Z :=
  if reg <? SI_SH_REG_END then SI_SHADOWED_SH_REG_OFFSET + (reg - SI_SH_REG_OFFSET)
  else if reg <? SI_CONTEXT_REG_END then SI_SHADOWED_CONTEXT_REG_OFFSET + (reg - SI_CONTEXT_REG_OFFSET)
  else SI_SHADOWED_UCONFIG_REG_OFFSET + (reg - CIK_UCONFIG_REG_OFFSET).

Definition in_space (reg : Z) : Prop :=
  SI_SH_REG_OFFSET <= reg < SI_SH_REG_END \/ SI_CONTEXT_REG_OFFSET <= reg < SI_CONTEXT_REG_END \/
  CIK_UCONFIG_REG_OFFSET <= reg < CIK_UCONFIG_REG_END.

Ltac spaces := unfold place_of, in_space, SI_SHADOWED_REG_BUFFER_SIZE, SI_SHADOWED_UCONFIG_REG_OFFSET,
  SI_SHADOWED_CONTEXT_REG_OFFSET, SI_SHADOWED_SH_REG_OFFSET, SI_UCONFIG_REG_SPACE_SIZE,
  SI_CONTEXT_REG_SPACE_SIZE, SI_SH_REG_SPACE_SIZE, CIK_UCONFIG_REG_OFFSET, CIK_UCONFIG_REG_END,
  SI_CONTEXT_REG_OFFSET, SI_CONTEXT_REG_END, SI_SH_REG_OFFSET, SI_SH_REG_END in *.

Lemma place_of_inj a b : in_space a -> in_space b -> place_of a = place_of b -> a = b.
Proof. spaces. intros Ha Hb. repeat case_match; rewrite ?Z.ltb_lt, ?Z.ltb_ge in *; lia. Qed.

Lemma place_of_range a : in_space a -> a mod 4 = 0 -> 0 <= place_of a /\ place_of a + 4 <= SI_SHADOWED_REG_BUFFER_SIZE.
Proof. spaces. intros Ha H4. repeat case_match; rewrite ?Z.ltb_lt, ?Z.ltb_ge in *; zdivmod. Qed.

Lemma shadow_place_eq addr p :
  range_ok p = true ->
  shadow_place addr p = (fun r => (addr + place_of r, r)) <$> range_regs p.2 /\
  Forall (fun r => in_space r /\ r mod 4 = 0) (range_regs p.2).
Proof.
  destruct p as [ty r]. intros Hr. destruct (range_ok_facts _ _ Hr) as (R1 & R2 & R3 & R4 & R5 & R6 & R7 & R8 & R9 & R10).
  unfold range_ok in Hr. cbn [fst snd] in *. rewrite !andb_true_iff, !Z.leb_le in Hr. destruct Hr as [_ Hend].
  assert (Hin : Forall (fun x => r.1 <= x < r.1 + r.2 /\ x mod 4 = 0) (range_regs r)).
  { apply Forall_forall. intros x Hx. pose proof (range_regs_in r x R3 R4 Hx) as Hi. unfold in_reg_range in Hi.
    rewrite andb_true_iff, Z.leb_le, Z.ltb_lt in Hi. split; [done|].
    apply list_elem_of_fmap in Hx as (k & -> & _). zdivmod. }
  unfold shadow_place. destruct ty; cbn [load_space fst snd] in *; (split;
    [apply list_fmap_ext; intros i x Hx; eapply Forall_lookup_1 in Hin; [|exact Hx];
     f_equal; spaces; repeat case_match; rewrite ?Z.ltb_lt, ?Z.ltb_ge in *; lia
    |apply (Forall_impl _ _ _ Hin); intros x [Hx Hx4]; split; [|done]; spaces; lia]).
Qed.

(** Every register of the tables, in the order it is loaded. *)
Definition all_shadow_regs (I : gpu_info) : list Z :=
  concat (range_regs <$> (all_ranges (gfx_level (pm4_info I)) (family I)).*2).

Lemma loads_all I addr :
  gfx_ge I GFX12 = false -> 0 <= addr -> addr + SI_SHADOWED_REG_BUFFER_SIZE <= 2 ^ 64 ->
  concat (loads <$> (frame_u32 <$> load_frames I addr all_range_types)) =
    (fun r => (addr + place_of r, r)) <$> all_shadow_regs I.
Proof.
  intros H12 Ha Hb. unfold all_shadow_regs, all_ranges, load_frames.
  pose proof (proj2 (andb_prop _ _ (tables_ok (gfx_level (pm4_info I)) (family I) H12))) as Hok.
  unfold all_ranges in Hok. revert Hok. generalize all_range_types as tys.
  induction tys as [|ty tys IH]; [done|]. rewrite !fmap_cons. cbn [concat].
  rewrite forallb_app, fmap_app, fmap_app, concat_app, fmap_app. intros [H1 H2]%andb_true_iff.
  rewrite IH by done. f_equal. clear IH H2.
  set (rs := match ac_get_reg_ranges _ _ ty with Ok rs => rs | Fault _ => [] end).
  assert (Ers : (match ac_get_reg_ranges (gfx_level (pm4_info I)) (family I) ty with
    Ok rs => pair ty <$> rs | Fault _ => [] end) = pair ty <$> rs).
  { unfold rs. by destruct (get_ranges_ok (gfx_level (pm4_info I)) (family I) ty H12) as [x ->]. }
  rewrite Ers in *. rewrite load_frame_places by done. clearbody rs. clear Ers.
  induction rs as [|r rs IH]; [done|]. rewrite !fmap_cons in *. cbn [forallb concat] in *.
  apply andb_true_iff in H1 as [Hr H1]. rewrite fmap_app, IH by done. f_equal. by apply shadow_place_eq.
Qed.

Lemma shadow_regs_sound I :
  gfx_ge I GFX12 = false -> NoDup (all_shadow_regs I) /\
  Forall (fun r => in_space r /\ r mod 4 = 0) (all_shadow_regs I).
Proof.
  intros H12. destruct (andb_prop _ _ (tables_ok (gfx_level (pm4_info I)) (family I) H12)) as [Hap Hok].
  unfold all_shadow_regs. split.
  - apply nodup_ranges; [done|]. apply Forall_fmap, Forall_forall. intros [ty r] Hin.
    apply (forallb_elem _ _ _ Hok) in Hin. destruct (range_ok_facts _ _ Hin) as (_ & _ & R3 & R4 & _). by split.
  - apply Forall_concat, Forall_fmap, Forall_fmap, Forall_forall. intros p Hin.
    apply (forallb_elem _ _ _ Hok) in Hin. by apply (shadow_place_eq 0).
Qed.

(** C11: from GFX9 to GFX11.7 the preamble of a shadowed context is built without a fault in the
    256 dwords allocated for it, its packets' counts are right, and its LOAD packets
    restore every register of the generation's tables exactly once, each from a dword of its own
    inside the shadow buffer. *)
Theorem shadow_preamble_loads I addr dpbb :
  has_shadow I -> 0 <= addr -> addr + SI_SHADOWED_REG_BUFFER_SIZE <= 2 ^ 64 ->
  exists s fs, ac_create_shadowing_ib_preamble I addr dpbb = Ok s /\ ndw s <= 256 /\
    frames (length (dump s)) (dump s) = Some fs /\
    let l := concat (loads <$> fs) in
    l.*2 = all_shadow_regs I /\ NoDup l.*2 /\ NoDup l.*1 /\
    Forall (fun m => addr <= m /\ m + 4 <= addr + SI_SHADOWED_REG_BUFFER_SIZE) l.*1.
Proof.
  intros Hsh Ha Hb. pose proof (proj2 Hsh) as H12. destruct (head_ok I dpbb Hsh) as [Hh Hhl].
  destruct (load_frames_ok I addr H12) as [Hl Hll].
  set (fs := head_frames I dpbb ++ load_frames I addr all_range_types).
  assert (Hfs : forallb frame_ok fs = true).
  { unfold fs. rewrite forallb_app, Hl, andb_true_r. unfold heads_ok in Hh. apply forallb_forall. intros f Hf.
    rewrite forallb_forall in Hh. specialize (Hh f Hf). by apply andb_true_iff in Hh as [Hh _]. }
  assert (Hlen : (length (concat (frame_dws <$> fs)) <= 256)%nat)
    by (unfold fs; rewrite fmap_app, concat_app, length_app; lia).
  destruct (raw_built (fun _ => false) (pm4_info I) 256 (concat (frame_dws <$> fs))) as (s & E & Hd & Hn);
    [lia|by unfold fs, head_frames; destruct dpbb|lia|].
  destruct (frames_u32 fs Hfs) as [Hu Hok]. rewrite Hu in Hd.
  exists s, (frame_u32 <$> fs). rewrite shadowing_adds by done. split; [exact E|]. split; [lia|].
  rewrite Hd. split.
  { apply frames_app; [|done]. clear. induction (frame_u32 <$> fs) as [|f l IH]; [done|].
    rewrite fmap_cons. cbn [concat]. rewrite length_app. simpl. lia. }
  cbv zeta. unfold fs. rewrite !fmap_app, concat_app, heads_load_nothing, loads_all by done. cbn [app].
  destruct (shadow_regs_sound I H12) as [Hnd Hin].
  rewrite <- !list_fmap_compose, (list_fmap_ext _ id (all_shadow_regs I)), list_fmap_id by done.
  split; [done|]. split; [done|]. split.
  - apply NoDup_fmap_2_strong; [|done]. intros x y Hx Hy. cbn. rewrite Forall_forall in Hin.
    destruct (Hin x Hx), (Hin y Hy). intros Hxy. apply place_of_inj; [done|done|lia].
  - apply Forall_fmap. apply (Forall_impl _ _ _ Hin). intros r [H1 H2]. cbn.
    destruct (place_of_range r H1 H2). lia.
Qed.

Lemma shadow_preamble_loads_witness :
  let I := gpu GFX10_3 CHIP_NAVI21 true true false 0xff in
  exists s fs, ac_create_shadowing_ib_preamble I 0x100000 true = Ok s /\ ndw s <= 256 /\
    frames (length (dump s)) (dump s) = Some fs /\
    let l := concat (loads <$> fs) in
    l.*2 = all_shadow_regs I /\ NoDup l.*2 /\ NoDup l.*1 /\
    Forall (fun m => 0x100000 <= m /\ m + 4 <= 0x100000 + SI_SHADOWED_REG_BUFFER_SIZE) l.*1.
Proof.
  apply (shadow_preamble_loads (gpu GFX10_3 CHIP_NAVI21 true true false 0xff) 0x100000 true);
    [by split|lia|vm_compute; discriminate].
Defined.

