(* ===== verification/TrackedRegs.v ===== *)
(** Tracked registers ([ac_cmdbuf.c], [ac_cmdbuf.h]): the slots of [enum ac_tracked_reg] and
    the values a command buffer may assume its registers have when it starts. *)

From S2P Require Import Prelude.
From S2P Require Import Packets.
From S2P Require Import Pm4.
From S2P Require Import Preamble.
From S2P Require Import CmdBuf.

(** ** [enum ac_tracked_reg] *)

Definition AC_TRACKED_DB_RENDER_CONTROL : Z := 0.
Definition AC_TRACKED_DB_COUNT_CONTROL : Z := 1.
Definition AC_TRACKED_DB_DEPTH_CONTROL : Z := 2.
Definition AC_TRACKED_DB_STENCIL_CONTROL : Z := 3.
Definition AC_TRACKED_DB_DEPTH_BOUNDS_MIN : Z := 4.
Definition AC_TRACKED_DB_DEPTH_BOUNDS_MAX : Z := 5.
Definition AC_TRACKED_SPI_INTERP_CONTROL_0 : Z := 6.
Definition AC_TRACKED_PA_SU_POINT_SIZE : Z := 7.
Definition AC_TRACKED_PA_SU_POINT_MINMAX : Z := 8.
Definition AC_TRACKED_PA_SU_LINE_CNTL : Z := 9.
Definition AC_TRACKED_PA_SC_MODE_CNTL_0 : Z := 10.
Definition AC_TRACKED_PA_SU_SC_MODE_CNTL : Z := 11.
Definition AC_TRACKED_PA_SC_EDGERULE : Z := 12.
Definition AC_TRACKED_PA_SU_POLY_OFFSET_DB_FMT_CNTL : Z := 13.
Definition AC_TRACKED_PA_SU_POLY_OFFSET_CLAMP : Z := 14.
Definition AC_TRACKED_PA_SU_POLY_OFFSET_FRONT_SCALE : Z := 15.
Definition AC_TRACKED_PA_SU_POLY_OFFSET_FRONT_OFFSET : Z := 16.
Definition AC_TRACKED_PA_SU_POLY_OFFSET_BACK_SCALE : Z := 17.
Definition AC_TRACKED_PA_SU_POLY_OFFSET_BACK_OFFSET : Z := 18.
Definition AC_TRACKED_PA_SC_LINE_CNTL : Z := 19.
Definition AC_TRACKED_PA_SC_AA_CONFIG : Z := 20.
Definition AC_TRACKED_PA_SU_VTX_CNTL : Z := 21.
Definition AC_TRACKED_PA_CL_GB_VERT_CLIP_ADJ : Z := 22.
Definition AC_TRACKED_PA_CL_GB_VERT_DISC_ADJ : Z := 23.
Definition AC_TRACKED_PA_CL_GB_HORZ_CLIP_ADJ : Z := 24.
Definition AC_TRACKED_PA_CL_GB_HORZ_DISC_ADJ : Z := 25.
Definition AC_TRACKED_SPI_SHADER_IDX_FORMAT : Z := 26.
Definition AC_TRACKED_SPI_SHADER_POS_FORMAT : Z := 27.
Definition AC_TRACKED_SPI_SHADER_Z_FORMAT : Z := 28.
Definition AC_TRACKED_SPI_SHADER_COL_FORMAT : Z := 29.
Definition AC_TRACKED_SPI_PS_INPUT_ENA : Z := 30.
Definition AC_TRACKED_SPI_PS_INPUT_ADDR : Z := 31.
Definition AC_TRACKED_DB_EQAA : Z := 32.
Definition AC_TRACKED_DB_RENDER_OVERRIDE2 : Z := 33.
Definition AC_TRACKED_DB_SHADER_CONTROL : Z := 34.
Definition AC_TRACKED_DB_STENCIL_REF : Z := 35.
Definition AC_TRACKED_DB_ALPHA_TO_MASK : Z := 36.
Definition AC_TRACKED_CB_COLOR_CONTROL : Z := 37.
Definition AC_TRACKED_CB_SHADER_MASK : Z := 38.
Definition AC_TRACKED_CB_TARGET_MASK : Z := 39.
Definition AC_TRACKED_PA_CL_CLIP_CNTL : Z := 40.
Definition AC_TRACKED_PA_CL_VS_OUT_CNTL : Z := 41.
Definition AC_TRACKED_PA_CL_VTE_CNTL : Z := 42.
Definition AC_TRACKED_PA_CL_VRS_CNTL : Z := 43.
Definition AC_TRACKED_PA_SC_CLIPRECT_RULE : Z := 44.
Definition AC_TRACKED_PA_SC_LINE_STIPPLE : Z := 45.
Definition AC_TRACKED_PA_SC_MODE_CNTL_1 : Z := 46.
Definition AC_TRACKED_PA_SU_HARDWARE_SCREEN_OFFSET : Z := 47.
Definition AC_TRACKED_PA_SC_SAMPLE_PROPERTIES : Z := 48.
Definition AC_TRACKED_PA_SC_CONSERVATIVE_RASTERIZATION_CNTL : Z := 49.
Definition AC_TRACKED_SPI_PS_IN_CONTROL : Z := 50.
Definition AC_TRACKED_VGT_GS_INSTANCE_CNT : Z := 51.
Definition AC_TRACKED_VGT_GS_MAX_VERT_OUT : Z := 52.
Definition AC_TRACKED_VGT_SHADER_STAGES_EN : Z := 53.
Definition AC_TRACKED_VGT_LS_HS_CONFIG : Z := 54.
Definition AC_TRACKED_VGT_TF_PARAM : Z := 55.
Definition AC_TRACKED_VGT_DRAW_PAYLOAD_CNTL : Z := 56.
Definition AC_TRACKED_VGT_MULTI_PRIM_IB_RESET_INDX : Z := 57.
Definition AC_TRACKED_PA_SU_SMALL_PRIM_FILTER_CNTL : Z := 58.
Definition AC_TRACKED_PA_SC_BINNER_CNTL_0 : Z := 59.
Definition AC_TRACKED_GE_MAX_OUTPUT_PER_SUBGROUP : Z := 60.
Definition AC_TRACKED_GE_NGG_SUBGRP_CNTL : Z := 61.
Definition AC_TRACKED_PA_CL_NGG_CNTL : Z := 62.
Definition AC_TRACKED_DB_PA_SC_VRS_OVERRIDE_CNTL : Z := 63.
Definition AC_TRACKED_SX_PS_DOWNCONVERT : Z := 64.
Definition AC_TRACKED_SX_BLEND_OPT_EPSILON : Z := 65.
Definition AC_TRACKED_SX_BLEND_OPT_CONTROL : Z := 66.
Definition AC_TRACKED_VGT_ESGS_RING_ITEMSIZE : Z := 67.
Definition AC_TRACKED_VGT_REUSE_OFF : Z := 68.
Definition AC_TRACKED_IA_MULTI_VGT_PARAM : Z := 69.
Definition AC_TRACKED_VGT_GS_MAX_PRIMS_PER_SUBGROUP : Z := 70.
Definition AC_TRACKED_VGT_GS_ONCHIP_CNTL : Z := 71.
Definition AC_TRACKED_VGT_GSVS_RING_ITEMSIZE : Z := 72.
Definition AC_TRACKED_VGT_GS_MODE : Z := 73.
Definition AC_TRACKED_VGT_VERTEX_REUSE_BLOCK_CNTL : Z := 74.
Definition AC_TRACKED_VGT_GS_OUT_PRIM_TYPE : Z := 75.
Definition AC_TRACKED_VGT_GSVS_RING_OFFSET_1 : Z := 76.
Definition AC_TRACKED_VGT_GSVS_RING_OFFSET_2 : Z := 77.
Definition AC_TRACKED_VGT_GSVS_RING_OFFSET_3 : Z := 78.
Definition AC_TRACKED_VGT_GS_VERT_ITEMSIZE : Z := 79.
Definition AC_TRACKED_VGT_GS_VERT_ITEMSIZE_1 : Z := 80.
Definition AC_TRACKED_VGT_GS_VERT_ITEMSIZE_2 : Z := 81.
Definition AC_TRACKED_VGT_GS_VERT_ITEMSIZE_3 : Z := 82.
Definition AC_TRACKED_SPI_VS_OUT_CONFIG : Z := 83.
Definition AC_TRACKED_DB_RENDER_OVERRIDE : Z := AC_TRACKED_SPI_VS_OUT_CONFIG.
Definition AC_TRACKED_VGT_PRIMITIVEID_EN : Z := 84.
Definition AC_TRACKED_CB_DCC_CONTROL : Z := 85.
Definition AC_TRACKED_DB_STENCIL_READ_MASK : Z := 86.
Definition AC_TRACKED_DB_STENCIL_WRITE_MASK : Z := 87.
Definition AC_TRACKED_PA_SC_SHADER_CONTROL : Z := 88.
Definition AC_TRACKED_PA_SC_HISZ_CONTROL : Z := AC_TRACKED_PA_SC_SHADER_CONTROL.
Definition AC_TRACKED_PA_SC_LINE_STIPPLE_RESET : Z := 89.
Definition AC_TRACKED_DB_STENCILREFMASK : Z := 90.
Definition AC_TRACKED_DB_STENCILREFMASK_BF : Z := 91.
Definition AC_TRACKED_PA_SC_AA_MASK_X0Y0_X1Y0 : Z := 92.
Definition AC_TRACKED_PA_SC_AA_MASK_X0Y1_X1Y1 : Z := 93.
Definition AC_TRACKED_DB_Z_INFO : Z := 94.
Definition AC_NUM_TRACKED_CONTEXT_REGS : Z := 95.
Definition AC_FIRST_TRACKED_OTHER_REG : Z := AC_NUM_TRACKED_CONTEXT_REGS.
Definition AC_TRACKED_GE_PC_ALLOC : Z := AC_FIRST_TRACKED_OTHER_REG.
Definition AC_TRACKED_SPI_SHADER_PGM_RSRC3_GS : Z := 96.
Definition AC_TRACKED_SPI_SHADER_PGM_RSRC4_GS : Z := 97.
Definition AC_TRACKED_VGT_GS_OUT_PRIM_TYPE_UCONFIG : Z := 98.
Definition AC_TRACKED_SPI_SHADER_GS_OUT_CONFIG_PS : Z := 99.
Definition AC_TRACKED_VGT_PRIMITIVEID_EN_UCONFIG : Z := 100.
Definition AC_TRACKED_IA_MULTI_VGT_PARAM_UCONFIG : Z := 101.
Definition AC_TRACKED_GE_CNTL : Z := AC_TRACKED_IA_MULTI_VGT_PARAM_UCONFIG.
Definition AC_TRACKED_SPI_SHADER_PGM_RSRC2_HS : Z := 102.
Definition AC_TRACKED_SPI_SHADER_USER_DATA_PS__ALPHA_REF : Z := 103.
Definition AC_TRACKED_SPI_SHADER_USER_DATA_HS__TCS_OFFCHIP_LAYOUT : Z := 104.
Definition AC_TRACKED_SPI_SHADER_USER_DATA_HS__TCS_OFFCHIP_ADDR : Z := 105.
Definition AC_TRACKED_SPI_SHADER_USER_DATA_HS__VS_STATE_BITS : Z := 106.
Definition AC_TRACKED_SPI_SHADER_USER_DATA_LS__BASE_VERTEX : Z := 107.
Definition AC_TRACKED_SPI_SHADER_USER_DATA_LS__DRAWID : Z := 108.
Definition AC_TRACKED_SPI_SHADER_USER_DATA_LS__START_INSTANCE : Z := 109.
Definition AC_TRACKED_SPI_SHADER_USER_DATA_ES__BASE_VERTEX : Z := 110.
Definition AC_TRACKED_SPI_SHADER_USER_DATA_ES__DRAWID : Z := 111.
Definition AC_TRACKED_SPI_SHADER_USER_DATA_ES__START_INSTANCE : Z := 112.
Definition AC_TRACKED_SPI_SHADER_USER_DATA_VS__BASE_VERTEX : Z := 113.
Definition AC_TRACKED_SPI_SHADER_USER_DATA_VS__DRAWID : Z := 114.
Definition AC_TRACKED_SPI_SHADER_USER_DATA_VS__START_INSTANCE : Z := 115.
Definition AC_TRACKED_COMPUTE_RESOURCE_LIMITS : Z := 116.
Definition AC_TRACKED_COMPUTE_DISPATCH_INTERLEAVE : Z := 117.
Definition AC_TRACKED_COMPUTE_NUM_THREAD_X : Z := 118.
Definition AC_TRACKED_COMPUTE_NUM_THREAD_Y : Z := 119.
Definition AC_TRACKED_COMPUTE_NUM_THREAD_Z : Z := 120.
Definition AC_TRACKED_COMPUTE_TMPRING_SIZE : Z := 121.
Definition AC_TRACKED_COMPUTE_PGM_RSRC3 : Z := 122.
Definition AC_TRACKED_COMPUTE_PGM_RSRC1 : Z := 123.
Definition AC_TRACKED_COMPUTE_PGM_RSRC2 : Z := 124.
Definition AC_TRACKED_SPI_SHADER_GS_MESHLET_DIM : Z := 125.
Definition AC_TRACKED_SPI_SHADER_GS_MESHLET_EXP_ALLOC : Z := 126.
Definition AC_TRACKED_SPI_SHADER_GS_MESHLET_CTRL : Z := 127.
Definition AC_TRACKED_COMPUTE_DISPATCH_SCRATCH_BASE_LO : Z := 128.
Definition AC_TRACKED_COMPUTE_DISPATCH_SCRATCH_BASE_HI : Z := 129.
Definition AC_NUM_ALL_TRACKED_REGS : Z := 130.

(** ** The values after CLEAR_STATE *)

(** [reg_value[e] = v]. *)
Definition set_value (e v : Z) (k : ac_tracked_regs) : res ac_tracked_regs :=
  let* l := arr_set (reg_value k) e v in Ok (set_tracked k (reg_saved_mask k) l).

Fixpoint set_values (k : ac_tracked_regs) (l : list (Z * Z)) : res ac_tracked_regs :=
  match l with
  | [] => Ok k
  | (e, v) :: l' => let* k1 := set_value e v k in set_values k1 l'
  end.

(** The assignments of [ac_set_tracked_regs_to_clear_state], in their order. *)
Definition clear_state_values (I : gpu_info) : list (Z * Z) :=
  [(AC_TRACKED_DB_RENDER_CONTROL, 0);
   (AC_TRACKED_DB_COUNT_CONTROL, 0);
   (AC_TRACKED_DB_DEPTH_CONTROL, 0);
   (AC_TRACKED_DB_STENCIL_CONTROL, 0);
   (AC_TRACKED_DB_DEPTH_BOUNDS_MIN, 0);
   (AC_TRACKED_DB_DEPTH_BOUNDS_MAX, 0);
   (AC_TRACKED_DB_ALPHA_TO_MASK, 0)] ++
  (if gfx_ge I GFX9 then
     [(AC_TRACKED_DB_STENCILREFMASK, 0x01000000);
      (AC_TRACKED_DB_STENCILREFMASK_BF, 0x01000000)]
   else
     [(AC_TRACKED_DB_STENCILREFMASK, 0);
      (AC_TRACKED_DB_STENCILREFMASK_BF, 0)]) ++
  [(AC_TRACKED_SPI_INTERP_CONTROL_0, 0);
   (AC_TRACKED_PA_SU_POINT_SIZE, 0);
   (AC_TRACKED_PA_SU_POINT_MINMAX, 0);
   (AC_TRACKED_PA_SU_LINE_CNTL, 0);
   (AC_TRACKED_PA_SC_MODE_CNTL_0, 0);
   (AC_TRACKED_PA_SU_SC_MODE_CNTL, 0x4);
   (AC_TRACKED_PA_SC_EDGERULE, 0xaa99aaaa)] ++
  (if gfx_ge I GFX10 then
     [(AC_TRACKED_PA_SC_CONSERVATIVE_RASTERIZATION_CNTL, 0x00100000)]
   else
     [(AC_TRACKED_PA_SC_CONSERVATIVE_RASTERIZATION_CNTL, 0)]) ++
  [(AC_TRACKED_PA_SC_SHADER_CONTROL, 0);
   (AC_TRACKED_PA_SU_POLY_OFFSET_DB_FMT_CNTL, 0);
   (AC_TRACKED_PA_SU_POLY_OFFSET_CLAMP, 0);
   (AC_TRACKED_PA_SU_POLY_OFFSET_FRONT_SCALE, 0);
   (AC_TRACKED_PA_SU_POLY_OFFSET_FRONT_OFFSET, 0);
   (AC_TRACKED_PA_SU_POLY_OFFSET_BACK_SCALE, 0);
   (AC_TRACKED_PA_SU_POLY_OFFSET_BACK_OFFSET, 0);
   (AC_TRACKED_PA_SC_LINE_CNTL, 0x1000);
   (AC_TRACKED_PA_SC_AA_CONFIG, 0);
   (AC_TRACKED_PA_SC_AA_MASK_X0Y0_X1Y0, 0xffffffff);
   (AC_TRACKED_PA_SC_AA_MASK_X0Y1_X1Y1, 0xffffffff);
   (AC_TRACKED_PA_SU_VTX_CNTL, 0x5);
   (AC_TRACKED_PA_CL_GB_VERT_CLIP_ADJ, 0x3f800000);
   (AC_TRACKED_PA_CL_GB_VERT_DISC_ADJ, 0x3f800000);
   (AC_TRACKED_PA_CL_GB_HORZ_CLIP_ADJ, 0x3f800000);
   (AC_TRACKED_PA_CL_GB_HORZ_DISC_ADJ, 0x3f800000);
   (AC_TRACKED_PA_CL_VRS_CNTL, 0);
   (AC_TRACKED_SPI_SHADER_IDX_FORMAT, 0);
   (AC_TRACKED_SPI_SHADER_POS_FORMAT, 0);
   (AC_TRACKED_SPI_SHADER_Z_FORMAT, 0);
   (AC_TRACKED_SPI_SHADER_COL_FORMAT, 0);
   (AC_TRACKED_SPI_PS_INPUT_ENA, 0);
   (AC_TRACKED_SPI_PS_INPUT_ADDR, 0);
   (AC_TRACKED_DB_EQAA, 0);
   (AC_TRACKED_DB_RENDER_OVERRIDE2, 0);
   (AC_TRACKED_DB_SHADER_CONTROL, 0);
   (AC_TRACKED_CB_SHADER_MASK, 0xffffffff);
   (AC_TRACKED_CB_TARGET_MASK, 0xffffffff);
   (AC_TRACKED_PA_CL_CLIP_CNTL, 0x90000);
   (AC_TRACKED_PA_CL_VS_OUT_CNTL, 0);
   (AC_TRACKED_PA_CL_VTE_CNTL, 0);
   (AC_TRACKED_PA_SC_CLIPRECT_RULE, 0xffff);
   (AC_TRACKED_PA_SC_LINE_STIPPLE, 0);
   (AC_TRACKED_PA_SC_MODE_CNTL_1, 0);
   (AC_TRACKED_PA_SU_HARDWARE_SCREEN_OFFSET, 0);
   (AC_TRACKED_SPI_PS_IN_CONTROL, 0x2);
   (AC_TRACKED_VGT_GS_INSTANCE_CNT, 0);
   (AC_TRACKED_VGT_GS_MAX_VERT_OUT, 0);
   (AC_TRACKED_VGT_SHADER_STAGES_EN, 0);
   (AC_TRACKED_VGT_LS_HS_CONFIG, 0);
   (AC_TRACKED_VGT_TF_PARAM, 0);
   (AC_TRACKED_PA_SU_SMALL_PRIM_FILTER_CNTL, 0);
   (AC_TRACKED_PA_SC_BINNER_CNTL_0, 0x3);
   (AC_TRACKED_GE_MAX_OUTPUT_PER_SUBGROUP, 0);
   (AC_TRACKED_GE_NGG_SUBGRP_CNTL, 0);
   (AC_TRACKED_PA_CL_NGG_CNTL, 0);
   (AC_TRACKED_DB_PA_SC_VRS_OVERRIDE_CNTL, 0);
   (AC_TRACKED_SX_PS_DOWNCONVERT, 0);
   (AC_TRACKED_SX_BLEND_OPT_EPSILON, 0);
   (AC_TRACKED_SX_BLEND_OPT_CONTROL, 0);
   (AC_TRACKED_VGT_ESGS_RING_ITEMSIZE, 0);
   (AC_TRACKED_VGT_REUSE_OFF, 0);
   (AC_TRACKED_IA_MULTI_VGT_PARAM, 0xff);
   (AC_TRACKED_VGT_GS_MAX_PRIMS_PER_SUBGROUP, 0);
   (AC_TRACKED_VGT_GS_ONCHIP_CNTL, 0);
   (AC_TRACKED_VGT_GSVS_RING_ITEMSIZE, 0);
   (AC_TRACKED_VGT_GS_MODE, 0);
   (AC_TRACKED_VGT_VERTEX_REUSE_BLOCK_CNTL, 0x1e);
   (AC_TRACKED_VGT_GS_OUT_PRIM_TYPE, 0);
   (AC_TRACKED_VGT_GSVS_RING_OFFSET_1, 0);
   (AC_TRACKED_VGT_GSVS_RING_OFFSET_2, 0);
   (AC_TRACKED_VGT_GSVS_RING_OFFSET_3, 0);
   (AC_TRACKED_VGT_GS_VERT_ITEMSIZE, 0);
   (AC_TRACKED_VGT_GS_VERT_ITEMSIZE_1, 0);
   (AC_TRACKED_VGT_GS_VERT_ITEMSIZE_2, 0);
   (AC_TRACKED_VGT_GS_VERT_ITEMSIZE_3, 0);
   (AC_TRACKED_SPI_VS_OUT_CONFIG, 0);
   (AC_TRACKED_VGT_PRIMITIVEID_EN, 0);
   (AC_TRACKED_VGT_DRAW_PAYLOAD_CNTL, 0);
   (AC_TRACKED_VGT_MULTI_PRIM_IB_RESET_INDX, 0);
   (AC_TRACKED_CB_DCC_CONTROL, 0);
   (AC_TRACKED_CB_COLOR_CONTROL, 0);
   (AC_TRACKED_DB_PA_SC_VRS_OVERRIDE_CNTL, 0);
   (AC_TRACKED_DB_Z_INFO, 0)].

Definition ac_set_tracked_regs_to_clear_state (k : ac_tracked_regs) (I : gpu_info)
  : res ac_tracked_regs :=
  assert! gfx_lt I GFX12 in
  let* k1 := set_values k (clear_state_values I) in
  Ok (set_tracked k1 (BITSET_SET_RANGE (reg_saved_mask k1) 0 AC_NUM_TRACKED_CONTEXT_REGS) (reg_value k1)).

(** [ac_init_tracked_regs]; [memset(.., 0xff, ..)] makes every dword [0xffffffff]. *)
Definition ac_init_tracked_regs (I : gpu_info) (init_to_clear_state : bool) : res ac_tracked_regs :=
  let k := mk_tracked 0 (replicate (Z.to_nat AC_NUM_ALL_TRACKED_REGS) 0) [] [] [] in
  let* k1 := if has_clear_state I && init_to_clear_state
             then ac_set_tracked_regs_to_clear_state k I else Ok k in
  Ok (mk_tracked (reg_saved_mask k1) (reg_value k1)
        (replicate 32 0xffffffff) (replicate 8 0xffffffff) (replicate 8 0xffffffff)).
