(* ===== verification/TrackedProofs.v ===== *)
(** A context with shadowed registers starts with what its command stream says: after the
    emulated [CLEAR_STATE] and the preamble, the values
    [ac_set_tracked_regs_to_clear_state] notes are the ones the hardware has, so that the first
    [radeon_opt_set_context_reg*] calls may already leave writes out. *)

From stdpp Require Import strings.
From S2P Require Import Prelude.
From S2P Require Import CLib.
From S2P Require Import TitanRegMap.
From S2P Require Import Packets.
From S2P Require Import Pm4.
From S2P Require Import Pm4Proofs.
From S2P Require Import Pm4States.
From S2P Require Import CmdBuf.
From S2P Require Import CmdBufProofs.
From S2P Require Import RegFields.
From S2P Require Import Preamble.
From S2P Require Import SiPreamble.
From S2P Require Import PreambleProofs.
From S2P Require Import SiPreambleProofs.
From S2P Require Import ShadowRegs.
From S2P Require Import TrackedRegs.
From S2P Require Import ShadowProofs.

(** ** The tracked context registers *)

(** The registers radeonsi writes through [radeon_opt_set_context_reg*] on GFX9 to GFX10.3, each
    with its slot. *)
Definition tracked_common : list (Z * Z) := [
  (AC_TRACKED_DB_RENDER_CONTROL, 0x028000); (AC_TRACKED_DB_COUNT_CONTROL, 0x028004);
  (AC_TRACKED_DB_DEPTH_CONTROL, 0x028800); (AC_TRACKED_DB_STENCIL_CONTROL, 0x02842C);
  (AC_TRACKED_DB_DEPTH_BOUNDS_MIN, 0x028020); (AC_TRACKED_DB_DEPTH_BOUNDS_MAX, 0x028024);
  (AC_TRACKED_SPI_INTERP_CONTROL_0, 0x0286D4); (AC_TRACKED_PA_SU_POINT_SIZE, 0x028A00);
  (AC_TRACKED_PA_SU_POINT_MINMAX, 0x028A04); (AC_TRACKED_PA_SU_LINE_CNTL, 0x028A08);
  (AC_TRACKED_PA_SC_MODE_CNTL_0, 0x028A48); (AC_TRACKED_PA_SU_SC_MODE_CNTL, 0x028814);
  (AC_TRACKED_PA_SC_EDGERULE, 0x028230);
  (AC_TRACKED_PA_SU_POLY_OFFSET_DB_FMT_CNTL, 0x028B78); (AC_TRACKED_PA_SU_POLY_OFFSET_CLAMP, 0x028B7C);
  (AC_TRACKED_PA_SU_POLY_OFFSET_FRONT_SCALE, 0x028B80);
  (AC_TRACKED_PA_SU_POLY_OFFSET_FRONT_OFFSET, 0x028B84);
  (AC_TRACKED_PA_SU_POLY_OFFSET_BACK_SCALE, 0x028B88);
  (AC_TRACKED_PA_SU_POLY_OFFSET_BACK_OFFSET, 0x028B8C);
  (AC_TRACKED_PA_SC_LINE_CNTL, 0x028BDC); (AC_TRACKED_PA_SC_AA_CONFIG, 0x028BE0);
  (AC_TRACKED_PA_SU_VTX_CNTL, 0x028BE4); (AC_TRACKED_PA_CL_GB_VERT_CLIP_ADJ, 0x028BE8);
  (AC_TRACKED_PA_CL_GB_VERT_DISC_ADJ, 0x028BEC); (AC_TRACKED_PA_CL_GB_HORZ_CLIP_ADJ, 0x028BF0);
  (AC_TRACKED_PA_CL_GB_HORZ_DISC_ADJ, 0x028BF4);
  (AC_TRACKED_SPI_SHADER_POS_FORMAT, 0x02870C); (AC_TRACKED_SPI_SHADER_Z_FORMAT, 0x028710);
  (AC_TRACKED_SPI_SHADER_COL_FORMAT, 0x028714); (AC_TRACKED_SPI_PS_INPUT_ENA, 0x0286CC);
  (AC_TRACKED_SPI_PS_INPUT_ADDR, 0x0286D0); (AC_TRACKED_DB_EQAA, 0x028804);
  (AC_TRACKED_DB_RENDER_OVERRIDE2, 0x028010); (AC_TRACKED_DB_SHADER_CONTROL, 0x02880C);
  (AC_TRACKED_CB_SHADER_MASK, 0x02823C); (AC_TRACKED_CB_TARGET_MASK, 0x028238);
  (AC_TRACKED_PA_CL_CLIP_CNTL, 0x028810); (AC_TRACKED_PA_CL_VS_OUT_CNTL, 0x02881C);
  (AC_TRACKED_PA_CL_VTE_CNTL, 0x028818); (AC_TRACKED_PA_SC_CLIPRECT_RULE, 0x02820C);
  (AC_TRACKED_PA_SC_LINE_STIPPLE, 0x028A0C); (AC_TRACKED_PA_SC_MODE_CNTL_1, 0x028A4C);
  (AC_TRACKED_PA_SU_HARDWARE_SCREEN_OFFSET, 0x028234); (AC_TRACKED_SPI_PS_IN_CONTROL, 0x0286D8);
  (AC_TRACKED_VGT_GS_INSTANCE_CNT, 0x028B90); (AC_TRACKED_VGT_GS_MAX_VERT_OUT, 0x028B38);
  (AC_TRACKED_VGT_SHADER_STAGES_EN, 0x028B54); (AC_TRACKED_VGT_LS_HS_CONFIG, 0x028B58);
  (AC_TRACKED_VGT_TF_PARAM, 0x028B6C); (AC_TRACKED_PA_SC_BINNER_CNTL_0, 0x028C44);
  (AC_TRACKED_SX_PS_DOWNCONVERT, 0x028754); (AC_TRACKED_SX_BLEND_OPT_EPSILON, 0x028758);
  (AC_TRACKED_SX_BLEND_OPT_CONTROL, 0x02875C);
  (AC_TRACKED_VGT_GS_ONCHIP_CNTL, 0x028A44); (AC_TRACKED_VGT_GSVS_RING_ITEMSIZE, 0x028AB0);
  (AC_TRACKED_VGT_GS_MODE, 0x028A40); (AC_TRACKED_VGT_GS_OUT_PRIM_TYPE, 0x028A6C);
  (AC_TRACKED_VGT_GSVS_RING_OFFSET_1, 0x028A60); (AC_TRACKED_VGT_GSVS_RING_OFFSET_2, 0x028A64);
  (AC_TRACKED_VGT_GSVS_RING_OFFSET_3, 0x028A68);
  (AC_TRACKED_VGT_GS_VERT_ITEMSIZE, 0x028B5C); (AC_TRACKED_VGT_GS_VERT_ITEMSIZE_1, 0x028B60);
  (AC_TRACKED_VGT_GS_VERT_ITEMSIZE_2, 0x028B64); (AC_TRACKED_VGT_GS_VERT_ITEMSIZE_3, 0x028B68);
  (AC_TRACKED_SPI_VS_OUT_CONFIG, 0x0286C4); (AC_TRACKED_VGT_PRIMITIVEID_EN, 0x028A84);
  (AC_TRACKED_CB_DCC_CONTROL, 0x028424)].

(** The slots only some of these generations use. *)
Definition tracked_slots (g : amd_gfx_level) : list (Z * Z) :=
  tracked_common ++
  match g with
  | GFX9 => [(AC_TRACKED_VGT_GS_MAX_PRIMS_PER_SUBGROUP, 0x028A94);
             (AC_TRACKED_VGT_VERTEX_REUSE_BLOCK_CNTL, 0x028C58)]
  | GFX10 => [(AC_TRACKED_PA_CL_NGG_CNTL, 0x028838); (AC_TRACKED_GE_MAX_OUTPUT_PER_SUBGROUP, 0x0287FC);
              (AC_TRACKED_GE_NGG_SUBGRP_CNTL, 0x028B4C)]
  | GFX10_3 => [(AC_TRACKED_PA_CL_NGG_CNTL, 0x028838); (AC_TRACKED_GE_MAX_OUTPUT_PER_SUBGROUP, 0x0287FC);
                (AC_TRACKED_GE_NGG_SUBGRP_CNTL, 0x028B4C);
                (AC_TRACKED_DB_PA_SC_VRS_OVERRIDE_CNTL, 0x028064); (AC_TRACKED_VGT_REUSE_OFF, 0x028AB4)]
  | _ => []
  end.

Definition slot_reg (g : amd_gfx_level) (e : Z) : Z := default 0 (switch_opt (tracked_slots g) e).
Definition slot_live (g : amd_gfx_level) (e : Z) : Prop := e ∈ (tracked_slots g).*1.

Lemma slot_reg_in g e : slot_live g e -> (e, slot_reg g e) ∈ tracked_slots g.
Proof.
  unfold slot_live, slot_reg. intros He. destruct (switch_opt (tracked_slots g) e) eqn:E.
  - by apply switch_opt_Some in E.
  - by apply switch_opt_None in E.
Qed.

Lemma slot_range g e : slot_live g e -> 0 <= e < AC_NUM_TRACKED_CONTEXT_REGS.
Proof.
  intros He%slot_reg_in.
  assert (Hall : forallb (fun p => (0 <=? p.1) && (p.1 <? AC_NUM_TRACKED_CONTEXT_REGS)) (tracked_slots g) = true)
    by (destruct g; vm_compute; reflexivity).
  apply (forallb_elem _ _ _ Hall) in He. cbn [fst] in He.
  rewrite andb_true_iff, Z.leb_le, Z.ltb_lt in He. exact He.
Qed.

Lemma slot_inj g e e' : slot_live g e -> slot_live g e' -> slot_reg g e = slot_reg g e' -> e = e'.
Proof.
  intros He%slot_reg_in He'%slot_reg_in Heq. rewrite <- Heq in He'. revert He He'. generalize (slot_reg g e).
  intros r He He'. clear Heq.
  assert (Hnd : NoDup (tracked_slots g).*2) by (apply (bool_decide_unpack _); destruct g; vm_compute; reflexivity).
  apply list_elem_of_lookup in He as [i Hi], He' as [j Hj].
  assert (i = j) as ->; [|congruence].
  eapply NoDup_lookup; [exact Hnd| |]; rewrite list_lookup_fmap; [by rewrite Hi|by rewrite Hj].
Qed.

(** ** The values noted *)

(** [reg_value] after a sequence of assignments. *)
Definition stored (base : list Z) (l : list (Z * Z)) : list Z :=
  foldl (fun b p => <[Z.to_nat p.1 := p.2]> b) base l.

Lemma length_stored base l : length (stored base l) = length base.
Proof.
  unfold stored. revert base. induction l as [|p l IH]; intros base; [done|]. simpl.
  by rewrite IH, length_insert.
Qed.

Lemma set_values_ok l : forall k,
  forallb (fun p => (0 <=? p.1) && (p.1 <? Z.of_nat (length (reg_value k)))) l = true ->
  set_values k l = Ok (set_tracked k (reg_saved_mask k) (stored (reg_value k) l)).
Proof.
  induction l as [|[e v] l IH]; intros k Hl; [by destruct k|]. cbn [forallb fst] in Hl.
  apply andb_true_iff in Hl as [He Hl]. apply andb_true_iff in He as [H0 H1].
  apply Z.leb_le in H0. apply Z.ltb_lt in H1. cbn [set_values]. unfold set_value.
  assert (E : arr_set (reg_value k) e v = Ok (<[Z.to_nat e := v]> (reg_value k))) by (apply arr_set_ok; split; [lia|done]).
  rewrite E. cbn [res_bind]. rewrite IH; [done|]. cbn [reg_value set_tracked]. by rewrite length_insert.
Qed.

(** An assigned slot does not depend on what was there. *)
Lemma stored_assigned l e b b' :
  e ∈ l.*1 -> length b = length b' -> (forall p, p ∈ l -> 0 <= p.1) -> stored b l !! Z.to_nat e = stored b' l !! Z.to_nat e.
Proof.
  intros He Hlen Hp. induction l as [|[x v] l IH] using rev_ind; [by apply not_elem_of_nil in He|].
  unfold stored in *. rewrite !foldl_app. cbn [foldl fst snd].
  assert (Hl : forall b, length (foldl (fun b (p : Z * Z) => <[Z.to_nat p.1:=p.2]> b) b l) = length b)
    by (intros; apply length_stored).
  destruct (decide (Z.to_nat e = Z.to_nat x)) as [->|Hne].
  - destruct (decide (Z.to_nat x < length b)%nat).
    + rewrite !list_lookup_insert_eq by (rewrite Hl; lia). done.
    + rewrite !(proj2 (lookup_ge_None _ _)) by (rewrite length_insert, Hl; lia). done.
  - rewrite !list_lookup_insert_ne by done. apply IH.
    + rewrite fmap_app in He. apply elem_of_app in He as [He|He]; [done|].
      apply list_elem_of_singleton in He. simpl in He. congruence.
    + intros p Hin. apply Hp. apply elem_of_app. by left.
Qed.

(** What [ac_set_tracked_regs_to_clear_state] leaves: every context slot marked as saved, and in
    the slots of a generation with an emulated [CLEAR_STATE] the values its arrays have. *)
Lemma tracked_values I k0 :
  emulated I = true -> Z.of_nat (length (reg_value k0)) = AC_NUM_ALL_TRACKED_REGS ->
  exists k, ac_set_tracked_regs_to_clear_state k0 I = Ok k /\
    Z.of_nat (length (reg_value k)) = AC_NUM_ALL_TRACKED_REGS /\
    forall e m, slot_live (gfx_level (pm4_info I)) e ->
      exists v, reg_value k !! Z.to_nat e = Some v /\
        reg_file m (clear_writes I) !! slot_reg (gfx_level (pm4_info I)) e = Some v.
Proof.
  intros He Hk. unfold ac_set_tracked_regs_to_clear_state.
  set (g := gfx_level (pm4_info I)). set (l := clear_state_values I).
  assert (Hg : g = GFX9 \/ g = GFX10 \/ g = GFX10_3).
  { revert He. unfold emulated, gfx_is, gfx_ge, gfx_upto. fold g. destruct g; auto; done. }
  assert (H12 : gfx_lt I GFX12 = true) by (unfold gfx_lt, gfx_ge; fold g; by destruct Hg as [-> | [-> | ->]]).
  rewrite H12. cbn [assert_ res_bind].
  assert (Hrange : forallb (fun p => (0 <=? p.1) && (p.1 <? AC_NUM_ALL_TRACKED_REGS)) l = true).
  { unfold l, clear_state_values, gfx_ge. fold g. destruct Hg as [-> | [-> | ->]]; vm_compute; reflexivity. }
  rewrite set_values_ok by (by rewrite Hk). cbn [res_bind reg_saved_mask reg_value set_tracked].
  eexists. split; [reflexivity|]. cbn [reg_value set_tracked]. rewrite length_stored. split; [done|].
  intros e m Hlive.
  set (base := replicate (Z.to_nat AC_NUM_ALL_TRACKED_REGS) 0).
  assert (Hcheck : forallb (fun p => memb p.1 l.*1 && memb p.2 (clear_writes I).*1 &&
      match stored base l !! Z.to_nat p.1, reg_file ∅ (clear_writes I) !! p.2 with
      | Some v, Some w => v =? w | _, _ => false end) (tracked_slots g) = true).
  { unfold l, clear_state_values, clear_writes, clear_arrays, gfx_is, gfx_upto, gfx_ge. fold g.
    generalize (pa_sc_tile_steering_override I). intros v0.
    destruct Hg as [-> | [-> | ->]]; vm_compute; reflexivity. }
  pose proof (forallb_elem _ _ _ Hcheck (slot_reg_in _ _ Hlive)) as Hin. cbn [fst snd] in Hin. clear Hcheck.
  apply andb_true_iff in Hin as [[H1%memb_ok H2%memb_ok]%andb_true_iff Hv].
  destruct (reg_file_written _ _ H2) as [v Hw]. rewrite (Hw ∅) in Hv.
  destruct (stored base l !! Z.to_nat e) as [v1|] eqn:Es; [|done]. apply Z.eqb_eq in Hv as ->.
  exists v. split; [|apply Hw]. rewrite <- Es. apply stored_assigned; [done| |].
  - unfold base. rewrite length_replicate. apply Nat2Z.inj. rewrite Hk. done.
  - intros p Hp. apply (forallb_elem _ _ _ Hrange) in Hp.
    apply andb_true_iff in Hp as [Hp _]. by apply Z.leb_le.
Qed.

(** ** Registers the preamble leaves alone *)

(** None of the calls sets a register of [L]. *)
Class Avoids (L : list Z) (os : list pm4_op) : Prop := avoids : forallb (fun r => negb (memb r L)) (regs os) = true.

Lemma regs_app a b : regs (a ++ b) = regs a ++ regs b.
Proof. apply omap_app. Qed.

#[local] Instance avoids_nil L : Avoids L [].
Proof. done. Qed.
#[local] Instance avoids_app L a b : Avoids L a -> Avoids L b -> Avoids L (a ++ b).
Proof. unfold Avoids. intros Ha Hb. by rewrite regs_app, forallb_app, Ha, Hb. Qed.
#[local] Instance avoids_set_reg L reg val : TCEq (negb (memb reg L)) true -> Avoids L (set_reg reg val).
Proof. intros H. unfold Avoids. simpl. by rewrite (proj1 (TCEq_eq _ _) H). Qed.
#[local] Instance avoids_cmd L dws : Avoids L [CmdAdds dws].
Proof. done. Qed.
#[local] Instance avoids_when L b os : Avoids L os -> Avoids L (when b os).
Proof. by destruct b. Qed.
#[local] Instance avoids_if L (b : bool) os1 os2 : Avoids L os1 -> Avoids L os2 -> Avoids L (if b then os1 else os2).
Proof. by destruct b. Qed.

Lemma avoids_for L lo n body : Forall (fun i => Avoids L (body i)) (seqZ lo n) -> Avoids L (for_ lo n body).
Proof.
  unfold for_. induction 1 as [|i l Hi Hl IH]; [apply _|]. cbn [fmap list_fmap concat]. by apply avoids_app.
Qed.

#[local] Hint Extern 1 (Avoids _ (for_ ?lo ?n _)) =>
  apply avoids_for; (let l := eval vm_compute in (seqZ lo n) in change (seqZ lo n) with l);
  repeat (apply Forall_cons; split); [cbv beta; apply _ ..|apply Forall_nil; exact I]
  : typeclass_instances.

Lemma avoids_not_in L os r : Avoids L os -> r ∈ L -> r ∉ (asked os).*1.
Proof.
  unfold Avoids. intros H Hr Hin. rewrite asked_regs in Hin. apply (forallb_elem _ _ _ H) in Hin.
  apply negb_true_iff in Hin. by rewrite (proj2 (memb_ok _ _) Hr) in Hin.
Qed.

(** The preambles of GFX9 to GFX10.3 on a GPU whose registers are not moved. *)
Lemma preamble_avoids t c os :
  regmap_active t = false -> raster_ok (s_info c) = true -> emulated (s_info c) = true ->
  has_clear_state (s_info c) = true ->
  si_preamble_ops t c = Ok os -> Avoids (tracked_slots (gfx_level (pm4_info (s_info c)))).*2 os.
Proof.
  intros Ht Hr He Hcs. destruct (ac_emit_raster_config_ok (s_info c) Hr) as (raster & Er & _).
  unfold si_preamble_ops, gfx10_preamble_ops, gfx6_preamble_ops, si_init_graphics_preamble_state,
    ac_init_graphics_preamble_state, gfx6_init_graphics_preamble_state, gfx10_init_graphics_preamble_state,
    gfx10_sh_preamble, gfx10_ctx_preamble, pixel_pipe_stat_control, si_init_compute_preamble_state,
    ac_init_compute_preamble_state, cdna_init_compute_preamble_state, gfx10_init_compute_preamble_state,
    gfx6_init_compute_preamble_state, context_control, context_control_shadow, break_batch, clear_state.
  rewrite Er, Ht, Hcs. cbv zeta. unfold emulated, gfx_is, gfx_upto, gfx_lt, gfx_ge in *.
  destruct (gfx_level (pm4_info (s_info c))) eqn:Eg; try done;
    destruct (has_graphics (s_info c)), (is_gfx_queue c);
    cbn [gfx_le gfx_rank Z.leb Z.compare Pos.compare Pos.compare_cont andb orb negb when res_bind];
    intros <-%(inj Ok); apply _.
Qed.

(** ** A context with shadowed registers *)

Section Start.
Context (is_pgm_lo : Z -> bool) (getenv : string -> option string).

(** A context whose registers [si_init_cp_reg_shadowing] initialises itself: GFX9, GFX10 or
    GFX10.3, where [CLEAR_STATE] exists, and no register map. *)
Record shadowed (t : titan) (c : si_context) : Prop := {
  sh_map : regmap_active t = false;
  sh_supported : supported c;
  sh_level : emulated (s_info c) = true;
  sh_clear : has_clear_state (s_info c) = true;
  sh_tile : in_u32 (pa_sc_tile_steering_override (s_info c))
}.

(** The streams of [si_init_cp_reg_shadowing] after the load of the shadowed registers, and
    what it notes of them. *)
Lemma shadowed_start t c k0 m0 other :
  shadowed t c -> other_skips other -> Z.of_nat (length (reg_value k0)) = AC_NUM_ALL_TRACKED_REGS ->
  exists s1 t' s2 k, ac_emulate_clear_state (s_info c) = Ok s1 /\
    si_init_gfx_preamble_state is_pgm_lo getenv t c = Ok (t', s2) /\
    ac_set_tracked_regs_to_clear_state k0 (s_info c) = Ok k /\
    tracked_ok (slot_reg (gfx_level (pm4_info (s_info c)))) AC_NUM_ALL_TRACKED_REGS
      (slot_live (gfx_level (pm4_info (s_info c)))) k
      (reg_file m0 (parse_gfx_compute_ib (dump s1) other ++ parse_gfx_compute_ib (dump s2) other)).
Proof.
  intros [Ht Hs He Hc Hv] Ho Hk0. destruct (clear_state_built (s_info c) other He Hv Ho) as (s1 & E1 & _ & Hp1).
  destruct (si_preamble_built is_pgm_lo getenv t c Ht Hs) as (t' & s2 & os & Eos & E2 & Hst & _ & _).
  destruct (tracked_values (s_info c) k0 He Hk0) as (k & Ek & Hlen & Hval).
  exists s1, t', s2, k. split; [done|]. split; [done|]. split; [done|]. split; [done|].
  pose proof Hs as ((vram & pre & uq & Hpi) & _ & _ & Hr).
  assert (Hpk : packed_info (pm4_info (s_info c)) = false).
  { rewrite Hpi. apply features_unpacked. revert He. unfold emulated, gfx_is, gfx_ge, gfx_upto.
    by destruct (gfx_level (pm4_info (s_info c))). }
  rewrite Hpk in Hst. rewrite Hp1, (stands_for_parse s2 (asked os) other Ho Hst), reg_file_app.
  intros e Hlive _. destruct (Hval e m0 Hlive) as (v & Hv1 & Hv2). exists v. split; [done|].
  rewrite reg_file_lookup_ne; [done|]. eapply avoids_not_in; [by eapply preamble_avoids|].
  apply list_elem_of_fmap. exists (e, slot_reg (gfx_level (pm4_info (s_info c))) e).
  split; [done|]. by apply slot_reg_in.
Qed.

End Start.

(** ** Witnesses *)

(** A Navi 21 whose context has shadowed registers. *)
Definition navi21_info : gpu_info :=
  mk_gpu (packet_features GFX10_3 true false false) CHIP_NAVI21 0xffff8000 0xffff 2 1 8 0xff 0x16000012 0 0
    128 4 4 true true false false.
Definition navi21 : si_context := mk_sctx navi21_info (Some 0x800000000) true false true true true true false false.

Lemma navi21_shadowed : shadowed titan_init navi21.
Proof.
  split; [done| |done|done|unfold in_u32; simpl; lia].
  split; [by exists true, false, false|]. split; [reflexivity|]. split; [done|]. reflexivity.
Qed.

Definition untracked : ac_tracked_regs := mk_tracked 0 (replicate 130 0) [] [] [].

(** [radeon_opt_set_context_reg2] of the render and count controls, with the values they have. *)
Definition render_control : opt_call := mk_call 0x028000 0 [0; 0] SI_CONTEXT PKT3_SET_CONTEXT_REG.

Lemma render_control_ok :
  opt_call_ok no_env (slot_reg GFX10_3) AC_NUM_ALL_TRACKED_REGS (slot_live GFX10_3) titan_init render_control.
Proof.
  unfold AC_NUM_ALL_TRACKED_REGS. split; [split|].
  - reflexivity.
  - reflexivity.
  - simpl. unfold SI_CONTEXT_REG_OFFSET, SI_CONTEXT_REG_END. lia.
  - intros k Hk. simpl in Hk. assert (k = 0 \/ k = 1) as [-> | ->] by lia; vm_compute; (split; [discriminate|reflexivity]).
  - repeat (constructor; [unfold in_u32; lia|]). constructor.
  - split; [simpl; lia|]. split; [simpl; lia|]. split; [simpl; lia|].
    intros k Hk. simpl in Hk. unfold slot_live.
    destruct k as [|[|k]]; [| |lia]; (split; [apply memb_ok; vm_compute; reflexivity|vm_compute; reflexivity]).
Qed.

