(* ===== verification/HashTable.v ===== *)
(** The open-addressing hash table of [util/hash_table.c]: double hashing over tables of
    prime size, deleted markers, growth and in-place rehashing, with the 32-bit modulo of
    [util/fast_urem_by_const.h].  Keys and data are the [void *] of the source; a pointer to an
    entry is its index in the table.  The result of [rzalloc_array] for a table of a given
    size is a parameter. *)

From stdpp Require Import list.
From S2P Require Import Prelude.

(** ** [util/fast_urem_by_const.h] *)

Definition REMAINDER_MAGIC (divisor : Z) : Z := u64 (0xffffffffffffffff / divisor + 1).

(** Both branches of [_mul32by64_hi]: the 128-bit product, and the one made of two 64-bit
    products. *)
Definition _mul32by64_hi (a b : Z) : Z := u32 (Z.shiftr (b * a) 64).

Definition _mul32by64_hi_split (a b : Z) : Z :=
  let b0 := u32 b in
  let b1 := u32 (Z.shiftr b 32) in
  u32 (Z.shiftr (u64 (Z.shiftr (u64 (a * b0)) 32 + u64 (a * b1))) 32).

Definition util_fast_urem32 (n d magic : Z) : Z := _mul32by64_hi d (u64 (magic * n)).

(** ** The table *)

(** [hash_sizes]: [max_entries], [size] and [rehash]; the magic numbers follow from them. *)
Definition hash_sizes : list (Z * Z * Z) := [
  (16, 19, 17);
  (32, 43, 41);
  (64, 73, 71);
  (128, 151, 149);
  (256, 283, 281);
  (512, 571, 569);
  (1024, 1153, 1151);
  (2048, 2269, 2267);
  (4096, 4519, 4517);
  (8192, 9013, 9011);
  (16384, 18043, 18041);
  (32768, 36109, 36107);
  (65536, 72091, 72089);
  (131072, 144409, 144407);
  (262144, 288361, 288359);
  (524288, 576883, 576881);
  (1048576, 1153459, 1153457);
  (2097152, 2307163, 2307161);
  (4194304, 4613893, 4613891);
  (8388608, 9227641, 9227639);
  (16777216, 18455029, 18455027);
  (33554432, 36911011, 36911009);
  (67108864, 73819861, 73819859);
  (134217728, 147639589, 147639587);
  (268435456, 295279081, 295279079);
  (536870912, 590559793, 590559791);
  (1073741824, 1181116273, 1181116271);
  (2147483648, 2362232233, 2362232231)].

Definition hash_sizes_len : Z := Z.of_nat (length hash_sizes).

Record hash_entry (K V : Type) : Type := mk_entry {
  e_hash : Z; present : bool; deleted : bool; e_key : K; e_data : V
}.
Arguments mk_entry {K V}.
Arguments e_hash {K V}.
Arguments present {K V}.
Arguments deleted {K V}.
Arguments e_key {K V}.
Arguments e_data {K V}.

Record hash_table (K V : Type) : Type := mk_ht {
  table : list (hash_entry K V);
  ht_size : Z; ht_rehash : Z; size_magic : Z; rehash_magic : Z;
  max_entries : Z; size_index : Z; entries : Z; deleted_entries : Z
}.
Arguments mk_ht {K V}.
Arguments table {K V}.
Arguments ht_size {K V}.
Arguments ht_rehash {K V}.
Arguments size_magic {K V}.
Arguments rehash_magic {K V}.
Arguments max_entries {K V}.
Arguments size_index {K V}.
Arguments entries {K V}.
Arguments deleted_entries {K V}.

Section Ops.
Context {K V : Type}.
(** The null pointer as a key and as data, the callbacks, and [rzalloc_array]. *)
Context (null_key : K) (null_data : V).
Context (key_hash_function : K -> Z) (key_equals_function : K -> K -> bool).
Context (alloc : Z -> bool).

Abbreviation entry := (hash_entry K V).
Abbreviation ht := (hash_table K V).

(** A zeroed entry. *)
Definition zero_entry : entry := mk_entry 0 false false null_key null_data.

Definition with_table (h : ht) (t : list entry) (n d : Z) : ht :=
  mk_ht t (ht_size h) (ht_rehash h) (size_magic h) (rehash_magic h) (max_entries h) (size_index h) n d.

(** An empty table of size number [i]. *)
Definition fresh_table (i : Z) : res ht :=
  let* s := arr_get hash_sizes i in
  let '(max, size, rehash) := s in
  Ok (mk_ht (replicate (Z.to_nat size) zero_entry) size rehash (REMAINDER_MAGIC size)
        (REMAINDER_MAGIC rehash) max i 0 0).

(** [_initial_storage] has 19 entries. *)
Definition _mesa_hash_table_init : res ht :=
  let* h := fresh_table 0 in assert! ht_size h =? 19 in Ok h.

Definition hash_table_clear_fast (h : ht) : res ht :=
  let* s := arr_get hash_sizes (size_index h) in
  let n := Z.to_nat (snd (fst s)) in
  Ok (with_table h (replicate n zero_entry ++ drop n (table h)) 0 0).

(** [_mesa_hash_table_clear] and the entries its [delete_function] is called on. *)
Definition _mesa_hash_table_clear (h : ht) (delete_function : bool) : res (ht * list entry) :=
  if delete_function then
    Ok (with_table h
       ((fun e => mk_entry (e_hash e) false false (e_key e) (e_data e)) <$> table h) 0 0,
     filter (fun e => present e = true) (table h))
  else let* h' := hash_table_clear_fast h in Ok (h', []).

(** ** Probing *)

(** [hash_address += double_hash; if (hash_address >= size) hash_address -= size]. *)
Definition next_address (size double_hash a : Z) : Z :=
  let a1 := u32 (a + double_hash) in if size <=? a1 then u32 (a1 - size) else a1.

Definition start_address (h : ht) (hash : Z) : Z := util_fast_urem32 hash (ht_size h) (size_magic h).
Definition double_hash (h : ht) (hash : Z) : Z :=
  u32 (1 + util_fast_urem32 hash (ht_rehash h) (rehash_magic h)).

Fixpoint search_loop (fuel : nat) (h : ht) (hash : Z) (key : K) (a : Z) : res (option Z) :=
  match fuel with
  | O => Fault OutOfFuel
  | S fuel' =>
      let* e := arr_get (table h) a in
      if negb (present e) && negb (deleted e) then Ok None
      else if present e && (e_hash e =? hash) && key_equals_function key (e_key e) then Ok (Some a)
      else
        let a' := next_address (ht_size h) (double_hash h hash) a in
        if a' =? start_address h hash then Ok None
        else search_loop fuel' h hash key a'
  end.

Definition hash_table_search (h : ht) (hash : Z) (key : K) : res (option Z) :=
  search_loop (Z.to_nat (ht_size h)) h hash key (start_address h hash).

Definition _mesa_hash_table_search (h : ht) (key : K) : res (option Z) :=
  hash_table_search h (key_hash_function key) key.

Definition _mesa_hash_table_search_pre_hashed (h : ht) (hash : Z) (key : K) : res (option Z) :=
  assert! hash =? key_hash_function key in hash_table_search h hash key.

(** ** Rehashing *)

Fixpoint insert_rehash_loop (fuel : nat) (h : ht) (hash : Z) (key : K) (data : V) (a : Z) : res ht :=
  match fuel with
  | O => Fault OutOfFuel
  | S fuel' =>
      let* e := arr_get (table h) a in
      if negb (present e) then
        let* t := arr_set (table h) a (mk_entry hash true (deleted e) key data) in
        Ok (with_table h t (entries h) (deleted_entries h))
      else insert_rehash_loop fuel' h hash key data (next_address (ht_size h) (double_hash h hash) a)
  end.

Definition hash_table_insert_rehash (h : ht) (hash : Z) (key : K) (data : V) : res ht :=
  insert_rehash_loop (Z.to_nat (ht_size h)) h hash key data (start_address h hash).

(** The loop of [_mesa_hash_table_next_entry]: the first present entry from [i] on. *)
Fixpoint next_present (fuel : nat) (h : ht) (i : Z) : res (option Z) :=
  if i =? ht_size h then Ok None
  else
    match fuel with
    | O => Fault OutOfFuel
    | S fuel' =>
        let* e := arr_get (table h) i in
        if present e then Ok (Some i) else next_present fuel' h (i + 1)
    end.

Definition _mesa_hash_table_next_entry (h : ht) (entry : option Z) : res (option Z) :=
  next_present (Z.to_nat (ht_size h)) h (match entry with None => 0 | Some i => i + 1 end).

(** [hash_table_foreach(old, entry) body], where the body changes another table. *)
Fixpoint foreach_loop {A} (fuel : nat) (old : ht) (body : A -> entry -> res A) (acc : A)
    (cur : option Z) : res A :=
  match cur with
  | None => Ok acc
  | Some i =>
      match fuel with
      | O => Fault OutOfFuel
      | S fuel' =>
          let* e := arr_get (table old) i in
          let* acc' := body acc e in
          let* next := _mesa_hash_table_next_entry old (Some i) in
          foreach_loop fuel' old body acc' next
      end
  end.

Definition hash_table_foreach {A} (old : ht) (body : A -> entry -> res A) (acc : A) : res A :=
  let* first := _mesa_hash_table_next_entry old None in
  foreach_loop (Z.to_nat (ht_size old)) old body acc first.

Definition _mesa_hash_table_rehash (h : ht) (new_size_index : Z) : res ht :=
  if (size_index h =? new_size_index) && (deleted_entries h =? max_entries h) then
    let* h' := hash_table_clear_fast h in assert! entries h' =? 0 in Ok h'
  else if hash_sizes_len <=? new_size_index then Ok h
  else if negb (alloc new_size_index) then Ok h
  else
    let* h0 := fresh_table new_size_index in
    let* h1 := hash_table_foreach h
                 (fun acc e => hash_table_insert_rehash acc (e_hash e) (e_key e) (e_data e)) h0 in
    Ok (with_table h1 (table h1) (entries h) (deleted_entries h1)).

(** ** Insertion *)

Fixpoint get_entry_loop (fuel : nat) (h : ht) (hash : Z) (key : K) (available : option Z) (a : Z)
  : res (option Z + option Z) :=
  match fuel with
  | O => Fault OutOfFuel
  | S fuel' =>
      let* e := arr_get (table h) a in
      let available' := if negb (present e) then
                          match available with None => Some a | Some _ => available end
                        else available in
      if negb (present e) && negb (deleted e) then Ok (inr available')
      else if present e && (e_hash e =? hash) && key_equals_function key (e_key e) then Ok (inl (Some a))
      else
        let a' := next_address (ht_size h) (double_hash h hash) a in
        if a' =? start_address h hash then Ok (inr available')
        else get_entry_loop fuel' h hash key available' a'
  end.

(** The rehash that opens [hash_table_get_entry]. *)
Definition make_room (h : ht) : res ht :=
  if max_entries h <=? entries h then _mesa_hash_table_rehash h (u32 (size_index h + 1))
  else if max_entries h <=? u32 (deleted_entries h + entries h) then
    _mesa_hash_table_rehash h (size_index h)
  else Ok h.

Definition hash_table_get_entry (h : ht) (hash : Z) (key : K) : res (ht * option Z) :=
  let* h1 := make_room h in
  let* r := get_entry_loop (Z.to_nat (ht_size h1)) h1 hash key None (start_address h1 hash) in
  match r with
  | inl found => Ok (h1, found)
  | inr None => Ok (h1, None)
  | inr (Some a) =>
      let* e := arr_get (table h1) a in
      let d := if deleted e then u32 (deleted_entries h1 - 1) else deleted_entries h1 in
      let* t := arr_set (table h1) a (mk_entry hash (present e) (deleted e) (e_key e) (e_data e)) in
      Ok (with_table h1 t (u32 (entries h1 + 1)) d, Some a)
  end.

Definition hash_table_insert (h : ht) (hash : Z) (key : K) (data : V) : res (ht * option Z) :=
  let* r := hash_table_get_entry h hash key in
  match r with
  | (h1, None) => Ok (h1, None)
  | (h1, Some a) =>
      let* e := arr_get (table h1) a in
      let* t := arr_set (table h1) a (mk_entry (e_hash e) true false key data) in
      Ok (with_table h1 t (entries h1) (deleted_entries h1), Some a)
  end.

Definition _mesa_hash_table_insert (h : ht) (key : K) (data : V) : res (ht * option Z) :=
  hash_table_insert h (key_hash_function key) key data.

Definition _mesa_hash_table_insert_pre_hashed (h : ht) (hash : Z) (key : K) (data : V)
  : res (ht * option Z) :=
  assert! hash =? key_hash_function key in hash_table_insert h hash key data.

(** ** Removal *)

Definition _mesa_hash_table_remove (h : ht) (entry : option Z) : res ht :=
  match entry with
  | None => Ok h
  | Some a =>
      let* e := arr_get (table h) a in
      let* t := arr_set (table h) a (mk_entry (e_hash e) false true (e_key e) (e_data e)) in
      Ok (with_table h t (u32 (entries h - 1)) (u32 (deleted_entries h + 1)))
  end.

Definition _mesa_hash_table_remove_key (h : ht) (key : K) : res ht :=
  let* r := _mesa_hash_table_search h key in _mesa_hash_table_remove h r.

(** ** Copies *)

(** [_mesa_hash_table_copy]: the copy, or none when the allocation fails. *)
Definition _mesa_hash_table_copy (src : ht) : option ht :=
  if (size_index src =? 0) || alloc (size_index src) then Some src else None.

(** [_mesa_hash_table_clone_into]: the new destination and the result. *)
Definition _mesa_hash_table_clone_into (dst src : ht) : res (ht * bool) :=
  if ht_size dst <? ht_size src then
    match _mesa_hash_table_copy src with Some d => Ok (d, true) | None => Ok (dst, false) end
  else if ht_size dst =? ht_size src then
    Ok (with_table dst (table src) (entries src) (deleted_entries src), true)
  else
    let* c := _mesa_hash_table_clear dst false in
    let* d := hash_table_foreach src
                (fun acc e =>
                   let* r := _mesa_hash_table_insert_pre_hashed acc (e_hash e) (e_key e) (e_data e) in
                   Ok (fst r))
                (fst c) in
    Ok (d, true).
End Ops.
