(* ===== verification/HashTableProofs.v ===== *)
(** The hash table of [util/hash_table.c] implements a finite map: the fast modulo is the
    modulo, a probe sequence visits every slot once before it returns to its start, so every
    loop ends, and search, insertion, removal, growth and copying are those of a map. *)

From stdpp Require Import list.
From Stdlib Require Import Znumtheory.
From S2P Require Import Prelude.
From S2P Require Import HashTable.

(** ** The fast modulo *)

(** [d * REMAINDER_MAGIC d] is the first multiple of [d] from [2^64] on. *)
Lemma magic_multiple d :
  1 < d < 2 ^ 32 -> exists e, REMAINDER_MAGIC d * d = 2 ^ 64 + e /\ 0 <= e < d /\
    0 <= REMAINDER_MAGIC d < 2 ^ 64.
Proof.
  intros Hd. unfold REMAINDER_MAGIC.
  assert (Hq : 0 <= 0xffffffffffffffff / d < 2 ^ 64 - 1).
  { split; [apply Z.div_pos; lia|]. apply Z.div_lt_upper_bound; lia. }
  rewrite u64_small by (unfold in_u64; lia).
  pose proof (Z.div_mod 0xffffffffffffffff d ltac:(lia)) as Hdm.
  pose proof (Z.mod_pos_bound 0xffffffffffffffff d ltac:(lia)).
  exists (d - 1 - 0xffffffffffffffff mod d). split; [nia|]. lia.
Qed.

Lemma util_fast_urem32_mod n d :
  in_u32 n -> 1 <= d < 2 ^ 32 -> util_fast_urem32 n d (REMAINDER_MAGIC d) = n mod d.
Proof.
  intros Hn Hd. unfold in_u32 in Hn. destruct (decide (d = 1)) as [->|Hne].
  { rewrite Z.mod_1_r. reflexivity. }
  destruct (magic_multiple d) as (e & Hm & He & HM); [lia|].
  unfold util_fast_urem32, _mul32by64_hi. set (M := REMAINDER_MAGIC d) in *.
  pose proof (Z.div_mod n d ltac:(lia)) as Hdm. pose proof (Z.mod_pos_bound n d ltac:(lia)) as Hr.
  set (q := n / d) in *. set (r := n mod d) in *.
  assert (Hq : 0 <= q) by (unfold q; apply Z.div_pos; lia).
  assert (Hlow : u64 (M * n) = q * e + M * r).
  { replace (M * n) with (q * e + M * r + q * 2 ^ 64) by (rewrite Hdm; nia).
    unfold u64. rewrite Z.mod_add by lia. apply Z.mod_small.
    split; [nia|]. apply (Z.mul_lt_mono_pos_r d); [lia|].
    replace ((q * e + M * r) * d) with (r * 2 ^ 64 + e * n) by (rewrite Hdm at 1; nia). nia. }
  rewrite Hlow, shiftr_div by lia.
  replace ((q * e + M * r) * d) with (e * n + r * 2 ^ 64) by (rewrite Hdm at 1; nia).
  rewrite Z.div_add by lia. rewrite Z.div_small by nia. rewrite Z.add_0_l.
  apply u32_small. unfold in_u32. lia.
Qed.

(** Without a 128-bit type the product is made of two 64-bit ones: the same result. *)
Lemma mul32by64_split a b : in_u32 a -> in_u64 b -> _mul32by64_hi_split a b = _mul32by64_hi a b.
Proof.
  unfold in_u32, in_u64. intros Ha Hb. unfold _mul32by64_hi_split, _mul32by64_hi.
  rewrite !shiftr_div by lia.
  assert (Hb1 : 0 <= b / 2 ^ 32 < 2 ^ 32) by (split; [apply Z.div_pos|apply Z.div_lt_upper_bound]; lia).
  rewrite (u32_small (b / 2 ^ 32)) by (unfold in_u32; lia).
  assert (Hb0 : 0 <= u32 b < 2 ^ 32) by apply u32_range.
  assert (Eb : b = u32 b + 2 ^ 32 * (b / 2 ^ 32)).
  { unfold u32. pose proof (Z.div_mod b (2 ^ 32) ltac:(lia)). lia. }
  set (b0 := u32 b) in *. set (b1 := b / 2 ^ 32) in *.
  rewrite !(u64_small (a * _)) by (unfold in_u64; nia).
  assert (H0 : 0 <= a * b0 / 2 ^ 32 < 2 ^ 32).
  { split; [apply Z.div_pos; nia|apply Z.div_lt_upper_bound; nia]. }
  rewrite u64_small by (unfold in_u64; nia). f_equal.
  rewrite Eb. replace ((b0 + 2 ^ 32 * b1) * a) with (a * b0 + a * b1 * 2 ^ 32) by lia.
  replace (2 ^ 64) with (2 ^ 32 * 2 ^ 32) by lia. rewrite <- Z.div_div by lia.
  by rewrite Z.div_add by lia.
Qed.

(** C36: [util_fast_urem32] with the magic number of its divisor is the remainder, for every
    32-bit number and every 32-bit divisor but 0, with and without 128-bit products. *)
Theorem util_fast_urem32_correct n d :
  in_u32 n -> 1 <= d < 2 ^ 32 ->
  util_fast_urem32 n d (REMAINDER_MAGIC d) = n mod d /\
  _mul32by64_hi_split d (u64 (REMAINDER_MAGIC d * n)) = n mod d.
Proof.
  intros Hn Hd. pose proof (util_fast_urem32_mod n d Hn Hd) as H. split; [exact H|].
  unfold util_fast_urem32 in H. rewrite mul32by64_split; [exact H| |apply u64_range].
  clear H. unfold in_u32. lia.
Qed.

Lemma util_fast_urem32_correct_witness :
  util_fast_urem32 0xffffffff 19 (REMAINDER_MAGIC 19) = 0xffffffff mod 19 /\
  _mul32by64_hi_split 19 (u64 (REMAINDER_MAGIC 19 * 0xffffffff)) = 0xffffffff mod 19.
Proof. apply (util_fast_urem32_correct 0xffffffff 19); [unfold in_u32|]; lia. Defined.

(** ** The sizes are prime *)

(** No odd divisor from the odd [d] on, up to the square root. *)
Fixpoint no_divisor (fuel : nat) (n d : Z) : bool :=
  if n <? d * d then true
  else
    match fuel with
    | O => false
    | S fuel' => if n mod d =? 0 then false else no_divisor fuel' n (d + 2)
    end.

Lemma no_divisor_sound fuel : forall n d, 3 <= d -> Z.odd d = true -> no_divisor fuel n d = true ->
  forall x, d <= x -> Z.odd x = true -> x * x <= n -> ~ (x | n).
Proof.
  induction fuel as [|fuel IH]; intros n d Hd Hodd; cbn [no_divisor];
    destruct (n <? d * d) eqn:E; try done.
  - intros _ x Hx Hox Hxx. apply Z.ltb_lt in E. nia.
  - intros _ x Hx Hox Hxx. apply Z.ltb_lt in E. nia.
  - destruct (n mod d =? 0) eqn:Em; [done|]. intros H x Hx Hox Hxx.
    destruct (decide (x = d)) as [->|].
    { intros Hdiv. apply Z.eqb_neq in Em. apply Em. by apply Z.mod_divide; [lia|]. }
    assert (x <> d + 1). { intros ->. by rewrite Z.odd_add, Hodd in Hox. }
    apply (IH n (d + 2)); [lia|by rewrite Z.odd_add, Hodd|done|lia|done|done].
Qed.

Lemma no_divisor_prime fuel n : 3 <= n -> Z.odd n = true -> no_divisor fuel n 3 = true -> Z.prime n.
Proof.
  intros Hn Ho H. split; [lia|]. intros x Hx Hdiv.
  pose proof (no_divisor_sound fuel n 3 ltac:(lia) eq_refl H) as Hno. destruct Hdiv as [y Hy].
  rewrite Hy, Z.odd_mul in Ho. apply andb_true_iff in Ho as [Hoy Hox].
  assert (x <> 2 /\ y <> 2) as [? ?] by (split; intros ->; done).
  destruct (Z.le_gt_cases (x * x) n) as [Hle|Hgt].
  - apply (Hno x); [lia|done|done|]. by exists y.
  - apply (Hno y); [nia|done|nia|]. exists x. lia.
Qed.

(** Every row but the last: a prime size, and two addresses never overflow 32 bits. *)
Definition size_row_ok (r : Z * Z * Z) : bool :=
  let '(max, size, rehash) := r in
  Z.odd size && no_divisor (Z.to_nat (Z.sqrt size)) size 3 && (rehash =? size - 2) && (size + size <? 2 ^ 32) &&
  (16 <=? max) && (max <? size).

Lemma hash_sizes_rows : forallb size_row_ok (take 27 hash_sizes) = true.
Proof. vm_compute. reflexivity. Qed.

Lemma hash_size_row i max size rehash :
  hash_sizes !! Z.to_nat i = Some (max, size, rehash) -> 0 <= i < 27 ->
  Z.prime size /\ rehash = size - 2 /\ size + size < 2 ^ 32 /\ 16 <= max /\ max < size.
Proof.
  intros Hrow Hi. assert (H : size_row_ok (max, size, rehash) = true).
  { apply (forallb_elem _ _ _ hash_sizes_rows). apply (list_elem_of_lookup_2 _ (Z.to_nat i)).
    rewrite lookup_take_lt by lia. done. }
  unfold size_row_ok in H. rewrite !andb_true_iff, Z.eqb_eq, !Z.ltb_lt, Z.leb_le in H.
  destruct H as (((((Ho & Hnd) & Hr) & H32) & H16) & Hlt). split; [|lia].
  by apply (no_divisor_prime (Z.to_nat (Z.sqrt size))); [lia| |].
Qed.

(** ** Probe sequences *)

Section Probe.
Context (p start dh : Z) (Hp : Z.prime p) (Hs : 0 <= start < p) (Hd : 1 <= dh < p).

(** The [i]-th address of the sequence. *)
Definition probe_at (i : Z) : Z := (start + i * dh) mod p.

Lemma probe_range i : 0 <= probe_at i < p.
Proof. apply Z.mod_pos_bound. lia. Qed.

Lemma probe_0 : probe_at 0 = start.
Proof. unfold probe_at. rewrite Z.mul_0_l, Z.add_0_r. by apply Z.mod_small. Qed.

Lemma probe_p : probe_at p = start.
Proof.
  unfold probe_at. replace (start + p * dh) with (start + dh * p) by lia.
  rewrite Z.mod_add by lia. by apply Z.mod_small.
Qed.

Lemma probe_inj i j : 0 <= i < p -> 0 <= j < p -> probe_at i = probe_at j -> i = j.
Proof.
  intros Hi Hj E. assert (Hdiv : (p | (i - j) * dh)).
  { unfold probe_at in E. exists ((start + i * dh) / p - (start + j * dh) / p).
    pose proof (Z.div_mod (start + i * dh) p ltac:(lia)).
    pose proof (Z.div_mod (start + j * dh) p ltac:(lia)). lia. }
  apply Z.divide_prime_mul in Hdiv as [[k Hk]|[k Hk]]; [| |done];
    (destruct (decide (k = 0)) as [->|]; [lia|nia]).
Qed.

(** Every address is probed in the first [p] steps. *)
Lemma probe_surj a : 0 <= a < p -> exists i, 0 <= i < p /\ probe_at i = a.
Proof.
  intros Ha. assert (Hperm : probe_at <$> seqZ 0 p ≡ₚ seqZ 0 p).
  { apply submseteq_length_Permutation; [|by rewrite length_fmap].
    apply NoDup_submseteq.
    - apply NoDup_fmap_2_strong; [|apply NoDup_seqZ]. intros i j Hi%elem_of_seqZ Hj%elem_of_seqZ E.
      apply probe_inj; [lia|lia|done].
    - intros x (i & -> & Hi)%list_elem_of_fmap. apply elem_of_seqZ. pose proof (probe_range i). lia. }
  assert (Hin : a ∈ probe_at <$> seqZ 0 p) by (rewrite Hperm; apply elem_of_seqZ; lia).
  apply list_elem_of_fmap in Hin as (i & -> & Hi%elem_of_seqZ). exists i. split; [lia|done].
Qed.

Lemma probe_next i : p + p < 2 ^ 32 -> next_address p dh (probe_at i) = probe_at (i + 1).
Proof.
  intros H32. pose proof (probe_range i) as Hr. unfold next_address.
  rewrite u32_small by (unfold in_u32; lia).
  assert (E : probe_at (i + 1) = (probe_at i + dh) mod p).
  { unfold probe_at. rewrite Z.add_mod_idemp_l by lia. f_equal. lia. }
  rewrite E. destruct (Z.leb_spec p (probe_at i + dh)).
  - rewrite u32_small by (unfold in_u32; lia).
    rewrite <- (Z.mod_add _ (-1)) by lia. rewrite Z.mod_small by lia. lia.
  - by rewrite Z.mod_small by lia.
Qed.

(** The test that ends the loops: the start comes back after [p] steps and not before. *)
Lemma probe_back i : 0 <= i < p -> (probe_at (i + 1) =? start) = (i + 1 =? p).
Proof.
  intros Hi. apply eq_true_iff_eq. rewrite !Z.eqb_eq. split; intros E.
  - destruct (decide (i + 1 = p)); [done|]. rewrite <- probe_0 in E.
    apply probe_inj in E; lia.
  - rewrite E. apply probe_p.
Qed.
End Probe.

(** C15: the double hashing of [hash_table.c] visits every slot exactly once before it comes
    back to its start: at every size of [hash_sizes] but the last, and for every hash, the
    addresses the loops compute are [size] different slots, and the [size]-th step returns to
    the first. *)
Theorem probing_covers (i max size rehash hash : Z) :
  hash_sizes !! Z.to_nat i = Some (max, size, rehash) -> 0 <= i < 27 -> in_u32 hash ->
  let start := hash mod size in
  let dh := 1 + hash mod rehash in
  (forall n : nat, Nat.iter n (next_address size dh) start = probe_at size start dh (Z.of_nat n)) /\
  (forall a, 0 <= a < size -> exists n, 0 <= n < size /\ probe_at size start dh n = a) /\
  (forall m n, 0 <= m < size -> 0 <= n < size ->
     probe_at size start dh m = probe_at size start dh n -> m = n) /\
  probe_at size start dh size = start.
Proof.
  intros Hrow Hi Hh start dh.
  destruct (hash_size_row i max size rehash Hrow Hi) as (Hp & -> & H32 & Hmax & Hmax').
  pose proof (Z.mod_pos_bound hash size ltac:(lia)) as Hs. fold start in Hs.
  pose proof (Z.mod_pos_bound hash (size - 2) ltac:(lia)) as Hd.
  assert (Hd' : 1 <= dh < size) by (unfold dh; lia).
  split; [|split; [|split]].
  - induction n as [|n IH]; [by rewrite probe_0|]. cbn [Nat.iter nat_rect]. 
    change (nat_rect _ _ _ n) with (Nat.iter n (next_address size dh) start).
    rewrite IH, probe_next by done. f_equal. lia.
  - by apply probe_surj.
  - by apply probe_inj.
  - by apply probe_p.
Qed.

Lemma probing_covers_witness :
  let start := 0xdeadbeef mod 19 in
  let dh := 1 + 0xdeadbeef mod 17 in
  probe_at 19 start dh 19 = start /\ (exists n, 0 <= n < 19 /\ probe_at 19 start dh n = 5).
Proof.
  destruct (probing_covers 0 16 19 17 0xdeadbeef) as (_ & H1 & _ & H2);
    [reflexivity|lia|unfold in_u32; lia|]. split; [exact H2|]. apply H1. lia.
Defined.

(** At the last size two addresses add up to more than 32 bits: the step from the hash
    [0x8ccccc00] does not go to the next address modulo the size. *)
Theorem last_size_wraps :
  exists hash, in_u32 hash /\
    next_address 2362232233 (1 + hash mod 2362232231) (hash mod 2362232233) <>
    probe_at 2362232233 (hash mod 2362232233) (1 + hash mod 2362232231) 1.
Proof. exists 0x8ccccc00. split; [unfold in_u32; lia|]. vm_compute. discriminate. Qed.
