(* ===== verification/HashTableMap.v ===== *)
(** The slots of a hash table as a map: the invariant of the table, what the probing loops
    find, and how writing a slot changes the map. *)

From stdpp Require Import list.
From S2P Require Import Prelude.
From S2P Require Import HashTable.
From S2P Require Import HashTableProofs.

(** ** Counting slots *)

Definition count {A} (f : A -> bool) (l : list A) : Z :=
  Z.of_nat (length (filter (fun x => f x = true) l)).

Lemma count_cons {A} (f : A -> bool) x l : count f (x :: l) = Z.b2z (f x) + count f l.
Proof.
  unfold count. destruct (f x) eqn:E.
  - rewrite filter_cons_True by done. simpl. lia.
  - rewrite filter_cons_False by (by rewrite E). simpl. lia.
Qed.

Lemma count_nonneg {A} (f : A -> bool) l : 0 <= count f l.
Proof. unfold count. lia. Qed.

Lemma count_insert {A} (f : A -> bool) l a x y :
  l !! a = Some x -> count f (<[a := y]> l) = count f l - Z.b2z (f x) + Z.b2z (f y).
Proof.
  revert a. induction l as [|z l IH]; intros [|a] H; try done; cbn in H.
  - simplify_eq. change (<[0%nat:=y]> (x :: l)) with (y :: l). rewrite !count_cons. lia.
  - change (<[S a:=y]> (z :: l)) with (z :: <[a:=y]> l). rewrite !count_cons, (IH a) by done. lia.
Qed.

Lemma count_pos {A} (f : A -> bool) l a x : l !! a = Some x -> f x = true -> 0 < count f l.
Proof.
  intros Ha Hf. unfold count. assert (x ∈ filter (fun x => f x = true) l) as Hin.
  { apply list_elem_of_filter. split; [done|]. by eapply list_elem_of_lookup_2. }
  destruct (filter _ l); [by apply elem_of_nil in Hin|]. simpl. lia.
Qed.

Lemma count_replicate {A} (f : A -> bool) n x : f x = false -> count f (replicate n x) = 0.
Proof. intros H. induction n as [|n IH]; [done|]. cbn. by rewrite count_cons, H, IH. Qed.

Lemma count_zero {A} (f : A -> bool) l : (forall x, x ∈ l -> f x = false) -> count f l = 0.
Proof.
  induction l as [|x l IH]; intros H; [done|]. rewrite count_cons, (H x) by apply list_elem_of_here.
  rewrite IH; [done|]. intros y Hy. apply H. by apply list_elem_of_further.
Qed.

Lemma count_disjoint {A} (f g : A -> bool) l :
  (forall x, x ∈ l -> f x = true -> g x = false) -> count f l + count g l <= Z.of_nat (length l).
Proof.
  induction l as [|x l IH]; intros H; [done|]. rewrite !count_cons. cbn [length].
  specialize (IH (fun y Hy => H y (list_elem_of_further _ _ _ Hy))).
  pose proof (H x (list_elem_of_here _ _)) as Hx. destruct (f x); [rewrite Hx by done|]; simpl;
    destruct (g x); simpl; lia.
Qed.

Lemma count_full {A} (f : A -> bool) l :
  count f l < Z.of_nat (length l) -> exists a x, l !! a = Some x /\ f x = false.
Proof.
  induction l as [|x l IH]; [unfold count; simpl; lia|]. rewrite count_cons. cbn [length]. intros H.
  destruct (f x) eqn:E; [|by exists 0%nat, x]. simpl in H.
  destruct IH as (a & y & ? & ?); [lia|]. by exists (S a), y.
Qed.

(** ** The invariant *)

Section Map.
Context {K V : Type} (kh : K -> Z) (keq : K -> K -> bool).

(** What the callbacks must satisfy: [key_equals_function] is an equivalence, and the hash
    is a 32-bit number that equal keys share. *)
Class KeyLaws : Prop := {
  keq_refl k : keq k k = true;
  keq_sym a b : keq a b = keq b a;
  keq_trans a b c : keq a b = true -> keq b c = true -> keq a c = true;
  keq_hash a b : keq a b = true -> kh a = kh b;
  kh_u32 k : in_u32 (kh k)
}.

Context `{KeyLaws}.
Abbreviation entry := (hash_entry K V).

Definition busy (e : entry) : bool := present e || deleted e.

(** The address of step [i] for a hash. *)
Definition pr (size hash i : Z) : Z :=
  probe_at size (hash mod size) (1 + hash mod (size - 2)) i.

Definition good_size (size : Z) : Prop := Z.prime size /\ size + size < 2 ^ 32 /\ 16 < size.

(** The slot at step [i] satisfies [P]. *)
Definition slot (size : Z) (t : list entry) (hash i : Z) (P : entry -> Prop) : Prop :=
  exists e, t !! Z.to_nat (pr size hash i) = Some e /\ P e.

Record tbl_ok (size : Z) (t : list entry) : Prop := {
  t_len : Z.of_nat (length t) = size;
  t_flags e : e ∈ t -> present e = true -> deleted e = false;
  t_hash e : e ∈ t -> present e = true -> e_hash e = kh (e_key e);
  t_uniq a b ea eb : t !! a = Some ea -> t !! b = Some eb -> present ea = true -> present eb = true ->
    keq (e_key ea) (e_key eb) = true -> a = b;
  t_chain a e : t !! a = Some e -> present e = true ->
    exists i, 0 <= i < size /\ pr size (e_hash e) i = Z.of_nat a /\
      forall j, 0 <= j < i -> slot size t (e_hash e) j (fun f => busy f = true)
}.

(** The map the table stands for. *)
Definition holds (t : list entry) (k : K) (v : V) : Prop :=
  exists a e, t !! a = Some e /\ present e = true /\ keq k (e_key e) = true /\ e_data e = v.

Definition absent (t : list entry) (k : K) : Prop :=
  forall a e, t !! a = Some e -> present e = true -> keq k (e_key e) = false.

Lemma holds_fun size t k v v' : tbl_ok size t -> holds t k v -> holds t k v' -> v = v'.
Proof.
  intros Ht (a & e & Ha & Hp & Hk & <-) (b & f & Hb & Hq & Hl & <-).
  assert (a = b); [|by simplify_eq]. eapply (t_uniq _ _ Ht); try done.
  eapply keq_trans; [|exact Hl]. by rewrite keq_sym.
Qed.

Lemma absent_iff t k : absent t k <-> forall v, ~ holds t k v.
Proof.
  split.
  - intros Ha v (a & e & H1 & H2 & H3 & _). by rewrite (Ha a e H1 H2) in H3.
  - intros Hn a e H1 H2. destruct (keq k (e_key e)) eqn:E; [|done]. exfalso.
    apply (Hn (e_data e)). by exists a, e.
Qed.

Section Size.
Context (size : Z) (Hgood : good_size size).

Lemma pr_params hash : in_u32 hash ->
  0 <= hash mod size < size /\ 1 <= 1 + hash mod (size - 2) < size.
Proof.
  intros _. destruct Hgood as (Hp & _ & H16). split; [apply Z.mod_pos_bound; lia|].
  pose proof (Z.mod_pos_bound hash (size - 2) ltac:(lia)). lia.
Qed.

Lemma pr_range hash i : in_u32 hash -> 0 <= pr size hash i < size.
Proof. intros Hh. destruct (pr_params hash Hh). destruct Hgood as (Hp & _). by apply probe_range. Qed.

Lemma pr_slot t hash i : in_u32 hash -> Z.of_nat (length t) = size -> exists e : entry,
  t !! Z.to_nat (pr size hash i) = Some e.
Proof.
  intros Hh Hl. apply lookup_lt_is_Some. pose proof (pr_range hash i Hh). lia.
Qed.

Lemma pr_get t hash i e : in_u32 hash -> t !! Z.to_nat (pr size hash i) = Some e ->
  arr_get t (pr size hash i) = Ok (e : entry).
Proof.
  intros Hh He. pose proof (pr_range hash i Hh). rewrite <- (Z2Nat.id (pr size hash i)) by lia.
  by apply arr_get_nth.
Qed.

Lemma pr_set t hash i e (x : entry) : in_u32 hash -> t !! Z.to_nat (pr size hash i) = Some e ->
  arr_set t (pr size hash i) x = Ok (<[Z.to_nat (pr size hash i) := x]> t).
Proof.
  intros Hh He. pose proof (pr_range hash i Hh). apply lookup_lt_Some in He. unfold arr_set.
  rewrite (proj2 (Z.ltb_ge _ _)), (proj2 (Z.leb_gt _ _)) by lia. done.
Qed.

(** ** Writing a slot *)

Lemma pr_inj hash i j : in_u32 hash -> 0 <= i < size -> 0 <= j < size ->
  pr size hash i = pr size hash j -> i = j.
Proof.
  intros Hh Hi Hj. destruct (pr_params hash Hh). destruct Hgood as (Hp & _). by apply probe_inj.
Qed.

Lemma slot_insert t hash i (P : entry -> Prop) a e x :
  t !! a = Some e -> (P e -> P x) -> slot size t hash i P -> slot size (<[a := x]> t) hash i P.
Proof.
  intros Ha Hx (f & Hf & HP). destruct (decide (Z.to_nat (pr size hash i) = a)) as [E|E].
  - exists x. split; [rewrite E; apply list_lookup_insert_eq; by eapply lookup_lt_Some|].
    rewrite E in Hf. simplify_eq. by apply Hx.
  - exists f. by rewrite list_lookup_insert_ne.
Qed.

Lemma elem_insert (t : list entry) a x e : e ∈ <[a := x]> t -> e = x \/ e ∈ t.
Proof.
  intros (b & Hb)%list_elem_of_lookup. destruct (decide (b = a)) as [->|Hne].
  - destruct (decide (a < length t)%nat).
    + rewrite list_lookup_insert_eq in Hb by done. simplify_eq. by left.
    + rewrite list_insert_ge in Hb by lia. right. by eapply list_elem_of_lookup_2.
  - rewrite list_lookup_insert_ne in Hb by done. right. by eapply list_elem_of_lookup_2.
Qed.

(** A slot gets a present entry: a new key at the first slot that is not present, or a new
    value for a key that is there. *)
Lemma tbl_ok_set t a e key data :
  tbl_ok size t -> t !! a = Some e ->
  (forall b f, b <> a -> t !! b = Some f -> present f = true -> keq key (e_key f) = false) ->
  (exists i, 0 <= i < size /\ pr size (kh key) i = Z.of_nat a /\
     forall j, 0 <= j < i -> slot size t (kh key) j (fun f => busy f = true)) ->
  tbl_ok size (<[a := mk_entry (kh key) true false key data]> t).
Proof.
  intros Ht Ha Hother Hchain. set (x := mk_entry (kh key) true false key data).
  assert (Hlt : (a < length t)%nat) by (by eapply lookup_lt_Some). split.
  - rewrite length_insert. apply Ht.
  - intros f [->|Hf]%elem_insert Hp; [done|]. by eapply t_flags.
  - intros f [->|Hf]%elem_insert Hp; [done|]. by eapply t_hash.
  - assert (Hx : forall b f, b <> a -> t !! b = Some f -> present f = true -> keq (e_key f) key = false)
      by (intros; rewrite keq_sym; by eapply Hother).
    intros b c eb ec Hb Hc Hpb Hpc Heq.
    destruct (decide (b = a)) as [->|Hba], (decide (c = a)) as [->|Hca]; try done;
      rewrite ?list_lookup_insert_eq, ?list_lookup_insert_ne in * by done; simplify_eq.
    + cbn in Heq. by rewrite (Hother c ec) in Heq.
    + cbn in Heq. by rewrite (Hx b eb) in Heq.
    + eapply (t_uniq _ _ Ht); try done.
  - intros b f Hb Hp.
    destruct (decide (b = a)) as [->|Hne].
    + rewrite list_lookup_insert_eq in Hb by done. simplify_eq. cbn [e_hash].
      destruct Hchain as (i & Hi & Hpr & Hbef). exists i. split; [done|]. split; [done|].
      intros j Hj. eapply slot_insert; [done|intros _; reflexivity|by apply Hbef].
    + rewrite list_lookup_insert_ne in Hb by done.
      destruct (t_chain _ _ Ht b f Hb Hp) as (i & Hi & Hpr & Hbef). exists i. split; [done|].
      split; [done|]. intros j Hj. eapply slot_insert; [done|intros _; reflexivity|by apply Hbef].
Qed.

(** A present entry becomes a deleted one. *)
Lemma tbl_ok_delete t a e :
  tbl_ok size t -> t !! a = Some e -> present e = true ->
  tbl_ok size (<[a := mk_entry (e_hash e) false true (e_key e) (e_data e)]> t).
Proof.
  intros Ht Ha Hpe. set (x := mk_entry _ _ _ _ _).
  assert (Hlt : (a < length t)%nat) by (by eapply lookup_lt_Some).
  assert (Hback : forall b f, (<[a := x]> t) !! b = Some f -> present f = true -> b <> a /\ t !! b = Some f).
  { intros b f Hb Hp. destruct (decide (b = a)) as [->|]; [|by rewrite list_lookup_insert_ne in Hb].
    rewrite list_lookup_insert_eq in Hb by done. by simplify_eq. }
  split.
  - rewrite length_insert. apply Ht.
  - intros f [->|Hf]%elem_insert Hp; [done|]. by eapply t_flags.
  - intros f [->|Hf]%elem_insert Hp; [done|]. by eapply t_hash.
  - intros b c eb ec Hb Hc Hpb Hpc Heq.
    destruct (Hback b eb Hb Hpb) as [_ Hb'], (Hback c ec Hc Hpc) as [_ Hc'].
    eapply (t_uniq _ _ Ht); try done.
  - intros b f Hb Hp. destruct (Hback b f Hb Hp) as [_ Hb'].
    destruct (t_chain _ _ Ht b f Hb' Hp) as (i & Hi & Hpr & Hbef). exists i. split; [done|].
    split; [done|]. intros j Hj. eapply slot_insert; [done| |by apply Hbef]. done.
Qed.

(** What the map becomes. *)
Lemma holds_set t a e key data k v :
  t !! a = Some e -> (present e = true -> keq key (e_key e) = true) -> 
  (forall b f, b <> a -> t !! b = Some f -> present f = true -> keq key (e_key f) = false) ->
  holds (<[a := mk_entry (kh key) true false key data]> t) k v <->
  if keq k key then v = data else holds t k v.
Proof.
  intros Ha He Hother. assert (Hlt : (a < length t)%nat) by (by eapply lookup_lt_Some).
  destruct (keq k key) eqn:Ek; split.
  - intros (b & f & Hb & Hp & Hk & <-). destruct (decide (b = a)) as [->|Hne].
    { rewrite list_lookup_insert_eq in Hb by done. by simplify_eq. }
    rewrite list_lookup_insert_ne in Hb by done. exfalso.
    assert (Hc : keq key (e_key f) = true); [|by rewrite (Hother b f) in Hc].
    eapply keq_trans; [|exact Hk]. by rewrite keq_sym.
  - intros ->. exists a. eexists. split; [by apply list_lookup_insert_eq|]. done.
  - intros (b & f & Hb & Hp & Hk & <-). destruct (decide (b = a)) as [->|Hne].
    { rewrite list_lookup_insert_eq in Hb by done. simplify_eq. cbn in Hk. by rewrite Hk in Ek. }
    rewrite list_lookup_insert_ne in Hb by done. by exists b, f.
  - intros (b & f & Hb & Hp & Hk & <-). exists b, f. split; [|done].
    destruct (decide (b = a)) as [->|Hne]; [|by rewrite list_lookup_insert_ne].
    simplify_eq. exfalso. specialize (He Hp). rewrite keq_sym in He.
    by rewrite (keq_trans _ _ _ Hk He) in Ek.
Qed.

Lemma holds_delete t a e k v :
  tbl_ok size t -> t !! a = Some e -> present e = true ->
  holds (<[a := mk_entry (e_hash e) false true (e_key e) (e_data e)]> t) k v <->
  keq k (e_key e) = false /\ holds t k v.
Proof.
  intros Ht Ha Hpe. assert (Hlt : (a < length t)%nat) by (by eapply lookup_lt_Some). split.
  - intros (b & f & Hb & Hp & Hk & <-). destruct (decide (b = a)) as [->|Hne].
    { rewrite list_lookup_insert_eq in Hb by done. by simplify_eq. }
    rewrite list_lookup_insert_ne in Hb by done. split; [|by exists b, f].
    destruct (keq k (e_key e)) eqn:E; [|done]. exfalso. apply Hne.
    eapply (t_uniq _ _ Ht); try done. eapply keq_trans; [|exact E]. by rewrite keq_sym.
  - intros [Hk (b & f & Hb & Hp & Hkf & <-)]. exists b, f. split; [|done].
    destruct (decide (b = a)) as [->|Hne]; [simplify_eq; congruence|by rewrite list_lookup_insert_ne].
Qed.

(** The empty table. *)
Lemma tbl_ok_empty z : present z = false -> 
  tbl_ok size (replicate (Z.to_nat size) z) /\
  forall k v, ~ holds (replicate (Z.to_nat size) z) k v.
Proof.
  intros Hz. destruct Hgood as (_ & _ & H16).
  assert (Hno : forall a (e : entry), replicate (Z.to_nat size) z !! a = Some e -> present e = false)
    by (intros a e [-> _]%lookup_replicate; done).
  split; [split|].
  - rewrite length_replicate. lia.
  - intros e [a Ha]%list_elem_of_lookup Hp. by rewrite (Hno a e) in Hp.
  - intros e [a Ha]%list_elem_of_lookup Hp. by rewrite (Hno a e) in Hp.
  - intros a b ea eb Ha _ Hp. by rewrite (Hno a ea) in Hp.
  - intros a e Ha Hp. by rewrite (Hno a e) in Hp.
  - intros k v (a & e & Ha & Hp & _). by rewrite (Hno a e) in Hp.
Qed.
End Size.
End Map.
