(* ===== verification/HashTableSpec.v ===== *)
(** The operations of the hash table refine those of a finite map: each ends, keeps the
    invariant and changes the map as its name says. *)

From stdpp Require Import list sorting.
From S2P Require Import Prelude.
From S2P Require Import HashTable.
From S2P Require Import HashTableProofs.
From S2P Require Import HashTableMap.

Section Spec.
Context {K V : Type} (null_key : K) (null_data : V).
Context (kh : K -> Z) (keq : K -> K -> bool) `{!KeyLaws kh keq}.

Abbreviation entry := (hash_entry K V).
Abbreviation ht := (hash_table K V).
Abbreviation tbl := (tbl_ok kh keq).

(** ** The fields *)

(** The size fields are those of a row of [hash_sizes] other than the last. *)
Record params (h : ht) : Prop := {
  p_row : hash_sizes !! Z.to_nat (size_index h) = Some (max_entries h, ht_size h, ht_rehash h);
  p_index : 0 <= size_index h < 27;
  p_size_magic : size_magic h = REMAINDER_MAGIC (ht_size h);
  p_rehash_magic : rehash_magic h = REMAINDER_MAGIC (ht_rehash h)
}.

(** The invariant of a table between operations. *)
Record ht_ok (h : ht) : Prop := {
  h_params : params h;
  h_tbl : tbl (ht_size h) (table h);
  h_entries : entries h = count present (table h);
  h_deleted : deleted_entries h = count deleted (table h);
  h_room : entries h + deleted_entries h <= max_entries h
}.

Lemma params_facts h : params h ->
  good_size (ht_size h) /\ ht_rehash h = ht_size h - 2 /\ 16 <= max_entries h < ht_size h.
Proof.
  intros [Hrow Hi _ _]. destruct (hash_size_row _ _ _ _ Hrow Hi) as (Hp & Hr & H32 & H16 & Hlt).
  split; [|lia]. split; [done|]. lia.
Qed.

Lemma params_with h t n d : params h -> params (with_table h t n d).
Proof. by intros [? ? ? ?]. Qed.

Section Loops.
Context (h : ht) (Hh : params h) (Hlen : Z.of_nat (length (table h)) = ht_size h).
Context (hash : Z) (Hhash : in_u32 hash).

Let size := ht_size h.

Lemma h_good : good_size size.
Proof. by destruct (params_facts h Hh). Qed.

Lemma start_spec : start_address h hash = pr size hash 0.
Proof.
  destruct h_good as (Hp & H32 & H16). unfold start_address.
  rewrite (p_size_magic h Hh), util_fast_urem32_mod; [|done|unfold size in *; lia].
  unfold pr. destruct (pr_params size h_good hash Hhash). by rewrite probe_0.
Qed.

Lemma double_spec : double_hash h hash = 1 + hash mod (size - 2).
Proof.
  destruct h_good as (Hp & H32 & H16). destruct (params_facts h Hh) as (_ & Hr & _). unfold double_hash.
  rewrite (p_rehash_magic h Hh), Hr, util_fast_urem32_mod; [|done|unfold size in *; lia].
  destruct (pr_params size h_good hash Hhash). apply u32_small. unfold in_u32. fold size. lia.
Qed.

Lemma next_spec i : next_address size (double_hash h hash) (pr size hash i) = pr size hash (i + 1).
Proof.
  destruct h_good as (Hp & H32 & H16). rewrite double_spec.
  destruct (pr_params size h_good hash Hhash). by apply probe_next.
Qed.

Lemma back_spec i : 0 <= i < size -> (pr size hash (i + 1) =? start_address h hash) = (i + 1 =? size).
Proof.
  intros Hi. destruct h_good as (Hp & H32 & H16). rewrite start_spec.
  destruct (pr_params size h_good hash Hhash). unfold pr at 2. rewrite probe_0 by done.
  by apply probe_back.
Qed.

Definition matches (key : K) (e : entry) : Prop :=
  present e = true /\ e_hash e = hash /\ keq key (e_key e) = true.

(** A slot the search passes over. *)
Definition passed (key : K) (e : entry) : Prop := busy e = true /\ ~ matches key e.

Lemma search_loop_spec key fuel : forall i,
  0 <= i < size -> Z.of_nat fuel = size - i ->
  exists r, search_loop keq fuel h hash key (pr size hash i) = Ok r /\
    match r with
    | Some a => exists j, i <= j < size /\ a = pr size hash j /\
        slot size (table h) hash j (matches key)
    | None => exists n, i <= n <= size /\
        (forall j, i <= j < n -> slot size (table h) hash j (passed key)) /\
        (n < size -> slot size (table h) hash n (fun e => busy e = false))
    end.
Proof.
  induction fuel as [|fuel IH]; intros i Hi Hf; [lia|]. cbn [search_loop].
  destruct (pr_slot size h_good (table h) hash i Hhash Hlen) as [e He].
  rewrite (pr_get size h_good _ _ _ _ Hhash He). cbn [res_bind].
  destruct (negb (present e) && negb (deleted e)) eqn:Efree.
  { eexists. split; [done|]. exists i. split; [lia|]. split; [lia|]. intros _. exists e.
    split; [done|]. unfold busy. by rewrite <- negb_orb, negb_true_iff in Efree. }
  rewrite <- negb_orb, negb_false_iff in Efree.
  destruct (present e && (e_hash e =? hash) && keq key (e_key e)) eqn:Em.
  { rewrite !andb_true_iff, Z.eqb_eq in Em. destruct Em as ((? & ?) & ?).
    eexists. split; [done|]. exists i. split; [lia|]. split; [done|]. by exists e. }
  assert (Hpass : slot size (table h) hash i (passed key)).
  { exists e. split; [done|]. split; [done|]. intros (H1 & H2 & H3).
    rewrite H1, H3, (proj2 (Z.eqb_eq _ _) H2) in Em. done. }
  fold size. rewrite next_spec, back_spec by done. destruct (i + 1 =? size) eqn:Eend.
  { apply Z.eqb_eq in Eend. eexists. split; [done|]. exists size. split; [lia|]. split; [|lia].
    intros j Hj. by replace j with i by lia. }
  apply Z.eqb_neq in Eend. destruct (IH (i + 1)) as (r & -> & Hr); [lia|lia|].
  exists r. split; [done|]. destruct r as [a|].
  - destruct Hr as (j & Hj & ?). exists j. split; [lia|done].
  - destruct Hr as (n & Hn & Hpassed & Hfree). exists n. split; [lia|]. split; [|done].
    intros j Hj. destruct (decide (j = i)) as [->|]; [done|]. apply Hpassed. lia.
Qed.

(** The slot kept for an insertion: the first that is not present. *)
Definition first_open (n : Z) (av : option Z) : Prop :=
  match av with
  | None => forall j, 0 <= j < n -> slot size (table h) hash j (fun e => present e = true)
  | Some a => exists m, 0 <= m < n /\ a = pr size hash m /\
      slot size (table h) hash m (fun e => present e = false) /\
      forall j, 0 <= j < m -> slot size (table h) hash j (fun e => present e = true)
  end.

Lemma first_open_step i av e :
  0 <= i -> first_open i av -> table h !! Z.to_nat (pr size hash i) = Some e ->
  first_open (i + 1)
    (if negb (present e) then match av with None => Some (pr size hash i) | Some _ => av end else av).
Proof.
  intros Hi Hav He. destruct av as [a|].
  - replace (if negb (present e) then Some a else Some a) with (Some a) by by destruct (negb _).
    destruct Hav as (m & Hm & ?). exists m. split; [lia|done].
  - destruct (present e) eqn:Ep; cbn [negb].
    + intros j Hj. destruct (decide (j = i)) as [->|]; [by exists e|]. apply Hav. lia.
    + exists i. split; [lia|]. split; [done|]. split; [by exists e|]. exact Hav.
Qed.

Lemma get_entry_loop_spec key fuel : forall i av,
  0 <= i < size -> Z.of_nat fuel = size - i -> first_open i av ->
  exists r, get_entry_loop keq fuel h hash key av (pr size hash i) = Ok r /\
    match r with
    | inl found => exists j, i <= j < size /\ found = Some (pr size hash j) /\
        slot size (table h) hash j (matches key)
    | inr av' => exists n, i <= n <= size /\
        (forall j, i <= j < n -> slot size (table h) hash j (passed key)) /\
        (n < size -> slot size (table h) hash n (fun e => busy e = false) /\ first_open (n + 1) av') /\
        (n = size -> first_open size av')
    end.
Proof.
  induction fuel as [|fuel IH]; intros i av Hi Hf Hav; [lia|]. cbn [get_entry_loop].
  destruct (pr_slot size h_good (table h) hash i Hhash Hlen) as [e He].
  rewrite (pr_get size h_good _ _ _ _ Hhash He). cbn [res_bind].
  pose proof (first_open_step i av e ltac:(lia) Hav He) as Hav'.
  set (av' := if negb (present e) then _ else _) in *.
  destruct (negb (present e) && negb (deleted e)) eqn:Efree.
  { eexists. split; [done|]. exists i. split; [lia|]. split; [lia|]. split; [|lia]. intros _.
    split; [|done]. exists e. split; [done|]. unfold busy. by rewrite <- negb_orb, negb_true_iff in Efree. }
  rewrite <- negb_orb, negb_false_iff in Efree.
  destruct (present e && (e_hash e =? hash) && keq key (e_key e)) eqn:Em.
  { rewrite !andb_true_iff, Z.eqb_eq in Em. destruct Em as ((? & ?) & ?).
    eexists. split; [done|]. exists i. split; [lia|]. split; [done|]. by exists e. }
  assert (Hpass : slot size (table h) hash i (passed key)).
  { exists e. split; [done|]. split; [done|]. intros (H1 & H2 & H3).
    rewrite H1, H3, (proj2 (Z.eqb_eq _ _) H2) in Em. done. }
  fold size. rewrite next_spec, back_spec by done. destruct (i + 1 =? size) eqn:Eend.
  { apply Z.eqb_eq in Eend. eexists. split; [done|]. exists size. split; [lia|]. split; [|split; [lia|]].
    - intros j Hj. by replace j with i by lia.
    - intros _. by rewrite <- Eend. }
  apply Z.eqb_neq in Eend. destruct (IH (i + 1) av') as (r & -> & Hr); [lia|lia|done|].
  exists r. split; [done|]. destruct r as [a|av2].
  - destruct Hr as (j & Hj & ?). exists j. split; [lia|done].
  - destruct Hr as (n & Hn & Hpassed & Hfree). exists n. split; [lia|]. split; [|done].
    intros j Hj. destruct (decide (j = i)) as [->|]; [done|]. apply Hpassed. lia.
Qed.

(** The loop of [hash_table_insert_rehash] ends at the first slot that is not present. *)
Lemma insert_rehash_loop_spec key data fuel : forall i m,
  0 <= i <= m -> m < size -> Z.of_nat fuel = size - i ->
  slot size (table h) hash m (fun e => present e = false) ->
  exists j e, i <= j <= m /\ table h !! Z.to_nat (pr size hash j) = Some e /\ present e = false /\
    (forall x, i <= x < j -> slot size (table h) hash x (fun f => present f = true)) /\
    insert_rehash_loop fuel h hash key data (pr size hash i) =
      Ok (with_table h
            (<[Z.to_nat (pr size hash j) := mk_entry hash true (deleted e) key data]> (table h))
            (entries h) (deleted_entries h)).
Proof.
  induction fuel as [|fuel IH]; intros i m Hi Hm Hf Hslot; [lia|]. cbn [insert_rehash_loop].
  destruct (pr_slot size h_good (table h) hash i Hhash Hlen) as [e He].
  rewrite (pr_get size h_good _ _ _ _ Hhash He). cbn [res_bind].
  destruct (present e) eqn:Ep; cbn [negb].
  - assert (i <> m). { intros ->. destruct Hslot as (f & Hf' & Hnp). simplify_eq; congruence. }
    fold size. rewrite next_spec.
    destruct (IH (i + 1) m) as (j & f & Hj & Hlk & Hnp & Hbef & ->); [lia|lia|lia|done|].
    exists j, f. split; [lia|]. split; [done|]. split; [done|]. split; [|done].
    intros x Hx. destruct (decide (x = i)) as [->|]; [by exists e|]. apply Hbef. lia.
  - exists i, e. split; [lia|]. split; [done|]. split; [done|]. split; [lia|].
    by rewrite (pr_set size h_good _ _ _ _ _ Hhash He).
Qed.
End Loops.

(** ** Searching *)

(** A search that meets a free slot, or every slot, without a match has seen all there is. *)
Lemma passed_absent h key n :
  params h -> tbl (ht_size h) (table h) -> 0 <= n <= ht_size h ->
  (forall j, 0 <= j < n -> slot (ht_size h) (table h) (kh key) j (passed (kh key) key)) ->
  (n < ht_size h -> slot (ht_size h) (table h) (kh key) n (fun e => busy e = false)) ->
  absent keq (table h) key.
Proof.
  intros Hh Ht Hn Hpass Hfree a e Ha Hp. destruct (keq key (e_key e)) eqn:Ek; [|done]. exfalso.
  assert (Hhash : e_hash e = kh key).
  { rewrite (t_hash _ _ _ _ Ht e) by (done || by eapply list_elem_of_lookup_2). symmetry. by apply (keq_hash kh keq). }
  destruct (t_chain _ _ _ _ Ht a e Ha Hp) as (i & Hi & Hpr & Hbef). rewrite Hhash in *.
  destruct (Z.lt_trichotomy i n) as [Hlt|[->|Hgt]].
  - destruct (Hpass i ltac:(lia)) as (f & Hf & _ & Hno). rewrite Hpr, Nat2Z.id in Hf. simplify_eq.
    by apply Hno.
  - destruct (Hfree ltac:(lia)) as (f & Hf & Hb). rewrite Hpr, Nat2Z.id in Hf. simplify_eq.
    unfold busy in Hb. by rewrite Hp in Hb.
  - destruct (Hbef n ltac:(lia)) as (f & Hf & Hb), (Hfree ltac:(lia)) as (f' & Hf' & Hb').
    simplify_eq. congruence.
Qed.

Lemma matches_key hash key e : matches hash key e -> present e = true /\ keq key (e_key e) = true.
Proof. by intros (? & ? & ?). Qed.

Lemma search_spec h key :
  params h -> tbl (ht_size h) (table h) ->
  exists r, _mesa_hash_table_search kh keq h key = Ok r /\
    match r with
    | Some a => exists e, 0 <= a < ht_size h /\ table h !! Z.to_nat a = Some e /\
        present e = true /\ keq key (e_key e) = true
    | None => absent keq (table h) key
    end.
Proof.
  intros Hh Ht. pose proof (kh_u32 kh keq key) as Hu.
  destruct (params_facts h Hh) as (Hgood & _ & _). pose proof Hgood as (_ & _ & H16).
  unfold _mesa_hash_table_search, hash_table_search. rewrite start_spec by done.
  destruct (search_loop_spec h Hh (t_len _ _ _ _ Ht) (kh key) Hu key (Z.to_nat (ht_size h)) 0)
    as (r & -> & Hr); [lia|lia|]. exists r. split; [done|]. destruct r as [a|].
  - destruct Hr as (j & Hj & -> & e & He & Hm). exists e. split; [by apply pr_range|]. split; [done|].
    by apply matches_key in Hm.
  - destruct Hr as (n & Hn & Hpass & Hfree). by eapply passed_absent.
Qed.

(** ** Iteration *)

Fixpoint fold_res {A} (body : A -> entry -> res A) (acc : A) (l : list entry) : res A :=
  match l with
  | [] => Ok acc
  | e :: l' => let* acc' := body acc e in fold_res body acc' l'
  end.

Definition live (t : list entry) : list entry := filter (fun e => present e = true) t.

Lemma live_drop t i e : t !! i = Some e ->
  live (drop i t) = (if present e then [e] else []) ++ live (drop (S i) t).
Proof.
  intros He. rewrite (drop_S t e i) by done. unfold live. destruct (present e) eqn:Ep.
  - by rewrite filter_cons_True.
  - by rewrite filter_cons_False by (by rewrite Ep).
Qed.

Lemma next_present_spec h fuel : forall i,
  Z.of_nat (length (table h)) = ht_size h -> 0 <= i <= ht_size h -> ht_size h - i <= Z.of_nat fuel ->
  exists r, next_present fuel h i = Ok r /\
    match r with
    | None => live (drop (Z.to_nat i) (table h)) = []
    | Some j => i <= j < ht_size h /\ exists e, table h !! Z.to_nat j = Some e /\
        live (drop (Z.to_nat i) (table h)) = e :: live (drop (S (Z.to_nat j)) (table h))
    end.
Proof.
  induction fuel as [|fuel IH]; intros i Hl Hi Hf; cbn [next_present];
    (destruct (i =? ht_size h) eqn:E; [apply Z.eqb_eq in E|apply Z.eqb_neq in E]).
  1, 3: eexists; split; [done|]; rewrite drop_ge by lia; done.
  - lia.
  - destruct (lookup_lt_is_Some_2 (table h) (Z.to_nat i)) as [e He]; [lia|].
    assert (Hget : arr_get (table h) i = Ok e)
      by (rewrite <- (Z2Nat.id i) by lia; by apply arr_get_nth).
    rewrite Hget. cbn [res_bind]. rewrite (live_drop _ _ _ He).
    destruct (present e) eqn:Ep.
    + eexists. split; [done|]. split; [lia|]. exists e. split; [done|]. done.
    + destruct (IH (i + 1)) as (r & -> & Hr); [done|lia|lia|]. exists r. split; [done|].
      replace (Z.to_nat (i + 1)) with (S (Z.to_nat i)) in Hr by lia. cbn [app]. destruct r as [j|]; [|done].
      destruct Hr as (Hj & f & Hf' & Hlive). split; [lia|]. by exists f.
Qed.

Lemma foreach_loop_spec {A} (h : ht) (body : A -> entry -> res A) fuel : forall acc i cur,
  Z.of_nat (length (table h)) = ht_size h -> 0 <= i <= ht_size h -> ht_size h - i <= Z.of_nat fuel ->
  match cur with
  | None => live (drop (Z.to_nat i) (table h)) = []
  | Some j => i <= j < ht_size h /\ exists e, table h !! Z.to_nat j = Some e /\
      live (drop (Z.to_nat i) (table h)) = e :: live (drop (S (Z.to_nat j)) (table h))
  end ->
  foreach_loop fuel h body acc cur = fold_res body acc (live (drop (Z.to_nat i) (table h))).
Proof.
  induction fuel as [|fuel IH]; intros acc i cur Hl Hi Hf Hcur;
    (destruct cur as [j|]; cbn [foreach_loop]; [|by rewrite Hcur]).
  { lia. }
  destruct Hcur as (Hj & e & He & ->).
  assert (Hget : arr_get (table h) j = Ok e)
    by (rewrite <- (Z2Nat.id j) by lia; by apply arr_get_nth).
  rewrite Hget. cbn [res_bind fold_res]. destruct (body acc e) as [acc'|f]; [|done]. cbn [res_bind].
  unfold _mesa_hash_table_next_entry.
  destruct (next_present_spec h (Z.to_nat (ht_size h)) (j + 1)) as (r & -> & Hr); [done|lia|lia|].
  cbn [res_bind]. replace (S (Z.to_nat j)) with (Z.to_nat (j + 1)) by lia.
  apply IH; [done|lia|lia|done].
Qed.

(** [hash_table_foreach] runs its body on the present entries, in the order of the table. *)
Lemma foreach_spec {A} (h : ht) (body : A -> entry -> res A) acc :
  0 <= ht_size h -> Z.of_nat (length (table h)) = ht_size h ->
  hash_table_foreach h body acc = fold_res body acc (live (table h)).
Proof.
  intros H0 Hl. unfold hash_table_foreach, _mesa_hash_table_next_entry.
  destruct (next_present_spec h (Z.to_nat (ht_size h)) 0) as (r & -> & Hr); [done|lia|lia|].
  cbn [res_bind]. rewrite (foreach_loop_spec h body _ acc 0 r); [done|done|lia|lia|done].
Qed.

Lemma elem_of_live (t : list entry) e : e ∈ live t <-> present e = true /\ e ∈ t.
Proof. unfold live. by rewrite list_elem_of_filter. Qed.

Lemma holds_live t k v : holds keq t k v <-> exists e, e ∈ live t /\ keq k (e_key e) = true /\ e_data e = v.
Proof.
  split.
  - intros (a & e & Ha & Hp & Hk & Hv). exists e. split; [|done]. apply elem_of_live. split; [done|].
    by eapply list_elem_of_lookup_2.
  - intros (e & [Hp (a & Ha)%list_elem_of_lookup]%elem_of_live & Hk & Hv). by exists a, e.
Qed.

(** ** Rehashing *)

Definition apart (e f : entry) : Prop := keq (e_key f) (e_key e) = false.

(** The present entries have different keys. *)
Lemma live_apart (t : list entry) :
  (forall a b ea eb, t !! a = Some ea -> t !! b = Some eb -> present ea = true -> present eb = true ->
     keq (e_key ea) (e_key eb) = true -> a = b) ->
  StronglySorted apart (live t).
Proof.
  induction t as [|x t IH]; intros Hu; [constructor|].
  assert (Ht : StronglySorted apart (live t)).
  { apply IH. intros a b ea eb Ha Hb Hpa Hpb Hk. cut (S a = S b); [lia|]. by eapply Hu. }
  unfold live in *. destruct (present x) eqn:Ex; [|by rewrite filter_cons_False by (by rewrite Ex)].
  rewrite filter_cons_True by done. constructor; [done|]. apply Forall_forall. intros f Hf.
  apply elem_of_live in Hf as [Hp (b & Hb)%list_elem_of_lookup]. unfold apart.
  destruct (keq (e_key f) (e_key x)) eqn:E; [|done]. exfalso.
  by assert (S b = 0%nat) by (by eapply (Hu (S b) 0%nat f x)).
Qed.

(** The new table while the present entries [l] of the old one have been inserted. *)
Record filling (size : Z) (h : ht) (l : list entry) : Prop := {
  f_params : params h;
  f_size : ht_size h = size;
  f_tbl : tbl size (table h);
  f_fresh e : e ∈ table h -> deleted e = false;
  f_count : count present (table h) = Z.of_nat (length l);
  f_zero : deleted_entries h = 0;
  f_holds k v : holds keq (table h) k v <-> exists e, e ∈ l /\ keq k (e_key e) = true /\ e_data e = v
}.

Lemma open_slot h hash :
  params h -> in_u32 hash -> tbl (ht_size h) (table h) -> count present (table h) < ht_size h ->
  exists m, 0 <= m < ht_size h /\
    slot (ht_size h) (table h) hash m (fun e : entry => present e = false).
Proof.
  intros Hh Hu Ht Hc. destruct (params_facts h Hh) as ((Hp & H32 & H16) & _ & _).
  rewrite <- (t_len _ _ _ _ Ht) in Hc. destruct (count_full _ _ Hc) as (a & e & Ha & He).
  pose proof (lookup_lt_Some _ _ _ Ha) as Hlt.
  destruct (pr_params (ht_size h) (conj Hp (conj H32 H16)) hash Hu) as [Hs Hd].
  destruct (probe_surj (ht_size h) _ _ Hp Hs Hd (Z.of_nat a)) as (m & Hm & Hpr).
  { pose proof (t_len _ _ _ _ Ht). lia. }
  exists m. split; [done|]. exists e. unfold pr. by rewrite Hpr, Nat2Z.id.
Qed.

Lemma insert_rehash_spec size h l e0 :
  filling size h l -> e_hash e0 = kh (e_key e0) -> Forall (fun f => apart f e0) l ->
  Z.of_nat (length l) < size ->
  exists h', hash_table_insert_rehash h (e_hash e0) (e_key e0) (e_data e0) = Ok h' /\
    filling size h' (l ++ [e0]) /\ size_index h' = size_index h.
Proof.
  intros [Hh Hsz Ht Hfr Hc Hz Hm] Hhash Hap Hlt. subst size. rewrite Hhash.
  pose proof (kh_u32 kh keq (e_key e0)) as Hu. destruct (params_facts h Hh) as (Hgood & _ & _).
  pose proof Hgood as (_ & _ & H16).
  destruct (open_slot h (kh (e_key e0)) Hh Hu Ht ltac:(lia)) as (m & Hm1 & Hopen).
  unfold hash_table_insert_rehash. rewrite start_spec by done.
  destruct (insert_rehash_loop_spec h Hh (t_len _ _ _ _ Ht) (kh (e_key e0)) Hu (e_key e0) (e_data e0)
              (Z.to_nat (ht_size h)) 0 m) as (j & e & Hj & He & Hnp & Hbef & ->); [lia|lia|lia|done|].
  eexists. split; [done|]. split; [|done].
  assert (Hdel : deleted e = false) by (apply Hfr; by eapply list_elem_of_lookup_2). rewrite Hdel.
  set (a := Z.to_nat (pr (ht_size h) (kh (e_key e0)) j)) in *.
  assert (Hother : forall b f, b <> a -> table h !! b = Some f -> present f = true ->
    keq (e_key e0) (e_key f) = false).
  { intros b f _ Hb Hp. destruct (keq (e_key e0) (e_key f)) eqn:Ek; [|done]. exfalso.
    assert (Hh0 : holds keq (table h) (e_key e0) (e_data f)) by (by exists b, f).
    apply Hm in Hh0 as (g & Hg & Hkg & _). rewrite Forall_forall in Hap. unfold apart in Hap.
    specialize (Hap g Hg). cbn in Hap. congruence. }
  assert (Hslots : forall x, 0 <= x < j -> slot (ht_size h) (table h) (kh (e_key e0)) x
    (fun f : entry => busy f = true)).
  { intros x Hx. destruct (Hbef x Hx) as (f & Hf & Hp). exists f. split; [done|]. unfold busy. by rewrite Hp. }
  split.
  - by apply params_with.
  - done.
  - cbn [table with_table]. apply (tbl_ok_set kh keq _ _ _ e); [done|exact He|exact Hother|]. exists j. split; [lia|].
    split; [|done]. unfold a. rewrite Z2Nat.id; [done|]. apply pr_range; done.
  - cbn [table with_table]. intros f [->|Hf]%elem_insert; [done|by apply Hfr].
  - cbn [table with_table]. rewrite (count_insert _ _ _ _ _ He), Hnp, Hc, length_app. simpl. lia.
  - done.
  - intros k v. cbn [table with_table]. rewrite (holds_set kh keq (table h) a e (e_key e0) (e_data e0) k v He);
      [|by rewrite Hnp|exact Hother].
    destruct (keq k (e_key e0)) eqn:Ek; [|rewrite Hm]; split.
    + intros ->. exists e0. split; [apply elem_of_app; right; by apply list_elem_of_singleton|done].
    + intros (g & [Hg|Hg]%elem_of_app & Hkg & <-).
      * exfalso. rewrite Forall_forall in Hap. specialize (Hap g Hg). unfold apart in Hap.
        rewrite (keq_trans kh keq (e_key e0) k (e_key g)) in Hap; [done| |done].
        by rewrite (keq_sym kh keq).
      * by apply list_elem_of_singleton in Hg as ->.
    + intros (g & Hg & ?). exists g. split; [apply elem_of_app; by left|done].
    + intros (g & [Hg|Hg]%elem_of_app & Hkg & Hv); [by exists g|].
      apply list_elem_of_singleton in Hg as ->. congruence.
Qed.

Lemma rehash_loop_spec size l2 : forall l1 h,
  filling size h l1 -> StronglySorted apart (l1 ++ l2) -> Forall (fun e => e_hash e = kh (e_key e)) l2 ->
  Z.of_nat (length (l1 ++ l2)) <= size ->
  exists h', fold_res (fun acc e => hash_table_insert_rehash acc (e_hash e) (e_key e) (e_data e)) h l2 = Ok h' /\
    filling size h' (l1 ++ l2) /\ size_index h' = size_index h.
Proof.
  induction l2 as [|e l2 IH]; intros l1 h Hf Hs Hhash Hlen.
  { exists h. by rewrite app_nil_r. }
  apply Forall_cons in Hhash as [He Hhash]. cbn [fold_res].
  assert (Hap : Forall (fun f => apart f e) l1).
  { apply Forall_forall. intros f Hin. apply StronglySorted_app in Hs as (Hs & _ & _). apply Hs; [done|].
    apply list_elem_of_here. }
  destruct (insert_rehash_spec size h l1 e Hf He Hap) as (h1 & -> & Hf1 & Hi1).
  { rewrite length_app in Hlen. simpl in Hlen. lia. }
  cbn [res_bind]. destruct (IH (l1 ++ [e]) h1) as (h2 & -> & Hf2 & Hi2); try done;
    rewrite <- ?(assoc_L app); try done.
  exists h2. rewrite <- (assoc_L app) in Hf2. split; [done|]. split; [done|]. by rewrite Hi2.
Qed.

Lemma fresh_spec i : 0 <= i < 27 ->
  exists h, fresh_table null_key null_data i = Ok h /\ filling (ht_size h) h [] /\ size_index h = i /\
    entries h = 0.
Proof.
  intros Hi. unfold fresh_table.
  destruct (lookup_lt_is_Some_2 hash_sizes (Z.to_nat i)) as [[[max size] rehash] Hrow].
  { change (length hash_sizes) with 28%nat. lia. }
  assert (Hget : arr_get hash_sizes i = Ok (max, size, rehash))
    by (rewrite <- (Z2Nat.id i) by lia; by apply arr_get_nth).
  rewrite Hget. cbn [res_bind]. eexists. split; [done|].
  set (h := mk_ht _ _ _ _ _ _ _ _ _).
  assert (Hh : params h) by (by split).
  destruct (params_facts h Hh) as (Hgood & _ & _).
  destruct (tbl_ok_empty kh keq size Hgood (zero_entry null_key null_data) eq_refl) as [Ht Hno].
  split; [|done]. split; try done.
  - intros e (a & Ha)%list_elem_of_lookup. apply lookup_replicate in Ha as [-> _]. done.
  - by apply count_replicate.
  - intros k v. split; [intros H; exfalso; by eapply Hno|]. intros (e & He & _). by apply elem_of_nil in He.
Qed.

(** What an operation that only moves entries leaves. *)
Definition same_map (h h' : ht) : Prop :=
  entries h' = entries h /\ forall k v, holds keq (table h') k v <-> holds keq (table h) k v.

Lemma live_count (t : list entry) : count present t = Z.of_nat (length (live t)).
Proof. done. Qed.

Lemma count_filling size h l :
  filling size h l -> count deleted (table h) = 0.
Proof. intros Hf. apply count_zero. apply (f_fresh _ _ _ Hf). Qed.

Lemma hash_sizes_grow i r r' : 
  hash_sizes !! i = Some r -> hash_sizes !! S i = Some r' -> r.1.1 < r'.1.1 /\ r.1.1 < r'.1.2.
Proof.
  intros H H'. assert (Hc : forallb (fun i =>
      match hash_sizes !! i, hash_sizes !! S i with
      | Some r, Some r' => (r.1.1 <? r'.1.1) && (r.1.1 <? r'.1.2)
      | _, _ => true
      end) (seq 0 28) = true) by (vm_compute; reflexivity).
  pose proof (lookup_lt_Some _ _ _ H) as Hl. change (length hash_sizes) with 28%nat in Hl.
  apply (forallb_elem _ _ i) in Hc; [|apply elem_of_seq; lia].
  cbv beta in Hc. rewrite H, H', andb_true_iff, !Z.ltb_lt in Hc. done.
Qed.

Section Alloc.
Context (alloc : Z -> bool) (Halloc : forall i, alloc i = true).

(** Rehashing into a table that has room for every entry. *)
Lemma rehash_spec h i :
  params h -> tbl (ht_size h) (table h) -> entries h = count present (table h) ->
  0 <= i < 27 -> (size_index h =? i) && (deleted_entries h =? max_entries h) = false ->
  (forall max size rehash, hash_sizes !! Z.to_nat i = Some (max, size, rehash) -> entries h <= size) ->
  exists h', _mesa_hash_table_rehash null_key null_data alloc h i = Ok h' /\
    params h' /\ tbl (ht_size h') (table h') /\ entries h' = count present (table h') /\
    deleted_entries h' = 0 /\ count deleted (table h') = 0 /\ size_index h' = i /\ same_map h h'.
Proof.
  intros Hh Ht He Hi Hno Hroom. unfold _mesa_hash_table_rehash. rewrite Hno, Halloc.
  change hash_sizes_len with 28. rewrite (proj2 (Z.leb_gt _ _)) by lia. cbn [negb].
  destruct (fresh_spec i Hi) as (h0 & -> & Hf0 & Hi0 & _). cbn [res_bind].
  destruct (params_facts h Hh) as ((_ & _ & H16) & _ & _).
  rewrite foreach_spec by (lia || apply Ht).
  assert (Hle : entries h <= ht_size h0).
  { pose proof (f_params _ _ _ Hf0) as [Hrow _ _ _]. rewrite Hi0 in Hrow. by eapply Hroom. }
  destruct (rehash_loop_spec (ht_size h0) (live (table h)) [] h0 Hf0) as (h1 & -> & Hf1 & Hi1).
  - apply live_apart. intros a b ea eb. by apply (t_uniq _ _ _ _ Ht).
  - apply Forall_forall. intros e [Hp Hin]%elem_of_live. by eapply t_hash.
  - cbn [app]. rewrite <- live_count. lia.
  - cbn [res_bind app] in *. eexists. split; [done|].
    pose proof (count_filling _ _ _ Hf1) as Hd. destruct Hf1 as [Hh1 Hs1 Ht1 Hfr1 Hc1 Hz1 Hm1].
    split; [by apply params_with|]. cbn [with_table ht_size table entries deleted_entries size_index].
    rewrite Hs1. split; [done|]. split; [by rewrite Hc1, <- live_count|]. split; [done|].
    split; [done|]. split; [by rewrite Hi1|]. split; [done|]. intros k v. rewrite Hm1.
    by rewrite holds_live.
Qed.

Lemma ht_ok_counts h : ht_ok h ->
  0 <= entries h /\ 0 <= deleted_entries h /\ max_entries h < ht_size h < 2 ^ 31.
Proof.
  intros [Hh _ He Hd _]. destruct (params_facts h Hh) as ((_ & H32 & _) & _ & Hm).
  pose proof (count_nonneg present (table h)). pose proof (count_nonneg deleted (table h)). lia.
Qed.

Lemma cleared_spec h : ht_ok h ->
  exists h', hash_table_clear_fast null_key null_data h = Ok h' /\ ht_ok h' /\ entries h' = 0 /\
    deleted_entries h' = 0 /\ max_entries h' = max_entries h /\ forall k v, ~ holds keq (table h') k v.
Proof.
  intros Hok. pose proof (h_params _ Hok) as Hh. destruct (params_facts h Hh) as (Hgood & _ & Hm).
  unfold hash_table_clear_fast. pose proof (p_row h Hh) as Hrow.
  assert (Hget : arr_get hash_sizes (size_index h) = Ok (max_entries h, ht_size h, ht_rehash h)).
  { pose proof (p_index h Hh). rewrite <- (Z2Nat.id (size_index h)) by lia. by apply arr_get_nth. }
  rewrite Hget. cbn [res_bind fst snd].
  pose proof (t_len _ _ _ _ (h_tbl _ Hok)) as Hl. rewrite drop_ge by lia. rewrite app_nil_r.
  destruct (tbl_ok_empty kh keq _ Hgood (zero_entry null_key null_data) eq_refl) as [Ht Hno].
  eexists. split; [done|]. split; [|done]. split.
  - by apply params_with.
  - done.
  - cbn [with_table entries table]. by rewrite count_replicate.
  - cbn [with_table deleted_entries table]. by rewrite count_replicate.
  - cbn. lia.
Qed.

(** The opening of [hash_table_get_entry]: there is room for one more entry afterwards. *)
Lemma make_room_spec h :
  ht_ok h -> (entries h < max_entries h \/ size_index h < 26) ->
  exists h', make_room null_key null_data alloc h = Ok h' /\ ht_ok h' /\ same_map h h' /\
    entries h' + deleted_entries h' < max_entries h'.
Proof.
  intros Hok Hroom. destruct (ht_ok_counts h Hok) as (H0 & Hd0 & Hmax).
  pose proof Hok as [Hh Ht He Hd Hsum]. pose proof (p_index h Hh) as Hidx. unfold make_room.
  destruct (Z.leb_spec (max_entries h) (entries h)) as [Hfull|Hfree].
  - rewrite u32_small by (unfold in_u32; lia).
    destruct (rehash_spec h (size_index h + 1) Hh Ht He) as (h' & -> & Hh' & Ht' & He' & Hz & Hd' & Hi' & Hsame).
    { lia. }
    { by rewrite (proj2 (Z.eqb_neq _ _)) by lia. }
    { intros max size rehash Hrow. pose proof (p_row h Hh) as Hrow0.
      rewrite Z2Nat.inj_add in Hrow by lia.
      replace (Z.to_nat (size_index h) + Z.to_nat 1)%nat with (S (Z.to_nat (size_index h))) in Hrow by lia.
      destruct (hash_sizes_grow _ _ _ Hrow0 Hrow). cbn in *. lia. }
    assert (Hgrow : max_entries h < max_entries h').
    { pose proof (p_row h Hh) as Hrow0. pose proof (p_row h' Hh') as Hrow. rewrite Hi' in Hrow.
      rewrite Z2Nat.inj_add in Hrow by lia.
      replace (Z.to_nat (size_index h) + Z.to_nat 1)%nat with (S (Z.to_nat (size_index h))) in Hrow by lia.
      by destruct (hash_sizes_grow _ _ _ Hrow0 Hrow). }
    pose proof Hsame as [Hes _].
    exists h'. split; [done|]. split; [|split; [done|lia]]. split; try done; lia.
  - rewrite u32_small by (unfold in_u32; lia).
    destruct (Z.leb_spec (max_entries h) (deleted_entries h + entries h)) as [Hgarbage|Hgood]; cycle 1.
    { exists h. split; [done|]. split; [done|]. split; [by split|lia]. }
    destruct (deleted_entries h =? max_entries h) eqn:Eall.
    + apply Z.eqb_eq in Eall as Eall'. destruct (cleared_spec h Hok) as (h' & Ec & Hok' & He' & Hd' & Hm' & Hno).
      unfold _mesa_hash_table_rehash. rewrite Z.eqb_refl, Eall, Ec. cbn [andb res_bind]. rewrite He'.
      cbn [assert_ res_bind Z.eqb]. exists h'. split; [done|]. split; [done|]. split.
      { split; [lia|]. intros k v. split; [intros Hk; exfalso; by eapply Hno|].
        intros (a & e & Ha & Hp & _). exfalso.
        pose proof (count_pos present (table h) a e Ha Hp). lia. }
      rewrite He', Hd', Hm'. destruct (params_facts h Hh) as (_ & _ & ?). lia.
    + destruct (rehash_spec h (size_index h) Hh Ht He) as (h' & -> & Hh' & Ht' & He' & Hz & Hd' & Hi' & Hsame).
      { lia. }
      { by rewrite Z.eqb_refl, Eall. }
      { intros max size rehash Hrow. rewrite (p_row h Hh) in Hrow. simplify_eq. lia. }
      assert (Hm : max_entries h' = max_entries h).
      { pose proof (p_row h Hh) as Hrow0. pose proof (p_row h' Hh') as Hrow. rewrite Hi', Hrow0 in Hrow.
        by simplify_eq. }
      pose proof Hsame as [Hes _]. exists h'. split; [done|]. split; [|split; [done|lia]]. split; try done; lia.
Qed.

(** ** Insertion *)

Definition key_slot (h : ht) (key : K) (r : option Z + option Z) : Prop :=
  match r with
  | inl found => exists a e, found = Some a /\ 0 <= a < ht_size h /\ table h !! Z.to_nat a = Some e /\
      present e = true /\ keq key (e_key e) = true
  | inr av => absent keq (table h) key /\ exists j e, av = Some (pr (ht_size h) (kh key) j) /\
      0 <= j < ht_size h /\ table h !! Z.to_nat (pr (ht_size h) (kh key) j) = Some e /\
      present e = false /\
      forall x, 0 <= x < j -> slot (ht_size h) (table h) (kh key) x (fun f : entry => present f = true)
  end.

(** The probing of [hash_table_get_entry] finds the key or the slot for it. *)
Lemma get_entry_probe h key :
  ht_ok h -> entries h + deleted_entries h < max_entries h ->
  exists r, get_entry_loop keq (Z.to_nat (ht_size h)) h (kh key) key None (start_address h (kh key)) = Ok r /\
    key_slot h key r.
Proof.
  intros Hok Hroom. destruct (ht_ok_counts h Hok) as (H0 & Hd0 & Hmax). pose proof Hok as [Hh Ht He Hd _].
  destruct (params_facts h Hh) as (Hgood & _ & _). pose proof Hgood as (_ & _ & H16).
  pose proof (kh_u32 kh keq key) as Hu. rewrite start_spec by done.
  destruct (open_slot h (kh key) Hh Hu Ht ltac:(lia)) as (m & Hm & f & Hf & Hnp).
  destruct (get_entry_loop_spec h Hh (t_len _ _ _ _ Ht) (kh key) Hu key (Z.to_nat (ht_size h)) 0 None)
    as (r & -> & Hr); [lia|lia|intros j Hj; lia|].
  exists r. split; [done|]. destruct r as [found|av].
  - destruct Hr as (j & Hj & -> & e & Hlk & Hmt%matches_key). exists (pr (ht_size h) (kh key) j), e.
    split; [done|]. split; [by apply pr_range|done].
  - destruct Hr as (n & Hn & Hpass & Hfree & Hend). split.
    { eapply (passed_absent h key n); try done. intros Hlt. by apply Hfree. }
    assert (Hopen : first_open h (kh key) (if decide (n = ht_size h) then ht_size h else n + 1) av).
    { destruct (decide (n = ht_size h)) as [E|E]; [by apply Hend|]. apply Hfree. lia. }
    destruct av as [a|].
    + destruct Hopen as (j & Hj & -> & (e & Hlk & Hne) & Hbef).
      assert (Hjs : 0 <= j < ht_size h) by (revert Hj; destruct (decide (n = ht_size h)); lia).
      by exists j, e.
    + exfalso. destruct (decide (n = ht_size h)) as [E|E].
      * destruct (Hopen m Hm) as (g & Hg & Hp). simplify_eq. congruence.
      * destruct (Hopen n) as (g & Hg & Hp); [lia|]. destruct (Hfree ltac:(lia)) as [(g' & Hg' & Hb) _].
        simplify_eq. unfold busy in Hb. by rewrite Hp in Hb.
Qed.

(** Writing a present entry at index [a]. *)
Lemma arr_set_in (t : list entry) a e x :
  0 <= a -> t !! Z.to_nat a = Some e -> arr_set t a x = Ok (<[Z.to_nat a := x]> t).
Proof.
  intros Ha He. apply lookup_lt_Some in He. unfold arr_set.
  by rewrite (proj2 (Z.ltb_ge _ _)), (proj2 (Z.leb_gt _ _)) by lia.
Qed.

Lemma arr_get_in (t : list entry) a e : 0 <= a -> t !! Z.to_nat a = Some e -> arr_get t a = Ok e.
Proof. intros Ha He. rewrite <- (Z2Nat.id a) by lia. by apply arr_get_nth. Qed.

Lemma write_slot h a e key data :
  ht_ok h -> 0 <= a -> table h !! Z.to_nat a = Some e ->
  (present e = true -> keq key (e_key e) = true) ->
  (forall b f, b <> Z.to_nat a -> table h !! b = Some f -> present f = true -> keq key (e_key f) = false) ->
  (exists i, 0 <= i < ht_size h /\ pr (ht_size h) (kh key) i = Z.of_nat (Z.to_nat a) /\
     forall j, 0 <= j < i -> slot (ht_size h) (table h) (kh key) j (fun f => busy f = true)) ->
  entries h + deleted_entries h < max_entries h \/ present e = true ->
  let h' := with_table h (<[Z.to_nat a := mk_entry (kh key) true false key data]> (table h))
              (entries h + Z.b2z (negb (present e))) (deleted_entries h - Z.b2z (deleted e)) in
  ht_ok h' /\
  (forall k v, holds keq (table h') k v <-> if keq k key then v = data else holds keq (table h) k v).
Proof.
  intros [Hh Ht He Hd Hsum] Ha Hlk Hp Hother Hchain Hroom h'. unfold h'.
  split; [split; cbn [with_table table entries deleted_entries max_entries ht_size]|].
  - by apply params_with.
  - by apply (tbl_ok_set kh keq _ _ _ e).
  - rewrite (count_insert _ _ _ _ _ Hlk). destruct (present e); simpl; lia.
  - rewrite (count_insert _ _ _ _ _ Hlk). simpl. lia.
  - destruct (present e), (deleted e); simpl; lia.
  - intros k v. by apply (holds_set kh keq _ _ e).
Qed.

Lemma insert_spec h key data :
  ht_ok h -> (entries h < max_entries h \/ size_index h < 26) ->
  exists h' a, _mesa_hash_table_insert null_key null_data kh keq alloc h key data = Ok (h', Some a) /\
    ht_ok h' /\ entries h' <= entries h + 1 /\
    (forall k v, holds keq (table h') k v <-> if keq k key then v = data else holds keq (table h) k v).
Proof.
  intros Hok0 Hroom0. unfold _mesa_hash_table_insert, hash_table_insert, hash_table_get_entry.
  destruct (make_room_spec h Hok0 Hroom0) as (h1 & -> & Hok & [Hes Hsame] & Hroom). cbn [res_bind].
  destruct (get_entry_probe h1 key Hok Hroom) as (r & -> & Hr). cbn [res_bind].
  destruct (ht_ok_counts h1 Hok) as (H0 & Hd0 & Hmax). pose proof (h_tbl _ Hok) as Ht.
  destruct (params_facts h1 (h_params _ Hok)) as (Hgood & _ & _). pose proof (kh_u32 kh keq key) as Hu.
  assert (Hfin : forall t k v, (holds keq t k v <-> if keq k key then v = data else holds keq (table h1) k v) ->
    (holds keq t k v <-> if keq k key then v = data else holds keq (table h) k v)).
  { intros t k v Hi. rewrite Hi. destruct (keq k key); [done|apply Hsame]. }
  destruct r as [found|av].
  - destruct Hr as (a & e & -> & Ha & Hlk & Hp & Hk). cbn [res_bind].
    rewrite (arr_get_in _ a e) by (done || lia). cbn [res_bind].
    assert (Hin : e ∈ table h1) by (by eapply list_elem_of_lookup_2).
    assert (Hhash : e_hash e = kh key).
    { rewrite (t_hash _ _ _ _ Ht e Hin Hp). symmetry. by apply (keq_hash kh keq). }
    rewrite (arr_set_in _ a e), Hhash by (done || lia). cbn [res_bind]. eexists _, a. split; [done|].
    destruct (write_slot h1 a e key data Hok) as [Hok' Hmap]; [lia|done|done| | |by right|].
    { intros b f Hb Hf Hpf. destruct (keq key (e_key f)) eqn:E; [|done]. exfalso. apply Hb.
      eapply (t_uniq _ _ _ _ Ht); try done. apply (keq_trans kh keq _ key); [|done].
      by rewrite (keq_sym kh keq). }
    { destruct (t_chain _ _ _ _ Ht _ e Hlk Hp) as (i & Hi & Hpr & Hb). rewrite Hhash in *. by exists i. }
    rewrite Hp, (t_flags _ _ _ _ Ht e Hin Hp) in Hok'. cbn [negb Z.b2z] in Hok'.
    rewrite Z.add_0_r, Z.sub_0_r in Hok'. split; [done|]. split; [cbn; lia|].
    intros k v. apply Hfin, Hmap.
  - destruct Hr as (Habs & j & e & -> & Hj & Hlk & Hnp & Hbef).
    set (a := pr (ht_size h1) (kh key) j) in *.
    assert (Ha : 0 <= a < ht_size h1) by (by apply pr_range).
    rewrite (arr_get_in _ a e) by (done || lia). cbn [res_bind].
    rewrite (arr_set_in _ a e) by (done || lia). cbn [res_bind].
    set (e1 := mk_entry (kh key) (present e) (deleted e) (e_key e) (e_data e)).
    cbn [with_table table]. assert (Hlt : (Z.to_nat a < length (table h1))%nat) by (by eapply lookup_lt_Some).
    rewrite (arr_get_in _ a e1) by (lia || by apply list_lookup_insert_eq). cbn [res_bind e1 e_hash].
    rewrite (arr_set_in _ a e1) by (lia || by apply list_lookup_insert_eq).
    rewrite list_insert_insert_eq. cbn [res_bind with_table entries deleted_entries].
    eexists _, a. split; [done|].
    destruct (write_slot h1 a e key data Hok) as [Hok' Hmap]; [lia|done|by rewrite Hnp| | |by left|].
    { intros b f _ Hb Hpf. by eapply Habs. }
    { exists j. split; [done|]. split; [lia|]. intros x Hx. destruct (Hbef x Hx) as (f & Hf & Hpf).
      exists f. split; [done|]. unfold busy. by rewrite Hpf. }
    assert (Hn : u32 (entries h1 + 1) = entries h1 + Z.b2z (negb (present e)))
      by (rewrite Hnp, u32_small by (unfold in_u32; lia); done).
    assert (Hdd : (if deleted e then u32 (deleted_entries h1 - 1) else deleted_entries h1) =
      deleted_entries h1 - Z.b2z (deleted e)).
    { destruct (deleted e) eqn:Edel; simpl; [|lia]. pose proof (count_pos _ _ _ _ Hlk Edel).
      rewrite (h_deleted _ Hok) in *. apply u32_small. unfold in_u32. lia. }
    rewrite Hn, Hdd. split; [done|]. split; [cbn; rewrite Hnp; simpl; lia|].
    intros k v. apply Hfin, Hmap.
Qed.

(** ** Removal and clearing *)

Lemma remove_key_spec h key :
  ht_ok h -> exists h', _mesa_hash_table_remove_key kh keq h key = Ok h' /\ ht_ok h' /\
    entries h' <= entries h /\
    (forall k v, holds keq (table h') k v <-> keq k key = false /\ holds keq (table h) k v).
Proof.
  intros Hok. destruct (ht_ok_counts h Hok) as (H0 & Hd0 & Hmax). pose proof Hok as [Hh Ht He Hd Hsum].
  unfold _mesa_hash_table_remove_key.
  destruct (search_spec h key Hh Ht) as (r & -> & Hr). cbn [res_bind].
  destruct r as [a|]; cbn [_mesa_hash_table_remove].
  - destruct Hr as (e & Ha & Hlk & Hp & Hk). rewrite (arr_get_in _ a e) by (done || lia). cbn [res_bind].
    rewrite (arr_set_in _ a e) by (done || lia). cbn [res_bind]. eexists. split; [done|].
    assert (Hpos : 0 < entries h) by (rewrite He; by eapply count_pos).
    rewrite !u32_small by (unfold in_u32; lia).
    assert (Hdel : deleted e = false) by (eapply t_flags; [done|by eapply list_elem_of_lookup_2|done]).
    split; [split; cbn [with_table table entries deleted_entries max_entries ht_size]|split].
    + by apply params_with.
    + by apply tbl_ok_delete.
    + rewrite (count_insert _ _ _ _ _ Hlk), Hp. simpl. lia.
    + rewrite (count_insert _ _ _ _ _ Hlk), Hdel. simpl. lia.
    + lia.
    + cbn. lia.
    + intros k v. cbn [with_table table]. rewrite (holds_delete kh keq _ _ _ _ _ _ Ht Hlk Hp).
      assert (Heq : keq k key = keq k (e_key e)); [|by rewrite Heq].
      apply eq_true_iff_eq. split; intros E.
      * by apply (keq_trans kh keq _ key).
      * apply (keq_trans kh keq _ (e_key e)); [done|]. by rewrite (keq_sym kh keq).
  - exists h. split; [done|]. split; [done|]. split; [lia|]. intros k v. split; [|by intros [_ ?]].
    intros Hk. split; [|done]. destruct (keq k key) eqn:E; [|done]. exfalso.
    destruct Hk as (a & e & Ha & Hp & Hke & _).
    enough (keq key (e_key e) = true) by (specialize (Hr a e Ha Hp); congruence).
    apply (keq_trans kh keq _ k); [|done]. by rewrite (keq_sym kh keq).
Qed.

Lemma clear_spec h df :
  ht_ok h -> exists h' l, _mesa_hash_table_clear null_key null_data h df = Ok (h', l) /\ ht_ok h' /\
    entries h' = 0 /\ l = (if df then live (table h) else []) /\ forall k v, ~ holds keq (table h') k v.
Proof.
  intros Hok. unfold _mesa_hash_table_clear. destruct df; cycle 1.
  { destruct (cleared_spec h Hok) as (h' & -> & Hok' & He' & _ & _ & Hno). cbn [res_bind].
    by exists h', []. }
  eexists _, _. split; [done|]. pose proof Hok as [Hh Ht He Hd Hsum].
  set (t' := _ <$> table h).
  assert (Hno : forall e, e ∈ t' -> present e = false /\ deleted e = false).
  { intros e (f & -> & _)%list_elem_of_fmap. done. }
  assert (Hnop : forall a e, t' !! a = Some e -> present e = true -> False).
  { intros a e Ha Hp. destruct (Hno e) as [H _]; [by eapply list_elem_of_lookup_2|congruence]. }
  split; [split; cbn [with_table table entries deleted_entries max_entries ht_size]|split; [done|split; [done|]]].
  - by apply params_with.
  - split.
    + unfold t'. rewrite length_fmap. apply Ht.
    + intros e Hin _. by apply Hno.
    + intros e Hin Hp. destruct (Hno e Hin). congruence.
    + intros a b ea eb Ha _ Hpa. exfalso. by eapply Hnop.
    + intros a e Ha Hp. exfalso. by eapply Hnop.
  - symmetry. apply count_zero. intros e Hin. by apply Hno.
  - symmetry. apply count_zero. intros e Hin. by apply Hno.
  - destruct (params_facts h Hh) as (_ & _ & ?). lia.
  - intros k v (a & e & Ha & Hp & _). by eapply Hnop.
Qed.

(** ** Any sequence of operations *)

Inductive ht_op : Type :=
| OInsert (k : K) (v : V) | ORemove (k : K) | OSearch (k : K) | OClear (delete_function : bool).

(** One operation: the new table and, for a search, the data found. *)
Definition ht_step (h : ht) (o : ht_op) : res (ht * option (option V)) :=
  match o with
  | OInsert k v =>
      let* r := _mesa_hash_table_insert null_key null_data kh keq alloc h k v in
      match snd r with Some _ => Ok (fst r, None) | None => Fault NullDeref end
  | ORemove k => let* h' := _mesa_hash_table_remove_key kh keq h k in Ok (h', None)
  | OSearch k =>
      let* r := _mesa_hash_table_search kh keq h k in
      match r with
      | None => Ok (h, Some None)
      | Some a => let* e := arr_get (table h) a in Ok (h, Some (Some (e_data e)))
      end
  | OClear df => let* r := _mesa_hash_table_clear null_key null_data h df in Ok (fst r, None)
  end.

Fixpoint ht_run (h : ht) (os : list ht_op) : res (ht * list (option V)) :=
  match os with
  | [] => Ok (h, [])
  | o :: os' =>
      let* r := ht_step h o in
      let* r' := ht_run (fst r) os' in
      Ok (fst r', match snd r with Some x => x :: snd r' | None => snd r' end)
  end.

(** The same on a map given as a function of the key. *)
Definition map_step (m : K -> option V) (o : ht_op) : K -> option V :=
  match o with
  | OInsert k v => fun k' => if keq k' k then Some v else m k'
  | ORemove k => fun k' => if keq k' k then None else m k'
  | OSearch _ => m
  | OClear _ => fun _ => None
  end.

Fixpoint map_run (m : K -> option V) (os : list ht_op) : list (option V) :=
  match os with
  | [] => []
  | o :: os' =>
      match o with
      | OSearch k => m k :: map_run (map_step m o) os'
      | _ => map_run (map_step m o) os'
      end
  end.

Definition reads (h : ht) (m : K -> option V) : Prop :=
  forall k v, holds keq (table h) k v <-> m k = Some v.

Lemma index_26 h : params h -> size_index h = 26 -> max_entries h = 2 ^ 30.
Proof.
  intros [Hrow _ _ _] E. rewrite E in Hrow.
  assert (Some (2 ^ 30, 1181116273, 1181116271) = Some (max_entries h, ht_size h, ht_rehash h)) as Hr
    by (rewrite <- Hrow; reflexivity). congruence.
Qed.

Lemma ht_step_spec h m o n :
  ht_ok h -> reads h m -> entries h <= n < 2 ^ 30 ->
  exists h' out, ht_step h o = Ok (h', out) /\ ht_ok h' /\ reads h' (map_step m o) /\
    entries h' <= n + 1 /\ out = match o with OSearch k => Some (m k) | _ => None end.
Proof.
  intros Hok Hm Hn. destruct o as [k v|k|k|df]; cbn [ht_step map_step].
  - destruct (insert_spec h k v Hok) as (h' & a & -> & Hok' & He & Hmap).
    { pose proof (p_index h (h_params _ Hok)).
      destruct (decide (size_index h = 26)) as [E|]; [|right; lia]. left.
      rewrite (index_26 h (h_params _ Hok) E). lia. }
    cbn [res_bind fst snd]. exists h', None. split_and!; try done; [|lia].
    intros k' v'. rewrite Hmap. destruct (keq k' k); [|apply Hm]. split; [by intros ->|by intros [=]].
  - destruct (remove_key_spec h k Hok) as (h' & -> & Hok' & He & Hmap). cbn [res_bind].
    exists h', None. split_and!; try done; [|lia]. intros k' v'. rewrite Hmap, (Hm k' v').
    destruct (keq k' k); [by split; [intros [? ?]|]|]. by split; [intros [_ ?]|].
  - pose proof Hok as [Hh Ht _ _ _]. destruct (search_spec h k Hh Ht) as (r & -> & Hr). cbn [res_bind].
    destruct r as [a|].
    + destruct Hr as (e & Ha & Hlk & Hp & Hk). rewrite (arr_get_in _ a e) by (done || lia). cbn [res_bind].
      eexists _, _. split; [done|]. split_and!; try done; [lia|]. do 2 f_equal. symmetry. apply Hm.
      by exists (Z.to_nat a), e.
    + eexists _, _. split; [done|]. split_and!; try done; [lia|]. f_equal.
      destruct (m k) as [v|] eqn:E; [|done]. apply Hm in E. exfalso. by eapply absent_iff.
  - destruct (clear_spec h df Hok) as (h' & l & -> & Hok' & He & _ & Hno). cbn [res_bind].
    eexists _, _. split; [done|]. split_and!; try done; [|destruct (ht_ok_counts h Hok); cbn; lia]. intros k v.
    split; [intros Hk; exfalso; by eapply Hno|done].
Qed.

Lemma ht_run_spec os : forall h m n,
  ht_ok h -> reads h m -> entries h <= n -> n + Z.of_nat (length os) <= 2 ^ 30 ->
  exists h', ht_run h os = Ok (h', map_run m os) /\ ht_ok h' /\ reads h' (foldl map_step m os).
Proof.
  induction os as [|o os IH]; intros h m n Hok Hm Hn Hlen; cbn [ht_run map_run foldl]; [by eauto|].
  cbn [length] in Hlen. destruct (ht_step_spec h m o n Hok Hm) as (h1 & out & -> & Hok1 & Hm1 & Hn1 & ->);
    [lia|]. cbn [res_bind fst snd].
  destruct (IH h1 (map_step m o) (n + 1) Hok1 Hm1 Hn1) as (h2 & -> & Hok2 & Hm2); [lia|].
  cbn [res_bind fst snd]. exists h2. split; [|done]. by destruct o.
Qed.

Lemma init_spec : exists h, _mesa_hash_table_init null_key null_data = Ok h /\ ht_ok h /\
  reads h (fun _ => None) /\ entries h = 0.
Proof.
  unfold _mesa_hash_table_init. destruct (fresh_spec 0) as (h & Ef & Hf & Hi & He); [lia|].
  rewrite Ef. cbn [res_bind]. pose proof (f_params _ _ _ Hf) as Hh.
  assert (Hsize : ht_size h = 19).
  { pose proof (p_row h Hh) as Hrow. rewrite Hi in Hrow. change (Some (16, 19, 17) = Some (max_entries h, ht_size h, ht_rehash h)) in Hrow. congruence. }
  rewrite Hsize. cbn [assert_ res_bind Z.eqb Pos.eqb]. exists h. split; [done|].
  pose proof (count_filling _ _ _ Hf) as Hd. destruct Hf as [_ _ Ht _ Hc Hz Hm].
  destruct (params_facts h Hh) as (_ & _ & Hmax). split; [|split; [|done]].
  - split; [done|done|by rewrite He, Hc|by rewrite Hz, Hd|lia].
  - intros k v. rewrite Hm. split; [|done]. by intros (e & ?%elem_of_nil & _).
Qed.

(** C9: the hash table is a finite map.  Any sequence of up to 2^30 insertions, removals,
    searches and clears on a new table runs to its end: no loop runs on, no access is out of
    bounds, no insertion is refused; and every search finds what the same sequence leaves in
    a map, through collisions, deleted markers, growth and rehashing in place. *)
Theorem hash_table_refines_map os :
  Z.of_nat (length os) <= 2 ^ 30 ->
  exists h0 h, _mesa_hash_table_init null_key null_data = Ok h0 /\
    ht_run h0 os = Ok (h, map_run (fun _ => None) os) /\ ht_ok h.
Proof.
  intros Hlen. destruct init_spec as (h0 & -> & Hok & Hm & He).
  destruct (ht_run_spec os h0 _ 0 Hok Hm) as (h & Hrun & Hok' & _); [lia|lia|].
  by exists h0, h.
Qed.
End Alloc.
End Spec.

(** ** Concrete tables *)

(** The keys of [_mesa_hash_table_create_u32_keys], with a hash that shows collisions. *)
Definition key_u32_equals (a b : Z) : bool := u32 a =? u32 b.

Definition low_hash (k : Z) : Z := u32 k mod 8.

#[export] Instance u32_key_laws : KeyLaws low_hash key_u32_equals.
Proof.
  split; unfold key_u32_equals, low_hash.
  - intros k. apply Z.eqb_refl.
  - intros a b. apply Z.eqb_sym.
  - intros a b c H1%Z.eqb_eq H2%Z.eqb_eq. apply Z.eqb_eq. congruence.
  - intros a b H%Z.eqb_eq. congruence.
  - intros k. pose proof (Z.mod_pos_bound (u32 k) 8 ltac:(lia)). unfold in_u32. lia.
Qed.

(** Forty keys, some removed, one twice: the table grows on the way. *)
Definition sample_ops : list (ht_op (K := Z) (V := Z)) :=
  ((fun k => OInsert k (k * k)) <$> seqZ 0 40) ++ (ORemove <$> seqZ 0 20) ++
  [OInsert 25 7; OSearch 3; OSearch 25; OSearch (2 ^ 32 + 30)].

Lemma hash_table_refines_map_witness :
  exists h0 h, _mesa_hash_table_init 0 0 = Ok h0 /\
    ht_run 0 0 low_hash key_u32_equals (fun _ => true) h0 sample_ops =
      Ok (h, map_run key_u32_equals (fun _ => None) sample_ops) /\
    ht_ok low_hash key_u32_equals h.
Proof.
  apply (hash_table_refines_map 0 0 low_hash key_u32_equals (fun _ => true) (fun _ => eq_refl)).
  vm_compute. discriminate.
Defined.

(** Nineteen insertions of which the last three found no room to grow, sixteen removals, one
    more insertion, and a search for a key that was never removed. *)
Definition failed_growth_ops : list (ht_op (K := Z) (V := Z)) :=
  ((fun k => OInsert k k) <$> seqZ 1 19) ++ (ORemove <$> seqZ 1 16) ++
  [OSearch 18; OInsert 40 40; OSearch 18].

