(* ===== verification/IdAlloc.v ===== *)
(** IdAlloc: the allocator of small integers of [util/u_idalloc.c], its thread-safe wrapper
    and the segmented allocator built on it, which names the OpenGL objects
    ([mesa/main/hash.c]).

    [realloc] is taken to succeed, as the source takes it; the mutex of the wrapper is
    not part of a sequential model. *)

From S2P Require Import Prelude.
From S2P Require Import CLib.

(** ** [struct util_idalloc] *)

Record util_idalloc : Type := mk_ida {
  data : list Z;              (* 32 ids a word *)
  num_elements : Z;
  num_set_elements : Z;       (* the last non-zero element of [data], plus 1 *)
  lowest_free_idx : Z
}.

Definition with_data (buf : util_idalloc) (d : list Z) : util_idalloc :=
  mk_ida d (num_elements buf) (num_set_elements buf) (lowest_free_idx buf).

Definition DIV_ROUND_UP (a b : Z) : Z := u32 (a + b - 1) / b.

Definition util_idalloc_exists (buf : util_idalloc) (id : Z) : res bool :=
  if id / 32 <? num_set_elements buf then
    let* w := arr_get (data buf) (id / 32) in
    Ok (negb (Z.land w (BITFIELD_BIT (id mod 32)) =? 0))
  else Ok false.

Definition util_idalloc_resize (buf : util_idalloc) (new_num_elements : Z) : util_idalloc :=
  if num_elements buf <? new_num_elements then
    mk_ida (data buf ++ replicate (Z.to_nat (new_num_elements - num_elements buf)) 0)
      new_num_elements (num_set_elements buf) (lowest_free_idx buf)
  else buf.

Definition util_idalloc_init (initial_num_ids : Z) : res util_idalloc :=
  assert! negb (initial_num_ids =? 0) in
  Ok (util_idalloc_resize (mk_ida [] 0 0 0) (DIV_ROUND_UP initial_num_ids 32)).

(** ** One id *)

(** The [for] loop of [util_idalloc_alloc]: the first word from [i] with a free bit. *)
Fixpoint alloc_scan (fuel : nat) (d : list Z) (i num : Z) : res (option Z) :=
  match fuel with
  | O => Fault OutOfFuel
  | S fuel' =>
      if num <=? i then Ok None
      else
        let* w := arr_get d i in
        if w =? 0xffffffff then alloc_scan fuel' d (i + 1) num else Ok (Some i)
  end.

Definition util_idalloc_alloc (buf : util_idalloc) : res (util_idalloc * Z) :=
  let num := num_elements buf in
  let lo := lowest_free_idx buf in
  let* r := alloc_scan (S (Z.to_nat (num - lo))) (data buf) lo num in
  match r with
  | Some i =>
      let* w := arr_get (data buf) i in
      let bit := ffs (u32 (Z.lnot w)) - 1 in
      let* d := arr_set (data buf) i (Z.lor w (BITFIELD_BIT bit)) in
      Ok (mk_ida d num (Z.max (num_set_elements buf) (i + 1)) i, u32 (i * 32 + bit))
  | None =>
      let b1 := util_idalloc_resize buf (u32 (Z.max num 1 * 2)) in
      let* w := arr_get (data b1) num in
      let* d := arr_set (data b1) num (Z.lor w 1) in
      Ok (mk_ida d (num_elements b1) (Z.max (num_set_elements b1) (num + 1)) num, u32 (num * 32))
  end.

(** ** Ranges of ids *)

Fixpoint find_free_block (fuel : nat) (d : list Z) (i num : Z) : res Z :=
  match fuel with
  | O => Fault OutOfFuel
  | S fuel' =>
      if num <=? i then Ok num
      else
        let* w := arr_get d i in
        if w =? 0 then Ok i else find_free_block fuel' d (i + 1) num
  end.

(** [for (i = base; i < num_elements && i - base < num_alloc && !buf->data[i]; i++)]. *)
Fixpoint free_run (fuel : nat) (d : list Z) (base i num num_alloc : Z) : res Z :=
  match fuel with
  | O => Fault OutOfFuel
  | S fuel' =>
      if (i <? num) && (i - base <? num_alloc) then
        let* w := arr_get d i in
        if w =? 0 then free_run fuel' d base (i + 1) num num_alloc else Ok i
      else Ok i
  end.

(** The [while (1)] loop: [base], and whether it was left by [goto ret]. *)
Fixpoint range_search (fuel : nat) (d : list Z) (base num num_alloc : Z) : res (Z * bool) :=
  match fuel with
  | O => Fault OutOfFuel
  | S fuel' =>
      let* i := free_run (S (Z.to_nat (num - base))) d base base num num_alloc in
      if i - base =? num_alloc then Ok (base, true)
      else if i =? num then Ok (base, false)
      else
        let* w := arr_get d i in
        range_search fuel' d (if w =? 0 then i else i + 1) num num_alloc
  end.

(** [for (i = base; i < ...; i++) buf->data[i] = 0xffffffff;] *)
Fixpoint fill_words (n : nat) (d : list Z) (i : Z) : res (list Z) :=
  match n with
  | O => Ok d
  | S n' => let* d' := arr_set d i 0xffffffff in fill_words n' d' (i + 1)
  end.

(** [for (i = 0; i < num; i++) assert(util_idalloc_exists(buf, id + i));] *)
Fixpoint validate_range (n : nat) (buf : util_idalloc) (id : Z) : res unit :=
  match n with
  | O => Ok tt
  | S n' =>
      let* e := util_idalloc_exists buf (u32 id) in
      assert! e in validate_range n' buf (id + 1)
  end.

Definition util_idalloc_alloc_range (buf : util_idalloc) (num : Z) : res (util_idalloc * Z) :=
  if num =? 1 then util_idalloc_alloc buf
  else
    let num_alloc := DIV_ROUND_UP num 32 in
    let n := num_elements buf in
    let* base0 := find_free_block (S (Z.to_nat (n - lowest_free_idx buf))) (data buf)
                    (lowest_free_idx buf) n in
    let* r := range_search (S (Z.to_nat (n - base0))) (data buf) base0 n num_alloc in
    let '(base, found) := r in
    let b1 := if found then buf else util_idalloc_resize buf (u32 (n * 2 + num_alloc)) in
    let part := negb (num mod 32 =? 0) in
    let* d1 := fill_words (Z.to_nat (u32 (base + num_alloc - Z.b2z part) - base)) (data b1) base in
    let* d2 :=
      if part then
        let* w := arr_get d1 (base + num_alloc - 1) in
        arr_set d1 (base + num_alloc - 1) (Z.lor w (BITFIELD_MASK (num mod 32)))
      else Ok d1 in
    let lo := if lowest_free_idx b1 =? base then base + num / 32 else lowest_free_idx b1 in
    let b2 := mk_ida d2 (num_elements b1) (Z.max (num_set_elements b1) (base + num_alloc)) lo in
    let* _ := validate_range (Z.to_nat num) b2 (base * 32) in
    Ok (b2, u32 (base * 32)).

(** ** Release and reservation *)

(** [while (num_set_elements > 0 && !data[num_set_elements - 1]) num_set_elements--;] *)
Fixpoint shrink (fuel : nat) (d : list Z) (n : Z) : res Z :=
  match fuel with
  | O => Fault OutOfFuel
  | S fuel' =>
      if 0 <? n then
        let* w := arr_get d (n - 1) in
        if w =? 0 then shrink fuel' d (n - 1) else Ok n
      else Ok n
  end.

Definition util_idalloc_free (buf : util_idalloc) (id : Z) : res util_idalloc :=
  let idx := id / 32 in
  if num_elements buf <=? idx then Ok buf
  else
    let lo := Z.min idx (lowest_free_idx buf) in
    let* w := arr_get (data buf) idx in
    let* d := arr_set (data buf) idx (Z.land w (u32 (Z.lnot (BITFIELD_BIT (id mod 32))))) in
    let n := num_set_elements buf in
    let* n' := if n =? idx + 1 then shrink (S (Z.to_nat n)) d n else Ok n in
    Ok (mk_ida d (num_elements buf) n' lo).

Definition util_idalloc_reserve (buf : util_idalloc) (id : Z) : res util_idalloc :=
  let idx := id / 32 in
  let b1 := if num_elements buf <=? idx
            then util_idalloc_resize buf (u32 ((idx + 1) * 2)) else buf in
  let* w := arr_get (data b1) idx in
  let* d := arr_set (data b1) idx (Z.lor w (BITFIELD_BIT (id mod 32))) in
  Ok (mk_ida d (num_elements b1) (Z.max (num_set_elements b1) (idx + 1)) (lowest_free_idx b1)).

(** ** Iteration *)

(** [while (_mask) id = _i * 32 + u_bit_scan(&_mask)]. *)
Fixpoint scan_bits (fuel : nat) (i mask : Z) : list Z :=
  match fuel with
  | O => []
  | S fuel' =>
      if mask =? 0 then []
      else
        let bit := ffs mask - 1 in
        u32 (i * 32 + bit) :: scan_bits fuel' i (Z.lxor mask (BITFIELD_BIT bit))
  end.

(** [util_idalloc_foreach] with a body that leaves the allocator alone: the ids it visits. *)
Fixpoint foreach_words (n : nat) (d : list Z) (i : Z) : res (list Z) :=
  match n with
  | O => Ok []
  | S n' =>
      let* w := arr_get d i in
      let* l := foreach_words n' d (i + 1) in
      Ok (scan_bits 32 i w ++ l)
  end.

Definition util_idalloc_foreach (buf : util_idalloc) : res (list Z) :=
  foreach_words (Z.to_nat (num_set_elements buf)) (data buf) 0.

(** ** The thread-safe variant, one call at a time *)

Record util_idalloc_mt : Type := mk_mt { mt_buf : util_idalloc; skip_zero : bool }.

Definition util_idalloc_mt_init (initial_num_ids : Z) (skip : bool) : res util_idalloc_mt :=
  let* b := util_idalloc_init initial_num_ids in
  if skip then
    let* r := util_idalloc_alloc b in
    assert! snd r =? 0 in Ok (mk_mt (fst r) skip)
  else Ok (mk_mt b skip).

Definition util_idalloc_mt_init_tc : res util_idalloc_mt := util_idalloc_mt_init (Z.shiftl 1 16) true.

Definition util_idalloc_mt_alloc (m : util_idalloc_mt) : res (util_idalloc_mt * Z) :=
  let* r := util_idalloc_alloc (mt_buf m) in Ok (mk_mt (fst r) (skip_zero m), snd r).

Definition util_idalloc_mt_free (m : util_idalloc_mt) (id : Z) : res util_idalloc_mt :=
  if (id =? 0) && skip_zero m then Ok m
  else let* b := util_idalloc_free (mt_buf m) id in Ok (mk_mt b (skip_zero m)).

(** ** The segmented variant *)

Definition NUM_SEGMENTS : Z := 1024.
Definition UTIL_IDALLOC_MAX_IDS_PER_SEGMENT : Z := u32 (BITFIELD64_BIT 32 / NUM_SEGMENTS).
Definition UTIL_IDALLOC_MAX_ELEMS_PER_SEGMENT : Z := UTIL_IDALLOC_MAX_IDS_PER_SEGMENT / 32.

(** [struct util_idalloc_sparse]: the array [segment]. *)
Definition util_idalloc_sparse : Type := list util_idalloc.

Definition util_idalloc_sparse_init : res util_idalloc_sparse :=
  let* b := util_idalloc_init 1 in Ok (replicate (Z.to_nat NUM_SEGMENTS) b).

(** The loop over the segments, from segment [i]; [before] are those it has passed. *)
Fixpoint sparse_alloc_loop (before : list util_idalloc) (l : util_idalloc_sparse) (i : Z)
  : res (util_idalloc_sparse * Z) :=
  match l with
  | [] => Fault AssertFail
  | s :: l' =>
      if lowest_free_idx s <? UTIL_IDALLOC_MAX_ELEMS_PER_SEGMENT then
        let* r := util_idalloc_alloc s in
        Ok (before ++ fst r :: l', u32 (UTIL_IDALLOC_MAX_IDS_PER_SEGMENT * i + snd r))
      else sparse_alloc_loop (before ++ [s]) l' (i + 1)
  end.

Definition util_idalloc_sparse_alloc (s : util_idalloc_sparse) : res (util_idalloc_sparse * Z) :=
  sparse_alloc_loop [] s 0.

(** [for (j = 0; j < num; j++) util_idalloc_free(segment, base + j);] *)
Fixpoint free_range (n : nat) (buf : util_idalloc) (id : Z) : res util_idalloc :=
  match n with
  | O => Ok buf
  | S n' => let* b := util_idalloc_free buf (u32 id) in free_range n' b (id + 1)
  end.

Fixpoint sparse_range_loop (before : list util_idalloc) (l : util_idalloc_sparse) (i num : Z)
  : res (util_idalloc_sparse * Z) :=
  match l with
  | [] => Fault AssertFail
  | s :: l' =>
      if u32 (lowest_free_idx s + DIV_ROUND_UP num 32) <=? UTIL_IDALLOC_MAX_ELEMS_PER_SEGMENT then
        let* r := util_idalloc_alloc_range s num in
        let '(s1, base) := r in
        if u32 (base + num) <=? UTIL_IDALLOC_MAX_IDS_PER_SEGMENT
        then Ok (before ++ s1 :: l', u32 (UTIL_IDALLOC_MAX_IDS_PER_SEGMENT * i + base))
        else
          let* s2 := free_range (Z.to_nat num) s1 base in
          sparse_range_loop (before ++ [s2]) l' (i + 1) num
      else sparse_range_loop (before ++ [s]) l' (i + 1) num
  end.

Definition util_idalloc_sparse_alloc_range (s : util_idalloc_sparse) (num : Z)
  : res (util_idalloc_sparse * Z) := sparse_range_loop [] s 0 num.

Definition util_idalloc_sparse_free (s : util_idalloc_sparse) (id : Z) : res util_idalloc_sparse :=
  let i := id / UTIL_IDALLOC_MAX_IDS_PER_SEGMENT in
  let* b := arr_get s i in
  let* b' := util_idalloc_free b (id mod UTIL_IDALLOC_MAX_IDS_PER_SEGMENT) in
  arr_set s i b'.

Definition util_idalloc_sparse_reserve (s : util_idalloc_sparse) (id : Z)
  : res util_idalloc_sparse :=
  let i := id / UTIL_IDALLOC_MAX_IDS_PER_SEGMENT in
  let* b := arr_get s i in
  let* b' := util_idalloc_reserve b (id mod UTIL_IDALLOC_MAX_IDS_PER_SEGMENT) in
  arr_set s i b'.

Example idalloc_example :
  (let* b := util_idalloc_init 40 in
   let* r1 := util_idalloc_alloc b in
   let* r2 := util_idalloc_alloc_range (fst r1) 33 in
   let* b3 := util_idalloc_free (fst r2) 0 in
   let* r4 := util_idalloc_alloc b3 in
   let* b5 := util_idalloc_reserve (fst r4) 130 in
   let* l := util_idalloc_foreach b5 in
   Ok (snd r1, snd r2, snd r4, take 3 l, List.last l 0))
  = Ok (0, 32, 0, [0; 32; 33], 130).
Proof. vm_compute. reflexivity. Qed.
