(* ===== verification/IdAllocProofs.v ===== *)
(** IdAllocProofs: the words of the id allocator, its invariant, and what each operation does
    to the set of ids in use. *)

From S2P Require Import Prelude.
From S2P Require Import CLib.
From S2P Require Import IdAlloc.

(** ** Words and bits *)

Definition word (d : list Z) (i : Z) : Z := default 0 (d !! Z.to_nat i).

(** Whether id [k] is marked. *)
Definition bit (d : list Z) (k : Z) : bool := Z.testbit (word d (k / 32)) (k mod 32).

Section Words.
Implicit Types (d : list Z).

Lemma arr_get_word d i : 0 <= i < Z.of_nat (length d) -> arr_get d i = Ok (word d i).
Proof. intros Hi. destruct (arr_get_in_range d i Hi) as (x & -> & E). unfold word. by rewrite E. Qed.

Lemma arr_set_word d i w : 0 <= i < Z.of_nat (length d) -> arr_set d i w = Ok (<[Z.to_nat i := w]> d).
Proof. intros Hi. by apply arr_set_ok. Qed.

Lemma word_insert d i w j :
  0 <= i < Z.of_nat (length d) -> 0 <= j ->
  word (<[Z.to_nat i := w]> d) j = if j =? i then w else word d j.
Proof.
  intros Hi Hj. unfold word. destruct (Z.eqb_spec j i) as [->|].
  - rewrite list_lookup_insert_eq by lia. done.
  - rewrite list_lookup_insert_ne by lia. done.
Qed.

Lemma word_zeros d n j : word (d ++ replicate n 0) j = word d j.
Proof.
  unfold word. destruct (decide (Z.to_nat j < length d)%nat).
  - by rewrite lookup_app_l.
  - rewrite lookup_app_r, (lookup_ge_None_2 d) by lia. simpl.
    destruct (replicate n 0 !! _) eqn:E; [|done].
    by apply lookup_replicate in E as [-> _].
Qed.

Lemma word_range d i : Forall in_u32 d -> in_u32 (word d i).
Proof.
  intros H. unfold word. destruct (d !! Z.to_nat i) eqn:E; simpl; [|split; lia].
  by eapply Forall_lookup_1 in E.
Qed.

Lemma bit_insert d i w k :
  0 <= i < Z.of_nat (length d) -> 0 <= k ->
  bit (<[Z.to_nat i := w]> d) k = if k / 32 =? i then Z.testbit w (k mod 32) else bit d k.
Proof.
  intros Hi Hk. unfold bit. rewrite word_insert; [|done|zdivmod].
  by destruct (k / 32 =? i).
Qed.

Lemma bit_zero d k : word d (k / 32) = 0 -> bit d k = false.
Proof. unfold bit. intros ->. apply Z.bits_0. Qed.

Lemma testbit_ones32 j : 0 <= j < 32 -> Z.testbit 0xffffffff j = true.
Proof. intros. change 0xffffffff with (Z.ones 32). apply Z.ones_spec_low. lia. Qed.

Lemma bit_full d k : word d (k / 32) = 0xffffffff -> bit d k = true.
Proof. unfold bit. intros ->. apply testbit_ones32. zdivmod. Qed.

Lemma testbit_high w j : in_u32 w -> 32 <= j -> Z.testbit w j = false.
Proof.
  intros Hw Hj. rewrite <- (Z.mod_small w (2 ^ 32)) by done. apply Z.mod_pow2_bits_high. lia.
Qed.

(** A word is zero, or full, when its bits are. *)
Lemma word_nonzero w : in_u32 w -> w <> 0 -> exists j, 0 <= j < 32 /\ Z.testbit w j = true.
Proof.
  intros [? ?] ?. exists (Z.log2 w). split; [|apply Z.bit_log2; lia].
  split; [apply Z.log2_nonneg|]. apply Z.log2_lt_pow2; lia.
Qed.

Lemma word_bits w w' :
  in_u32 w -> in_u32 w' -> (forall j, 0 <= j < 32 -> Z.testbit w j = Z.testbit w' j) -> w = w'.
Proof.
  intros Hw Hw' H. apply Z.bits_inj'. intros j Hj. destruct (decide (j < 32)).
  - apply H. lia.
  - by rewrite !testbit_high by (done || lia).
Qed.

Lemma BITFIELD_BIT_pow b : 0 <= b < 32 -> BITFIELD_BIT b = 2 ^ b.
Proof.
  intros. unfold BITFIELD_BIT. rewrite shiftl_mul, Z.mul_1_l by lia. apply u32_small.
  split; [apply Z.pow_nonneg; lia|]. apply Z.pow_lt_mono_r; lia.
Qed.

Lemma testbit_pow2 b j : 0 <= b -> Z.testbit (2 ^ b) j = (j =? b).
Proof.
  intros. destruct (Z.eqb_spec j b) as [->|]; [by apply Z.pow2_bits_true|].
  apply Z.pow2_bits_false. done.
Qed.

Lemma u32_of_bits x : 0 <= x -> (forall j, 32 <= j -> Z.testbit x j = false) -> in_u32 x.
Proof.
  intros Hx H. split; [done|]. destruct (decide (x = 0)) as [->|]; [lia|].
  apply Z.log2_lt_pow2; [lia|]. destruct (decide (Z.log2 x < 32)) as [|Hge]; [done|].
  assert (Z.testbit x (Z.log2 x) = false) as Hf by (apply H; lia).
  rewrite Z.bit_log2 in Hf by lia. done.
Qed.

Lemma lor_u32 a b : in_u32 a -> in_u32 b -> in_u32 (Z.lor a b).
Proof.
  intros Ha Hb. apply u32_of_bits; [apply Z.lor_nonneg; unfold in_u32 in *; lia|].
  intros j ?. by rewrite Z.lor_spec, !testbit_high.
Qed.

Lemma lxor_u32 a b : in_u32 a -> in_u32 b -> in_u32 (Z.lxor a b).
Proof.
  intros Ha Hb. apply u32_of_bits; [apply Z.lxor_nonneg; unfold in_u32 in *; lia|].
  intros j ?. by rewrite Z.lxor_spec, !testbit_high.
Qed.

Lemma land_u32 a b : in_u32 a -> in_u32 (Z.land a b).
Proof.
  intros Ha. apply u32_of_bits; [apply Z.land_nonneg; unfold in_u32 in *; lia|].
  intros j ?. by rewrite Z.land_spec, testbit_high.
Qed.

Lemma pow_u32 b : 0 <= b < 32 -> in_u32 (2 ^ b).
Proof. intros. split; [apply Z.pow_nonneg; lia|]. apply Z.pow_lt_mono_r; lia. Qed.

Lemma BITFIELD_MASK_ones b : 0 < b < 32 -> BITFIELD_MASK b = Z.ones b.
Proof.
  intros. unfold BITFIELD_MASK. destruct (Z.eqb_spec b 32); [lia|].
  rewrite (land_mask_mod b 5 31) by lia. rewrite Z.mod_small by lia.
  rewrite BITFIELD_BIT_pow, Z.ones_equiv by lia. lia.
Qed.

Lemma ones_u32 b : 0 <= b < 32 -> in_u32 (Z.ones b).
Proof.
  intros. rewrite Z.ones_equiv. pose proof (pow_u32 b). 
  assert (0 < 2 ^ b) by (apply Z.pow_pos_nonneg; lia). unfold in_u32 in *. lia.
Qed.

(** [data[i] |= 1u << b] and [data[i] &= ~(1u << b)]. *)
Lemma testbit_set w b j : 0 <= b < 32 -> Z.testbit (Z.lor w (BITFIELD_BIT b)) j = (j =? b) || Z.testbit w j.
Proof. intros. rewrite Z.lor_spec, BITFIELD_BIT_pow, testbit_pow2 by lia. apply orb_comm. Qed.

Lemma testbit_u32 x j : 0 <= j < 32 -> Z.testbit (u32 x) j = Z.testbit x j.
Proof. intros. apply Z.mod_pow2_bits_low. lia. Qed.

Lemma testbit_clear w b j :
  0 <= b < 32 -> 0 <= j < 32 ->
  Z.testbit (Z.land w (u32 (Z.lnot (BITFIELD_BIT b)))) j = negb (j =? b) && Z.testbit w j.
Proof.
  intros. rewrite Z.land_spec, testbit_u32, Z.lnot_spec, BITFIELD_BIT_pow, testbit_pow2 by lia.
  apply andb_comm.
Qed.

(** The lowest free bit of a word. *)
Lemma lowest_free w :
  in_u32 w -> w <> 0xffffffff ->
  let b := ffs (u32 (Z.lnot w)) - 1 in
  0 <= b < 32 /\ Z.testbit w b = false /\ forall j, 0 <= j < b -> Z.testbit w j = true.
Proof.
  intros Hw Hf b.
  assert (u32 (Z.lnot w) = 0xffffffff - w) as E.
  { unfold u32, Z.lnot. symmetry. apply (Z.mod_unique _ _ (-1)); unfold in_u32 in *; lia. }
  destruct (ffs_spec (u32 (Z.lnot w))) as (Hr & H1 & H2); [rewrite E; unfold in_u32 in *; lia|].
  fold b in Hr, H1, H2. split; [done|].
  rewrite testbit_u32, Z.lnot_spec in H1 by lia. split; [by destruct (Z.testbit w b)|].
  intros j Hj. specialize (H2 j Hj). rewrite testbit_u32, Z.lnot_spec in H2 by lia.
  by destruct (Z.testbit w j).
Qed.
End Words.

(** ** The invariant *)

Record ida_ok (b : util_idalloc) : Prop := {
  io_len : Z.of_nat (length (data b)) = num_elements b;
  io_max : num_elements b <= 2 ^ 28;
  io_words : Forall in_u32 (data b);
  io_low : 0 <= lowest_free_idx b <= num_elements b;
  io_full : forall i, 0 <= i < lowest_free_idx b -> word (data b) i = 0xffffffff;
  io_set : 0 <= num_set_elements b <= num_elements b /\ num_set_elements b <= 2 ^ 27;
  io_zero : forall i, num_set_elements b <= i -> word (data b) i = 0
}.

(** The ids in use. *)
Definition used (b : util_idalloc) (id : Z) : bool := bit (data b) id.

Lemma used_below b id : ida_ok b -> 0 <= id -> used b id = true -> id / 32 < num_set_elements b.
Proof.
  intros Hb Hid Hu. destruct (Z.lt_ge_cases (id / 32) (num_set_elements b)) as [|Hge]; [done|].
  unfold used in Hu. by rewrite bit_zero in Hu by (by apply io_zero).
Qed.

Lemma used_low b id : ida_ok b -> 0 <= id -> id / 32 < lowest_free_idx b -> used b id = true.
Proof. intros Hb Hid Hl. apply bit_full, io_full; [done|]. zdivmod. Qed.

(** Overwriting one word keeps the invariant when the two hints are adjusted. *)
Lemma ida_ok_insert b i w lo n :
  ida_ok b -> 0 <= i < num_elements b -> in_u32 w ->
  0 <= lo <= num_elements b -> 0 <= n <= num_elements b -> n <= 2 ^ 27 ->
  (forall j, 0 <= j < lo -> (if j =? i then w else word (data b) j) = 0xffffffff) ->
  (forall j, n <= j -> (if j =? i then w else word (data b) j) = 0) ->
  ida_ok (mk_ida (<[Z.to_nat i := w]> (data b)) (num_elements b) n lo).
Proof.
  intros [] Hi Hw Hlo Hn Hmax Hfull Hzero. split; simpl; try done.
  - by rewrite length_insert.
  - by apply Forall_insert.
  - intros j Hj. rewrite word_insert by lia. by apply Hfull.
  - intros j Hj. rewrite word_insert by lia. by apply Hzero.
Qed.

Lemma resize_ok b n :
  ida_ok b -> n <= 2 ^ 28 ->
  let b' := util_idalloc_resize b n in
  ida_ok b' /\ num_elements b' = Z.max (num_elements b) n /\
  num_set_elements b' = num_set_elements b /\ lowest_free_idx b' = lowest_free_idx b /\
  forall i, word (data b') i = word (data b) i.
Proof.
  intros [] Hn. unfold util_idalloc_resize.
  destruct (Z.ltb_spec (num_elements b) n); simpl; [|split_and!; done || lia].
  split_and!; try done; try lia; try (intros; apply word_zeros).
  split; simpl; try done; try lia.
  - rewrite length_app, length_replicate. lia.
  - apply Forall_app_2; [done|]. apply Forall_replicate. split; lia.
  - intros. rewrite word_zeros. auto.
  - intros. rewrite word_zeros. auto.
Qed.

Lemma resize_used b n k : used (util_idalloc_resize b n) k = used b k.
Proof.
  unfold used, bit, util_idalloc_resize. destruct (_ <? _); simpl; [|done]. by rewrite word_zeros.
Qed.

Lemma init_ok n :
  0 < n < 2 ^ 32 - 31 -> exists b, util_idalloc_init n = Ok b /\ ida_ok b /\
    (forall id, used b id = false) /\ num_elements b = (n + 31) / 32.
Proof.
  intros Hn. unfold util_idalloc_init, DIV_ROUND_UP.
  destruct (Z.eqb_spec n 0); [lia|]. simpl.
  rewrite u32_small by (unfold in_u32; lia). replace (n + 32 - 1) with (n + 31) by lia.
  assert (ida_ok (mk_ida [] 0 0 0)) as H0.
  { split; simpl; try done; lia. }
  destruct (resize_ok _ ((n + 31) / 32) H0) as (Hok & Hnum & _); [zdivmod|].
  eexists. split; [done|]. split; [done|]. split.
  - intros id. rewrite resize_used. apply bit_zero. unfold word. by destruct (Z.to_nat (_ / _)).
  - rewrite Hnum. simpl. zdivmod.
Qed.

(** ** One id *)

Lemma alloc_scan_spec d num fuel i :
  Z.of_nat (length d) = num -> 0 <= i <= num -> (Z.to_nat (num - i) < fuel)%nat ->
  exists r, alloc_scan fuel d i num = Ok r /\
    match r with
    | Some j => i <= j < num /\ word d j <> 0xffffffff /\
                forall k, i <= k < j -> word d k = 0xffffffff
    | None => forall k, i <= k < num -> word d k = 0xffffffff
    end.
Proof.
  intros Hlen. revert i. induction fuel as [|fuel IH]; intros i Hi Hf; [lia|]. simpl.
  destruct (Z.leb_spec num i).
  { eexists. split; [done|]. simpl. lia. }
  rewrite arr_get_word by lia. simpl. destruct (Z.eqb_spec (word d i) 4294967295) as [E|E].
  - destruct (IH (i + 1)) as (r & -> & Hr); [lia|lia|]. exists r. split; [done|].
    destruct r as [j|]; simpl in *.
    + destruct Hr as (? & ? & Hk). split_and!; [lia|lia|done|].
      intros k ?. destruct (decide (k = i)) as [->|]; [done|]. apply Hk. lia.
    + intros k ?. destruct (decide (k = i)) as [->|]; [done|]. apply Hr. lia.
  - eexists. split; [done|]. simpl. split_and!; [lia|lia|done|lia].
Qed.

(** What [util_idalloc_alloc] does: the smallest unused id is returned and marked. *)
Record alloc_post (b b' : util_idalloc) (id : Z) : Prop := {
  ap_ok : ida_ok b';
  ap_id : 0 <= id < 2 ^ 32;
  ap_free : used b id = false;
  ap_least : forall k, 0 <= k < id -> used b k = true;
  ap_used : forall k, 0 <= k -> used b' k = (k =? id) || used b k;
  ap_low : lowest_free_idx b' = id / 32;
  ap_num : num_elements b' = num_elements b \/
           id = 32 * num_elements b /\ num_elements b' = 2 * Z.max 1 (num_elements b)
}.

(** Marking bit [j] of word [i] when all bits before it are set; [b1] is [b], maybe grown. *)
Lemma mark_lowest b b1 i w' j :
  ida_ok b1 -> (forall k, word (data b1) k = word (data b) k) -> 0 <= i < num_elements b1 ->
  0 <= j < 32 -> i < 2 ^ 27 ->
  (num_elements b1 = num_elements b \/
   i * 32 + j = 32 * num_elements b /\ num_elements b1 = 2 * Z.max 1 (num_elements b)) ->
  (forall k, 0 <= k < i -> word (data b) k = 0xffffffff) ->
  (forall k, 0 <= k < j -> Z.testbit (word (data b) i) k = true) ->
  Z.testbit (word (data b) i) j = false ->
  in_u32 w' ->
  (forall k, 0 <= k < 32 -> Z.testbit w' k = (k =? j) || Z.testbit (word (data b) i) k) ->
  alloc_post b (mk_ida (<[Z.to_nat i := w']> (data b1)) (num_elements b1)
                  (Z.max (num_set_elements b1) (i + 1)) i) (i * 32 + j).
Proof.
  intros Hb1 Ew Hi Hj Hmax Hnum Hfull Hlow Hfree Hw Hbits. pose proof Hb1 as [].
  assert ((i * 32 + j) / 32 = i /\ (i * 32 + j) mod 32 = j) as [Ed Em] by zdivmod.
  split; simpl; try done; try lia.
  - apply ida_ok_insert; try done; try lia.
    + intros k ?. destruct (Z.eqb_spec k i); [lia|]. rewrite Ew. apply Hfull. lia.
    + intros k ?. destruct (Z.eqb_spec k i); [lia|]. apply io_zero0. lia.
  - unfold used, bit. by rewrite Ed, Em.
  - intros k Hk. unfold used. destruct (decide (k / 32 = i)) as [E|E].
    + unfold bit. rewrite E. apply Hlow. zdivmod.
    + apply bit_full, Hfull. zdivmod.
  - intros k Hk. unfold used; simpl. rewrite bit_insert by lia.
    destruct (Z.eqb_spec (k / 32) i) as [E|E].
    + rewrite Hbits by zdivmod. unfold bit. rewrite E. f_equal.
      destruct (Z.eqb_spec (k mod 32) j), (Z.eqb_spec k (i * 32 + j)); try done; zdivmod.
    + destruct (Z.eqb_spec k (i * 32 + j)) as [->|]; [done|]. unfold bit. by rewrite Ew.
Qed.

Lemma alloc_ok b :
  ida_ok b -> num_elements b <= 2 ^ 26 ->
  exists b' id, util_idalloc_alloc b = Ok (b', id) /\ alloc_post b b' id.
Proof.
  intros Hb Hmax. pose proof Hb as []. unfold util_idalloc_alloc.
  destruct (alloc_scan_spec (data b) (num_elements b)
    (S (Z.to_nat (num_elements b - lowest_free_idx b))) (lowest_free_idx b)) as (r & -> & Hr);
    [done|lia|lia|]. cbn [res_bind].
  assert (forall i, (forall k, lowest_free_idx b <= k < i -> word (data b) k = 0xffffffff) ->
                    forall k, 0 <= k < i -> word (data b) k = 0xffffffff) as Hall.
  { intros i H k ?. destruct (decide (k < lowest_free_idx b)); [apply io_full0|apply H]; lia. }
  destruct r as [i|].
  - destruct Hr as (Hi & Hne & Hfull).
    pose proof (word_range _ i io_words0) as Hw.
    destruct (lowest_free _ Hw Hne) as (Hbit & Hfree & Hlow).
    rewrite arr_get_word by lia. cbn [res_bind].
    set (bi := ffs (u32 (Z.lnot (word (data b) i))) - 1) in *.
    rewrite arr_set_word by lia. cbn [res_bind]. eexists _, _. split; [reflexivity|].
    rewrite u32_small by (unfold in_u32; lia).
    apply (mark_lowest b b i); auto; try lia.
    + apply Hall, Hfull.
    + apply lor_u32; [done|]. rewrite BITFIELD_BIT_pow by lia. by apply pow_u32.
    + intros. by apply testbit_set.
  - set (n := num_elements b) in *.
    rewrite (u32_small (Z.max n 1 * 2)) by (unfold in_u32; lia).
    destruct (resize_ok b (Z.max n 1 * 2)) as (Hok1 & Hnum & Hset & Hlo & Hwords); [done|lia|].
    set (b1 := util_idalloc_resize b _) in *. pose proof (io_len _ Hok1).
    assert (word (data b) n = 0) as Hz by (unfold word; by rewrite lookup_ge_None_2 by lia).
    rewrite arr_get_word by lia. cbn [res_bind]. rewrite Hwords, Hz. change (Z.lor 0 1) with 1.
    rewrite arr_set_word by lia. cbn [res_bind]. eexists _, _. split; [reflexivity|].
    rewrite u32_small by (unfold in_u32; lia). replace (n * 32) with (n * 32 + 0) by lia.
    apply (mark_lowest b b1 n); auto; try lia.
    + apply Hall, Hr.
    + rewrite Hz. apply Z.bits_0.
    + split; lia.
    + intros k ?. rewrite Hz, Z.bits_0, orb_false_r. by apply (testbit_pow2 0).
Qed.

(** ** Ranges *)

Lemma find_free_block_spec d num fuel i :
  Z.of_nat (length d) = num -> 0 <= i <= num -> (Z.to_nat (num - i) < fuel)%nat ->
  exists j, find_free_block fuel d i num = Ok j /\ i <= j <= num /\
    forall k, i <= k < j -> word d k <> 0.
Proof.
  intros Hlen. revert i. induction fuel as [|fuel IH]; intros i Hi Hf; [lia|]. simpl.
  destruct (Z.leb_spec num i).
  { eexists. split; [done|]. split; lia. }
  rewrite arr_get_word by lia. simpl. destruct (Z.eqb_spec (word d i) 0) as [E|E].
  - eexists. split; [done|]. split; lia.
  - destruct (IH (i + 1)) as (j & -> & Hj & Hk); [lia|lia|]. exists j. split_and!; [done|lia|lia|].
    intros k ?. destruct (decide (k = i)) as [->|]; [done|]. apply Hk. lia.
Qed.

Lemma free_run_spec d num m base fuel i :
  Z.of_nat (length d) = num -> 0 <= base <= i -> i <= num -> i - base <= m ->
  (Z.to_nat (num - i) < fuel)%nat ->
  exists j, free_run fuel d base i num m = Ok j /\ i <= j <= num /\ j - base <= m /\
    (forall k, i <= k < j -> word d k = 0) /\
    (j < num -> j - base < m -> word d j <> 0).
Proof.
  intros Hlen Hbase. revert i Hbase. induction fuel as [|fuel IH]; intros i Hbase Hi Hm Hf; [lia|].
  simpl. destruct (Z.ltb_spec i num), (Z.ltb_spec (i - base) m); simpl;
    try (eexists; split; [done|]; split_and!; lia).
  rewrite arr_get_word by lia. simpl. destruct (Z.eqb_spec (word d i) 0) as [E|E].
  - destruct (IH (i + 1)) as (j & -> & Hj & ? & Hk & ?); [lia..|]. exists j.
    split_and!; [done|lia|lia|lia| |done].
    intros k ?. destruct (decide (k = i)) as [->|]; [done|]. apply Hk. lia.
  - eexists. split; [done|]. split_and!; [lia..|done].
Qed.

(** First fit: every start that was passed over has a used word in its way. *)
Lemma range_search_spec d num m fuel base :
  Z.of_nat (length d) = num -> 0 < m -> 0 <= base <= num -> (Z.to_nat (num - base) < fuel)%nat ->
  exists base' found, range_search fuel d base num m = Ok (base', found) /\ base <= base' <= num /\
    (forall k, base' <= k < base' + m -> word d k = 0) /\
    (if found then base' + m <= num else True) /\
    forall c, base <= c < base' -> exists j, c <= j < c + m /\ word d j <> 0.
Proof.
  intros Hlen Hm. revert base. induction fuel as [|fuel IH]; intros base Hb Hf; [lia|]. cbn [range_search].
  destruct (free_run_spec d num m base (S (Z.to_nat (num - base))) base)
    as (i & -> & Hi & Him & Hz & Hne); [done|lia|lia|lia|lia|]. cbn [res_bind].
  destruct (Z.eqb_spec (i - base) m).
  { eexists _, _. split; [done|]. split_and!; [lia|lia| |lia|lia]. intros k ?. apply Hz. lia. }
  destruct (Z.eqb_spec i num).
  { eexists _, _. split; [done|]. split_and!; [lia|lia| |done|lia].
    intros k ?. destruct (decide (k < num)); [apply Hz; lia|].
    unfold word. by rewrite lookup_ge_None_2 by lia. }
  rewrite arr_get_word by lia. cbn [res_bind].
  assert (word d i <> 0) as Hi0 by (apply Hne; lia).
  destruct (Z.eqb_spec (word d i) 0); [done|].
  destruct (IH (i + 1)) as (base' & found & -> & Hb' & Hz' & Hf' & Hc); [lia|lia|].
  eexists _, _. split; [done|]. split_and!; [lia|lia|done|done|].
  intros c ?. destruct (decide (c <= i)); [exists i; split; [lia|done]|]. apply Hc. lia.
Qed.

Lemma fill_words_spec n d i :
  0 <= i -> i + Z.of_nat n <= Z.of_nat (length d) ->
  exists d', fill_words n d i = Ok d' /\ length d' = length d /\
    (Forall in_u32 d -> Forall in_u32 d') /\
    forall j, 0 <= j -> word d' j = if (i <=? j) && (j <? i + Z.of_nat n) then 0xffffffff else word d j.
Proof.
  revert d i. induction n as [|n IH]; intros d i Hi Hn; simpl.
  - eexists. split; [done|]. split_and!; [done|done|]. intros j ?.
    by destruct (Z.leb_spec i j), (Z.ltb_spec j (i + Z.of_nat 0)); try lia.
  - rewrite arr_set_word by lia. cbn [res_bind].
    destruct (IH (<[Z.to_nat i:=0xffffffff]> d) (i + 1)) as (d' & -> & Hlen & Hr & Hw).
    { lia. } { rewrite length_insert. lia. }
    rewrite length_insert in Hlen. eexists. split; [done|]. split_and!; [done| |].
    + intros ?. apply Hr, Forall_insert; [done|]. split; lia.
    + intros j ?. rewrite Hw, word_insert by lia.
      destruct (Z.leb_spec (i + 1) j), (Z.ltb_spec j (i + 1 + Z.of_nat n)), (Z.eqb_spec j i),
        (Z.leb_spec i j), (Z.ltb_spec j (i + Z.of_nat (S n))); simpl; done || lia.
Qed.

Lemma exists_used b id : ida_ok b -> 0 <= id -> util_idalloc_exists b id = Ok (used b id).
Proof.
  intros Hb Hid. pose proof Hb as []. unfold util_idalloc_exists.
  destruct (Z.ltb_spec (id / 32) (num_set_elements b)) as [Hl|Hl].
  - rewrite arr_get_word by zdivmod. cbn [res_bind]. f_equal. unfold used, bit.
    assert (0 <= id mod 32 < 32) as Hm by zdivmod.
    rewrite BITFIELD_BIT_pow by done.
    generalize (word (data b) (id / 32)). intros w.
    destruct (Z.testbit w (id mod 32)) eqn:E; destruct (Z.eqb_spec (Z.land w (2 ^ (id mod 32))) 0) as [Hz|Hz];
      try done; exfalso.
    + apply (f_equal (fun x => Z.testbit x (id mod 32))) in Hz.
      rewrite Z.land_spec, E, testbit_pow2, Z.eqb_refl, Z.bits_0 in Hz by lia. done.
    + apply Hz, Z.bits_inj'. intros j ?. rewrite Z.land_spec, testbit_pow2, Z.bits_0 by lia.
      destruct (Z.eqb_spec j (id mod 32)) as [->|]; [by rewrite E|apply andb_false_r].
  - f_equal. symmetry. apply bit_zero. by apply io_zero.
Qed.

Lemma validate_range_ok n b id :
  ida_ok b -> 0 <= id -> id + Z.of_nat n <= 2 ^ 32 ->
  (forall k, id <= k < id + Z.of_nat n -> used b k = true) ->
  validate_range n b id = Ok tt.
Proof.
  intros Hb. revert id. induction n as [|n IH]; intros id Hid Hn Hu; [done|]. simpl.
  rewrite u32_small by (unfold in_u32; lia). rewrite exists_used by done. cbn [res_bind].
  rewrite Hu by lia. step_assert; [|done]. apply IH; [lia|lia|]. intros k ?. apply Hu. lia.
Qed.

(** The words after a range of [num] ids from word [base] has been marked. *)
Definition range_word (base num : Z) (d : list Z) (j : Z) : Z :=
  if (base <=? j) && (j <? base + num / 32) then 0xffffffff
  else if (j =? base + num / 32) && negb (num mod 32 =? 0) then Z.ones (num mod 32)
  else word d j.

Definition in_range (base num k : Z) : bool := (base <=? k) && (k <? base + num).

Lemma words_of num :
  0 < num -> let part := negb (num mod 32 =? 0) in
  (num + 31) / 32 = num / 32 + Z.b2z part /\ num = 32 * (num / 32) + num mod 32 /\
  0 <= num mod 32 < 32 /\ 0 <= num / 32 /\ (num mod 32 = 0 /\ part = false \/ 0 < num mod 32 /\ part = true).
Proof. intros ? part. unfold part. destruct (Z.eqb_spec (num mod 32) 0); simpl; zdivmod. Qed.

Lemma fill_range d base num :
  0 <= base -> 0 < num -> base + (num + 31) / 32 <= Z.of_nat (length d) -> Forall in_u32 d ->
  (forall k, base <= k < base + (num + 31) / 32 -> word d k = 0) ->
  exists d1 d2, fill_words (Z.to_nat (num / 32)) d base = Ok d1 /\
    (if negb (num mod 32 =? 0) then
       let* w := arr_get d1 (base + (num + 31) / 32 - 1) in
       arr_set d1 (base + (num + 31) / 32 - 1) (Z.lor w (BITFIELD_MASK (num mod 32)))
     else Ok d1) = Ok d2 /\
    length d2 = length d /\ Forall in_u32 d2 /\
    forall j, 0 <= j -> word d2 j = range_word base num d j.
Proof.
  intros Hb Hn Hlen Hr Hz. unfold range_word.
  destruct (words_of num Hn) as (Em & En & Hm & Hq & Hp).
  destruct (fill_words_spec (Z.to_nat (num / 32)) d base) as (d1 & E1 & Hd1 & Hr1 & Hw1);
    [lia|destruct (negb _); simpl in *; lia|].
  rewrite Z2Nat.id in Hw1 by done. exists d1.
  destruct Hp as [[H0 Hp]|[H0 Hp]]; rewrite Hp in *; simpl Z.b2z in Em.
  - exists d1. split_and!; auto. intros j ?. rewrite andb_false_r. auto.
  - replace (base + (num + 31) / 32 - 1) with (base + num / 32) by lia.
    rewrite arr_get_word by lia. cbn [res_bind]. rewrite arr_set_word by lia.
    assert (word d1 (base + num / 32) = 0) as Hz1.
    { rewrite Hw1 by lia. rewrite (proj2 (Z.ltb_ge (base + num / 32) _)), andb_false_r by lia.
      apply Hz. lia. }
    rewrite Hz1, Z.lor_0_l, BITFIELD_MASK_ones by lia. eexists.
    split_and!; [done|done|by rewrite length_insert|apply Forall_insert; [auto|apply ones_u32; lia]|].
    intros j ?. rewrite word_insert, Hw1, andb_true_r by lia.
    destruct (Z.eqb_spec j (base + num / 32)) as [->|]; [|done].
    by rewrite Z.ltb_irrefl, andb_false_r.
Qed.

Lemma range_word_bit d base num k :
  0 <= base -> 0 < num -> 0 <= k ->
  (forall j, base <= j < base + (num + 31) / 32 -> word d j = 0) ->
  Z.testbit (range_word base num d (k / 32)) (k mod 32) = in_range (32 * base) num k || bit d k.
Proof.
  intros Hb Hn Hk Hz. unfold range_word, in_range, bit.
  destruct (words_of num Hn) as (Em & En & Hm & Hq & Hp).
  assert (k = 32 * (k / 32) + k mod 32 /\ 0 <= k mod 32 < 32) as [Ek Hkm] by zdivmod.
  destruct (Z.leb_spec base (k / 32)), (Z.ltb_spec (k / 32) (base + num / 32)),
    (Z.eqb_spec (k / 32) (base + num / 32)), (Z.leb_spec (32 * base) k),
    (Z.ltb_spec k (32 * base + num)); try lia; simpl; try done; try (by apply testbit_ones32).
  - destruct Hp as [[? ->]|[? ->]]; [lia|]. rewrite Z.ones_spec_low by lia. done.
  - destruct Hp as [[? ->]|[? Hp]]; [done|]. rewrite Hp in *. simpl in *.
    rewrite Z.ones_spec_high, Hz by lia. symmetry. apply Z.bits_0.
Qed.

Lemma range_ida_ok b base num d2 :
  ida_ok b -> lowest_free_idx b <= base -> 0 < num -> base + (num + 31) / 32 <= num_elements b ->
  num_elements b <= 2 ^ 27 ->
  length d2 = length (data b) -> Forall in_u32 d2 ->
  (forall j, 0 <= j -> word d2 j = range_word base num (data b) j) ->
  ida_ok (mk_ida d2 (num_elements b) (Z.max (num_set_elements b) (base + (num + 31) / 32))
    (if lowest_free_idx b =? base then base + num / 32 else lowest_free_idx b)).
Proof.
  intros [] Hb Hn Hfit Hmax Hlen Hr Hw.
  destruct (words_of num Hn) as (Em & En & Hm & Hq & Hp).
  split; simpl; try done; try lia.
  - destruct (Z.eqb_spec (lowest_free_idx b) base); [destruct (negb _); simpl in *|]; lia.
  - intros i Hi. rewrite Hw by lia. unfold range_word.
    destruct (Z.leb_spec base i), (Z.ltb_spec i (base + num / 32)); simpl; try done;
      destruct (Z.eqb_spec (lowest_free_idx b) base), (Z.eqb_spec i (base + num / 32)); simpl;
      lia || (apply io_full0; lia).
  - intros i Hi. rewrite Hw by lia. unfold range_word.
    destruct (Z.leb_spec base i), (Z.ltb_spec i (base + num / 32)),
      (Z.eqb_spec i (base + num / 32)); simpl;
      destruct Hp as [[? Hp]|[? Hp]]; rewrite Hp in *; simpl in *; lia || (apply io_zero0; lia).
Qed.

(** The room for a range: found in place, or after growing. *)
Lemma range_room b base m (found : bool) :
  ida_ok b -> 0 <= base <= num_elements b -> 0 < m -> num_elements b * 2 + m <= 2 ^ 27 ->
  (if found then base + m <= num_elements b else True) ->
  let b1 := if found then b else util_idalloc_resize b (num_elements b * 2 + m) in
  ida_ok b1 /\ base + m <= num_elements b1 /\ num_elements b1 <= 2 ^ 27 /\
  num_set_elements b1 = num_set_elements b /\ lowest_free_idx b1 = lowest_free_idx b /\
  forall i, word (data b1) i = word (data b) i.
Proof.
  intros Hb Hbase Hm Hmax Hf. pose proof Hb as [].
  destruct (resize_ok b (num_elements b * 2 + m)) as (? & ? & ? & ? & ?); [done|lia|].
  destruct found; split_and!; done || lia.
Qed.

(** Every start below the result has a used id in its way. *)
Lemma passed_over b base0 base m c :
  ida_ok b -> 0 < m -> lowest_free_idx b <= base0 ->
  (forall k, lowest_free_idx b <= k < base0 -> word (data b) k <> 0) ->
  (forall c, base0 <= c < base -> exists j, c <= j < c + m /\ word (data b) j <> 0) ->
  0 <= c < base -> exists k, 32 * c <= k < 32 * c + 32 * m /\ used b k = true.
Proof.
  intros [] Hm Hb0 Hnz0 Hfit Hc.
  assert (exists j, c <= j < c + m /\ word (data b) j <> 0) as (j & Hj & Hjw).
  { destruct (decide (c < lowest_free_idx b)).
    { exists c. split; [lia|]. rewrite io_full0 by lia. done. }
    destruct (decide (c < base0)); [exists c; split; [lia|apply Hnz0; lia]|].
    apply Hfit. lia. }
  destruct (word_nonzero (word (data b) j)) as (r & Hr & Hbit); [by apply word_range|done|].
  exists (32 * j + r). split; [lia|]. unfold used, bit.
  replace ((32 * j + r) / 32) with j by zdivmod.
  replace ((32 * j + r) mod 32) with r by zdivmod. done.
Qed.

(** [util_idalloc_alloc_range] marks the first unused run of whole words that is long enough. *)
Lemma alloc_range_ok b num :
  ida_ok b -> 1 < num -> num + 31 < 2 ^ 32 -> num_elements b * 2 + (num + 31) / 32 <= 2 ^ 27 ->
  exists b' base, util_idalloc_alloc_range b num = Ok (b', 32 * base) /\ ida_ok b' /\
    0 <= base /\ 32 * base + num <= 2 ^ 32 /\
    (forall k, 32 * base <= k < 32 * base + num -> used b k = false) /\
    (forall k, 0 <= k -> used b' k = in_range (32 * base) num k || used b k) /\
    (forall c, 0 <= c < base -> exists k, 32 * c <= k < 32 * c + 32 * ((num + 31) / 32) /\
                                          used b k = true).
Proof.
  intros Hb Hnum Hov Hmax. pose proof Hb as []. unfold util_idalloc_alloc_range, DIV_ROUND_UP.
  destruct (Z.eqb_spec num 1); [lia|]. rewrite (u32_small (num + 32 - 1)) by (unfold in_u32; lia).
  replace (num + 32 - 1) with (num + 31) by lia.
  destruct (words_of num ltac:(lia)) as (Em & En & Hrem & Hq & Hp).
  destruct (find_free_block_spec (data b) (num_elements b)
    (S (Z.to_nat (num_elements b - lowest_free_idx b))) (lowest_free_idx b))
    as (base0 & -> & Hb0 & Hnz0); [done|lia|lia|]. cbn [res_bind].
  destruct (range_search_spec (data b) (num_elements b) ((num + 31) / 32)
    (S (Z.to_nat (num_elements b - base0))) base0)
    as (base & found & -> & Hbase & Hz & Hfound & Hfit); [done|zdivmod|lia|lia|]. cbn [res_bind].
  rewrite (u32_small (num_elements b * 2 + _)) by (unfold in_u32; zdivmod).
  destruct (range_room b base ((num + 31) / 32) found) as (Hb1 & Hfits & Hmax1 & Es & El & Ew);
    [done|lia..|done|].
  set (b1 := if found then b else _) in *. clearbody b1. pose proof Hb1 as [Hlen1 _ Hwords1 _ _ _ _].
  replace (u32 (base + (num + 31) / 32 - Z.b2z (negb (num mod 32 =? 0))) - base) with (num / 32)
    by (rewrite u32_small; unfold in_u32; destruct (negb _); simpl in *; lia).
  destruct (fill_range (data b1) base num) as (d1 & d2 & -> & E2 & Hd2 & Hr2 & Hw2);
    [lia|lia|lia|done|intros; rewrite Ew; auto|]. cbn [res_bind]. rewrite E2. cbn [res_bind].
  pose proof (range_ida_ok b1 base num d2 Hb1 ltac:(lia) ltac:(lia) Hfits Hmax1 Hd2 Hr2 Hw2) as Hok2.
  set (b2 := mk_ida d2 _ _ _) in *.
  assert (forall k, 0 <= k -> used b2 k = in_range (32 * base) num k || used b k) as Hused.
  { intros k Hk. unfold used, bit at 1, b2; simpl. rewrite Hw2 by zdivmod.
    rewrite range_word_bit by (done || lia || (intros; rewrite Ew; auto)).
    f_equal. unfold bit. by rewrite Ew. }
  rewrite validate_range_ok; [cbn [res_bind]|done|lia|lia|].
  - exists b2, base. rewrite u32_small, Z.mul_comm by (unfold in_u32; lia).
    split_and!; [done|done|lia|lia| |done|].
    + intros k Hk. apply bit_zero, Hz. destruct (negb _); simpl in *; zdivmod.
    + intros c Hc. apply (passed_over b base0 base); done || lia.
  - intros k Hk. rewrite Hused by lia. apply orb_true_iff. left. unfold in_range.
    destruct (Z.leb_spec (32 * base) k), (Z.ltb_spec k (32 * base + num)); done || lia.
Qed.

(** ** Release and reservation *)

Lemma shrink_spec d fuel n :
  0 <= n <= Z.of_nat (length d) -> (Z.to_nat n < fuel)%nat -> (forall k, n <= k -> word d k = 0) ->
  exists n', shrink fuel d n = Ok n' /\ 0 <= n' <= n /\ forall k, n' <= k -> word d k = 0.
Proof.
  revert n. induction fuel as [|fuel IH]; intros n Hn Hf Hz; [lia|]. simpl.
  destruct (Z.ltb_spec 0 n); [|exists n; split_and!; done || lia].
  rewrite arr_get_word by lia. cbn [res_bind].
  destruct (Z.eqb_spec (word d (n - 1)) 0) as [E|E]; [|exists n; split_and!; done || lia].
  destruct (IH (n - 1)) as (n' & -> & ? & ?); [lia|lia| |exists n'; split_and!; done || lia].
  intros k ?. destruct (decide (k = n - 1)) as [->|]; [done|]. apply Hz. lia.
Qed.

Lemma free_ok b id :
  ida_ok b -> 0 <= id ->
  exists b', util_idalloc_free b id = Ok b' /\ ida_ok b' /\
    forall k, 0 <= k -> used b' k = negb (k =? id) && used b k.
Proof.
  intros Hb Hid. pose proof Hb as []. unfold util_idalloc_free.
  set (i := id / 32). assert (0 <= i) by (unfold i; zdivmod).
  destruct (Z.leb_spec (num_elements b) i) as [Hl|Hl].
  { exists b. split_and!; [done|done|]. intros k ?. destruct (Z.eqb_spec k id) as [->|]; [|done].
    apply bit_zero, io_zero0. fold i. lia. }
  rewrite arr_get_word by lia. cbn [res_bind]. rewrite arr_set_word by lia. cbn [res_bind].
  set (w' := Z.land _ _).
  assert (in_u32 w') as Hw' by (apply land_u32, word_range, io_words0).
  assert (forall j, num_set_elements b <= j -> word (<[Z.to_nat i:=w']> (data b)) j = 0) as Hz.
  { intros j ?. rewrite word_insert by lia. destruct (Z.eqb_spec j i) as [->|]; [|by apply io_zero0].
    unfold w'. rewrite io_zero0 by done. apply Z.land_0_l. }
  assert (exists n', (if num_set_elements b =? i + 1
      then shrink (S (Z.to_nat (num_set_elements b))) (<[Z.to_nat i:=w']> (data b)) (num_set_elements b)
      else Ok (num_set_elements b)) = Ok n' /\ 0 <= n' <= num_set_elements b /\
      forall j, n' <= j -> word (<[Z.to_nat i:=w']> (data b)) j = 0) as (n' & -> & Hn' & Hz').
  { destruct (_ =? _); [|eexists; split_and!; done || lia].
    destruct (shrink_spec (<[Z.to_nat i:=w']> (data b)) (S (Z.to_nat (num_set_elements b)))
      (num_set_elements b)) as (n' & -> & ? & ?);
      [rewrite length_insert; lia|lia|done|]. exists n'. split_and!; done || lia. }
  cbn [res_bind]. eexists. split; [reflexivity|]. split.
  - apply ida_ok_insert; try done; try lia.
    + intros j ?. destruct (Z.eqb_spec j i); [lia|]. apply io_full0. lia.
    + intros j ?. destruct (Z.eqb_spec j i) as [->|].
      * specialize (Hz' i). rewrite word_insert, Z.eqb_refl in Hz' by lia. auto.
      * destruct (decide (0 <= j)); [|lia]. specialize (Hz' j).
        rewrite word_insert, (proj2 (Z.eqb_neq j i)) in Hz' by lia. auto.
  - intros k Hk. unfold used; simpl. rewrite bit_insert by lia.
    destruct (Z.eqb_spec (k / 32) i) as [E|E].
    + unfold w'. rewrite testbit_clear by zdivmod. unfold bit. rewrite E. do 2 f_equal.
      destruct (Z.eqb_spec (k mod 32) (id mod 32)), (Z.eqb_spec k id); try done; unfold i in *; zdivmod.
    + destruct (Z.eqb_spec k id) as [->|]; done.
Qed.

Lemma reserve_ok b id :
  ida_ok b -> in_u32 id ->
  exists b', util_idalloc_reserve b id = Ok b' /\ ida_ok b' /\
    forall k, 0 <= k -> used b' k = (k =? id) || used b k.
Proof.
  intros Hb Hid. unfold in_u32 in Hid. unfold util_idalloc_reserve. set (i := id / 32).
  assert (0 <= i < 2 ^ 27) by (unfold i; zdivmod).
  rewrite u32_small by (unfold in_u32; lia).
  destruct (resize_ok b ((i + 1) * 2)) as (Hok1 & Hnum & Hset & Hlo & Hwords); [done|lia|].
  set (b1 := if _ <=? i then _ else b).
  assert (ida_ok b1 /\ i < num_elements b1 /\ forall k, word (data b1) k = word (data b) k)
    as (Hb1 & Hi & Ew).
  { unfold b1. destruct (Z.leb_spec (num_elements b) i); split_and!; done || lia. }
  clearbody b1. pose proof Hb1 as [].
  rewrite arr_get_word by lia. cbn [res_bind]. rewrite arr_set_word by lia. cbn [res_bind].
  eexists. split; [reflexivity|]. split.
  - apply ida_ok_insert; try done; try lia.
    + apply lor_u32; [by apply word_range|]. rewrite BITFIELD_BIT_pow by zdivmod.
      apply pow_u32. zdivmod.
    + intros j ?. destruct (Z.eqb_spec j i) as [->|]; [|by apply io_full0].
      rewrite io_full0 by done. apply word_bits; [|split; lia|].
      * apply lor_u32; [split; lia|]. rewrite BITFIELD_BIT_pow by zdivmod. apply pow_u32. zdivmod.
      * intros k ?. rewrite testbit_set, testbit_ones32, orb_true_r by zdivmod. done.
    + intros j ?. destruct (Z.eqb_spec j i); [lia|]. apply io_zero0. lia.
  - intros k Hk. unfold used; simpl. rewrite bit_insert by lia. unfold bit. rewrite !Ew.
    destruct (Z.eqb_spec (k / 32) i) as [E|E].
    + rewrite testbit_set, E by zdivmod. f_equal.
      destruct (Z.eqb_spec (k mod 32) (id mod 32)), (Z.eqb_spec k id); try done; unfold i in *; zdivmod.
    + destruct (Z.eqb_spec k id) as [->|]; done.
Qed.

(** ** Iteration *)

Lemma filter_none {A} (P : A -> Prop) `{!forall x, Decision (P x)} (l : list A) :
  (forall x, x ∈ l -> ~ P x) -> filter P l = [].
Proof.
  induction l as [|x l IH]; intros Hall; [done|]. rewrite filter_cons_False by (apply Hall; left).
  apply IH. intros y ?. apply Hall. by right.
Qed.

Lemma filter_ext_in {A} (P Q : A -> Prop) `{!forall x, Decision (P x), !forall x, Decision (Q x)}
    (l : list A) :
  (forall x, x ∈ l -> P x <-> Q x) -> filter P l = filter Q l.
Proof.
  induction l as [|x l IH]; intros Hall; [done|].
  assert (P x <-> Q x) as Hx by (apply Hall; left).
  assert (filter P l = filter Q l) as E by (apply IH; intros y ?; apply Hall; by right).
  destruct (decide (P x)).
  - by rewrite !filter_cons_True, E by tauto.
  - by rewrite !filter_cons_False, E by tauto.
Qed.

Lemma scan_bits_spec fuel i mask lo :
  in_u32 mask -> 0 <= lo <= 32 -> 0 <= i < 2 ^ 27 -> 32 - lo <= Z.of_nat fuel ->
  (forall k, 0 <= k < lo -> Z.testbit mask k = false) ->
  scan_bits fuel i mask = filter (fun id => Z.testbit mask (id mod 32) = true) (seqZ (i * 32 + lo) (32 - lo)).
Proof.
  revert mask lo. induction fuel as [|fuel IH]; intros mask lo Hm Hlo Hi Hf Hz.
  { replace (32 - lo) with 0 by lia. done. }
  simpl. destruct (Z.eqb_spec mask 0) as [->|Hne].
  { symmetry. apply filter_none. intros x ?. by rewrite Z.bits_0. }
  destruct (ffs_spec mask) as (Hr & Hb & Hlow); [unfold in_u32 in *; lia|].
  set (j := ffs mask - 1) in *.
  assert (lo <= j) as Hj.
  { destruct (decide (j < lo)); [|lia]. rewrite Hz in Hb by lia. done. }
  replace (32 - lo) with ((j - lo) + (1 + (31 - j))) by lia.
  rewrite seqZ_app, filter_app by lia.
  rewrite (filter_none _ (seqZ _ (j - lo))).
  2:{ intros x [? ?]%elem_of_seqZ. replace (x mod 32) with (x - i * 32) by zdivmod.
      rewrite Hlow by lia. done. }
  rewrite seqZ_cons by lia. simpl app. rewrite filter_cons_True.
  2:{ replace ((i * 32 + lo + (j - lo)) mod 32) with j by zdivmod. done. }
  rewrite u32_small by (unfold in_u32; lia). f_equal; [lia|].
  assert (forall k, 0 <= k < 32 ->
    Z.testbit (Z.lxor mask (BITFIELD_BIT j)) k = negb (k =? j) && Z.testbit mask k) as Hbit.
  { intros k ?. rewrite Z.lxor_spec, BITFIELD_BIT_pow, testbit_pow2 by lia.
    destruct (Z.eqb_spec k j) as [->|]; [by rewrite Hb|]. apply xorb_false_r. }
  rewrite (IH _ (j + 1)); try lia.
  - replace (i * 32 + (j + 1)) with (Z.succ (i * 32 + lo + (j - lo))) by lia.
    replace (32 - (j + 1)) with (Z.pred (1 + (31 - j))) by lia.
    apply filter_ext_in. intros x [? ?]%elem_of_seqZ. rewrite Hbit by zdivmod.
    rewrite (proj2 (Z.eqb_neq (x mod 32) j)) by zdivmod. done.
  - apply lxor_u32; [done|]. rewrite BITFIELD_BIT_pow by lia. by apply pow_u32.
  - intros k ?. rewrite Hbit by lia. destruct (Z.eqb_spec k j) as [->|]; [done|].
    rewrite Hlow by lia. done.
Qed.

Lemma foreach_words_spec n d i :
  0 <= i -> i + Z.of_nat n <= Z.of_nat (length d) -> i + Z.of_nat n <= 2 ^ 27 -> Forall in_u32 d ->
  foreach_words n d i = Ok (filter (fun id => bit d id = true) (seqZ (i * 32) (32 * Z.of_nat n))).
Proof.
  revert i. induction n as [|n IH]; intros i Hi Hn Hmax Hd; [done|]. cbn [foreach_words].
  rewrite arr_get_word by lia. cbn [res_bind]. rewrite IH by (done || lia). cbn [res_bind].
  rewrite (scan_bits_spec 32 i _ 0); [|by apply word_range|lia|lia|lia|lia].
  replace (32 * Z.of_nat (S n)) with (32 + 32 * Z.of_nat n) by lia.
  rewrite seqZ_app, filter_app by lia. replace (i * 32 + 32) with ((i + 1) * 32) by lia.
  do 2 f_equal. rewrite Z.add_0_r, Z.sub_0_r. apply filter_ext_in. intros x [? ?]%elem_of_seqZ.
  unfold bit. by replace (x / 32) with i by zdivmod.
Qed.

(** [util_idalloc_foreach] visits the ids in use, from the smallest up. *)
Lemma foreach_ok b :
  ida_ok b ->
  util_idalloc_foreach b = Ok (filter (fun id => used b id = true) (seqZ 0 (32 * num_set_elements b))).
Proof.
  intros []. unfold util_idalloc_foreach. rewrite foreach_words_spec by (done || lia).
  by rewrite Z2Nat.id by lia.
Qed.
