(* ===== verification/IdAllocSpec.v ===== *)
(** IdAllocSpec: the id allocator as a set of integers, and what its segmented variant does
    when a segment is full. *)

From S2P Require Import Prelude.
From S2P Require Import CLib.
From S2P Require Import IdAlloc.
From S2P Require Import IdAllocProofs.
From Stdlib Require Import Sorted.

(** ** The abstract allocator: a finite set of ids *)

Inductive ida_op : Type :=
| OAlloc
| ORange (num : Z)
| OFree (id : Z)
| OReserve (id : Z)
| OForeach.

Inductive set_step (S : gset Z) : ida_op -> list Z -> gset Z -> Prop :=
| SAlloc op id :
    op = OAlloc \/ op = ORange 1 -> 0 <= id < 2 ^ 32 -> id ∉ S ->
    (forall k, 0 <= k < id -> k ∈ S) ->
    set_step S op [id] ({[id]} ∪ S)
| SRange num base :
    1 < num -> 0 <= base -> 32 * base + num <= 2 ^ 32 ->
    (forall k, 32 * base <= k < 32 * base + num -> k ∉ S) ->
    (forall c, 0 <= c < base ->
       exists k, 32 * c <= k < 32 * c + 32 * ((num + 31) / 32) /\ k ∈ S) ->
    set_step S (ORange num) [32 * base] (list_to_set (seqZ (32 * base) num) ∪ S)
| SFree id : set_step S (OFree id) [] (S ∖ {[id]})
| SReserve id : set_step S (OReserve id) [] ({[id]} ∪ S)
| SForeach l :
    StronglySorted Z.lt l -> (forall id, id ∈ l <-> id ∈ S) -> set_step S OForeach l S.

Inductive set_run : gset Z -> list ida_op -> list (list Z) -> gset Z -> Prop :=
| SDone S : set_run S [] [] S
| SStep S op r S1 ops rs S2 :
    set_step S op r S1 -> set_run S1 ops rs S2 -> set_run S (op :: ops) (r :: rs) S2.

(** ** The allocator, call by call *)

Definition ida_step (b : util_idalloc) (op : ida_op) : res (util_idalloc * list Z) :=
  match op with
  | OAlloc => let* r := util_idalloc_alloc b in Ok (fst r, [snd r])
  | ORange num => let* r := util_idalloc_alloc_range b num in Ok (fst r, [snd r])
  | OFree id => let* b' := util_idalloc_free b id in Ok (b', [])
  | OReserve id => let* b' := util_idalloc_reserve b id in Ok (b', [])
  | OForeach => let* l := util_idalloc_foreach b in Ok (b, l)
  end.

Fixpoint ida_run (b : util_idalloc) (ops : list ida_op) : res (util_idalloc * list (list Z)) :=
  match ops with
  | [] => Ok (b, [])
  | op :: ops' =>
      let* r := ida_step b op in
      let* r' := ida_run (fst r) ops' in
      Ok (fst r', snd r :: snd r')
  end.

(** The arguments are 32-bit integers, ranges are not empty, and an allocation leaves the
    bit array within 2^27 words, the 2^32 ids. *)
Definition room (b : util_idalloc) (op : ida_op) : bool :=
  match op with
  | OAlloc => num_elements b <=? 2 ^ 26
  | ORange num => (1 <=? num) && (num <? 2 ^ 32 - 31) &&
                  (num_elements b * 2 + (num + 31) / 32 <=? 2 ^ 27)
  | OFree id | OReserve id => (0 <=? id) && (id <? 2 ^ 32)
  | OForeach => true
  end.

Fixpoint fits (b : util_idalloc) (ops : list ida_op) : bool :=
  match ops with
  | [] => true
  | op :: ops' => room b op && match ida_step b op with Ok r => fits (fst r) ops' | Fault _ => true end
  end.

(** ** Refinement *)

Definition represents (b : util_idalloc) (S : gset Z) : Prop :=
  forall id, id ∈ S <-> 0 <= id /\ used b id = true.

Section Represents.
Context (b b' : util_idalloc) (S : gset Z) (HS : represents b S).

Lemma represents_unused k : used b k = false -> k ∉ S.
Proof. intros Hk [_ ?]%HS. congruence. Qed.

Lemma represents_used k : 0 <= k -> used b k = true -> k ∈ S.
Proof. intros. by apply HS. Qed.

Lemma represents_add id :
  0 <= id -> (forall k, 0 <= k -> used b' k = (k =? id) || used b k) -> represents b' ({[id]} ∪ S).
Proof.
  intros Hid Hu k. rewrite elem_of_union, elem_of_singleton, (HS k).
  split.
  - intros [->|[? E]]; (split; [done|]); rewrite Hu by done; [by rewrite Z.eqb_refl|].
    by rewrite E, orb_true_r.
  - intros [? E]. rewrite Hu in E by done. destruct (Z.eqb_spec k id); [by left|by right].
Qed.

Lemma represents_range base num :
  0 <= base -> (forall k, 0 <= k -> used b' k = in_range base num k || used b k) ->
  represents b' (list_to_set (seqZ base num) ∪ S).
Proof.
  intros Hb Hu k. rewrite elem_of_union, elem_of_list_to_set, elem_of_seqZ, (HS k).
  unfold in_range in Hu. split.
  - intros [?|[? E]]; (split; [lia|]); rewrite Hu by lia; [|by rewrite E, orb_true_r].
    destruct (Z.leb_spec base k), (Z.ltb_spec k (base + num)); done || lia.
  - intros [? E]. rewrite Hu in E by done.
    destruct (Z.leb_spec base k), (Z.ltb_spec k (base + num)); simpl in E; auto.
Qed.

Lemma represents_del id :
  (forall k, 0 <= k -> used b' k = negb (k =? id) && used b k) -> represents b' (S ∖ {[id]}).
Proof.
  intros Hu k. rewrite elem_of_difference, elem_of_singleton, (HS k).
  split.
  - intros [[? E] ?]. split; [done|]. rewrite Hu, E by done. destruct (Z.eqb_spec k id); done.
  - intros [? E]. rewrite Hu in E by done. destruct (Z.eqb_spec k id); done.
Qed.
End Represents.

Lemma sorted_filter_seqZ (P : Z -> Prop) `{!forall x, Decision (P x)} (n : nat) m :
  StronglySorted Z.lt (filter P (seqZ m (Z.of_nat n))).
Proof.
  revert m. induction n as [|n IH]; intros m; [constructor|].
  rewrite seqZ_cons by lia. replace (Z.pred (Z.of_nat (S n))) with (Z.of_nat n) by lia.
  destruct (decide (P m)); [rewrite filter_cons_True by done|by rewrite filter_cons_False].
  constructor; [done|]. apply Forall_forall. intros x [_ [? ?]%elem_of_seqZ]%list_elem_of_filter. lia.
Qed.

Lemma alloc_refines b S op :
  op = OAlloc \/ op = ORange 1 -> ida_ok b -> represents b S -> num_elements b <= 2 ^ 26 ->
  exists b' rs S', (let* r := util_idalloc_alloc b in Ok (fst r, [snd r])) = Ok (b', rs) /\
    set_step S op rs S' /\ ida_ok b' /\ represents b' S'.
Proof.
  intros Hop Hb HS Hmax. destruct (alloc_ok b Hb Hmax) as (b' & id & -> & []). simpl.
  eexists b', [id], _. split; [done|]. split; [|split; [done|]].
  - constructor; [done|done|by eapply represents_unused|].
    intros k ?. eapply represents_used; [done|lia|auto].
  - eapply represents_add; [done|lia|done].
Qed.

Lemma step_refines b S op :
  ida_ok b -> represents b S -> room b op = true ->
  exists b' rs S', ida_step b op = Ok (b', rs) /\ set_step S op rs S' /\ ida_ok b' /\ represents b' S'.
Proof.
  intros Hb HS Hr. destruct op as [|num|id|id|]; simpl in *.
  - apply alloc_refines; [by left|done|done|lia].
  - apply andb_prop in Hr as [[H1 H2]%andb_prop H3].
    destruct (decide (num = 1)) as [->|Hne]; [apply alloc_refines; [by right|done|done|lia]|].
    destruct (alloc_range_ok b num) as (b' & base & -> & Hok & ? & ? & Hfree & Hused & Hfit);
      [done|lia|lia|lia|]. simpl. eexists b', _, _. split; [done|]. split; [|split; [done|]].
    + constructor; [lia|done|done| |].
      * intros k ?. eapply represents_unused; [done|auto].
      * intros c Hc. destruct (Hfit c Hc) as (k & Hk & Hu). exists k. split; [done|].
        eapply represents_used; [done|lia|done].
    + eapply represents_range; [done|lia|done].
  - apply andb_prop in Hr as [H1 H2].
    destruct (free_ok b id) as (b' & -> & Hok & Hused); [done|lia|]. simpl.
    eexists b', _, _. split_and!; [done|constructor|done|by eapply represents_del].
  - apply andb_prop in Hr as [H1 H2].
    destruct (reserve_ok b id) as (b' & -> & Hok & Hused); [done|unfold in_u32; lia|]. simpl.
    eexists b', _, _. split_and!; [done|constructor|done|eapply represents_add; [done|lia|done]].
  - rewrite foreach_ok by done. simpl. eexists b, _, S. split; [done|]. split_and!; [|done|done].
    pose proof (io_set _ Hb). constructor.
    + rewrite <- (Z2Nat.id (32 * _)) by lia. apply sorted_filter_seqZ.
    + intros id. rewrite list_elem_of_filter, elem_of_seqZ, (HS id). split; [naive_solver|].
      intros [? Hu]. split; [done|]. pose proof (used_below b id Hb ltac:(done) Hu). zdivmod.
Qed.

Lemma run_refines ops b S :
  ida_ok b -> represents b S -> fits b ops = true ->
  exists b' rs S', ida_run b ops = Ok (b', rs) /\ set_run S ops rs S' /\ ida_ok b' /\ represents b' S'.
Proof.
  revert b S. induction ops as [|op ops IH]; intros b S Hb HS Hf; simpl in *.
  { eexists _, _, _. split_and!; [done|constructor|done|done]. }
  apply andb_prop in Hf as [Hr Hf].
  destruct (step_refines b S op Hb HS Hr) as (b1 & r & S1 & E & Hstep & Hb1 & HS1).
  rewrite E in *. simpl in *.
  destruct (IH b1 S1 Hb1 HS1 Hf) as (b2 & rs & S2 & -> & Hrun & Hb2 & HS2). simpl.
  eexists _, _, _. split_and!; [done|by econstructor|done|done].
Qed.

(** C16: the id allocator is a set of ids.  From [util_idalloc_init], any calls of alloc,
    alloc_range, free, reserve and foreach whose arguments fit 32 bits and which leave the
    bit array within the 2^32 ids run without a fault, none of the validation asserts
    included.  An allocation returns the smallest id not in the set; a range is disjoint from
    the set and begins at the first multiple of 32 at which enough whole words are unused;
    foreach lists the set in increasing order. *)
Theorem idalloc_refines_set n :
  0 < n < 2 ^ 32 - 31 ->
  exists b0, util_idalloc_init n = Ok b0 /\ forall ops, fits b0 ops = true ->
    exists b rs S, ida_run b0 ops = Ok (b, rs) /\ set_run ∅ ops rs S /\ represents b S.
Proof.
  intros Hn. destruct (init_ok n Hn) as (b0 & E & Hb & Hu & _). exists b0. split; [done|].
  intros ops Hf. destruct (run_refines ops b0 ∅) as (b & rs & S & Erun & Hrun & _ & HS); [done| |done|].
  - intros id. rewrite Hu. set_solver.
  - by exists b, rs, S.
Qed.

Definition sample_calls : list ida_op :=
  [OAlloc; ORange 33; OAlloc; OFree 0; ORange 1; OReserve 200; ORange 64; OFree 200; OForeach].

Lemma idalloc_refines_set_witness :
  0 < 40 < 2 ^ 32 - 31 /\
  exists b0 b S, util_idalloc_init 40 = Ok b0 /\
    ida_run b0 sample_calls =
      Ok (b, [[0]; [32]; [1]; []; [0]; []; [96]; []; 0 :: 1 :: seqZ 32 33 ++ seqZ 96 64]) /\
    represents b S.
Proof.
  split; [lia|].
  destruct (idalloc_refines_set 40 ltac:(lia)) as (b0 & E0 & H).
  assert (b0 = mk_ida [0; 0] 2 0 0) as -> by (vm_compute in E0; congruence).
  destruct (H sample_calls) as (b & rs & S & Er & _ & HS); [vm_compute; reflexivity|].
  exists (mk_ida [0; 0] 2 0 0), b, S. split; [exact E0|]. split; [|exact HS].
  rewrite Er. vm_compute in Er. injection Er as <- <-. vm_compute. reflexivity.
Defined.

(** ** A full segment *)

(** [n] calls of [util_idalloc_sparse_alloc] and the ids they return. *)
Fixpoint sparse_allocs (n : nat) (s : util_idalloc_sparse) : res (util_idalloc_sparse * list Z) :=
  match n with
  | O => Ok (s, [])
  | S n' =>
      let* r := sparse_allocs n' s in
      let* r' := util_idalloc_sparse_alloc (fst r) in
      Ok (fst r', snd r ++ [snd r'])
  end.

Lemma max_ids_per_segment : UTIL_IDALLOC_MAX_IDS_PER_SEGMENT = 2 ^ 22.
Proof. reflexivity. Qed.
Lemma max_elems_per_segment : UTIL_IDALLOC_MAX_ELEMS_PER_SEGMENT = 2 ^ 17.
Proof. reflexivity. Qed.

(** A segment whose ids in use are the first [k], all of them handed out by alloc. *)
Record filled (s : util_idalloc) (k : Z) : Prop := {
  fl_ok : ida_ok s;
  fl_used : forall id, 0 <= id -> used s id = (id <? k);
  fl_low : lowest_free_idx s = Z.max 0 (k - 1) / 32;
  fl_num : 1 <= num_elements s <= Z.max 2 (k / 16)
}.

(** The next id of such a segment is [k]. *)
Lemma filled_alloc s k :
  filled s k -> 0 <= k <= 2 ^ 22 ->
  exists s', util_idalloc_alloc s = Ok (s', k) /\ filled s' (k + 1).
Proof.
  intros [] Hk. destruct (alloc_ok s fl_ok0) as (s' & id & E & Hp); [zdivmod|].
  destruct Hp as [Hok' Hid' Hfree Hleast Hused' Hlow' Hnum'].
  assert (id = k) as ->.
  { destruct (Z.lt_total id k) as [Hl|[?|Hl]]; [|done|].
    - rewrite fl_used0 in Hfree by lia. lia.
    - specialize (Hleast k ltac:(lia)). rewrite fl_used0 in Hleast by lia. lia. }
  exists s'. split; [done|]. split; [done| | |].
  - intros id Hid. rewrite Hused', fl_used0 by done.
    destruct (Z.eqb_spec id k), (Z.ltb_spec id k), (Z.ltb_spec id (k + 1)); simpl; done || lia.
  - rewrite Hlow'. f_equal. lia.
  - zdivmod.
Qed.

Section Sparse.
Context (rest : list util_idalloc).

Lemma sparse_alloc_head s k :
  filled s k -> 0 <= k <= 2 ^ 22 ->
  exists s', util_idalloc_sparse_alloc (s :: rest) = Ok (s' :: rest, k) /\ filled s' (k + 1).
Proof.
  intros Hs Hk. unfold util_idalloc_sparse_alloc. cbn [sparse_alloc_loop].
  rewrite max_elems_per_segment, max_ids_per_segment. pose proof (fl_low s k Hs).
  rewrite (proj2 (Z.ltb_lt _ _)) by zdivmod.
  destruct (filled_alloc s k Hs Hk) as (s' & -> & Hs'). exists s'. split; [|done].
  simpl. rewrite u32_small by (unfold in_u32; lia). done.
Qed.

Lemma sparse_allocs_head n s :
  filled s 0 -> Z.of_nat n <= 2 ^ 22 + 1 ->
  exists s', sparse_allocs n (s :: rest) = Ok (s' :: rest, seqZ 0 (Z.of_nat n)) /\
    filled s' (Z.of_nat n).
Proof.
  intros Hs. induction n as [|n IH]; intros Hn; [by exists s|]. cbn [sparse_allocs].
  destruct IH as (s1 & -> & H1); [lia|]. cbn [res_bind fst snd].
  destruct (sparse_alloc_head s1 (Z.of_nat n) H1) as (s2 & -> & H2); [lia|]. cbn [res_bind fst snd].
  exists s2. replace (Z.of_nat (S n)) with (Z.of_nat n + 1) by lia. split; [|done].
  by rewrite seqZ_app by lia.
Qed.
End Sparse.

(** A segment that has handed out all its ids and one more is passed over. *)
Lemma sparse_alloc_next s s1 rest :
  filled s (2 ^ 22 + 1) -> filled s1 0 ->
  exists r, util_idalloc_sparse_alloc (s :: s1 :: rest) = Ok (r, 2 ^ 22).
Proof.
  intros Hs Hs1. unfold util_idalloc_sparse_alloc. cbn [sparse_alloc_loop].
  rewrite max_elems_per_segment, max_ids_per_segment.
  rewrite (fl_low s _ Hs), (fl_low s1 _ Hs1). change (Z.max 0 (2 ^ 22 + 1 - 1) / 32 <? 2 ^ 17) with false.
  change (Z.max 0 (0 - 1) / 32 <? 2 ^ 17) with true. cbv iota.
  destruct (filled_alloc s1 0 Hs1) as (s' & -> & _); [lia|]. by eexists.
Qed.

Lemma init_filled : exists b, util_idalloc_init 1 = Ok b /\ filled b 0.
Proof.
  destruct (init_ok 1) as (b & E & Hb & Hu & Hn); [lia|]. exists b. split; [done|].
  split; [done| | |].
  - intros id ?. rewrite Hu. symmetry. apply Z.ltb_ge. lia.
  - vm_compute in E. by injection E as <-.
  - rewrite Hn. done.
Qed.

Lemma sparse_repeats_at n :
  Z.of_nat n = 2 ^ 22 ->
  exists s0 s1 s2 s3,
    util_idalloc_sparse_init = Ok s0 /\ sparse_allocs n s0 = Ok (s1, seqZ 0 (2 ^ 22)) /\
    util_idalloc_sparse_alloc s1 = Ok (s2, 2 ^ 22) /\ util_idalloc_sparse_alloc s2 = Ok (s3, 2 ^ 22).
Proof.
  intros Hn. destruct init_filled as (b & Eb & Hb). pose (rest := replicate 1022 b).
  destruct (sparse_allocs_head (b :: rest) n b Hb) as (s1 & E1 & H1); [lia|].
  rewrite Hn in E1, H1.
  destruct (sparse_alloc_head (b :: rest) s1 (2 ^ 22) H1) as (s2 & E2 & H2); [lia|].
  destruct (sparse_alloc_next s2 b rest H2 Hb) as (s3 & E3).
  exists (b :: b :: rest), (s1 :: b :: rest), (s2 :: b :: rest), s3. split; [|done].
  unfold util_idalloc_sparse_init. rewrite Eb. reflexivity.
Qed.

(** C29: a full segment hands out an id of the next one.  From [util_idalloc_sparse_init],
    2^22 calls of [util_idalloc_sparse_alloc] return 0, 1, ... in order and fill the first
    segment.  The next call finds its [lowest_free_idx] still below the limit, grows the
    segment past its share and returns 2^22; the call after it moves to the second segment
    and returns 2^22 again. *)
Theorem sparse_alloc_repeats :
  exists s0 s1 s2 s3,
    util_idalloc_sparse_init = Ok s0 /\
    sparse_allocs (Z.to_nat (2 ^ 22)) s0 = Ok (s1, seqZ 0 (2 ^ 22)) /\
    util_idalloc_sparse_alloc s1 = Ok (s2, 2 ^ 22) /\
    util_idalloc_sparse_alloc s2 = Ok (s3, 2 ^ 22).
Proof. apply sparse_repeats_at, Z2Nat.id. discriminate. Qed.
