(* ===== verification/Blob.v ===== *)
(** Blob: the serialization buffer and reader of [util/blob.c], which the shader caches and
    the NIR serializer write and read.

    Bytes are integers below 256; a scalar is stored as a little-endian host stores it.
    [realloc] is outside the program: whether a request succeeds and what fresh memory holds
    are parameters. *)

From S2P Require Import Prelude.
From S2P Require Import CLib.

Definition i32 (x : Z) : Z := (x + 2 ^ 31) mod 2 ^ 32 - 2 ^ 31.

Definition util_is_power_of_two_nonzero_uintptr (v : Z) : bool :=
  negb (v =? 0) && (Z.land v (u64 (v - 1)) =? 0).

Definition align_uintptr (value alignment : Z) : res Z :=
  assert! util_is_power_of_two_nonzero_uintptr alignment in
  Ok (Z.land (u64 (value + alignment - 1)) (u64 (Z.lnot (alignment - 1)))).

(** The bytes of an [n]-byte scalar. *)
Fixpoint le_bytes (n : nat) (v : Z) : list Z :=
  match n with
  | O => []
  | S n' => Z.land v 255 :: le_bytes n' (Z.shiftr v 8)
  end.

Fixpoint of_le_bytes (l : list Z) : Z :=
  match l with
  | [] => 0
  | x :: l' => Z.lor x (Z.shiftl (of_le_bytes l') 8)
  end.

(** [memcpy(l + off, bytes, ...)]. *)
Definition write_at (l : list Z) (off : Z) (bytes : list Z) : res (list Z) :=
  if (off <? 0) || (Z.of_nat (length l) <? off + Z.of_nat (length bytes)) then Fault OutOfBounds
  else Ok (take (Z.to_nat off) l ++ bytes ++ drop (Z.to_nat off + length bytes) l).

(** ** The writer *)

Definition BLOB_INITIAL_SIZE : Z := 4096.

(** [data] is [None] for a null pointer. *)
Record blob : Type := mk_blob {
  b_data : option (list Z);
  allocated : Z;
  b_size : Z;
  fixed_allocation : bool;
  out_of_memory : bool
}.

Definition set_oom (b : blob) : blob :=
  mk_blob (b_data b) (allocated b) (b_size b) (fixed_allocation b) true.

Definition set_size (b : blob) (n : Z) : blob :=
  mk_blob (b_data b) (allocated b) n (fixed_allocation b) (out_of_memory b).

Definition blob_init : blob := mk_blob None 0 0 false false.

Definition blob_init_fixed (data : option (list Z)) (size : Z) : blob :=
  mk_blob data size 0 true false.

Section Writer.
  (** Whether [realloc] of so many bytes succeeds, and what byte fresh memory holds. *)
  Context (realloc_ok : Z -> bool) (fresh : Z -> Z).

(** [realloc(data, n)] of a request that succeeds. *)
Definition realloc (data : option (list Z)) (n : Z) : list Z :=
  let l := default [] data in
  take (Z.to_nat n) l ++ (fresh <$> seqZ (Z.of_nat (length l)) (n - Z.of_nat (length l))).

Definition grow_to_fit (b : blob) (additional : Z) : blob * bool :=
  if out_of_memory b then (b, false)
  else if u64 (b_size b + additional) <=? allocated b then (b, true)
  else if fixed_allocation b then (set_oom b, false)
  else
    let n := Z.max (if allocated b =? 0 then BLOB_INITIAL_SIZE else u64 (allocated b * 2))
                   (u64 (allocated b + additional)) in
    if realloc_ok n
    then (mk_blob (Some (realloc (b_data b) n)) n (b_size b) (fixed_allocation b) false, true)
    else (set_oom b, false).

(** The store of [bytes] at [b_size], skipped when [data] is null. *)
Definition store (b : blob) (bytes : list Z) : res blob :=
  let n := u64 (b_size b + Z.of_nat (length bytes)) in
  match b_data b with
  | Some l =>
      let* l' := write_at l (b_size b) bytes in
      Ok (mk_blob (Some l') (allocated b) n (fixed_allocation b) (out_of_memory b))
  | None => Ok (set_size b n)
  end.

Definition blob_align (b : blob) (alignment : Z) : res (blob * bool) :=
  let* new_size := align_uintptr (b_size b) alignment in
  if b_size b <? new_size then
    let '(b1, ok) := grow_to_fit b (new_size - b_size b) in
    if ok then
      let* b2 := store b1 (replicate (Z.to_nat (new_size - b_size b1)) 0) in Ok (b2, true)
    else Ok (b1, false)
  else Ok (b, true).

Definition blob_write_bytes (b : blob) (bytes : list Z) : res (blob * bool) :=
  let '(b1, ok) := grow_to_fit b (Z.of_nat (length bytes)) in
  if ok then let* b2 := store b1 bytes in Ok (b2, true) else Ok (b1, false).

Definition blob_reserve_bytes (b : blob) (to_write : Z) : blob * Z :=
  let '(b1, ok) := grow_to_fit b to_write in
  if ok then (set_size b1 (u64 (b_size b1 + to_write)), b_size b1) else (b1, -1).

Definition blob_reserve_uint32 (b : blob) : res (blob * Z) :=
  let* r := blob_align b 4 in Ok (blob_reserve_bytes (fst r) 4).

Definition blob_reserve_intptr (b : blob) : res (blob * Z) :=
  let* r := blob_align b 8 in Ok (blob_reserve_bytes (fst r) 8).

(** [BLOB_WRITE_TYPE] for a type of [n] bytes; the result of [blob_align] is not looked at. *)
Definition blob_write_type (n : nat) (b : blob) (value : Z) : res (blob * bool) :=
  let* r := blob_align b (Z.of_nat n) in blob_write_bytes (fst r) (le_bytes n value).

Definition blob_write_uint8 : blob -> Z -> res (blob * bool) := blob_write_type 1.
Definition blob_write_uint16 : blob -> Z -> res (blob * bool) := blob_write_type 2.
Definition blob_write_uint32 : blob -> Z -> res (blob * bool) := blob_write_type 4.
Definition blob_write_uint64 : blob -> Z -> res (blob * bool) := blob_write_type 8.
Definition blob_write_intptr : blob -> Z -> res (blob * bool) := blob_write_type 8.

(** A C string is the list of its characters, without the terminator. *)
Definition blob_write_string (b : blob) (str : list Z) : res (blob * bool) :=
  blob_write_bytes b (str ++ [0]).

Definition blob_overwrite_bytes (b : blob) (offset : Z) (bytes : list Z) : res (blob * bool) :=
  let e := u64 (offset + Z.of_nat (length bytes)) in
  if (e <? offset) || (b_size b <? e) then Ok (b, false)
  else match b_data b with
       | Some l =>
           let* l' := write_at l offset bytes in
           Ok (mk_blob (Some l') (allocated b) (b_size b) (fixed_allocation b) (out_of_memory b), true)
       | None => Ok (b, true)
       end.

(** [ASSERT_ALIGNED] and the overwrite of an [n]-byte scalar. *)
Definition blob_overwrite_type (n : nat) (b : blob) (offset value : Z) : res (blob * bool) :=
  let* a := align_uintptr offset (Z.of_nat n) in
  assert! a =? offset in blob_overwrite_bytes b offset (le_bytes n value).

Definition blob_overwrite_uint8 : blob -> Z -> Z -> res (blob * bool) := blob_overwrite_type 1.
Definition blob_overwrite_uint32 : blob -> Z -> Z -> res (blob * bool) := blob_overwrite_type 4.
Definition blob_overwrite_intptr : blob -> Z -> Z -> res (blob * bool) := blob_overwrite_type 8.

(** [blob_finish_get_buffer]: the buffer, trimmed. *)
Definition blob_finish_get_buffer (b : blob) : list Z * Z :=
  (realloc (b_data b) (b_size b), b_size b).
End Writer.

(** ** The reader *)

(** The pointers are offsets from [data]. *)
Record blob_reader : Type := mk_reader {
  r_data : list Z;
  r_end : Z;
  current : Z;
  overrun : bool
}.

Definition blob_reader_init (data : list Z) (size : Z) : blob_reader := mk_reader data size 0 false.

Definition set_current (r : blob_reader) (c : Z) : blob_reader :=
  mk_reader (r_data r) (r_end r) c (overrun r).
Definition set_overrun (r : blob_reader) : blob_reader :=
  mk_reader (r_data r) (r_end r) (current r) true.

Definition blob_reader_align (r : blob_reader) (alignment : Z) : res blob_reader :=
  let* c := align_uintptr (current r) alignment in Ok (set_current r c).

Definition ensure_can_read (r : blob_reader) (size : Z) : blob_reader * bool :=
  if overrun r then (r, false)
  else if (current r <=? r_end r) && (size <=? r_end r - current r) then (r, true)
  else (set_overrun r, false).

(** The bytes at [current]; reading past the array is a fault. *)
Definition bytes_at (r : blob_reader) (size : Z) : res (list Z) :=
  if Z.of_nat (length (r_data r)) <? current r + size then Fault OutOfBounds
  else Ok (take (Z.to_nat size) (drop (Z.to_nat (current r)) (r_data r))).

(** The pointer is the bytes it points at, or none. *)
Definition blob_read_bytes (r : blob_reader) (size : Z) : res (blob_reader * option (list Z)) :=
  let '(r1, ok) := ensure_can_read r size in
  if ok then let* l := bytes_at r1 size in Ok (set_current r1 (current r1 + size), Some l)
  else Ok (r1, None).

(** [blob_copy_bytes] into [dest]. *)
Definition blob_copy_bytes (r : blob_reader) (dest : list Z) : res (blob_reader * list Z) :=
  let size := Z.of_nat (length dest) in
  let* p := blob_read_bytes r size in
  match snd p with
  | None => Ok (fst p, dest)
  | Some bytes => Ok (fst p, if size =? 0 then dest else bytes)
  end.

Definition blob_skip_bytes (r : blob_reader) (size : Z) : blob_reader :=
  let '(r1, ok) := ensure_can_read r size in
  if ok then set_current r1 (current r1 + size) else r1.

(** [BLOB_READ_TYPE] for a type of [n] bytes. *)
Definition blob_read_type (n : nat) (r : blob_reader) : res (blob_reader * Z) :=
  let* r1 := blob_reader_align r (Z.of_nat n) in
  let* p := blob_copy_bytes r1 (le_bytes n 0) in
  Ok (fst p, of_le_bytes (snd p)).

Definition blob_read_uint8 : blob_reader -> res (blob_reader * Z) := blob_read_type 1.
Definition blob_read_uint16 : blob_reader -> res (blob_reader * Z) := blob_read_type 2.
Definition blob_read_uint32 : blob_reader -> res (blob_reader * Z) := blob_read_type 4.
Definition blob_read_uint64 : blob_reader -> res (blob_reader * Z) := blob_read_type 8.
Definition blob_read_intptr : blob_reader -> res (blob_reader * Z) := blob_read_type 8.

(** [memchr(l, 0, ...)]: the distance to the first zero byte. *)
Fixpoint memchr0 (l : list Z) : option Z :=
  match l with
  | [] => None
  | x :: l' => if x =? 0 then Some 0 else (fun n => n + 1) <$> memchr0 l'
  end.

(** The string is the characters before its terminator. *)
Definition blob_read_string (r : blob_reader) : res (blob_reader * option (list Z)) :=
  if r_end r <=? current r then Ok (set_overrun r, None)
  else
    let* rest := bytes_at r (r_end r - current r) in
    match memchr0 rest with
    | None => Ok (set_overrun r, None)
    | Some n =>
        let size := u64 (i32 (n + 1)) in
        let '(r1, ok) := ensure_can_read r size in
        assert! ok in
        Ok (set_current r1 (current r1 + i32 (n + 1)), Some (take (Z.to_nat n) rest))
    end.

Example blob_example :
  (let b0 := blob_init in
   let* w1 := blob_write_uint8 (fun _ => true) (fun _ => 0xcd) b0 7 in
   let* w2 := blob_write_uint32 (fun _ => true) (fun _ => 0xcd) (fst w1) 0x11223344 in
   let* w3 := blob_write_string (fun _ => true) (fun _ => 0xcd) (fst w2) [65; 66] in
   let '(l, n) := blob_finish_get_buffer (fun _ => 0xcd) (fst w3) in
   let* q1 := blob_read_uint8 (blob_reader_init l n) in
   let* q2 := blob_read_uint32 (fst q1) in
   let* q3 := blob_read_string (fst q2) in
   Ok (l, snd q1, snd q2, snd q3, overrun (fst q3), current (fst q3)))
  = Ok ([7; 0; 0; 0; 0x44; 0x33; 0x22; 0x11; 65; 66; 0], 7, 0x11223344, Some [65; 66], false, 11).
Proof. vm_compute. reflexivity. Qed.
