(* ===== verification/BlobProofs.v ===== *)
(** BlobProofs: what is in a blob after each write, and the round trip through the reader. *)

From S2P Require Import Prelude.
From S2P Require Import CLib.
From S2P Require Import Blob.

Abbreviation len l := (Z.of_nat (length l)).

(** ** Alignment *)

(** The least multiple of [2^k] from [x] on. *)
Definition up (k x : Z) : Z := (x + 2 ^ k - 1) / 2 ^ k * 2 ^ k.

Lemma up_spec k x : 0 <= k -> x <= up k x < x + 2 ^ k /\ up k x mod 2 ^ k = 0.
Proof.
  intros Hk. unfold up. pose proof (Z.pow_pos_nonneg 2 k ltac:(lia) Hk) as Hp.
  split; [|apply Z.mod_mul; lia].
  pose proof (Z.div_mod (x + 2 ^ k - 1) (2 ^ k) ltac:(lia)).
  pose proof (Z.mod_pos_bound (x + 2 ^ k - 1) (2 ^ k) Hp). lia.
Qed.

Lemma land_lnot_ones y k :
  in_u64 y -> 0 <= k -> Z.land y (u64 (Z.lnot (Z.ones k))) = y / 2 ^ k * 2 ^ k.
Proof.
  intros Hy Hk. rewrite <- shiftr_div, <- shiftl_mul, <- Z.ldiff_ones_r by done.
  apply Z.bits_inj'. intros j Hj. rewrite Z.land_spec, Z.ldiff_spec.
  destruct (decide (j < 64)).
  - unfold u64. by rewrite Z.mod_pow2_bits_low, Z.lnot_spec by lia.
  - rewrite <- (Z.mod_small y (2 ^ 64)) by done. by rewrite Z.mod_pow2_bits_high by lia.
Qed.

Lemma power_of_two_test k : 0 <= k < 64 -> util_is_power_of_two_nonzero_uintptr (2 ^ k) = true.
Proof.
  intros Hk. pose proof (Z.pow_pos_nonneg 2 k ltac:(lia) ltac:(lia)).
  pose proof (Z.pow_lt_mono_r 2 k 64 ltac:(lia) ltac:(lia) ltac:(lia)).
  unfold util_is_power_of_two_nonzero_uintptr. rewrite u64_small by (unfold in_u64; lia).
  rewrite (land_mask_mod _ k), Z.mod_same by lia. destruct (Z.eqb_spec (2 ^ k) 0); [lia|done].
Qed.

Lemma align_uintptr_up x k :
  0 <= k < 64 -> 0 <= x -> x + 2 ^ k <= 2 ^ 64 -> align_uintptr x (2 ^ k) = Ok (up k x).
Proof.
  intros Hk Hx Hle. pose proof (Z.pow_pos_nonneg 2 k ltac:(lia) ltac:(lia)).
  unfold align_uintptr. rewrite power_of_two_test by done. cbn [assert_ res_bind].
  rewrite (u64_small (x + _ - 1)) by (unfold in_u64; lia).
  replace (2 ^ k - 1) with (Z.ones k) by (rewrite Z.ones_equiv; lia).
  rewrite land_lnot_ones; [done|unfold in_u64; lia|lia].
Qed.

(** ** Scalars *)

Lemma length_le_bytes n v : length (le_bytes n v) = n.
Proof. revert v. induction n as [|n IH]; intros v; simpl; [done|]. by rewrite IH. Qed.

Lemma of_le_bytes_le n v : 0 <= v < 2 ^ (8 * Z.of_nat n) -> of_le_bytes (le_bytes n v) = v.
Proof.
  revert v. induction n as [|n IH]; intros v Hv; [simpl in *; lia|]. cbn [le_bytes of_le_bytes].
  rewrite IH.
  - apply Z.bits_inj'. intros j Hj. rewrite Z.lor_spec, Z.land_spec.
    change 255 with (Z.ones 8). destruct (decide (j < 8)).
    + rewrite Z.ones_spec_low, Z.shiftl_spec_low, andb_true_r by lia. apply orb_false_r.
    + rewrite Z.ones_spec_high, andb_false_r, Z.shiftl_spec, Z.shiftr_spec by lia.
      simpl. f_equal. lia.
  - rewrite shiftr_div by lia. split; [apply Z.div_pos; lia|].
    apply Z.div_lt_upper_bound; [lia|]. rewrite <- Z.pow_add_r by lia.
    replace (8 + 8 * Z.of_nat n) with (8 * Z.of_nat (S n)) by lia. apply Hv.
Qed.

Lemma memchr0_spec s t : Forall (fun x => x <> 0) s -> memchr0 (s ++ 0 :: t) = Some (len s).
Proof.
  induction 1 as [|x s Hx Hs IH]; [done|]. simpl. destruct (Z.eqb_spec x 0); [done|].
  rewrite IH. simpl. f_equal. lia.
Qed.

(** ** The bytes of a blob *)

(** [b] holds the bytes [c]; a blob without a buffer only counts them. *)
Record holds (b : blob) (c : list Z) : Prop := {
  h_size : b_size b = len c;
  h_fit : len c <= allocated b;
  h_max : allocated b < 2 ^ 64 /\ (fixed_allocation b = false -> allocated b < 2 ^ 63);
  h_data : match b_data b with
           | Some l => len l = allocated b /\ take (length c) l = c
           | None => fixed_allocation b = true \/ allocated b = 0
           end
}.

(** The buffer is of the same kind. *)
Definition same_kind (b b' : blob) : Prop :=
  fixed_allocation b' = fixed_allocation b /\
  (fixed_allocation b = true -> allocated b' = allocated b /\ (b_data b = None <-> b_data b' = None)).

#[export] Instance same_kind_preorder : PreOrder same_kind.
Proof.
  split; [by intros b; split|]. intros b1 b2 b3 [E1 H1] [E2 H2]. split; [congruence|].
  intros Hf. destruct (H1 Hf) as [? ?]. destruct H2 as [? ?]; [congruence|]. split; [congruence|tauto].
Qed.

Section Writes.
Context (realloc_ok : Z -> bool) (fresh : Z -> Z).
Abbreviation grow := (grow_to_fit realloc_ok fresh).

(** Room for [t] bytes in all. *)
Definition ample (b : blob) (t : Z) : Prop :=
  out_of_memory b = false /\
  if fixed_allocation b then t <= allocated b else forall n, realloc_ok n = true.

Lemma holds_oom b c : holds b c -> holds (set_oom b) c.
Proof. by intros []. Qed.

Lemma realloc_holds l n c :
  len c <= len l <= n -> take (length c) l = c ->
  len (realloc fresh (Some l) n) = n /\ take (length c) (realloc fresh (Some l) n) = c.
Proof.
  intros Hl Ht. unfold realloc; simpl. rewrite (take_ge l) by lia.
  split; [rewrite length_app, length_fmap, length_seqZ; lia|].
  by rewrite take_app_le by lia.
Qed.

Lemma grow_spec b c n :
  holds b c -> 0 <= n -> len c + n < 2 ^ 62 ->
  exists b' ok, grow b n = (b', ok) /\ holds b' c /\ same_kind b b' /\
    (if ok then out_of_memory b = false /\ out_of_memory b' = false /\ len c + n <= allocated b'
     else out_of_memory b' = true) /\
    (forall t, ample b t -> len c + n <= t -> ok = true /\ ample b' t).
Proof.
  intros Hb Hn Hmax. pose proof Hb as [Es Hfit [Hm1 Hm2] Hd]. unfold grow_to_fit, ample.
  destruct (out_of_memory b) eqn:Eo.
  { exists b, false. split_and!; done || naive_solver. }
  rewrite Es, u64_small by (unfold in_u64; lia).
  destruct (Z.leb_spec (len c + n) (allocated b)).
  { exists b, true. split_and!; try done; naive_solver. }
  destruct (fixed_allocation b) eqn:Ef.
  { eexists _, false. split; [done|]. split; [by apply holds_oom|].
    split_and!; simpl; try done. intros t [_ Ht] ?. simpl in Ht. lia. }
  specialize (Hm2 eq_refl).
  set (m := Z.max _ _).
  assert (allocated b <= m /\ len c + n <= m /\ m < 2 ^ 63) as (Ha & Hc & Hm).
  { unfold m. rewrite !u64_small by (unfold in_u64; lia).
    destruct (Z.eqb_spec (allocated b) 0); unfold BLOB_INITIAL_SIZE; lia. }
  destruct (realloc_ok m) eqn:Er.
  - eexists _, true. split; [done|]. split; [|split_and!; simpl; try done; try lia; split; simpl; congruence].
    split; simpl; [done|lia|lia|]. destruct (b_data b) as [l|].
    + apply realloc_holds; [lia|apply Hd].
    + destruct Hd as [?|H0]; [congruence|]. destruct c; simpl in *; [|lia].
      split; [|done]. unfold realloc. cbn [default]. rewrite take_nil, length_app, length_fmap, length_seqZ. simpl. lia.
  - eexists _, false. split; [done|]. split; [by apply holds_oom|].
    split_and!; simpl; try done; try (split; simpl; congruence). intros t [_ Ht]. by rewrite Ht in Er.
Qed.

End Writes.

Lemma write_at_spec (l c e : list Z) :
  take (length c) l = c -> len c + len e <= len l ->
  exists l', write_at l (len c) e = Ok l' /\ length l' = length l /\
    take (length (c ++ e)) l' = c ++ e.
Proof.
  intros Ht Hl. unfold write_at. destruct (Z.ltb_spec (len c) 0); [lia|].
  destruct (Z.ltb_spec (len l) (len c + len e)); [lia|]. simpl. rewrite Nat2Z.id, Ht.
  eexists. split; [done|]. split.
  - rewrite !length_app, length_drop. lia.
  - rewrite (assoc_L (++)). by rewrite take_app_length.
Qed.

Lemma store_spec b c e :
  holds b c -> len c + len e <= allocated b ->
  exists b', store b e = Ok b' /\ holds b' (c ++ e) /\ same_kind b b' /\
    out_of_memory b' = out_of_memory b /\ allocated b' = allocated b.
Proof.
  intros [Es Hfit Hm Hd] Hl. unfold store. rewrite Es, u64_small by (unfold in_u64; lia).
  destruct (b_data b) as [l|] eqn:El.
  - destruct Hd as [Hlen Ht]. destruct (write_at_spec l c e) as (l' & -> & Hl' & Ht'); [done|lia|].
    eexists. split; [done|]. split_and!; try done.
    + split; simpl; rewrite ?length_app in *; try done; try lia. split; [lia|done].
    + split; simpl; [done|]. by rewrite El.
  - eexists. split; [done|]. split_and!; try done.
    split; simpl; rewrite ?length_app, ?El; try done; lia.
Qed.
