(* ===== verification/BlobSpec.v ===== *)
(** BlobSpec: sequences of items written to a blob and read back; measuring a blob. *)

From S2P Require Import Prelude.
From S2P Require Import CLib.
From S2P Require Import Blob.
From S2P Require Import BlobProofs.

(** ** What callers write and read *)

Inductive width : Type := W8 | W16 | W32 | W64 | WPtr.

Definition bytes_of (w : width) : nat :=
  match w with W8 => 1 | W16 => 2 | W32 => 4 | W64 | WPtr => 8 end.
Definition log_of (w : width) : Z :=
  match w with W8 => 0 | W16 => 1 | W32 => 2 | W64 | WPtr => 3 end.

(** [IAlign k] is the alignment to [2^k]. *)
Inductive item : Type :=
| IScalar (w : width) (v : Z)
| IBytes (l : list Z)
| IString (s : list Z)
| IAlign (k : Z).

Inductive shape : Type :=
| SScalar (w : width)
| SBytes (n : Z)
| SString
| SAlign (k : Z).

Definition shape_of (it : item) : shape :=
  match it with
  | IScalar w _ => SScalar w
  | IBytes l => SBytes (len l)
  | IString _ => SString
  | IAlign k => SAlign k
  end.

(** The layout: padding, then the bytes. *)
Definition zeros (k off : Z) : list Z := replicate (Z.to_nat (up k off - off)) 0.

Definition enc (off : Z) (it : item) : list Z :=
  match it with
  | IScalar w v => zeros (log_of w) off ++ le_bytes (bytes_of w) v
  | IBytes l => l
  | IString s => s ++ [0]
  | IAlign k => zeros k off
  end.

Fixpoint encode (off : Z) (its : list item) : list Z :=
  match its with
  | [] => []
  | it :: its' => enc off it ++ encode (off + len (enc off it)) its'
  end.

(** Scalars fit their width; strings have no terminator inside and an [int] length. *)
Definition item_ok (it : item) : Prop :=
  match it with
  | IScalar w v => 0 <= v < 2 ^ (8 * Z.of_nat (bytes_of w))
  | IBytes _ => True
  | IString s => Forall (fun x => x <> 0) s /\ len s + 1 < 2 ^ 31
  | IAlign k => 0 <= k
  end.

(** A bound of the bytes an item takes at any offset. *)
Definition cost (it : item) : Z :=
  match it with
  | IScalar _ _ => 16
  | IBytes l => len l
  | IString s => len s + 1
  | IAlign k => 2 ^ k
  end.

Fixpoint cost_all (its : list item) : Z :=
  match its with [] => 0 | it :: its' => cost it + cost_all its' end.

Lemma enc_cost off it : 0 <= off -> item_ok it -> len (enc off it) <= cost it.
Proof.
  intros Ho Hi. destruct it as [w v|l|s|k]; simpl in *.
  - destruct (up_spec (log_of w) off) as [Hup _]; [by destruct w|].
    unfold zeros. rewrite length_app, length_replicate, length_le_bytes. destruct w; simpl in *; lia.
  - lia.
  - rewrite length_app. simpl. lia.
  - destruct (up_spec k off) as [Hup _]; [done|]. unfold zeros. rewrite length_replicate. lia.
Qed.

Lemma cost_nonneg it : item_ok it -> 0 <= cost it.
Proof. destruct it as [w v|l|s|k]; simpl; intros; try lia; apply Z.pow_nonneg; lia. Qed.

Lemma cost_all_nonneg its : Forall item_ok its -> 0 <= cost_all its.
Proof. induction 1 as [|it its Hi His IH]; simpl; [done|]. pose proof (cost_nonneg it Hi). lia. Qed.

Lemma encode_cost off its : 0 <= off -> Forall item_ok its -> len (encode off its) <= cost_all its.
Proof.
  intros Ho Hi. revert off Ho. induction Hi as [|it its Hi His IH]; intros off Ho; simpl; [lia|].
  rewrite length_app. pose proof (enc_cost off it Ho Hi).
  pose proof (IH (off + len (enc off it)) ltac:(lia)). lia.
Qed.

Section Items.
Context (realloc_ok : Z -> bool) (fresh : Z -> Z).

Definition write_item (b : blob) (it : item) : res (blob * bool) :=
  match it with
  | IScalar W8 v => blob_write_uint8 realloc_ok fresh b v
  | IScalar W16 v => blob_write_uint16 realloc_ok fresh b v
  | IScalar W32 v => blob_write_uint32 realloc_ok fresh b v
  | IScalar W64 v => blob_write_uint64 realloc_ok fresh b v
  | IScalar WPtr v => blob_write_intptr realloc_ok fresh b v
  | IBytes l => blob_write_bytes realloc_ok fresh b l
  | IString s => blob_write_string realloc_ok fresh b s
  | IAlign k => blob_align realloc_ok fresh b (2 ^ k)
  end.

Fixpoint write_items (b : blob) (its : list item) : res (blob * list bool) :=
  match its with
  | [] => Ok (b, [])
  | it :: its' =>
      let* r := write_item b it in
      let* r' := write_items (fst r) its' in
      Ok (fst r', snd r :: snd r')
  end.

Definition read_scalar (w : width) (r : blob_reader) : res (blob_reader * Z) :=
  match w with
  | W8 => blob_read_uint8 r
  | W16 => blob_read_uint16 r
  | W32 => blob_read_uint32 r
  | W64 => blob_read_uint64 r
  | WPtr => blob_read_intptr r
  end.

Definition read_item (r : blob_reader) (s : shape) : res (blob_reader * option item) :=
  match s with
  | SScalar w => let* p := read_scalar w r in Ok (fst p, Some (IScalar w (snd p)))
  | SBytes n => let* p := blob_read_bytes r n in Ok (fst p, IBytes <$> snd p)
  | SString => let* p := blob_read_string r in Ok (fst p, IString <$> snd p)
  | SAlign k => let* r' := blob_reader_align r (2 ^ k) in Ok (r', Some (IAlign k))
  end.

Fixpoint read_items (r : blob_reader) (ss : list shape) : res (blob_reader * list (option item)) :=
  match ss with
  | [] => Ok (r, [])
  | s :: ss' =>
      let* p := read_item r s in
      let* p' := read_items (fst p) ss' in
      Ok (fst p', snd p :: snd p')
  end.

(** ** Writing *)

(** [p] is what was appended to [c] of the bytes [e]: all of them, unless memory ran out;
    nothing is appended once it has. *)
Record wrote (b : blob) (c e : list Z) (b' : blob) (p : list Z) : Prop := {
  wr_prefix : p `prefix_of` e;
  wr_holds : holds b' (c ++ p);
  wr_kind : same_kind b b';
  wr_sticky : out_of_memory b = true -> p = [] /\ out_of_memory b' = true;
  wr_all : out_of_memory b' = false -> p = e;
  wr_ample : forall t, ample realloc_ok b t -> len c + len e <= t -> ample realloc_ok b' t
}.

Lemma wrote_nil b c : holds b c -> wrote b c [] b [].
Proof. intros. split; rewrite ?app_nil_r; done. Qed.

Lemma wrote_app b c p e1 e2 e2' b1 b2 p2 :
  wrote b c e1 b1 p -> wrote b1 (c ++ p) e2' b2 p2 -> (p = e1 -> e2' = e2) ->
  exists p', wrote b c (e1 ++ e2) b2 p'.
Proof.
  intros [Hp Hh Hk Hs Ha Hm] [Hp2 Hh2 Hk2 Hs2 Ha2 Hm2] He. exists (p ++ p2). split.
  - destruct (out_of_memory b1) eqn:E.
    + destruct (Hs2 eq_refl) as [-> _]. rewrite app_nil_r. by apply prefix_app_r.
    + rewrite (Ha eq_refl). apply prefix_app. by rewrite <- He by auto.
  - by rewrite (assoc_L (++)).
  - by etrans.
  - intros Ho. destruct (Hs Ho) as [-> E]. by destruct (Hs2 E) as [-> ?].
  - intros Ho. destruct (out_of_memory b1) eqn:E; [by destruct (Hs2 eq_refl); congruence|].
    rewrite (Ha2 Ho), (Ha eq_refl). by rewrite He by auto.
  - intros t Ht. rewrite length_app. intros Hle. specialize (Hm t Ht ltac:(lia)).
    destruct Hm as [Eo Hm]. apply Hm2; [by split|].
    rewrite length_app, He, (Ha Eo) by auto. lia.
Qed.

Lemma write_bytes_wrote b c e :
  holds b c -> len c + len e < 2 ^ 62 ->
  exists b' ok p, blob_write_bytes realloc_ok fresh b e = Ok (b', ok) /\ wrote b c e b' p /\
    (out_of_memory b' = false -> ok = true).
Proof.
  intros Hb Hl. unfold blob_write_bytes.
  destruct (grow_spec realloc_ok fresh b c (len e) Hb) as (b1 & ok & -> & H1 & Hk & Ho & Hm); [lia|done|].
  destruct ok.
  - destruct Ho as (Eo & Eo1 & Hfit). destruct (store_spec b1 c e H1 Hfit) as (b2 & -> & H2 & Hk2 & Eo2 & Ea2).
    simpl. exists b2, true, e. split; [done|]. split; [|done]. split; [done|done|by etrans|congruence|done|].
    intros t Ht Hle. destruct (Hm t Ht Hle) as [_ [_ Hm1]]. split; [congruence|].
    destruct Hk2 as [-> _]. by rewrite Ea2.
  - exists b1, false, []. split; [done|]. split; [|congruence]. rewrite <- (app_nil_r c) in H1.
    split; [apply prefix_nil|done|done|done|congruence|].
    intros t Ht Hle. by destruct (Hm t Ht Hle).
Qed.

Lemma align_wrote b c k :
  holds b c -> 0 <= k -> len c + 2 ^ k < 2 ^ 62 ->
  exists b' ok p, blob_align realloc_ok fresh b (2 ^ k) = Ok (b', ok) /\
    wrote b c (zeros k (len c)) b' p /\ (out_of_memory b' = false -> ok = true).
Proof.
  intros Hb Hk Hl. pose proof (Z.pow_pos_nonneg 2 k ltac:(lia) Hk).
  assert (k < 62) by (apply (Z.pow_lt_mono_r_iff 2); lia).
  destruct (up_spec k (len c) Hk) as [Hup _]. unfold blob_align, zeros.
  rewrite (h_size _ _ Hb), align_uintptr_up by lia. cbn [res_bind].
  set (n := Z.to_nat (up k (len c) - len c)).
  destruct (Z.ltb_spec (len c) (up k (len c))) as [Hlt|Hge].
  - destruct (write_bytes_wrote b c (replicate n 0)) as (b2 & ok & p & E & Hw & Hok);
      [done|rewrite length_replicate; lia|].
    exists b2, ok, p. split; [|done]. rewrite <- E. unfold blob_write_bytes.
    rewrite length_replicate. replace (Z.of_nat n) with (up k (len c) - len c) by lia.
    destruct (grow_spec realloc_ok fresh b c (up k (len c) - len c) Hb) as (b1 & ok1 & -> & H1 & _);
      [lia|lia|]. destruct ok1; [|done]. by rewrite (h_size _ _ H1).
  - replace n with O by lia. exists b, true, []. split; [done|]. split; [by apply wrote_nil|done].
Qed.

Lemma write_type_wrote b c w v :
  holds b c -> len c + 16 < 2 ^ 62 ->
  exists b' ok p, blob_write_type realloc_ok fresh (bytes_of w) b v = Ok (b', ok) /\
    wrote b c (enc (len c) (IScalar w v)) b' p /\ (out_of_memory b' = false -> ok = true).
Proof.
  intros Hb Hl. unfold blob_write_type.
  replace (Z.of_nat (bytes_of w)) with (2 ^ log_of w) by by destruct w.
  destruct (align_wrote b c (log_of w) Hb) as (b1 & ok1 & p1 & -> & Hw1 & _);
    [by destruct w|destruct w; simpl; lia|]. cbn [res_bind fst].
  pose proof (prefix_length _ _ (wr_prefix _ _ _ _ _ Hw1)) as Hlp.
  destruct (up_spec (log_of w) (len c)) as [Hup _]; [by destruct w|].
  assert (2 ^ log_of w <= 8 /\ (bytes_of w <= 8)%nat) as [? ?] by (destruct w; simpl; lia).
  unfold zeros in Hlp. rewrite length_replicate in Hlp.
  destruct (write_bytes_wrote b1 (c ++ p1) (le_bytes (bytes_of w) v)) as (b2 & ok & p2 & -> & Hw2 & Hok);
    [apply Hw1|rewrite length_app, length_le_bytes; lia|].
  destruct (wrote_app _ _ _ _ (le_bytes (bytes_of w) v) _ _ _ _ Hw1 Hw2) as [p Hw]; [done|].
  by exists b2, ok, p.
Qed.

Lemma write_item_wrote b c it :
  holds b c -> item_ok it -> len c + cost it < 2 ^ 62 ->
  exists b' ok p, write_item b it = Ok (b', ok) /\ wrote b c (enc (len c) it) b' p /\
    (out_of_memory b' = false -> ok = true).
Proof.
  intros Hb Hi Hl. destruct it as [w v|l|s|k]; simpl in Hl.
  - destruct (write_type_wrote b c w v Hb Hl) as (b' & ok & p & E & Hw).
    exists b', ok, p. split; [|done]. by destruct w.
  - by apply write_bytes_wrote.
  - apply (write_bytes_wrote b c (s ++ [0])); [done|]. rewrite length_app; simpl. lia.
  - by apply align_wrote.
Qed.

Lemma write_items_wrote its b c :
  holds b c -> Forall item_ok its -> len c + cost_all its < 2 ^ 62 ->
  exists b' oks p, write_items b its = Ok (b', oks) /\ wrote b c (encode (len c) its) b' p /\
    (out_of_memory b' = false -> oks = replicate (length its) true).
Proof.
  intros Hb Hi. revert b c Hb. induction Hi as [|it its Hi His IH]; intros b c Hb Hl; simpl in *.
  { exists b, [], []. split; [done|]. split; [by apply wrote_nil|done]. }
  pose proof (cost_all_nonneg its His).
  destruct (write_item_wrote b c it Hb Hi) as (b1 & ok & p & -> & Hw1 & Hok); [lia|]. cbn [res_bind fst snd].
  pose proof (prefix_length _ _ (wr_prefix _ _ _ _ _ Hw1)) as Hlp.
  pose proof (enc_cost (len c) it ltac:(lia) Hi).
  destruct (IH b1 (c ++ p)) as (b2 & oks & p2 & -> & Hw2 & Hoks); [apply Hw1|rewrite length_app; lia|].
  cbn [res_bind fst snd].
  destruct (wrote_app _ _ _ _ (encode (len c + len (enc (len c) it)) its) _ _ _ _ Hw1 Hw2) as [p' Hw].
  { intros ->. by rewrite length_app, Nat2Z.inj_add. }
  exists b2, (ok :: oks), p'. split; [done|]. split; [done|]. intros Ho.
  rewrite (Hoks Ho), Hok; [done|].
  destruct (out_of_memory b1) eqn:E; [|done]. destruct (wr_sticky _ _ _ _ _ Hw2 E). congruence.
Qed.
End Items.

(** ** Reading *)

(** The reader stands at [off], before the bytes [rest]. *)
Record reads_at (r : blob_reader) (off : Z) (rest : list Z) : Prop := {
  ra_overrun : overrun r = false;
  ra_current : current r = off;
  ra_off : 0 <= off;
  ra_end : r_end r = len (r_data r);
  ra_len : off + len rest = len (r_data r);
  ra_rest : drop (Z.to_nat off) (r_data r) = rest
}.

Lemma reads_advance r off e rest n :
  reads_at r off (e ++ rest) -> n = off + len e -> reads_at (set_current r n) n rest.
Proof.
  intros [] ->. rewrite length_app in *. split; simpl; try done; try lia.
  rewrite Z2Nat.inj_add, Nat2Z.id, <- drop_drop, ra_rest0, drop_app_length by lia. done.
Qed.

Lemma read_bytes_spec r off e rest :
  reads_at r off (e ++ rest) ->
  exists r', blob_read_bytes r (len e) = Ok (r', Some e) /\ reads_at r' (off + len e) rest.
Proof.
  intros Hr. pose proof Hr as []. rewrite length_app in *.
  unfold blob_read_bytes, ensure_can_read, bytes_at.
  rewrite ra_overrun0, ra_current0, ra_end0.
  destruct (Z.leb_spec off (len (r_data r))), (Z.leb_spec (len e) (len (r_data r) - off)); try lia.
  simpl. destruct (Z.ltb_spec (len (r_data r)) (current r + len e)); [lia|]. simpl.
  eexists. rewrite ra_current0, ra_rest0, Nat2Z.id, take_app_length. split; [done|].
  by eapply reads_advance.
Qed.

Lemma reader_align_spec r off k rest :
  reads_at r off (zeros k off ++ rest) -> 0 <= k -> off + 2 ^ k < 2 ^ 62 ->
  exists r', blob_reader_align r (2 ^ k) = Ok r' /\ reads_at r' (up k off) rest.
Proof.
  intros Hr Hk Hl. pose proof Hr as []. pose proof (Z.pow_pos_nonneg 2 k ltac:(lia) Hk).
  assert (k < 62) by (apply (Z.pow_lt_mono_r_iff 2); lia).
  destruct (up_spec k off Hk) as [Hup _].
  unfold blob_reader_align. rewrite ra_current0, align_uintptr_up by lia. simpl.
  eexists. split; [done|]. eapply reads_advance; [done|]. unfold zeros. rewrite length_replicate. lia.
Qed.

Lemma read_type_spec r off w v rest :
  reads_at r off (enc off (IScalar w v) ++ rest) -> item_ok (IScalar w v) -> off + 16 < 2 ^ 62 ->
  exists r', blob_read_type (bytes_of w) r = Ok (r', v) /\
    reads_at r' (off + len (enc off (IScalar w v))) rest.
Proof.
  intros Hr Hv Hl. cbn [enc item_ok] in *. rewrite <- (assoc_L (++)) in Hr. unfold blob_read_type.
  replace (Z.of_nat (bytes_of w)) with (2 ^ log_of w) in |- * by by destruct w.
  destruct (reader_align_spec r off (log_of w) _ Hr) as (r1 & -> & Hr1);
    [by destruct w|destruct w; simpl; lia|]. cbn [res_bind]. unfold blob_copy_bytes.
  destruct (read_bytes_spec r1 _ _ _ Hr1) as (r2 & E & Hr2).
  rewrite !length_le_bytes in *. rewrite E. cbn [res_bind fst snd].
  replace (Z.of_nat (bytes_of w) =? 0) with false by by destruct w.
  exists r2. rewrite of_le_bytes_le by done. split; [done|].
  destruct (up_spec (log_of w) off) as [Hup _]; [by destruct w|].
  rewrite length_app, length_le_bytes. unfold zeros. rewrite length_replicate.
  replace (off + _) with (up (log_of w) off + Z.of_nat (bytes_of w)) by lia. done.
Qed.

Lemma read_string_spec r off s rest :
  reads_at r off ((s ++ [0]) ++ rest) -> item_ok (IString s) ->
  exists r', blob_read_string r = Ok (r', Some s) /\ reads_at r' (off + len (s ++ [0])) rest.
Proof.
  intros Hr [Hs Hlen]. pose proof Hr as []. rewrite !length_app in *. simpl in *.
  unfold blob_read_string, bytes_at, ensure_can_read.
  destruct (Z.leb_spec (r_end r) (current r)); [lia|].
  destruct (Z.ltb_spec (len (r_data r)) (current r + (r_end r - current r))); [lia|].
  rewrite ra_current0, ra_rest0. cbn [res_bind].
  rewrite (take_ge _ (Z.to_nat (r_end r - off))) by (rewrite !length_app; simpl; lia).
  rewrite <- (assoc_L (++)). simpl app. rewrite memchr0_spec by done.
  assert (i32 (len s + 1) = len s + 1) as Ei by (unfold i32; rewrite Z.mod_small; lia).
  rewrite Ei, u64_small, ra_overrun0 by (unfold in_u64; lia).
  destruct (Z.leb_spec off (r_end r)), (Z.leb_spec (len s + 1) (r_end r - off)); try lia.
  simpl. rewrite Nat2Z.id, take_app_length. eexists. split; [done|].
  replace (off + Z.of_nat (length s + 1)) with (off + len (s ++ [0])) by (rewrite length_app; done).
  replace (current r + (len s + 1)) with (off + len (s ++ [0])) by (rewrite length_app; simpl; lia).
  by eapply reads_advance.
Qed.

Lemma read_item_spec r off it rest :
  reads_at r off (enc off it ++ rest) -> item_ok it -> off + cost it < 2 ^ 62 ->
  exists r', read_item r (shape_of it) = Ok (r', Some it) /\
    reads_at r' (off + len (enc off it)) rest.
Proof.
  intros Hr Hi Hl. destruct it as [w v|l|s|k]; cbn [read_item shape_of].
  - destruct (read_type_spec r off w v rest Hr Hi Hl) as (r' & E & Hr').
    exists r'. split; [|done]. destruct w; cbn [read_scalar]; unfold blob_read_uint8, blob_read_uint16,
      blob_read_uint32, blob_read_uint64, blob_read_intptr; cbn [bytes_of] in E; by rewrite E.
  - destruct (read_bytes_spec r off l rest Hr) as (r' & -> & Hr'). by exists r'.
  - destruct (read_string_spec r off s rest Hr Hi) as (r' & -> & Hr'). by exists r'.
  - destruct (reader_align_spec r off k rest Hr Hi Hl) as (r' & -> & Hr'). exists r'. split; [done|].
    destruct (up_spec k off Hi) as [Hup _]. cbn [enc]. unfold zeros. rewrite length_replicate.
    by replace (off + _) with (up k off) by lia.
Qed.

Lemma read_items_spec its r off :
  reads_at r off (encode off its) -> Forall item_ok its -> off + cost_all its < 2 ^ 62 ->
  exists r', read_items r (shape_of <$> its) = Ok (r', Some <$> its) /\
    reads_at r' (off + len (encode off its)) [].
Proof.
  intros Hr Hi. revert r off Hr. induction Hi as [|it its Hi His IH]; intros r off Hr Hl.
  { exists r. split; [done|]. simpl. by rewrite Z.add_0_r. }
  rewrite !fmap_cons. cbn [read_items encode cost_all] in *. pose proof (cost_all_nonneg its His). pose proof (enc_cost off it (ra_off _ _ _ Hr) Hi).
  destruct (read_item_spec r off it _ Hr Hi) as (r1 & -> & Hr1); [lia|]. cbn [res_bind fst snd].
  destruct (IH r1 _ Hr1) as (r2 & -> & Hr2); [lia|]. exists r2. split; [done|].
  rewrite length_app, Nat2Z.inj_add, Z.add_assoc. done.
Qed.

(** ** The contract of the library *)

Lemma init_holds : holds blob_init [].
Proof. split; simpl; try done; try lia. Qed.

(** The buffer [blob_finish_get_buffer] hands over. *)
Lemma finish_buffer fresh b c :
  holds b c -> (b_data b = None -> c = []) -> blob_finish_get_buffer fresh b = (c, len c).
Proof.
  intros [Es Hf _ Hd] Hn. unfold blob_finish_get_buffer. rewrite Es. f_equal.
  unfold realloc. destruct (b_data b) as [l|]; simpl.
  - destruct Hd as [Hl Ht]. rewrite Nat2Z.id, Ht. rewrite (proj2 (Z.sub_nonpos _ _)) || idtac.
    replace (seqZ (len l) (len c - len l)) with (@nil Z); [apply app_nil_r|].
    unfold seqZ. by replace (Z.to_nat (len c - len l)) with O by lia.
  - by rewrite Hn, take_nil.
Qed.

(** C21: what is written is read back.  Into a growing blob whose [realloc] succeeds, any
    scalars, byte arrays, strings and alignments are written, each call returning true, and
    the buffer handed over holds exactly their layout; a reader over it that asks for the
    same sequence gets the same values, has not overrun and stands at the end. *)
Theorem blob_roundtrip realloc_ok fresh its :
  (forall n, realloc_ok n = true) -> Forall item_ok its -> cost_all its < 2 ^ 62 ->
  exists b r, write_items realloc_ok fresh blob_init its = Ok (b, replicate (length its) true) /\
    blob_finish_get_buffer fresh b = (encode 0 its, len (encode 0 its)) /\
    read_items (blob_reader_init (encode 0 its) (len (encode 0 its))) (shape_of <$> its)
      = Ok (r, Some <$> its) /\
    overrun r = false /\ current r = r_end r.
Proof.
  intros Hre Hi Hl.
  destruct (write_items_wrote realloc_ok fresh its blob_init [] init_holds Hi Hl)
    as (b & oks & p & E & Hw & Hok). change (len []) with 0 in Hw.
  destruct (wr_ample _ _ _ _ _ _ Hw (len (encode 0 its))) as [Eo _]; [done|done|].
  rewrite (Hok Eo) in E. rewrite (wr_all _ _ _ _ _ _ Hw Eo) in Hw.
  destruct (read_items_spec its (blob_reader_init (encode 0 its) (len (encode 0 its))) 0) as (r & Er & Hr);
    [split; simpl; done || lia|done|lia|].
  exists b, r. split; [done|]. split.
  - apply finish_buffer; [apply Hw|]. intros Hn. pose proof (wr_holds _ _ _ _ _ _ Hw) as [_ Hf _ Hd].
    rewrite Hn in Hd. destruct (wr_kind _ _ _ _ _ _ Hw) as [Ek _]. simpl in *.
    destruct Hd as [?|Hd]; [congruence|]. apply nil_length_inv. lia.
  - split; [done|]. split; [apply Hr|]. rewrite (ra_current _ _ _ Hr).
    pose proof (ra_len _ _ _ Hr). rewrite (ra_end _ _ _ Hr). simpl in *. lia.
Qed.

Definition sample_items : list item :=
  [IScalar W8 7; IScalar W32 0x11223344; IString [65; 66]; IBytes [1; 0; 255]; IAlign 4;
   IScalar WPtr 0x7fffffffffff; IScalar W16 0xffff].

Lemma blob_roundtrip_witness :
  Forall item_ok sample_items /\
  exists b r, write_items (fun _ => true) (fun _ => 0xcd) blob_init sample_items
      = Ok (b, replicate 7 true) /\
    read_items (blob_reader_init (encode 0 sample_items) 26) (shape_of <$> sample_items)
      = Ok (r, Some <$> sample_items) /\ overrun r = false.
Proof.
  assert (Forall item_ok sample_items) as Hi.
  { repeat constructor; try lia; try discriminate. }
  split; [exact Hi|].
  destruct (blob_roundtrip (fun _ => true) (fun _ => 0xcd) sample_items) as (b & r & H1 & _ & H2 & H3 & _);
    [reflexivity|exact Hi|reflexivity|].
  exists b, r. split; [exact H1|]. split; [exact H2|exact H3].
Defined.

(** C22: a blob without a buffer measures.  Written to [blob_init_fixed(NULL, SIZE_MAX)], the
    items succeed and leave the size of their layout.  In a fixed buffer of [cap] bytes the
    same calls all succeed when [cap] is at least that size, and the buffer then begins with
    the layout; when it is smaller the blob ends out of memory, having written a prefix of
    the layout, and never past the buffer. *)
Theorem blob_measure realloc_ok fresh its :
  Forall item_ok its -> cost_all its < 2 ^ 62 ->
  (exists b, write_items realloc_ok fresh (blob_init_fixed None (2 ^ 64 - 1)) its
      = Ok (b, replicate (length its) true) /\ b_size b = len (encode 0 its)) /\
  forall buf, len buf < 2 ^ 64 ->
  exists b oks buf' p, write_items realloc_ok fresh (blob_init_fixed (Some buf) (len buf)) its
      = Ok (b, oks) /\ b_data b = Some buf' /\ length buf' = length buf /\
    b_size b = len p /\ take (length p) buf' = p /\ p `prefix_of` encode 0 its /\
    if len (encode 0 its) <=? len buf
    then p = encode 0 its /\ oks = replicate (length its) true
    else out_of_memory b = true.
Proof.
  intros Hi Hl. pose proof (encode_cost 0 its ltac:(lia) Hi) as Hc. split.
  - assert (holds (blob_init_fixed None (2 ^ 64 - 1)) []) as H0.
    { split; simpl; lia. }
    destruct (write_items_wrote realloc_ok fresh its _ [] H0 Hi Hl) as (b & oks & p & E & Hw & Hok).
    change (len []) with 0 in Hw.
    destruct (wr_ample _ _ _ _ _ _ Hw (len (encode 0 its))) as [Eo _]; [split; simpl; [done|lia]|done|].
    rewrite (Hok Eo) in E. exists b. split; [done|].
    rewrite (h_size _ _ (wr_holds _ _ _ _ _ _ Hw)), (wr_all _ _ _ _ _ _ Hw Eo). done.
  - intros buf Hbuf. assert (holds (blob_init_fixed (Some buf) (len buf)) []) as H0.
    { split; simpl; try lia; try done. }
    destruct (write_items_wrote realloc_ok fresh its _ [] H0 Hi Hl) as (b & oks & p & E & Hw & Hok).
    change (len []) with 0 in Hw.
    pose proof Hw as [Hpre [Es Hfit _ Hd] [_ Hkind] _ Hall Hample]. simpl in *.
    destruct (Hkind eq_refl) as [Ea Hnull].
    destruct (b_data b) as [buf'|] eqn:Ed; [|by destruct Hnull as [_ ?]; simplify_eq/=; naive_solver].
    destruct Hd as [Hlen Ht]. exists b, oks, buf', p.
    split_and!; [done|done|lia|done|done|done|].
    destruct (Z.leb_spec (len (encode 0 its)) (len buf)) as [Hle|Hgt].
    + destruct (Hample (len (encode 0 its))) as [Eo _]; [split; simpl; [done|lia]|done|]. auto.
    + destruct (out_of_memory b) eqn:Eo; [done|]. rewrite (Hall eq_refl) in Hfit. lia.
Qed.

Lemma blob_measure_witness :
  Forall item_ok sample_items /\
  exists b oks buf' p,
    write_items (fun _ => true) (fun _ => 0) (blob_init_fixed (Some (replicate 20 9)) 20) sample_items
      = Ok (b, oks) /\
    b_data b = Some buf' /\ p `prefix_of` encode 0 sample_items /\ out_of_memory b = true.
Proof.
  assert (Forall item_ok sample_items) as Hi.
  { repeat constructor; try lia; try discriminate. }
  split; [exact Hi|].
  destruct (blob_measure (fun _ => true) (fun _ => 0) sample_items Hi eq_refl) as [_ H].
  destruct (H (replicate 20 9) eq_refl) as (b & oks & buf' & p & E & Ed & _ & _ & _ & Hp & Ho).
  exists b, oks, buf', p. split; [exact E|]. split; [exact Ed|]. split; [exact Hp|exact Ho].
Defined.

(** After an overrun [blob_read_string] fails its assertion when the rest of the data still
    holds a terminator, although the header says that reads without data do nothing. *)
Lemma read_string_after_overrun :
  (let* p := blob_read_uint64 (blob_reader_init [65; 0] 2) in
   Ok (overrun (fst p), snd p)) = Ok (true, 0) /\
  (let* p := blob_read_uint64 (blob_reader_init [65; 0] 2) in blob_read_string (fst p))
    = Fault AssertFail.
Proof. split; reflexivity. Qed.
