(* ===== verification/BigMath.v ===== *)
(** Integers as arrays of 32-bit digits, least significant first ([util/bigmath.h]): addition
    and multiplication into an array of any length.  The value written is the sum or product
    modulo the size of the destination; the returned flag is exact for addition and, for
    multiplication, only ever raised when the product does not fit. *)

From stdpp Require Import list.
From S2P Require Import Prelude.

(** ** Addition *)

(** [if (i < a_len) sum += a[i]]. *)
Definition digit (a : list Z) (i : nat) : Z := if decide (i < length a)%nat then a !!! i else 0.

(** The loop over [i], and the final [carry]. *)
Fixpoint add_loop (n i : nat) (a b dst : list Z) (carry : Z) : list Z * Z :=
  match n with
  | O => (dst, carry)
  | S n' =>
      let sum := u64 (u64 (carry + digit a i) + digit b i) in
      add_loop n' (S i) a b (<[i := u32 sum]> dst) (u32 (Z.shiftr sum 32))
  end.

Definition any_digit (l : list Z) : bool := existsb (fun x => negb (x =? 0)) l.

Definition _ubm_add_u32arr (dst a b : list Z) : list Z * bool :=
  let dst_len := length dst in
  let '(dst, carry) := add_loop dst_len 0 a b dst 0 in
  (dst, if any_digit (drop dst_len a) then true
        else if any_digit (drop dst_len b) then true
        else negb (carry =? 0)).

(** ** Multiplication *)

(** The inner loop over [j]: [bs] is what is left of [b]; the result is the array, the carry
    and the flag when it ends or breaks. *)
Fixpoint mul_row (x : Z) (bs : list Z) (k : nat) (dst : list Z) (carry : Z) (overflow : bool) : list Z * Z * bool :=
  match bs with
  | [] => (dst, carry, overflow)
  | y :: bs' =>
      let tmp := u64 (u64 (x * y) + carry) in
      if decide (k < length dst)%nat then
        let tmp := u64 (tmp + dst !!! k) in
        mul_row x bs' (S k) (<[k := u32 tmp]> dst) (u32 (Z.shiftr tmp 32)) overflow
      else (dst, carry, overflow || (0 <? tmp))
  end.

(** The outer loop over [i]. *)
Fixpoint mul_rows (xs b : list Z) (i : nat) (dst : list Z) (overflow : bool) : list Z * bool :=
  match xs with
  | [] => (dst, overflow)
  | x :: xs' =>
      let '(dst, carry, overflow) := mul_row x b i dst 0 overflow in
      if decide (i + length b < length dst)%nat
      then mul_rows xs' b (S i) (<[(i + length b)%nat := carry]> dst) overflow
      else mul_rows xs' b (S i) dst (overflow || (0 <? carry))
  end.

Definition _ubm_mul_u32arr (dst_len : nat) (a b : list Z) : list Z * bool :=
  mul_rows a b 0 (replicate dst_len 0) false.

(** ** The number an array stands for *)

Fixpoint value (l : list Z) : Z :=
  match l with
  | [] => 0
  | x :: l' => x + 2 ^ 32 * value l'
  end.

Abbreviation base n := (2 ^ (32 * Z.of_nat n)).

Lemma base_S n : base (S n) = 2 ^ 32 * base n.
Proof. rewrite <- Z.pow_add_r by lia. f_equal. lia. Qed.

Lemma base_pos n : 0 < base n.
Proof. apply Z.pow_pos_nonneg; lia. Qed.

Lemma base_add m n : base (m + n) = base m * base n.
Proof. rewrite <- Z.pow_add_r by lia. f_equal. lia. Qed.

Lemma value_app l1 l2 : value (l1 ++ l2) = value l1 + base (length l1) * value l2.
Proof.
  induction l1 as [|x l1 IH]; [cbn; lia|]. cbn [app value length]. rewrite IH, base_S. lia.
Qed.

Lemma value_bounds l : Forall in_u32 l -> 0 <= value l < base (length l).
Proof.
  induction 1 as [|x l Hx Hl IH]; [cbn; lia|]. cbn [value length]. rewrite base_S. unfold in_u32 in Hx. lia.
Qed.

Lemma value_replicate n : value (replicate n 0) = 0.
Proof. induction n as [|n IH]; [done|]. cbn [replicate value]. lia. Qed.

Lemma value_insert l k y : (k < length l)%nat -> value (<[k := y]> l) = value l + (y - l !!! k) * base k.
Proof.
  revert k. induction l as [|x l IH]; intros k Hk; [cbn in Hk; lia|]. destruct k as [|k].
  - cbn. lia.
  - change (<[S k := y]> (x :: l)) with (x :: <[k := y]> l). change ((x :: l) !!! S k) with (l !!! k).
    cbn [value]. cbn [length] in Hk. rewrite IH by lia. rewrite base_S. ring.
Qed.

Lemma value_split l k : value l = value (take k l) + base (length (take k l)) * value (drop k l).
Proof. rewrite <- (take_drop k l) at 1. apply value_app. Qed.

Lemma any_digit_spec l : Forall in_u32 l -> any_digit l = false <-> value l = 0.
Proof.
  intros Hl. induction Hl as [|x l Hx Hl IH]; [done|]. unfold any_digit in *. cbn [existsb value].
  rewrite orb_false_iff, IH, negb_false_iff, Z.eqb_eq. pose proof (value_bounds l Hl). unfold in_u32 in Hx. lia.
Qed.

(** ** Addition is exact *)

Lemma digit_range l i : Forall in_u32 l -> in_u32 (digit l i).
Proof.
  intros Hl. unfold digit. destruct (decide _) as [H|H]; [|unfold in_u32; lia].
  apply (Forall_lookup_total_1 _ _ _ Hl H).
Qed.

Lemma value_digit l i : value (drop i l) = digit l i + 2 ^ 32 * value (drop (S i) l).
Proof.
  unfold digit. destruct (decide _) as [H|H].
  - rewrite (drop_S l (l !!! i) i) by (by apply list_lookup_lookup_total_lt). done.
  - rewrite !drop_ge by lia. done.
Qed.

Lemma add_loop_spec n : forall i a b dst c,
  Forall in_u32 a -> Forall in_u32 b -> Forall in_u32 dst -> (i + n = length dst)%nat -> 0 <= c < 2 ->
  let '(dst', c') := add_loop n i a b dst c in
  length dst' = length dst /\ Forall in_u32 dst' /\ take i dst' = take i dst /\ 0 <= c' < 2 /\
  value (drop i dst') + base n * (c' + value (drop (i + n) a) + value (drop (i + n) b)) =
  c + value (drop i a) + value (drop i b).
Proof.
  induction n as [|n IH]; intros i a b dst c Ha Hb Hd Hn Hc; cbn [add_loop].
  { do 4 (split; [done|]). rewrite Nat.add_0_r, (drop_ge dst) by lia. cbn [value]. change (base 0) with 1. lia. }
  pose proof (digit_range a i Ha) as Da. pose proof (digit_range b i Hb) as Db. unfold in_u32 in Da, Db.
  rewrite (u64_small (c + digit a i)) by (unfold in_u64; lia). rewrite u64_small by (unfold in_u64; lia).
  set (s := c + digit a i + digit b i). rewrite shiftr_div by lia.
  assert (Hs : 0 <= s / 2 ^ 32 < 2 /\ s = u32 s + 2 ^ 32 * (s / 2 ^ 32)).
  { pose proof (Z.div_mod s (2 ^ 32) ltac:(lia)). unfold u32. split; [|lia].
    split; [apply Z.div_pos; lia|apply Z.div_lt_upper_bound; lia]. }
  rewrite (u32_small (s / 2 ^ 32)) by (unfold in_u32; lia).
  specialize (IH (S i) a b (<[i := u32 s]> dst) (s / 2 ^ 32) Ha Hb).
  destruct (add_loop n (S i) a b (<[i := u32 s]> dst) (s / 2 ^ 32)) as [dst' c'].
  destruct IH as (L & F & T & C & E); [|rewrite length_insert; lia|lia|].
  { apply Forall_insert; [done|apply u32_range]. }
  rewrite length_insert in L. split; [done|]. split; [done|].
  assert (Hi : dst' !!! i = u32 s).
  { apply list_lookup_total_correct. rewrite <- (lookup_take_lt dst' (S i)) by lia. rewrite T, lookup_take_lt by lia.
    apply list_lookup_insert_eq. lia. }
  split.
  { rewrite <- (Nat.min_l i (S i)) at 1 by lia. rewrite <- take_take, T, take_take, Nat.min_l by lia.
    apply take_insert_ge. lia. }
  split; [done|].
  rewrite (value_digit dst' i), (value_digit a i), (value_digit b i).
  unfold digit at 1. rewrite decide_True by lia. rewrite Hi, base_S.
  replace (i + S n)%nat with (S i + n)%nat by lia.
  set (X := c' + _ + _) in *. lia.
Qed.

Lemma ubm_add_ok dst a b :
  Forall in_u32 a -> Forall in_u32 b -> Forall in_u32 dst ->
  let '(dst', overflow) := _ubm_add_u32arr dst a b in
  length dst' = length dst /\ Forall in_u32 dst' /\
  value dst' = (value a + value b) mod base (length dst) /\
  (overflow = true <-> base (length dst) <= value a + value b).
Proof.
  intros Ha Hb Hd. unfold _ubm_add_u32arr.
  pose proof (add_loop_spec (length dst) 0 a b dst 0 Ha Hb Hd ltac:(lia) ltac:(lia)) as H.
  destruct (add_loop _ _ _ _ _ _) as [dst' c']. destruct H as (L & F & _ & C & E).
  rewrite !drop_0, !Nat.add_0_l, Z.add_0_l in E. split; [done|]. split; [done|].
  assert (Fa : Forall in_u32 (drop (length dst) a)) by (by apply Forall_drop).
  assert (Fb : Forall in_u32 (drop (length dst) b)) by (by apply Forall_drop).
  pose proof (value_bounds _ F) as Hv. rewrite L in Hv. pose proof (value_bounds _ Fa). pose proof (value_bounds _ Fb).
  pose proof (base_pos (length dst)) as Hb0. set (B := base (length dst)) in *.
  set (X := c' + value (drop (length dst) a) + value (drop (length dst) b)) in *.
  split; [apply (Z.mod_unique_pos _ _ X); lia|].
  pose proof (any_digit_spec _ Fa) as Za. pose proof (any_digit_spec _ Fb) as Zb.
  assert (HX : base (length dst) <= value a + value b <-> X <> 0) by (fold B; nia). fold B in HX. rewrite HX.
  destruct (any_digit (drop (length dst) a)); [|destruct (any_digit (drop (length dst) b))].
  - split; [|done]. intros _ ?. assert (value (drop (length dst) a) = 0) as [=]%Za by lia.
  - split; [|done]. intros _ ?. assert (value (drop (length dst) b) = 0) as [=]%Zb by lia.
  - rewrite negb_true_iff, Z.eqb_neq. pose proof (proj1 Za eq_refl). pose proof (proj1 Zb eq_refl). lia.
Qed.

(** ** Multiplication *)

(** One digit of a row fits in 64 bits. *)
Lemma mul_digit x y c d :
  in_u32 x -> in_u32 y -> in_u32 c -> in_u32 d ->
  let tmp := u64 (u64 (u64 (x * y) + c) + d) in
  tmp = x * y + c + d /\ in_u32 (Z.shiftr tmp 32) /\ tmp = u32 tmp + 2 ^ 32 * Z.shiftr tmp 32.
Proof.
  intros Hx Hy Hc Hd. unfold in_u32 in *. assert (0 <= x * y <= (2 ^ 32 - 1) * (2 ^ 32 - 1)) by nia.
  rewrite (u64_small (x * y)), (u64_small (x * y + c)), u64_small by (unfold in_u64; lia). cbv zeta.
  rewrite shiftr_div by lia. set (t := x * y + c + d) in *. pose proof (Z.div_mod t (2 ^ 32) ltac:(lia)).
  unfold u32. split; [done|]. split; [|lia]. split; [apply Z.div_pos; lia|apply Z.div_lt_upper_bound; lia].
Qed.

(** A row that fits adds [x] times the digits, the carry going beyond them. *)
Lemma mul_row_fits x bs : forall k dst c o,
  in_u32 x -> Forall in_u32 bs -> Forall in_u32 dst -> in_u32 c -> (k + length bs <= length dst)%nat ->
  let '(dst', c', o') := mul_row x bs k dst c o in
  length dst' = length dst /\ Forall in_u32 dst' /\ in_u32 c' /\ o' = o /\
  drop (k + length bs) dst' = drop (k + length bs) dst /\
  value dst + base k * (c + x * value bs) = value dst' + base (k + length bs) * c'.
Proof.
  induction bs as [|y bs IH]; intros k dst c o Hx Hb Hd Hc Hk; cbn [mul_row].
  { do 5 (split; [done|]). rewrite Nat.add_0_r. cbn [value]. ring. }
  cbn [length] in Hk. inversion_clear Hb as [|? ? Hy Hb']. rewrite decide_True by lia. cbv zeta.
  assert (Hdk : in_u32 (dst !!! k)) by (apply (Forall_lookup_total_1 _ _ _ Hd); lia).
  destruct (mul_digit x y c (dst !!! k) Hx Hy Hc Hdk) as (E1 & Hc' & E2). cbv zeta in *.
  set (t := u64 (u64 (u64 (x * y) + c) + dst !!! k)) in *. rewrite (u32_small _ Hc').
  specialize (IH (S k) (<[k := u32 t]> dst) (Z.shiftr t 32) o Hx Hb').
  destruct (mul_row x bs (S k) _ _ o) as [[dst' c'] o'].
  destruct IH as (L & F & C & O & Dr & V); [apply Forall_insert; [done|apply u32_range]|done|rewrite length_insert; lia|].
  rewrite length_insert in L. do 4 (split; [done|]). replace (k + length (y :: bs))%nat with (S k + length bs)%nat by (cbn; lia).
  split; [rewrite Dr; apply drop_insert_lt; lia|].
  rewrite <- V, value_insert, base_S by lia. cbn [value]. 
  replace (u32 t) with (x * y + c + dst !!! k - 2 ^ 32 * Z.shiftr t 32) by lia. ring.
Qed.

(** A row that does not fit breaks off: the rest is a multiple of the array's size, and a
    carry or a raised flag means that it is not zero. *)
Lemma mul_row_breaks x bs : forall k dst c o,
  in_u32 x -> Forall in_u32 bs -> Forall in_u32 dst -> in_u32 c -> (length dst < k + length bs)%nat ->
  let '(dst', c', o') := mul_row x bs k dst c o in
  length dst' = length dst /\ Forall in_u32 dst' /\ in_u32 c' /\
  exists rest, 0 <= rest /\ (0 < c' \/ o' = true -> o = true \/ 0 < rest) /\
    value dst + base k * (c + x * value bs) = value dst' + base (length dst) * rest.
Proof.
  induction bs as [|y bs IH]; intros k dst c o Hx Hb Hd Hc Hk; cbn [length] in Hk; cbn [mul_row].
  { do 3 (split; [done|]). rewrite Nat.add_0_r in Hk.
    exists (base (k - length dst) * c). pose proof (base_pos (k - length dst)). unfold in_u32 in Hc.
    split; [nia|]. split; [intros [|]; [right; nia|by left]|].
    rewrite Z.mul_assoc, <- base_add. replace (length dst + (k - length dst))%nat with k by lia. cbn [value]. ring. }
  inversion_clear Hb as [|? ? Hy Hb']. cbv zeta. destruct (decide _) as [Hlt|Hge].
  - assert (Hdk : in_u32 (dst !!! k)) by (apply (Forall_lookup_total_1 _ _ _ Hd); lia).
    destruct (mul_digit x y c (dst !!! k) Hx Hy Hc Hdk) as (E1 & Hc' & E2). cbv zeta in *.
    set (t := u64 (u64 (u64 (x * y) + c) + dst !!! k)) in *. rewrite (u32_small _ Hc').
    specialize (IH (S k) (<[k := u32 t]> dst) (Z.shiftr t 32) o Hx Hb').
    destruct (mul_row x bs (S k) _ _ o) as [[dst' c'] o'].
    destruct IH as (L & F & C & rest & R & O & V); [apply Forall_insert; [done|apply u32_range]|done|rewrite length_insert; lia|].
    rewrite length_insert in L, V. do 3 (split; [done|]). exists rest. split; [done|]. split; [done|].
    rewrite <- V, value_insert, base_S by lia. cbn [value].
    replace (u32 t) with (x * y + c + dst !!! k - 2 ^ 32 * Z.shiftr t 32) by lia. ring.
  - do 3 (split; [done|]). exists (base (k - length dst) * (c + x * value (y :: bs))).
    pose proof (base_pos (k - length dst)). pose proof (value_bounds bs Hb') as Hv. unfold in_u32 in *.
    assert (H1 : 0 <= x * value bs) by nia. assert (H2 : 0 <= x * y) by nia.
    assert (H3 : x * value (y :: bs) = x * y + 2 ^ 32 * (x * value bs)) by (cbn [value]; ring).
    assert (x * y <= (2 ^ 32 - 1) * (2 ^ 32 - 1)) by nia.
    rewrite (u64_small (x * y)), u64_small by (unfold in_u64; lia). split; [nia|].
    split.
    + intros [Hp|Ho]; [right; nia|]. apply orb_true_iff in Ho as [|Ht%Z.ltb_lt]; [by left|right]. nia.
    + rewrite Z.mul_assoc, <- base_add. replace (length dst + (k - length dst))%nat with k by lia. ring.
Qed.

Lemma mul_rows_spec xs b : forall i dst o,
  Forall in_u32 xs -> Forall in_u32 b -> Forall in_u32 dst -> value (drop (i + length b) dst) = 0 ->
  let '(dst', o') := mul_rows xs b i dst o in
  length dst' = length dst /\ Forall in_u32 dst' /\
  exists rest, 0 <= rest /\ (o' = true -> o = true \/ 0 < rest) /\
    value dst + base i * (value xs * value b) = value dst' + base (length dst) * rest.
Proof.
  induction xs as [|x xs IH]; intros i dst o Hxs Hb Hd Hz; cbn [mul_rows].
  { do 2 (split; [done|]). exists 0. split; [done|]. split; [by left|]. cbn [value]. ring. }
  inversion_clear Hxs as [|? ? Hx Hxs'].
  destruct (decide (i + length b <= length dst)%nat) as [Hfit|Hfit].
  - pose proof (mul_row_fits x b i dst 0 o Hx Hb Hd ltac:(unfold in_u32; lia) Hfit) as R.
    destruct (mul_row x b i dst 0 o) as [[dst1 c1] o1]. destruct R as (L1 & F1 & C1 & -> & Dr & V1). rewrite Z.add_0_l in V1.
    rewrite <- Dr in Hz. destruct (decide _) as [Hlt|Hge].
    + assert (F2 : Forall in_u32 (<[(i + length b)%nat := c1]> dst1)) by (by apply Forall_insert).
      assert (Hd0 : dst1 !!! (i + length b)%nat = 0 /\ value (drop (S i + length b) dst1) = 0).
      { pose proof (value_digit dst1 (i + length b)) as E. rewrite Hz in E. unfold digit in E. rewrite decide_True in E by lia.
        pose proof (value_bounds (drop (S (i + length b)) dst1) ltac:(by apply Forall_drop)) as [Hv _].
        assert (in_u32 (dst1 !!! (i + length b)%nat)) as [Hv2 _] by (apply (Forall_lookup_total_1 _ _ _ F1); lia).
        change (S i + length b)%nat with (S (i + length b)). lia. }
      destruct Hd0 as [Hd0 Hz'].
      specialize (IH (S i) _ o Hxs' Hb F2). destruct (mul_rows xs b (S i) _ o) as [dst' o'].
      destruct IH as (L & F & rest & R & O & V); [by rewrite drop_insert_lt by lia|].
      rewrite length_insert in L, V. rewrite L1 in L, V. do 2 (split; [done|]). exists rest. do 2 (split; [done|]).
      rewrite <- V, value_insert, Hd0 by lia. rewrite base_S. cbn [value].
      replace (value dst + base i * ((x + 2 ^ 32 * value xs) * value b))
        with (value dst + base i * (x * value b) + 2 ^ 32 * base i * (value xs * value b)) by ring.
      rewrite V1. ring.
    + specialize (IH (S i) dst1 (o || (0 <? c1)) Hxs' Hb F1). destruct (mul_rows xs b (S i) _ _) as [dst' o'].
      destruct IH as (L & F & rest & R & O & V); [by rewrite drop_ge by lia|].
      rewrite L1 in L, V. do 2 (split; [done|]). exists (c1 + rest). unfold in_u32 in C1. split; [lia|]. split.
      { intros Ho. destruct (O Ho) as [Ho'|]; [|lia]. apply orb_true_iff in Ho' as [|Hc%Z.ltb_lt]; [by left|lia]. }
      replace (i + length b)%nat with (length dst) in V1 by lia. cbn [value].
      replace (value dst + base i * ((x + 2 ^ 32 * value xs) * value b))
        with (value dst + base i * (x * value b) + 2 ^ 32 * base i * (value xs * value b)) by ring.
      rewrite V1, <- base_S. lia.
  - pose proof (mul_row_breaks x b i dst 0 o Hx Hb Hd ltac:(unfold in_u32; lia) ltac:(lia)) as R.
    destruct (mul_row x b i dst 0 o) as [[dst1 c1] o1]. destruct R as (L1 & F1 & C1 & rest1 & R1 & O1 & V1).
    rewrite Z.add_0_l in V1. rewrite decide_False by lia.
    specialize (IH (S i) dst1 (o1 || (0 <? c1)) Hxs' Hb F1). destruct (mul_rows xs b (S i) _ _) as [dst' o'].
    destruct IH as (L & F & rest & R & O & V); [by rewrite drop_ge by lia|].
    rewrite L1 in L, V. do 2 (split; [done|]). exists (rest1 + rest). split; [lia|]. split.
    { intros Ho. destruct (O Ho) as [Ho'|]; [|lia]. destruct O1 as [|]; [|by left|lia].
      apply orb_true_iff in Ho' as [|Hc%Z.ltb_lt]; [by right|by left]. }
    cbn [value].
    replace (value dst + base i * ((x + 2 ^ 32 * value xs) * value b))
      with (value dst + base i * (x * value b) + 2 ^ 32 * base i * (value xs * value b)) by ring.
    rewrite V1, <- base_S. lia.
Qed.

Lemma ubm_mul_ok n a b :
  Forall in_u32 a -> Forall in_u32 b ->
  let '(dst, overflow) := _ubm_mul_u32arr n a b in
  length dst = n /\ Forall in_u32 dst /\ value dst = (value a * value b) mod base n /\
  (overflow = true -> base n <= value a * value b).
Proof.
  intros Ha Hb. unfold _ubm_mul_u32arr.
  pose proof (mul_rows_spec a b 0 (replicate n 0) false Ha Hb) as H.
  destruct (mul_rows a b 0 (replicate n 0) false) as [dst o].
  destruct H as (L & F & rest & R & O & V).
  { apply Forall_replicate. unfold in_u32. lia. }
  { rewrite drop_replicate. apply value_replicate. }
  rewrite length_replicate in L, V. rewrite value_replicate in V. change (base 0) with 1 in V.
  split; [done|]. split; [done|]. pose proof (value_bounds _ F) as Hv. rewrite L in Hv.
  split; [apply (Z.mod_unique_pos _ _ rest); lia|]. intros Ho. destruct (O Ho) as [|Hr]; [done|].
  pose proof (base_pos n). nia.
Qed.

(** C35: big-number arithmetic.  Adding and multiplying arrays of 32-bit digits writes the sum
    and the product modulo the size of the destination.  The flag of an addition is raised
    exactly when the sum does not fit; that of a multiplication only when the product does not
    fit, but a product that does not fit can go unnoticed: the inner loop stops at the first
    digit out of range, and only that digit is looked at. *)
Theorem bigmath_correct dst a b n :
  Forall in_u32 a -> Forall in_u32 b -> Forall in_u32 dst ->
  (let '(sum, overflow) := _ubm_add_u32arr dst a b in
   value sum = (value a + value b) mod base (length dst) /\
   (overflow = true <-> base (length dst) <= value a + value b)) /\
  (let '(product, overflow) := _ubm_mul_u32arr n a b in
   value product = (value a * value b) mod base n /\
   (overflow = true -> base n <= value a * value b)) /\
  (exists a' b', Forall in_u32 a' /\ Forall in_u32 b' /\ base 2 <= value a' * value b' /\
     _ubm_mul_u32arr 2 a' b' = ([0; 0], false)).
Proof.
  intros Ha Hb Hd. split; [|split].
  - pose proof (ubm_add_ok dst a b Ha Hb Hd) as H. destruct (_ubm_add_u32arr dst a b). naive_solver.
  - pose proof (ubm_mul_ok n a b Ha Hb) as H. destruct (_ubm_mul_u32arr n a b). naive_solver.
  - exists [0; 1], [0; 0; 1]. do 2 (split; [repeat constructor; unfold in_u32; lia|]).
    split; [vm_compute; discriminate|reflexivity].
Qed.

Lemma bigmath_correct_witness :
  (let '(product, overflow) := _ubm_mul_u32arr 2 [4294967295; 2] [3] in
   value product = (value [4294967295; 2] * value [3]) mod base 2 /\ (overflow = true -> base 2 <= value [4294967295; 2] * value [3])).
Proof. apply (bigmath_correct [] [4294967295; 2] [3] 2); repeat constructor; unfold in_u32; lia. Defined.
