(* ===== verification/FastDiv.v ===== *)
(** Division by constants ([util/fast_idiv_by_const.c], [fast_idiv_by_const.h]): the multiplier
    and shifts that replace a division, unsigned and signed, and the evaluation of the
    replacement on 32-bit numbers. *)

From S2P Require Import Prelude.

(** ** Integers of [util/macros.h], [util/bitscan.h] and [util/u_math.h] *)

(** A 64-bit pattern read as [int64_t]. *)
Definition i64 (x : Z) : Z := (x + 2 ^ 63) mod 2 ^ 64 - 2 ^ 63.

(** [x << s] and [x >> s] on a [uint64_t]; a shift by 64 or more is undefined. *)
Definition shl64 (x s : Z) : res Z := if s <? 64 then Ok (u64 (Z.shiftl x s)) else Fault Undefined.
Definition shr64 (x s : Z) : res Z := if s <? 64 then Ok (Z.shiftr x s) else Fault Undefined.

Definition u_uintN_max (bit_size : Z) : res Z :=
  assert! (bit_size <=? 64) && (0 <? bit_size) in shr64 (2 ^ 64 - 1) (64 - bit_size).

Definition u_intN_max (bit_size : Z) : res Z :=
  assert! (bit_size <=? 64) && (0 <? bit_size) in shr64 (2 ^ 63 - 1) (64 - bit_size).

Definition u_intN_min (bit_size : Z) : res Z := let* m := u_intN_max bit_size in Ok (- m - 1).

Definition util_is_power_of_two_or_zero64 (v : Z) : bool := Z.land v (u64 (v - 1)) =? 0.

Definition util_logbase2_64 (n : Z) : Z := Z.log2 (Z.lor n 1).

Definition util_mask_sign_extend (val width : Z) : res Z :=
  assert! (0 <? width) && (width <=? 64) in
  let shift := 64 - width in
  let* x := shl64 val shift in
  Ok (Z.shiftr (i64 x) shift).

Definition util_sign_extend (val width : Z) : res Z :=
  let* fits := if width =? 64 then Ok true else let* p := shl64 1 width in Ok (val <? p) in
  assert! fits in util_mask_sign_extend val width.

(** ** Unsigned division *)

Record util_fast_udiv_info : Type := mk_udiv {
  multiplier : Z; pre_shift : Z; post_shift : Z; increment : Z
}.

(** [for (tmp = D; tmp > 0; tmp >>= 1) ceil_log_2_D += 1]. *)
Fixpoint ceil_log_loop (fuel : nat) (tmp count : Z) : res Z :=
  if 0 <? tmp then
    match fuel with
    | O => Fault OutOfFuel
    | S fuel' => ceil_log_loop fuel' (Z.shiftr tmp 1) (count + 1)
    end
  else Ok count.

(** The loop over [exponent]; [down] is [Some (down_multiplier, down_exponent)] once
    [has_magic_down] is set.  The result is the final [exponent], [quotient] and [down]. *)
Fixpoint magic_loop (fuel : nat) (D extra_shift ceil_log_2_D exponent quotient remainder : Z)
    (down : option (Z * Z)) : res (Z * Z * option (Z * Z)) :=
  match fuel with
  | O => Fault OutOfFuel
  | S fuel' =>
      let '(quotient, remainder) :=
        if u64 (D - remainder) <=? remainder
        then (u64 (quotient * 2 + 1), u64 (remainder * 2 - D))
        else (u64 (quotient * 2), u64 (remainder * 2)) in
      let* stop := if ceil_log_2_D <=? exponent + extra_shift then Ok true
                   else let* p := shl64 1 (exponent + extra_shift) in Ok (u64 (D - remainder) <=? p) in
      if stop : bool then Ok (exponent, quotient, down)
      else
        let* p := shl64 1 (exponent + extra_shift) in
        let down' := match down with
                     | None => if remainder <=? p then Some (quotient, exponent) else None
                     | Some _ => down end in
        magic_loop fuel' D extra_shift ceil_log_2_D (exponent + 1) quotient remainder down'
  end.

(** [while ((shifted_D & 1) == 0)]. *)
Fixpoint strip_loop (fuel : nat) (shifted_D pre : Z) : res (Z * Z) :=
  if Z.land shifted_D 1 =? 0 then
    match fuel with
    | O => Fault OutOfFuel
    | S fuel' => strip_loop fuel' (Z.shiftr shifted_D 1) (pre + 1)
    end
  else Ok (shifted_D, pre).

(** The function calls itself on the odd part of [D]; [depth] bounds the calls. *)
Fixpoint udiv_info (depth : nat) (D num_bits UINT_BITS : Z) : res util_fast_udiv_info :=
  match depth with
  | O => Fault OutOfFuel
  | S depth' =>
      assert! (0 <? num_bits) && (num_bits <=? UINT_BITS) in
      assert! negb (D =? 0) in
      if util_is_power_of_two_or_zero64 D then
        let div_shift := util_logbase2_64 D in
        if negb (div_shift =? 0) then
          let* m := shl64 1 (UINT_BITS - div_shift) in Ok (mk_udiv m 0 0 0)
        else
          let* m := u_uintN_max UINT_BITS in Ok (mk_udiv m 0 0 1)
      else
        let extra_shift := UINT_BITS - num_bits in
        let* initial_power_of_2 := shl64 1 (UINT_BITS - 1) in
        let* ceil_log_2_D := ceil_log_loop 64 D 0 in
        let* r := magic_loop 65 D extra_shift ceil_log_2_D 0 (initial_power_of_2 / D)
                    (initial_power_of_2 mod D) None in
        let '(exponent, quotient, down) := r in
        if exponent <? ceil_log_2_D then Ok (mk_udiv (u64 (quotient + 1)) 0 exponent 0)
        else if negb (Z.land D 1 =? 0) then
          match down with
          | Some (m, e) => Ok (mk_udiv m 0 e 1)
          | None => Fault AssertFail
          end
        else
          let* s := strip_loop 64 D 0 in
          let '(shifted_D, pre) := s in
          let* result := udiv_info depth' shifted_D (u32 (num_bits - pre)) UINT_BITS in
          assert! (increment result =? 0) && (pre_shift result =? 0) in
          Ok (mk_udiv (multiplier result) pre (post_shift result) (increment result))
  end.

Definition util_compute_fast_udiv_info (D num_bits UINT_BITS : Z) : res util_fast_udiv_info :=
  udiv_info 2 D num_bits UINT_BITS.

(** ** Signed division *)

Record util_fast_sdiv_info : Type := mk_sdiv { s_multiplier : Z; s_shift : Z }.

(** The [do] loop; the result is the final [exponent] and [quotient2]. *)
Fixpoint smagic_loop (fuel : nat) (abs_d abs_test_numer exponent q1 r1 q2 r2 : Z) : res (Z * Z) :=
  match fuel with
  | O => Fault OutOfFuel
  | S fuel' =>
      let exponent := exponent + 1 in
      let q1 := u64 (q1 * 2) in
      let r1 := u64 (r1 * 2) in
      let '(q1, r1) := if abs_test_numer <=? r1 then (u64 (q1 + 1), u64 (r1 - abs_test_numer)) else (q1, r1) in
      let q2 := u64 (q2 * 2) in
      let r2 := u64 (r2 * 2) in
      let '(q2, r2) := if abs_d <=? r2 then (u64 (q2 + 1), u64 (r2 - abs_d)) else (q2, r2) in
      let delta := u64 (abs_d - r2) in
      if (q1 <? delta) || ((q1 =? delta) && (r1 =? 0))
      then smagic_loop fuel' abs_d abs_test_numer exponent q1 r1 q2 r2
      else Ok (exponent, q2)
  end.

Definition util_compute_fast_sdiv_info (D SINT_BITS : Z) : res util_fast_sdiv_info :=
  assert! negb (D =? 0) in
  assert! negb (D =? 1) && negb (D =? -1) in
  let abs_d := u64 (if D <? 0 then - D else D) in
  let exponent := SINT_BITS - 1 in
  let* initial_power_of_2 := shl64 1 exponent in
  let tmp := u64 (initial_power_of_2 + Z.b2z (D <? 0)) in
  let abs_test_numer := u64 (tmp - 1 - tmp mod abs_d) in
  if abs_test_numer =? 0 then Fault Undefined (* division by zero *)
  else
    let* r := smagic_loop 64 abs_d abs_test_numer exponent
                (initial_power_of_2 / abs_test_numer) (initial_power_of_2 mod abs_test_numer)
                (initial_power_of_2 / abs_d) (initial_power_of_2 mod abs_d) in
    let '(exponent, quotient2) := r in
    let* m := util_sign_extend (u64 (quotient2 + 1)) SINT_BITS in
    Ok (mk_sdiv (if D <? 0 then - m else m) (exponent - SINT_BITS)).

(** ** The replacements, on 32-bit numbers *)

Definition util_fast_udiv32 (n : Z) (info : util_fast_udiv_info) : Z :=
  let n := Z.shiftr n (pre_shift info) in
  let n := u32 (Z.shiftr (u64 (u64 (n + increment info) * multiplier info)) 32) in
  Z.shiftr n (post_shift info).

Definition util_fast_udiv32_nuw (n : Z) (info : util_fast_udiv_info) : res Z :=
  assert! negb (n =? 2 ^ 32 - 1) in
  let n := Z.shiftr n (pre_shift info) in
  let n := u32 (n + increment info) in
  let n := u32 (Z.shiftr (u64 (n * multiplier info)) 32) in
  Ok (Z.shiftr n (post_shift info)).

Definition util_fast_udiv32_u31_d_not_one (n : Z) (info : util_fast_udiv_info) : res Z :=
  assert! pre_shift info =? 0 in
  assert! increment info =? 0 in
  let n := u32 (Z.shiftr (u64 (n * multiplier info)) 32) in
  Ok (Z.shiftr n (post_shift info)).
