(* ===== verification/FastDivProofs.v ===== *)
(** Division by constants is exact: the multiplier and shifts of
    [util_compute_fast_udiv_info] and [util_compute_fast_sdiv_info] give the quotient for every
    dividend of the width they were computed for. *)

From S2P Require Import Prelude.
From S2P Require Import FastDiv.

(** ** The arithmetic of magic numbers *)

(** Rounding the multiplier up: [m D = 2^p + c] with [c n < 2^p]. *)
Lemma magic_up_exact D P m c n :
  0 < D -> 0 < P -> 0 <= n -> m * D = P + c -> 0 <= c -> c * n < P -> m * n / P = n / D.
Proof.
  intros HD HP Hn Hm Hc Hcn. pose proof (Z.div_mod n D ltac:(lia)) as Hdm.
  pose proof (Z.mod_pos_bound n D HD) as Hr. set (Q := n / D) in *. set (R := n mod D) in *.
  symmetry. apply (Z.div_unique_pos _ _ _ (m * n - P * Q)); [|lia].
  assert (E : (m * n - P * Q) * D = P * R + c * n) by nia.
  split; nia.
Qed.

(** Rounding down and incrementing the dividend: [m D = 2^p - r] with [(n + 1) r <= 2^p]. *)
Lemma magic_down_exact D P m r n :
  0 < D -> 0 < P -> 0 <= n -> m * D = P - r -> 0 < r -> (n + 1) * r <= P -> (n + 1) * m / P = n / D.
Proof.
  intros HD HP Hn Hm Hr0 Hnr. pose proof (Z.div_mod n D ltac:(lia)) as Hdm.
  pose proof (Z.mod_pos_bound n D HD) as Hr. set (Q := n / D) in *. set (R := n mod D) in *.
  symmetry. apply (Z.div_unique_pos _ _ _ ((n + 1) * m - P * Q)); [|lia].
  assert (E : ((n + 1) * m - P * Q) * D = P * (R + 1) - (n + 1) * r) by nia.
  split; nia.
Qed.

(** ** Powers of two *)

Lemma pow2_test v : 0 < v < 2 ^ 64 -> util_is_power_of_two_or_zero64 v = true <-> v = 2 ^ Z.log2 v.
Proof.
  intros Hv. unfold util_is_power_of_two_or_zero64. rewrite u64_small by (unfold in_u64; lia). rewrite Z.eqb_eq.
  pose proof (Z.log2_spec v ltac:(lia)) as Hl. pose proof (Z.log2_nonneg v) as Hl0. split.
  - intros H0. destruct (decide (v = 2 ^ Z.log2 v)) as [|Hne]; [done|]. exfalso.
    assert (Hb : Z.testbit (Z.land v (v - 1)) (Z.log2 v) = true).
    { rewrite Z.land_spec. apply andb_true_iff. split; [apply Z.bit_log2; lia|].
      assert (El : Z.log2 (v - 1) = Z.log2 v) by (apply Z.log2_unique; [done|lia]).
      rewrite <- El. apply Z.bit_log2. assert (2 ^ Z.log2 v <> 0) by (apply Z.pow_nonzero; lia). lia. }
    rewrite H0, Z.testbit_0_l in Hb. discriminate.
  - generalize (Z.log2 v) as l, Hl0. intros l Hl1 ->. replace (2 ^ l - 1) with (Z.ones l) by (rewrite Z.ones_equiv; lia).
    rewrite Z.land_ones by lia. apply Z_mod_same_full.
Qed.

Lemma log2_odd v : 0 < v -> util_logbase2_64 v = Z.log2 v.
Proof.
  intros Hv. unfold util_logbase2_64. rewrite Z.log2_lor by lia. change (Z.log2 1) with 0.
  pose proof (Z.log2_nonneg v). lia.
Qed.

Lemma ceil_log_loop_ok fuel : forall tmp c,
  0 <= tmp < 2 ^ Z.of_nat fuel ->
  ceil_log_loop fuel tmp c = Ok (c + (if 0 <? tmp then Z.log2 tmp + 1 else 0)).
Proof.
  induction fuel as [|fuel IH]; intros tmp c Ht.
  { assert (tmp = 0) as -> by lia. cbn. f_equal. lia. }
  cbn [ceil_log_loop]. destruct (Z.ltb_spec 0 tmp) as [Hp|Hp]; [|f_equal; lia].
  rewrite shiftr_div, Z.pow_1_r by lia. rewrite Nat2Z.inj_succ, Z.pow_succ_r in Ht by lia.
  rewrite IH by zdivmod. f_equal. destruct (Z.ltb_spec 0 (tmp / 2)) as [H2|H2].
  - assert (E : Z.log2 tmp = Z.log2 (tmp / 2) + 1).
    { pose proof (Z.log2_spec (tmp / 2) H2) as [L1 L2]. pose proof (Z.log2_nonneg (tmp / 2)).
      apply Z.log2_unique; [lia|]. rewrite Z.pow_succ_r in * by lia. rewrite Z.add_1_r, Z.pow_succ_r by lia. zdivmod. }
    lia.
  - assert (E : tmp = 1) by (clear -H2 Hp; zdivmod). subst tmp. change (Z.log2 1) with 0. lia.
Qed.

Lemma two_pow_mod_odd D p : 1 < D -> Z.odd D = true -> 0 <= p -> 0 < 2 ^ p mod D.
Proof.
  intros HD Hodd Hp. pose proof (Z.mod_pos_bound (2 ^ p) D ltac:(lia)).
  assert (2 ^ p mod D <> 0); [|lia]. intros Hm. apply Z.mod_divide in Hm; [|lia].
  assert (Hc : Z.gcd (2 ^ p) D = 1).
  { apply Z.coprime_pow_l; [done|]. apply Z.bezout_1_gcd.
    apply Z.odd_spec in Hodd as [k ->]. exists (- k), 1. lia. }
  apply Z.divide_gcd_iff in Hm; [|lia]. rewrite Z.gcd_comm in Hm. lia.
Qed.

Lemma log2_bounds D : 0 < D < 2 ^ 64 -> 0 <= Z.log2 D < 64 /\ 2 ^ Z.log2 D <= D < 2 ^ (Z.log2 D + 1).
Proof.
  intros HD. pose proof (Z.log2_spec D ltac:(lia)). pose proof (Z.log2_nonneg D).
  pose proof (Z.log2_lt_pow2 D 64 ltac:(lia)). lia.
Qed.

Lemma two_pow_64 x : 0 <= x <= 64 -> 2 ^ x <= 2 ^ 64.
Proof. intros. apply Z.pow_le_mono_r; lia. Qed.

Lemma shl64_one x : 0 <= x < 64 -> shl64 1 x = Ok (2 ^ x).
Proof.
  intros Hx. unfold shl64. rewrite (proj2 (Z.ltb_lt _ _)) by lia. f_equal.
  rewrite Z.shiftl_1_l. apply u64_small. split; [apply Z.pow_nonneg; lia|]. apply Z.pow_lt_mono_r; lia.
Qed.

(** ** The search for the unsigned multiplier *)

Section Quotients.
Context (D U : Z).
Hypothesis HD : 0 < D < 2 ^ 64.
Hypothesis Hpow : D <> 2 ^ Z.log2 D.
Hypothesis HU : 0 < U <= 64.


Definition quo (k : Z) : Z := 2 ^ (U + k) / D.
Definition rem (k : Z) : Z := 2 ^ (U + k) mod D.
Lemma rem_bounds k : 0 <= rem k < D.
Proof. apply Z.mod_pos_bound. lia. Qed.

Lemma quo_rem k : 2 ^ (U + k) = quo k * D + rem k.
Proof. unfold quo, rem. rewrite Z.mul_comm. apply Z.div_mod. lia. Qed.

Lemma quo_nonneg k : 0 <= quo k.
Proof. apply Z.div_pos; [apply Z.pow_nonneg|]; lia. Qed.

Lemma quo_rem_step k : 0 <= U + k ->
  (D <= 2 * rem k -> quo (k + 1) = quo k * 2 + 1 /\ rem (k + 1) = rem k * 2 - D) /\
  (2 * rem k < D -> quo (k + 1) = quo k * 2 /\ rem (k + 1) = rem k * 2).
Proof.
  intros Hk. pose proof (quo_rem k) as E. pose proof (rem_bounds k) as Hr.
  assert (E2 : 2 ^ (U + (k + 1)) = 2 * 2 ^ (U + k)) by (rewrite <- Z.pow_succ_r by done; f_equal; lia).
  unfold quo at 1 3, rem at 2 5. rewrite E2, E. split; intros Hc; split; symmetry.
  - apply (Z.div_unique_pos _ _ _ (rem k * 2 - D)); lia.
  - apply (Z.mod_unique_pos _ _ (quo k * 2 + 1)); lia.
  - apply (Z.div_unique_pos _ _ _ (rem k * 2)); lia.
  - apply (Z.mod_unique_pos _ _ (quo k * 2)); lia.
Qed.

Lemma log2_strict : 2 ^ Z.log2 D < D < 2 ^ (Z.log2 D + 1).
Proof. pose proof (log2_bounds D HD). lia. Qed.

Lemma quo_small k : 0 <= k < Z.log2 D + 1 -> quo k < 2 ^ U.
Proof.
  intros Hk. pose proof log2_strict. apply Z.div_lt_upper_bound; [lia|]. rewrite Z.pow_add_r by lia.
  assert (2 ^ k <= 2 ^ Z.log2 D) by (apply Z.pow_le_mono_r; lia).
  assert (0 < 2 ^ U) by (apply Z.pow_pos_nonneg; lia). nia.
Qed.

End Quotients.

Section Search.
Context (D U e : Z).
Hypothesis HD : 0 < D < 2 ^ 64.
Hypothesis Hpow : D <> 2 ^ Z.log2 D.
Hypothesis HU : 0 < U <= 64.
Hypothesis HDU : D < 2 ^ U.
Hypothesis He : 0 <= e < U.

Abbreviation L := (Z.log2 D + 1).
Abbreviation quo := (quo D U).
Abbreviation rem := (rem D U).

Definition up (k : Z) : Prop := D - rem k <= 2 ^ (k + e).
Definition down_at (k : Z) : Prop := rem k <= 2 ^ (k + e).
Definition stops (k : Z) : Prop := L <= k + e \/ up k.

(** What the loop has recorded for rounding down before exponent [k]. *)
Definition down_ok (k : Z) (d : option (Z * Z)) : Prop :=
  match d with
  | None => forall j, 0 <= j < k -> ~ down_at j
  | Some (q, x) => 0 <= x < k /\ q = u64 (quo x) /\ down_at x
  end.

Lemma magic_loop_ok fuel : forall k d,
  0 <= k <= L -> L < k + Z.of_nat fuel ->
  (forall j, 0 <= j < k -> ~ stops j) -> down_ok k d ->
  exists k' d', magic_loop fuel D e L k (u64 (quo (k - 1))) (rem (k - 1)) d = Ok (k', u64 (quo k'), d') /\
    k <= k' <= L /\ stops k' /\ (forall j, 0 <= j < k' -> ~ stops j) /\ down_ok k' d'.
Proof.
  pose proof (log2_bounds D HD) as HL.
  induction fuel as [|fuel IH]; intros k d Hk Hfuel Hno Hd; [lia|]. cbn [magic_loop].
  pose proof (rem_bounds D U HD (k - 1)) as Hr. pose proof (rem_bounds D U HD k) as Hr'.
  pose proof (quo_rem_step D U HD (k - 1) ltac:(lia)) as [S1 S2]. rewrite Z.sub_add in S1, S2.
  rewrite (u64_small (D - rem (k - 1))) by (unfold in_u64; lia).
  assert (Estep : (if D - rem (k - 1) <=? rem (k - 1)
      then (u64 (u64 (quo (k - 1)) * 2 + 1), u64 (rem (k - 1) * 2 - D))
      else (u64 (u64 (quo (k - 1)) * 2), u64 (rem (k - 1) * 2))) = (u64 (quo k), rem k)).
  { destruct (Z.leb_spec (D - rem (k - 1)) (rem (k - 1))) as [Hc|Hc].
    - destruct (S1 ltac:(lia)) as [-> E]. rewrite <- E. f_equal.
      + unfold u64. rewrite <- Z.add_mod_idemp_l, Z.mul_mod_idemp_l, Z.add_mod_idemp_l by lia. done.
      + apply u64_small. unfold in_u64. lia.
    - destruct (S2 ltac:(lia)) as [-> E]. rewrite <- E. f_equal.
      + unfold u64. rewrite Z.mul_mod_idemp_l by lia. done.
      + apply u64_small. unfold in_u64. lia. }
  rewrite Estep. clear Estep S1 S2. rewrite (u64_small (D - rem k)) by (unfold in_u64; lia).
  destruct (Z.leb_spec L (k + e)) as [Hle|Hgt]; cbn [mbind res_bind].
  { exists k, d. split; [done|]. split; [lia|]. split; [by left|]. done. }
  rewrite shl64_one by lia. cbn [mbind res_bind].
  destruct (Z.leb_spec (D - rem k) (2 ^ (k + e))) as [Hup|Hnup].
  { exists k, d. split; [done|]. split; [lia|]. split; [by right|]. done. }
  assert (Hstop : ~ stops k) by (unfold stops, up; lia).
  replace (quo k) with (quo (k + 1 - 1)) by (f_equal; lia).
  replace (rem k) with (rem (k + 1 - 1)) by (f_equal; lia).
  edestruct (IH (k + 1)) as (k' & d' & E & Hk' & Hs & Hno' & Hd'); [lia|lia| | |].
  { intros j Hj. destruct (decide (j = k)) as [->|]; [done|]. apply Hno. lia. }
  2:{ exists k', d'. split; [exact E|]. split; [lia|done]. }
  rewrite Z.add_simpl_r. destruct d as [[q x]|]; cbn in Hd |- *; [naive_solver lia|].
  destruct (Z.leb_spec (rem k) (2 ^ (k + e))) as [Hl|Hl]; cbn.
  - split; [lia|]. done.
  - intros j Hj. destruct (decide (j = k)) as [->|]; [unfold down_at; lia|]. apply Hd. lia.
Qed.

Lemma stops_up k : 0 <= k -> stops k -> up k.
Proof.
  intros Hk [H|H]; [|done]. unfold up. pose proof (rem_bounds D U HD k). pose proof (log2_strict D HD Hpow).
  assert (2 ^ L <= 2 ^ (k + e)) by (apply Z.pow_le_mono_r; lia). lia.
Qed.

(** The multiplier rounded up. *)
Lemma up_multiplier k n :
  0 <= k < L -> up k -> 0 <= n < 2 ^ (U - e) ->
  quo k + 1 < 2 ^ U /\ n * (quo k + 1) / 2 ^ U / 2 ^ k = n / D.
Proof.
  intros Hk Hup Hn. unfold up in Hup. pose proof (quo_rem D U HD k) as E. pose proof (rem_bounds D U HD k) as Hr.
  pose proof (quo_small D U HD Hpow HU k Hk) as Hq. pose proof (log2_strict D HD Hpow) as HL. pose proof (quo_nonneg D U HD k).
  assert (P1 : 0 < 2 ^ U) by (apply Z.pow_pos_nonneg; lia).
  assert (P2 : 0 < 2 ^ k) by (apply Z.pow_pos_nonneg; lia).
  assert (P3 : 2 ^ (U + k) = 2 ^ U * 2 ^ k) by (apply Z.pow_add_r; lia).
  assert (P4 : 2 ^ (U + k) = 2 ^ (k + e) * 2 ^ (U - e)) by (rewrite <- Z.pow_add_r by lia; f_equal; lia).
  assert (P5 : 2 ^ k <= 2 ^ Z.log2 D) by (apply Z.pow_le_mono_r; lia).
  split.
  - assert (quo k + 1 <> 2 ^ U); [|lia]. intros Hm. nia.
  - rewrite Z.div_div, <- P3, (Z.mul_comm n) by lia.
    apply magic_up_exact with (c := D - rem k); nia.
Qed.

(** The multiplier rounded down, for a dividend that is incremented. *)
Lemma down_multiplier k n :
  0 <= k < L -> e = 0 -> down_at k -> Z.odd D = true -> 0 <= n < 2 ^ U ->
  (n + 1) * quo k / 2 ^ U / 2 ^ k = n / D.
Proof.
  intros Hk He0 Hdown Hodd Hn. unfold down_at in Hdown. rewrite He0, Z.add_0_r in Hdown.
  pose proof (quo_rem D U HD k) as E. pose proof (log2_strict D HD Hpow) as HL.
  assert (P1 : 0 < 2 ^ U) by (apply Z.pow_pos_nonneg; lia).
  assert (P2 : 0 < 2 ^ k) by (apply Z.pow_pos_nonneg; lia).
  assert (P3 : 2 ^ (U + k) = 2 ^ U * 2 ^ k) by (apply Z.pow_add_r; lia).
  assert (1 < D) by (assert (0 < 2 ^ Z.log2 D) by (apply Z.pow_pos_nonneg; lia); lia).
  assert (Hpos : 0 < rem k) by (apply two_pow_mod_odd; try done; lia).
  rewrite Z.div_div, <- P3 by lia.
  apply magic_down_exact with (r := rem k); nia.
Qed.

(** If no exponent below [L] works for rounding up, the last one works for rounding down. *)
Lemma down_found d :
  0 < L -> e = 0 -> (forall j, 0 <= j < L -> ~ stops j) -> down_ok L d ->
  exists x, d = Some (quo x, x) /\ 0 <= x < L /\ down_at x.
Proof.
  intros HL0 He0 Hno Hd. pose proof (log2_strict D HD Hpow) as HL. destruct d as [[q x]|]; cbn in Hd.
  - destruct Hd as (Hx & -> & Hd). exists x. split; [|done]. f_equal. f_equal.
    apply u64_small. pose proof (quo_small D U HD Hpow HU x Hx). pose proof (quo_nonneg D U HD x). pose proof (two_pow_64 U ltac:(lia)).
    unfold in_u64. lia.
  - exfalso. apply (Hd (Z.log2 D)); [lia|]. unfold down_at. rewrite He0, Z.add_0_r.
    assert (Hn : ~ up (Z.log2 D)) by (intros Hu; apply (Hno (Z.log2 D)); [lia|by right]).
    unfold up in Hn. rewrite He0, Z.add_0_r in Hn.
    assert (2 ^ L = 2 * 2 ^ Z.log2 D) by (rewrite <- Z.pow_succ_r by lia; f_equal; lia). lia.
Qed.
End Search.

(** ** Unsigned division *)

(** The multiplication and shifts that [info] describes, on unbounded integers. *)
Definition fast_udiv (U : Z) (info : util_fast_udiv_info) (n : Z) : Z :=
  (n / 2 ^ pre_shift info + increment info) * multiplier info / 2 ^ U / 2 ^ post_shift info.

(** [info] divides by [D] every dividend of [N] bits, in a multiplication of [U] bits. *)
Record udiv_ok (D N U : Z) (info : util_fast_udiv_info) : Prop := {
  ok_multiplier : 0 <= multiplier info < 2 ^ U;
  ok_pre : 0 <= pre_shift info < U;
  ok_post : 0 <= post_shift info < U;
  ok_increment : increment info = 0 \/ increment info = 1 /\ pre_shift info = 0;
  ok_saturation : 1 < D -> increment info = 1 -> (2 ^ U - 1) / D = (2 ^ U - 2) / D;
  ok_quotient : forall n, 0 <= n < 2 ^ N -> fast_udiv U info n = n / D
}.

Lemma strip_loop_ok fuel : forall D pre,
  0 < D < 2 ^ Z.of_nat fuel ->
  exists D' s, strip_loop fuel D pre = Ok (D', pre + s) /\ 0 <= s /\ D = D' * 2 ^ s /\ Z.odd D' = true.
Proof.
  induction fuel as [|fuel IH]; intros D pre HD; [cbn in HD; lia|]. cbn [strip_loop].
  assert (Hland : Z.land D 1 = D mod 2) by (change 1 with (Z.ones 1); apply Z.land_ones; lia).
  rewrite Hland. pose proof (Z.div_mod D 2 ltac:(lia)). pose proof (Z.mod_pos_bound D 2 ltac:(lia)).
  destruct (Z.eqb_spec (D mod 2) 0) as [E0|E0].
  - rewrite shiftr_div, Z.pow_1_r by lia. rewrite Nat2Z.inj_succ, Z.pow_succ_r in HD by lia.
    destruct (IH (D / 2) (pre + 1)) as (D' & s & -> & Hs & E & Hodd); [lia|].
    exists D', (s + 1). split; [do 2 f_equal; lia|]. split; [lia|]. split; [|done].
    rewrite Z.pow_add_r, Z.pow_1_r by lia. lia.
  - exists D, 0. rewrite Z.add_0_r, Z.mul_1_r. do 3 (split; [done|]). rewrite Zodd_mod.
    rewrite Z.eqb_eq. lia.
Qed.

(** Powers of two. *)
Lemma udiv_info_pow2 depth D N U :
  0 < D < 2 ^ U -> 0 < N <= U -> U <= 64 -> D = 2 ^ Z.log2 D ->
  exists info, udiv_info (S depth) D N U = Ok info /\ udiv_ok D N U info /\
    (1 < D -> N < U -> increment info = 0 /\ pre_shift info = 0).
Proof.
  intros HD HN HU HP. pose proof (two_pow_64 U ltac:(lia)) as H64. pose proof (log2_bounds D ltac:(lia)) as [Hl _].
  cbn [udiv_info]. rewrite !assert_bind_true by (rewrite ?andb_true_iff, ?Z.ltb_lt, ?Z.leb_le, ?negb_true_iff, ?Z.eqb_neq; lia).
  rewrite (proj2 (pow2_test D ltac:(lia)) HP), log2_odd by lia. cbv zeta.
  assert (HlU : Z.log2 D < U) by (apply Z.log2_lt_pow2; lia).
  assert (0 < 2 ^ U) by (apply Z.pow_pos_nonneg; lia).
  destruct (Z.eqb_spec (Z.log2 D) 0) as [E0|E0]; cbn [negb].
  - rewrite E0 in HP. cbn in HP. subst D. unfold u_uintN_max.
    rewrite !assert_bind_true by (rewrite ?andb_true_iff, ?Z.ltb_lt, ?Z.leb_le; lia).
    unfold shr64. rewrite (proj2 (Z.ltb_lt _ _)) by lia.
    assert (EM : Z.shiftr (2 ^ 64 - 1) (64 - U) = 2 ^ U - 1).
    { rewrite shiftr_div by lia. symmetry.
      assert (E : 2 ^ 64 = 2 ^ (64 - U) * 2 ^ U) by (rewrite <- Z.pow_add_r by lia; f_equal; lia).
      apply (Z.div_unique_pos _ _ _ (2 ^ (64 - U) - 1)); [|nia].
      assert (0 < 2 ^ (64 - U)) by (apply Z.pow_pos_nonneg; lia). lia. }
    rewrite EM. eexists; split; [reflexivity|]. split; [|lia].
    split; cbn; [lia|lia|lia|by right|lia|]. intros n Hn. unfold fast_udiv; cbn.
    assert (2 ^ N <= 2 ^ U) by (apply Z.pow_le_mono_r; lia).
    rewrite Z.div_1_r, !Z.div_1_r. symmetry. apply (Z.div_unique_pos _ _ _ (2 ^ U - (n + 1))); lia.
  - rewrite shl64_one by lia. eexists; split; [reflexivity|]. split; [|done].
    split; cbn; [|lia|lia|by left|done|].
    { split; [apply Z.pow_nonneg; lia|apply Z.pow_lt_mono_r; lia]. }
    intros n Hn. unfold fast_udiv; cbn. rewrite !Z.div_1_r, Z.add_0_r.
    assert (E : 2 ^ U = 2 ^ Z.log2 D * 2 ^ (U - Z.log2 D)) by (rewrite <- Z.pow_add_r by lia; f_equal; lia).
    rewrite E, Z.div_mul_cancel_r by (apply Z.pow_nonzero; lia). by rewrite <- HP.
Qed.

(** If [D] divides [2^U - 1], rounding up works at the last exponent. *)
Lemma up_of_divides D U :
  0 < D < 2 ^ 64 -> 0 <= U -> D <> 2 ^ Z.log2 D -> (D | 2 ^ U - 1) -> up D U 0 (Z.log2 D).
Proof.
  intros HD HU HP [q Hq]. pose proof (log2_strict D HD HP) as HL. pose proof (log2_bounds D HD) as [Hl _].
  unfold up, rem. rewrite Z.add_0_r. replace (2 ^ (U + Z.log2 D) mod D) with (2 ^ Z.log2 D).
  - rewrite Z.pow_add_r in HL by lia. lia.
  - rewrite Z.pow_add_r by lia. apply (Z.mod_unique_pos _ _ (q * 2 ^ Z.log2 D)); [lia|].
    replace (2 ^ U) with (q * D + 1) by lia. ring.
Qed.

Lemma not_divides_pred D U : 0 < D -> ~ (D | 2 ^ U - 1) -> (2 ^ U - 1) / D = (2 ^ U - 2) / D.
Proof.
  intros HD Hn. assert (Hr : (2 ^ U - 1) mod D <> 0) by (rewrite Z.mod_divide by lia; done).
  pose proof (Z.mod_pos_bound (2 ^ U - 1) D HD). pose proof (Z.div_mod (2 ^ U - 1) D ltac:(lia)).
  apply (Z.div_unique_pos _ _ _ ((2 ^ U - 1) mod D - 1)); lia.
Qed.

(** The search has an answer below [L], or rounding down and stripping the divisor do. *)
Lemma magic_search D U N :
  0 < D < 2 ^ U -> 0 < N <= U -> U <= 64 -> D <> 2 ^ Z.log2 D ->
  let L := Z.log2 D + 1 in
  exists k d, magic_loop 65 D (U - N) L 0 (2 ^ (U - 1) / D) (2 ^ (U - 1) mod D) None = Ok (k, u64 (quo D U k), d) /\
    0 <= k <= L /\
    (k < L -> up D U (U - N) k) /\
    (k = L -> N = U /\ ~ (D | 2 ^ U - 1) /\ exists x, d = Some (quo D U x, x) /\ 0 <= x < L /\ down_at D U 0 x).
Proof.
  intros HD HN HU HP L. pose proof (two_pow_64 U ltac:(lia)) as H64. pose proof (log2_bounds D ltac:(lia)) as [Hl _].
  destruct (magic_loop_ok D U (U - N) ltac:(lia) HP ltac:(lia) ltac:(lia) 65 0 None ltac:(lia) ltac:(lia))
    as (k & d & E & Hk & Hs & Hno & Hd); [intros; lia|intros j Hj; lia|].
  assert (Hq : in_u64 (2 ^ (U - 1) / D)).
  { assert (0 < 2 ^ (U - 1)) by (apply Z.pow_pos_nonneg; lia).
    assert (2 ^ (U - 1) < 2 ^ U) by (apply Z.pow_lt_mono_r; lia).
    pose proof (Z.div_le_compat_l (2 ^ (U - 1)) 1 D ltac:(lia) ltac:(lia)) as Hc. rewrite Z.div_1_r in Hc.
    pose proof (Z.div_pos (2 ^ (U - 1)) D ltac:(lia) ltac:(lia)). unfold in_u64. lia. }
  unfold quo, rem in E. replace (U + (0 - 1)) with (U - 1) in E by lia. rewrite (u64_small _ Hq) in E.
  exists k, d. split; [exact E|]. clear E.
  split; [lia|]. split; [intros; apply stops_up; done || lia|]. intros ->.
  assert (HNU : N = U).
  { destruct (decide (N = U)) as [|Hne]; [done|]. exfalso.
    apply (Hno (Z.max 0 (L - (U - N)))); [lia|]. left. lia. }
  subst N. rewrite Z.sub_diag in *. split; [done|]. split.
  { intros Hdiv. apply (Hno (Z.log2 D)); [lia|]. right. apply up_of_divides; done || lia. }
  by apply (down_found D U 0) with (d := d); try done; try lia.
Qed.

#[local] Opaque magic_loop strip_loop ceil_log_loop.

(** What one call computes for a divisor that is not a power of two. *)
Lemma udiv_info_split depth D N U :
  0 < D < 2 ^ U -> 0 < N <= U -> U <= 64 -> D <> 2 ^ Z.log2 D ->
  (exists info, udiv_info (S depth) D N U = Ok info /\ udiv_ok D N U info /\
     increment info = 0 /\ pre_shift info = 0) \/
  (N = U /\ Z.odd D = true /\ exists info, udiv_info (S depth) D N U = Ok info /\ udiv_ok D N U info) \/
  (N = U /\ Z.odd D = false /\
   udiv_info (S depth) D N U =
     let* s := strip_loop 64 D 0 in
     let '(shifted_D, pre) := s in
     let* result := udiv_info depth shifted_D (u32 (N - pre)) U in
     assert! (increment result =? 0) && (pre_shift result =? 0) in
     Ok (mk_udiv (multiplier result) pre (post_shift result) (increment result))).
Proof.
  intros HD HN HU HP. pose proof (two_pow_64 U ltac:(lia)) as H64. pose proof (log2_bounds D ltac:(lia)) as [Hl HlD].
  assert (HlU : Z.log2 D < U) by (apply Z.log2_lt_pow2; lia).
  destruct (magic_search D U N HD HN HU HP) as (k & d & E & Hk & Hup & Hlast).
  assert (Hland : Z.land D 1 = D mod 2) by (change 1 with (Z.ones 1); apply Z.land_ones; lia).
  remember (udiv_info (S depth) D N U) as r eqn:Er. cbn [udiv_info] in Er.
  rewrite !assert_bind_true in Er by (rewrite ?andb_true_iff, ?Z.ltb_lt, ?Z.leb_le, ?negb_true_iff, ?Z.eqb_neq; lia).
  destruct (util_is_power_of_two_or_zero64 D) eqn:Et; [apply (pow2_test D ltac:(lia)) in Et; done|].
  rewrite shl64_one in Er by lia. cbn [res_bind] in Er.
  rewrite ceil_log_loop_ok in Er by lia. cbn [res_bind] in Er.
  rewrite (proj2 (Z.ltb_lt 0 D)), Z.add_0_l in Er by lia. cbv zeta in E. rewrite E in Er. cbn [res_bind] in Er. clear E.
  destruct (Z.ltb_spec k (Z.log2 D + 1)) as [Hlt|Hge].
  - left. exists (mk_udiv (u64 (u64 (quo D U k) + 1)) 0 k 0). split; [done|].
    pose proof (quo_small D U ltac:(lia) HP ltac:(lia) k ltac:(lia)) as Hq. pose proof (quo_nonneg D U ltac:(lia) k) as Hq0.
    assert (Hmul : forall n, 0 <= n < 2 ^ N -> quo D U k + 1 < 2 ^ U /\ n * (quo D U k + 1) / 2 ^ U / 2 ^ k = n / D).
    { intros n Hn. apply (up_multiplier D U (U - N)); try done; try lia. by apply Hup.
      by replace (U - (U - N)) with N by lia. }
    assert (0 < 2 ^ N) by (apply Z.pow_pos_nonneg; lia). destruct (Hmul 0 ltac:(lia)) as [Hm _].
    rewrite (u64_small (quo D U k)) by (unfold in_u64; lia). rewrite u64_small by (unfold in_u64; lia).
    split; [|done]. split; cbn; [lia|lia|lia|by left|done|].
    intros n Hn. unfold fast_udiv; cbn. rewrite Z.div_1_r, Z.add_0_r. apply Hmul; done.
  - right. destruct (Hlast ltac:(lia)) as (-> & Hdiv & x & -> & Hx & Hdown). rewrite Hland in Er.
    pose proof (Zmod_odd D) as Hodd. destruct (Z.odd D) eqn:Ho; rewrite Hodd in Er; cbn [Z.b2z Z.eqb negb res_bind] in Er.
    + left. do 2 (split; [done|]). eexists; split; [exact Er|].
      pose proof (quo_small D U ltac:(lia) HP ltac:(lia) x ltac:(lia)). pose proof (quo_nonneg D U ltac:(lia) x).
      split; cbn; [lia|lia|lia|by right| |].
      { intros _ _. apply not_divides_pred; done || lia. }
      intros n Hn. unfold fast_udiv; cbn. rewrite Z.div_1_r. apply (down_multiplier D U 0); try done; try lia.
    + right. done.
Qed.

Lemma pow2_odd_part D D' s : 0 <= s -> D = D' * 2 ^ s -> 0 < D -> D <> 2 ^ Z.log2 D -> D' <> 2 ^ Z.log2 D'.
Proof.
  intros Hs E HD HP HP'. apply HP. rewrite E at 2. assert (0 < D').
  { assert (0 < 2 ^ s) by (apply Z.pow_pos_nonneg; lia). nia. }
  rewrite Z.log2_mul_pow2, Z.pow_add_r, <- HP' by (try apply Z.log2_nonneg; lia). lia.
Qed.

(** Shifting the dividend and the divisor together. *)
Lemma udiv_ok_shifted D' s N U info :
  0 <= s < N -> N <= U -> 0 < D' -> udiv_ok D' (N - s) U info -> increment info = 0 -> pre_shift info = 0 ->
  udiv_ok (D' * 2 ^ s) N U (mk_udiv (multiplier info) s (post_shift info) (increment info)).
Proof.
  intros Hs HNU HD' [Hm _ Hpost _ _ Hq] Hi Hp. assert (0 < 2 ^ s) by (apply Z.pow_pos_nonneg; lia).
  split; cbn; [done|lia|done|by left|lia|]. intros n Hn. unfold fast_udiv in *; cbn.
  rewrite (Z.mul_comm D'), <- Z.div_div by lia. rewrite <- (Hq (n / 2 ^ s)).
  - by rewrite Hp, Z.div_1_r.
  - split; [apply Z.div_pos; lia|]. apply Z.div_lt_upper_bound; [lia|]. rewrite <- Z.pow_add_r by lia.
    replace (s + (N - s)) with N by lia. lia.
Qed.

Lemma udiv_info_total D N U :
  0 < D < 2 ^ U -> 0 < N <= U -> U <= 64 ->
  exists info, util_compute_fast_udiv_info D N U = Ok info /\ udiv_ok D N U info /\
    (1 < D -> N < U -> increment info = 0 /\ pre_shift info = 0).
Proof.
  intros HD HN HU. pose proof (two_pow_64 U ltac:(lia)) as H64. unfold util_compute_fast_udiv_info.
  destruct (decide (D = 2 ^ Z.log2 D)) as [HP|HP].
  { destruct (udiv_info_pow2 1 D N U HD HN HU HP) as (info & E & Hok & Hz). by exists info. }
  destruct (udiv_info_split 1 D N U) as [(info & -> & Hok & Hz)|[(-> & _ & info & -> & Hok)|(-> & Hev & ->)]]; try done.
  { by exists info. }
  { exists info. split; [done|]. split; [done|lia]. }
  destruct (strip_loop_ok 64 D 0 ltac:(lia)) as (D' & s & -> & Hs & E & Hodd). cbn [res_bind]. rewrite Z.add_0_l.
  assert (H2s : 0 < 2 ^ s) by (apply Z.pow_pos_nonneg; lia). assert (HD' : 0 < D') by nia.
  assert (s <> 0). { intros ->. rewrite Z.mul_1_r in E. congruence. }
  assert (HsU : s < U). { apply (Z.pow_lt_mono_r_iff 2); [lia|lia|]. nia. }
  rewrite u32_small by (unfold in_u32; lia).
  destruct (udiv_info_split 0 D' (U - s) U) as [(info & -> & Hok & Hi & Hp)|[[]|[]]]; try lia.
  { assert (D' <= D) by nia. lia. }
  { apply (pow2_odd_part D D' s); done || lia. }
  cbn [res_bind]. rewrite Hi, Hp. cbn. eexists; split; [reflexivity|]. split; [|lia].
  rewrite E, <- Hi. apply udiv_ok_shifted; done || lia.
Qed.

(** A divisor that is not a power of two divides no power of two. *)
Lemma two_pow_mod_pos D p : 0 < D < 2 ^ 64 -> D <> 2 ^ Z.log2 D -> 0 <= p -> 0 < 2 ^ p mod D.
Proof.
  intros HD HP Hp. pose proof (Z.mod_pos_bound (2 ^ p) D ltac:(lia)).
  assert (2 ^ p mod D <> 0); [|lia]. intros Hm. apply Z.mod_divide in Hm; [|lia].
  destruct (strip_loop_ok 64 D 0 ltac:(lia)) as (D' & s & _ & Hs & E & Hodd).
  assert (0 < 2 ^ s) by (apply Z.pow_pos_nonneg; lia). assert (0 < D') by nia.
  destruct (decide (D' = 1)) as [->|].
  { apply HP. rewrite E at 2. rewrite Z.mul_1_l, Z.log2_pow2 by done. lia. }
  pose proof (two_pow_mod_odd D' p ltac:(lia) Hodd Hp) as Hr.
  assert (Hd : (D' | 2 ^ p)) by (apply (Z.divide_trans _ D); [by exists (2 ^ s); lia|done]).
  apply Z.mod_divide in Hd; lia.
Qed.

(** ** The theorems *)

(** C13: [util_compute_fast_udiv_info] returns for every divisor and every pair of widths (no
    assertion fails, no shift is undefined, the loops end), and what it returns divides
    exactly: shifting, incrementing, multiplying and shifting gives the quotient for every
    dividend of [num_bits] bits. *)
Theorem fast_udiv_exact D num_bits UINT_BITS :
  0 < D < 2 ^ UINT_BITS -> 0 < num_bits <= UINT_BITS -> UINT_BITS <= 64 ->
  exists info, util_compute_fast_udiv_info D num_bits UINT_BITS = Ok info /\ udiv_ok D num_bits UINT_BITS info.
Proof.
  intros HD HN HU. destruct (udiv_info_total D num_bits UINT_BITS HD HN HU) as (info & E & Hok & _). by exists info.
Qed.

(** The evaluation on 32-bit numbers does not overflow. *)
Lemma udiv32_bounds D N info n :
  N <= 32 -> udiv_ok D N 32 info -> 0 <= n < 2 ^ N ->
  let x := Z.shiftr n (pre_shift info) + increment info in
  in_u64 x /\ in_u64 (x * multiplier info) /\ in_u32 (Z.shiftr (x * multiplier info) 32) /\
  (n < 2 ^ 32 - 1 -> in_u32 x) /\
  Z.shiftr (Z.shiftr (x * multiplier info) 32) (post_shift info) = fast_udiv 32 info n.
Proof.
  intros HN [Hm Hpre Hpost Hinc _ _] Hn. assert (2 ^ N <= 2 ^ 32) by (apply Z.pow_le_mono_r; lia).
  cbv zeta. rewrite !shiftr_div by lia. set (x := n / 2 ^ pre_shift info + increment info).
  assert (0 < 2 ^ pre_shift info) by (apply Z.pow_pos_nonneg; lia).
  assert (Hx : 0 <= n / 2 ^ pre_shift info <= n).
  { split; [apply Z.div_pos; lia|]. apply Z.div_le_upper_bound; [lia|]. nia. }
  assert (Hx' : 0 <= x <= n + 1) by lia. assert (Hp : 0 <= x * multiplier info <= 2 ^ 32 * (2 ^ 32 - 1)) by nia.
  unfold in_u32, in_u64. split; [lia|]. split; [lia|]. split; [|split; [lia|reflexivity]].
  split; [apply Z.div_pos; lia|]. apply Z.div_lt_upper_bound; lia.
Qed.

Lemma fast_udiv32_ok D N info n :
  N <= 32 -> udiv_ok D N 32 info -> 0 <= n < 2 ^ N -> util_fast_udiv32 n info = n / D.
Proof.
  intros HN Hok Hn. destruct (udiv32_bounds D N info n HN Hok Hn) as (H1 & H2 & H3 & _ & H4). cbv zeta in *.
  unfold util_fast_udiv32. cbv zeta. rewrite (u64_small _ H1), (u64_small _ H2), (u32_small _ H3), H4.
  by apply (ok_quotient _ _ _ _ Hok).
Qed.

(** The three 32-bit evaluations agree with [/]: [util_fast_udiv32] for every dividend,
    [util_fast_udiv32_nuw] for every dividend but [UINT32_MAX], and
    [util_fast_udiv32_u31_d_not_one], whose assertions hold, for the 31-bit multiplier. *)
Theorem fast_udiv32_exact D n :
  0 < D < 2 ^ 32 -> in_u32 n ->
  (exists info, util_compute_fast_udiv_info D 32 32 = Ok info /\ util_fast_udiv32 n info = n / D /\
     (n <> 2 ^ 32 - 1 -> util_fast_udiv32_nuw n info = Ok (n / D))) /\
  (1 < D -> n < 2 ^ 31 -> exists info, util_compute_fast_udiv_info D 31 32 = Ok info /\
     util_fast_udiv32_u31_d_not_one n info = Ok (n / D)).
Proof.
  intros HD Hn. split.
  - destruct (udiv_info_total D 32 32) as (info & E & Hok & _); try lia. exists info. split; [done|].
    split; [by apply fast_udiv32_ok with (N := 32)|]. intros Hne. unfold in_u32 in Hn.
    destruct (udiv32_bounds D 32 info n ltac:(lia) Hok ltac:(lia)) as (_ & H2 & H3 & H4 & H5). cbv zeta in *.
    unfold util_fast_udiv32_nuw. rewrite assert_bind_true by (rewrite negb_true_iff, Z.eqb_neq; lia). cbv zeta.
    rewrite (u32_small _ (H4 ltac:(lia))), (u64_small _ H2), (u32_small _ H3), H5.
    f_equal. apply (ok_quotient _ _ _ _ Hok). lia.
  - intros HD1 Hn31. unfold in_u32 in Hn. destruct (udiv_info_total D 31 32) as (info & E & Hok & Hz); try lia.
    destruct (Hz ltac:(lia) ltac:(lia)) as [Hi Hp]. exists info. split; [done|].
    destruct (udiv32_bounds D 31 info n ltac:(lia) Hok ltac:(lia)) as (_ & H2 & H3 & _ & H5). cbv zeta in *.
    unfold util_fast_udiv32_u31_d_not_one. rewrite !assert_bind_true by (rewrite Z.eqb_eq; done). cbv zeta.
    rewrite Hi, Hp, Z.add_0_r, Z.shiftr_0_r in H2, H3, H5.
    rewrite (u64_small _ H2), (u32_small _ H3), H5. f_equal. apply (ok_quotient _ _ _ _ Hok). lia.
Qed.

Lemma fast_udiv_exact_witness :
  exists info, util_compute_fast_udiv_info 14 32 32 = Ok info /\ udiv_ok 14 32 32 info.
Proof. apply fast_udiv_exact; lia. Defined.

Lemma fast_udiv32_exact_witness :
  exists info, util_compute_fast_udiv_info 7 31 32 = Ok info /\ util_fast_udiv32_u31_d_not_one 1000 info = Ok 142.
Proof. apply (fast_udiv32_exact 7 1000); unfold in_u32; lia. Defined.
