(* ===== verification/FastSdivProofs.v ===== *)
(** Signed division by constants is exact: the multiplier and the shift of
    [util_compute_fast_sdiv_info] give the quotient, rounded towards zero, for every dividend. *)

From S2P Require Import Prelude.
From S2P Require Import FastDiv.
From S2P Require Import FastDivProofs.

Lemma no_multiple h d P x dl : h * d = P + dl -> P = h * x -> 1 <= dl <= d - 1 -> d < h -> False.
Proof.
  intros E1 E2 H1 H2. assert (E : dl = h * (d - x)) by lia.
  assert (d - x <= 0 \/ 1 <= d - x) as [] by lia; nia.
Qed.

(** [M d = P + c] and [x = d q + r]: [M x / P] is [q] plus a fraction. *)
Lemma div_by_multiple d P M c x q r :
  0 < d -> 0 < P -> M * d = P + c -> 0 <= c -> 0 <= x -> x = d * q + r -> 0 <= r ->
  c * x < P * (d - r) -> M * x / P = q.
Proof.
  intros Hd HP HM Hc Hx0 Hx Hr Hlt. symmetry. apply (Z.div_unique_pos _ _ _ (M * x - P * q)); [|lia].
  assert (E : (M * x - P * q) * d = P * r + c * x).
  { replace ((M * x - P * q) * d) with (x * (M * d) - P * (d * q)) by lia. rewrite HM.
    replace (d * q) with (x - r) by lia. lia. }
  assert (0 <= P * r) by (apply Z.mul_nonneg_nonneg; lia). assert (0 <= c * x) by (apply Z.mul_nonneg_nonneg; lia).
  split; [|apply (Z.mul_lt_mono_pos_r d); lia]. apply (Z.mul_le_mono_pos_r _ _ d); lia.
Qed.

Lemma ceil_by_multiple d P M c x q r :
  0 < d -> 0 < P -> M * d = P + c -> 0 < c -> 0 < x -> x = d * q + r -> 0 <= r ->
  c * x <= P * (d - r) -> - (M * x) / P + 1 = - q.
Proof.
  intros Hd HP HM Hc Hx0 Hx Hr Hle. enough (E : - (M * x) / P = - q - 1) by lia. symmetry.
  apply (Z.div_unique_pos _ _ _ (P * (q + 1) - M * x)); [|lia].
  assert (E : (P * (q + 1) - M * x) * d = P * (d - r) - c * x).
  { replace ((P * (q + 1) - M * x) * d) with (P * (d * q) + P * d - x * (M * d)) by lia. rewrite HM.
    replace (d * q) with (x - r) by lia. lia. }
  assert (0 <= P * r) by (apply Z.mul_nonneg_nonneg; lia). assert (0 < c * x) by (apply Z.mul_pos_pos; lia).
  split; [apply (Z.mul_le_mono_pos_r _ _ d)|apply (Z.mul_lt_mono_pos_r d)]; lia.
Qed.

(** One turn of the loop, given its two divisions. *)
Lemma smagic_loop_step fuel d n p q1 r1 q2 r2 q1' r1' q2' r2' :
  (if n <=? u64 (r1 * 2) then (u64 (u64 (q1 * 2) + 1), u64 (u64 (r1 * 2) - n)) else (u64 (q1 * 2), u64 (r1 * 2))) = (q1', r1') ->
  (if d <=? u64 (r2 * 2) then (u64 (u64 (q2 * 2) + 1), u64 (u64 (r2 * 2) - d)) else (u64 (q2 * 2), u64 (r2 * 2))) = (q2', r2') ->
  smagic_loop (S fuel) d n p q1 r1 q2 r2 =
    if (q1' <? u64 (d - r2')) || ((q1' =? u64 (d - r2')) && (r1' =? 0))
    then smagic_loop fuel d n (p + 1) q1' r1' q2' r2' else Ok (p + 1, q2').
Proof. intros E1 E2. cbn [smagic_loop]. rewrite E1, E2. reflexivity. Qed.

(** ** The search for the signed multiplier *)

Section Search.
(** [d] is the absolute value of the divisor and [t - 1] the largest dividend that is
    rounded down. *)
Context (S d t : Z).
Hypothesis HS : 2 < S <= 64.
Hypothesis Hd : 2 < d < 2 ^ (S - 1).
Hypothesis Hpow : d <> 2 ^ Z.log2 d.
Hypothesis Ht : 2 ^ (S - 1) <= t <= 2 ^ (S - 1) + 1.

(** The largest dividend below [t] whose remainder is [d - 1]. *)
Definition nc : Z := t - 1 - t mod d.

Definition delta (p : Z) : Z := d - 2 ^ p mod d.
Definition enough (p : Z) : Prop := nc * delta p < 2 ^ p.
#[local] Instance enough_dec p : Decision (enough p) := Z_lt_dec _ _.

Lemma half_pow : 2 ^ S = 2 * 2 ^ (S - 1).
Proof. rewrite <- Z.pow_succ_r by lia. f_equal. lia. Qed.

Lemma d64 : 0 < d < 2 ^ 64.
Proof. pose proof (two_pow_64 S ltac:(lia)). pose proof half_pow. lia. Qed.

Lemma nc_spec : exists K, 1 <= K /\ nc = d * K - 1 /\ t = d * K + t mod d.
Proof.
  exists (t / d). pose proof (Z.div_mod t d ltac:(lia)). unfold nc. split; [|lia].
  apply Z.div_le_lower_bound; lia.
Qed.

Lemma nc_bounds : d - 1 <= nc <= 2 ^ (S - 1).
Proof. pose proof nc_spec as (K & HK & E & _). pose proof (Z.mod_pos_bound t d ltac:(lia)). unfold nc in *. nia. Qed.

Lemma delta_bounds p : 0 <= p -> 1 <= delta p <= d - 1.
Proof.
  intros Hp. unfold delta. pose proof (two_pow_mod_pos d p d64 Hpow Hp). pose proof (Z.mod_pos_bound (2 ^ p) d ltac:(lia)). lia.
Qed.

(** The multiplier at exponent [p]. *)
Lemma multiplier_eq p : (2 ^ p / d + 1) * d = 2 ^ p + delta p.
Proof. unfold delta. pose proof (Z.div_mod (2 ^ p) d ltac:(lia)). lia. Qed.

Lemma enough_last : enough (2 * S - 2).
Proof.
  unfold enough. pose proof (delta_bounds (2 * S - 2) ltac:(lia)). pose proof nc_bounds.
  replace (2 * S - 2) with ((S - 1) + (S - 1)) at 2 by lia. rewrite Z.pow_add_r by lia. nia.
Qed.

(** Quotients stay below [2^S] at every exponent the loop reaches. *)
Lemma quotient_bound p : S <= p -> (p = S \/ ~ enough (p - 1)) -> 2 ^ p / d + 1 < 2 ^ S.
Proof.
  intros Hp Hc. pose proof half_pow. destruct Hc as [->|Hc].
  - assert (2 ^ S / d < 2 ^ (S - 1)) by (apply Z.div_lt_upper_bound; nia). lia.
  - unfold enough in Hc. pose proof (delta_bounds (p - 1) ltac:(lia)). pose proof nc_bounds.
    pose proof nc_spec as (K & HK & E & _).
    assert (E2 : 2 ^ p = 2 * 2 ^ (p - 1)) by (rewrite <- Z.pow_succ_r by lia; f_equal; lia).
    assert (2 ^ p <= 2 * (nc * (d - 1))) by nia.
    assert (2 ^ p / d < 2 * nc - 2 * K + 1); [|lia]. apply Z.div_lt_upper_bound; [lia|]. nia.
Qed.

(** The multiplier is not a power of two of the sign bit. *)
Lemma multiplier_not_half p : S <= p -> 2 ^ p / d + 1 <> 2 ^ (S - 1).
Proof.
  intros Hp E. pose proof (multiplier_eq p) as Hm. rewrite E in Hm. pose proof (delta_bounds p ltac:(lia)).
  assert (E2 : 2 ^ p = 2 ^ (S - 1) * 2 ^ (p - (S - 1))) by (rewrite <- Z.pow_add_r by lia; f_equal; lia).
  exact (no_multiple (2 ^ (S - 1)) d (2 ^ p) (2 ^ (p - (S - 1))) (delta p) Hm E2 H ltac:(lia)).
Qed.

(** ** The loop *)

Lemma div_double n p :
  0 < n -> 0 <= p ->
  (if n <=? 2 ^ p mod n * 2 then (2 ^ p / n * 2 + 1, 2 ^ p mod n * 2 - n) else (2 ^ p / n * 2, 2 ^ p mod n * 2))
  = (2 ^ (p + 1) / n, 2 ^ (p + 1) mod n).
Proof.
  intros Hn Hp. pose proof (Z.div_mod (2 ^ p) n ltac:(lia)) as E. pose proof (Z.mod_pos_bound (2 ^ p) n Hn) as Hr.
  rewrite Z.pow_add_r, Z.pow_1_r by lia. set (q := 2 ^ p / n) in *. set (r := 2 ^ p mod n) in *.
  destruct (Z.leb_spec n (r * 2)) as [Hc|Hc]; f_equal.
  - apply (Z.div_unique_pos _ _ _ (r * 2 - n)); lia.
  - apply (Z.mod_unique_pos _ _ (q * 2 + 1)); lia.
  - apply (Z.div_unique_pos _ _ _ (r * 2)); lia.
  - apply (Z.mod_unique_pos _ _ (q * 2)); lia.
Qed.

(** The two halves of a step of the loop, in 64 bits. *)
Lemma step_pair n p :
  0 < n < 2 ^ 64 -> 0 <= p -> 2 ^ (p + 1) / n < 2 ^ 64 -> 2 * (2 ^ p mod n) < 2 ^ 64 ->
  (if n <=? u64 (2 ^ p mod n * 2)
   then (u64 (u64 (2 ^ p / n * 2) + 1), u64 (u64 (2 ^ p mod n * 2) - n))
   else (u64 (2 ^ p / n * 2), u64 (2 ^ p mod n * 2))) = (2 ^ (p + 1) / n, 2 ^ (p + 1) mod n).
Proof.
  intros Hn Hp Hq Hr2. pose proof (div_double n p ltac:(lia) Hp) as E. pose proof (Z.mod_pos_bound (2 ^ p) n ltac:(lia)).
  assert (Hq0 : 0 <= 2 ^ p / n) by (apply Z.div_pos; [apply Z.pow_nonneg|]; lia).
  rewrite (u64_small (2 ^ p mod n * 2)) by (unfold in_u64; lia). revert E.
  destruct (Z.leb_spec n (2 ^ p mod n * 2)) as [Hc|Hc]; intros [= E1 E2]; rewrite <- ?E1, <- ?E2 in *.
  - rewrite (u64_small (2 ^ p / n * 2)) by (unfold in_u64; lia). by rewrite !u64_small by (unfold in_u64; lia).
  - by rewrite !u64_small by (unfold in_u64; lia).
Qed.

Lemma continues p : 0 <= p ->
  (2 ^ p / nc <? delta p) || ((2 ^ p / nc =? delta p) && (2 ^ p mod nc =? 0)) = true <-> ~ enough p.
Proof.
  intros Hp. unfold enough. pose proof nc_bounds as Hnc. pose proof (Z.div_mod (2 ^ p) nc ltac:(lia)) as E.
  pose proof (Z.mod_pos_bound (2 ^ p) nc ltac:(lia)) as Hr. set (q := 2 ^ p / nc) in *. set (r := 2 ^ p mod nc) in *.
  rewrite orb_true_iff, andb_true_iff, Z.ltb_lt, !Z.eqb_eq. rewrite E. split; [intros [H|[-> ->]]; nia|intros H].
  destruct (Z.lt_total q (delta p)) as [|[->|]]; [lia| |]; [right; lia|nia].
Qed.

Lemma reached_bounds p :
  S - 1 <= p -> (p = S - 1 \/ ~ enough p) ->
  2 ^ (p + 1) / nc < 2 ^ 64 /\ 2 ^ (p + 1) / d < 2 ^ 64 /\
  2 * (2 ^ p mod nc) < 2 ^ 64 /\ 2 * (2 ^ p mod d) < 2 ^ 64.
Proof.
  intros Hp Hc. pose proof nc_bounds as Hnc. pose proof half_pow as Hh. pose proof (two_pow_64 S ltac:(lia)) as H64.
  pose proof (Z.mod_pos_bound (2 ^ p) nc ltac:(lia)). pose proof (Z.mod_pos_bound (2 ^ p) d ltac:(lia)).
  assert (E2 : 2 ^ (p + 1) = 2 * 2 ^ p) by (rewrite <- Z.pow_succ_r by lia; f_equal; lia).
  split.
  - apply Z.div_lt_upper_bound; [lia|]. destruct Hc as [->|Hc]; [nia|].
    unfold enough in Hc. pose proof (delta_bounds p ltac:(lia)).
    assert (nc * delta p <= nc * (2 ^ (S - 1) - 1)) by (apply Z.mul_le_mono_nonneg_l; lia).
    assert (nc * 2 ^ S <= nc * 2 ^ 64) by (apply Z.mul_le_mono_nonneg_l; lia). lia.
  - split; [|lia]. enough (2 ^ (p + 1) / d + 1 < 2 ^ S) by lia. apply quotient_bound; [lia|].
    replace (p + 1 - 1) with p by lia. destruct Hc; [left; lia|by right].
Qed.

Lemma smagic_loop_ok fuel : forall p,
  S - 1 <= p <= 2 * S - 2 -> 2 * S - 2 < p + Z.of_nat fuel + 1 -> (p = S - 1 \/ ~ enough p) ->
  exists p', smagic_loop fuel d nc p (2 ^ p / nc) (2 ^ p mod nc) (2 ^ p / d) (2 ^ p mod d) = Ok (p', 2 ^ p' / d) /\
    p < p' <= 2 * S - 2 /\ enough p' /\ (forall j, p < j < p' -> ~ enough j).
Proof.
  pose proof enough_last as Hlast. pose proof d64 as Hd64. pose proof nc_bounds as Hnc. pose proof half_pow as Hh.
  pose proof (two_pow_64 S ltac:(lia)) as H64. pose proof (two_pow_64 (S - 1) ltac:(lia)) as H64'.
  induction fuel as [|fuel IH]; intros p Hp Hfuel Hc.
  { assert (p = 2 * S - 2) by lia. destruct Hc; [lia|by subst p]. }
  assert (Hp2 : p < 2 * S - 2) by (destruct (decide (p = 2 * S - 2)) as [->|]; [destruct Hc; [lia|done]|lia]).
  destruct (reached_bounds p ltac:(lia) Hc) as (B1 & B2 & B3 & B4).
  pose proof (delta_bounds (p + 1) ltac:(clear -Hp HS; lia)) as Hdl.
  assert (Hnc64 : 0 < nc < 2 ^ 64) by (clear -Hnc H64 Hh Hd; lia).
  assert (Hp0 : 0 <= p) by (clear -Hp HS; lia).
  pose proof (step_pair nc p Hnc64 Hp0 B1 B3) as E1.
  pose proof (step_pair d p Hd64 Hp0 B2 B4) as E2.
  pose proof (smagic_loop_step fuel d nc p _ _ _ _ _ _ _ _ E1 E2) as E3.
  assert (Edl : u64 (d - 2 ^ (p + 1) mod d) = delta (p + 1)).
  { apply u64_small. fold (delta (p + 1)). unfold in_u64. clear -Hdl Hd64. lia. }
  rewrite E3, Edl. clear E1 E2 E3 Edl.
  destruct (_ || _) eqn:Et.
  - apply continues in Et; [|lia]. destruct (IH (p + 1)) as (p' & -> & Hp' & He & Hmin); [lia|lia|by right|].
    exists p'. split; [done|]. split; [lia|]. split; [done|]. intros j Hj.
    destruct (decide (j = p + 1)) as [->|]; [done|]. apply Hmin. lia.
  - exists (p + 1). split; [done|]. split; [lia|]. split; [|lia].
    destruct (decide (enough (p + 1))) as [|Hn]; [done|]. apply continues in Hn; [|lia]. congruence.
Qed.

(** ** The quotient *)

Section Exact.
Context (p : Z).
Hypothesis Hp : S <= p.
Hypothesis Hen : enough p.
Hypothesis Hmin : forall j, S <= j < p -> ~ enough j.

Abbreviation M := (2 ^ p / d + 1).

(** [delta x <= 2^p (d - x mod d)], strictly for the dividends below [t]. *)
Lemma slack_above x : nc < x -> x mod d <= d - 2 -> x mod d = x - nc - 1 -> delta p * x < 2 ^ p * (d - x mod d).
Proof.
  intros Hx Hm Er. pose proof (delta_bounds p ltac:(lia)) as Hdl. pose proof nc_bounds as Hnc. unfold enough in Hen.
  rewrite Er in *. assert (H1 : delta p * (x - nc) <= delta p * nc) by (apply Z.mul_le_mono_nonneg_l; lia).
  assert (H2 : 2 ^ p * 1 <= 2 ^ p * (d - (x - nc - 1) - 1)) by (apply Z.mul_le_mono_nonneg_l; lia). lia.
Qed.

Lemma slack_below x : 0 <= x < t -> delta p * x < 2 ^ p * (d - x mod d).
Proof.
  intros Hx. pose proof (delta_bounds p ltac:(lia)) as Hdl. pose proof nc_bounds as Hnc.
  pose proof nc_spec as (K & HK & E & Et). pose proof (Z.mod_pos_bound t d ltac:(lia)) as Hm.
  pose proof (Z.mod_pos_bound x d ltac:(lia)) as Hxm.
  destruct (Z_le_gt_dec x nc) as [Hle|Hgt].
  - unfold enough in Hen. assert (delta p * x <= delta p * nc) by (apply Z.mul_le_mono_nonneg_l; lia).
    assert (2 ^ p * 1 <= 2 ^ p * (d - x mod d)) by (apply Z.mul_le_mono_nonneg_l; lia). lia.
  - assert (Er : x mod d = x - nc - 1) by (symmetry; apply (Z.mod_unique_pos _ _ K); lia).
    apply slack_above; lia.
Qed.

(** The smallest dividend, which only a positive divisor rounds up. *)
Lemma slack_at : t = 2 ^ (S - 1) -> delta p * t <= 2 ^ p * (d - t mod d).
Proof.
  intros Et2. pose proof nc_bounds as Hnc. pose proof half_pow as Hh.
  pose proof nc_spec as (K & HK & E & Et). pose proof (Z.mod_pos_bound t d ltac:(lia)) as Hm.
  destruct (decide (t mod d = d - 1)) as [Hl|Hl].
  - assert (HdS : delta S = 2).
    { unfold delta. replace (2 ^ S mod d) with (d - 2); [lia|]. apply (Z.mod_unique_pos _ _ (2 * K + 1)); lia. }
    assert (HeS : enough S) by (unfold enough; rewrite HdS; lia).
    assert (p = S) as -> by (destruct (decide (p = S)); [done|]; destruct (Hmin S); [lia|done]).
    rewrite HdS, Hl. lia.
  - apply Z.lt_le_incl, slack_above; lia.
Qed.

(** Rounding [M x / 2^p] down and up. *)
Lemma floor_exact x : 0 <= x < t -> M * x / 2 ^ p = x / d.
Proof.
  intros Hx. pose proof (slack_below x Hx) as Hs. pose proof (multiplier_eq p) as Hm.
  pose proof (delta_bounds p ltac:(lia)) as Hdl. pose proof (Z.div_mod x d ltac:(lia)) as Hdm.
  pose proof (Z.mod_pos_bound x d ltac:(lia)) as Hxm. assert (0 < 2 ^ p) by (apply Z.pow_pos_nonneg; lia).
  apply div_by_multiple with (d := d) (r := x mod d) (c := delta p); done || lia.
Qed.

Lemma ceil_exact x : 0 < x < t \/ x = t /\ t = 2 ^ (S - 1) -> - (M * x) / 2 ^ p + 1 = - (x / d).
Proof.
  intros Hx. pose proof (multiplier_eq p) as Hm.
  pose proof (delta_bounds p ltac:(lia)) as Hdl. pose proof (Z.div_mod x d ltac:(lia)) as Hdm.
  pose proof (Z.mod_pos_bound x d ltac:(lia)) as Hxm. assert (0 < 2 ^ p) by (apply Z.pow_pos_nonneg; lia).
  assert (Hs : delta p * x <= 2 ^ p * (d - x mod d)).
  { destruct Hx as [Hx|[-> Hx]]; [|by apply slack_at]. apply Z.lt_le_incl, slack_below. lia. }
  apply ceil_by_multiple with (d := d) (r := x mod d) (c := delta p); done || lia.
Qed.
End Exact.
End Search.

(** ** Signed division *)

(** The high half of the product, adjusted by the dividend when the multiplier wrapped. *)
Definition sdiv_high (D S : Z) (info : util_fast_sdiv_info) (n : Z) : Z :=
  let res := s_multiplier info * n / 2 ^ S in
  let res := if (0 <? D) && (s_multiplier info <? 0) then res + n else res in
  if (D <? 0) && (0 <? s_multiplier info) then res - n else res.

(** The whole sequence: shift, then add the sign bit. *)
Definition fast_sdiv (D S : Z) (info : util_fast_sdiv_info) (n : Z) : Z :=
  let res := sdiv_high D S info n / 2 ^ s_shift info in
  res + Z.b2z (res <? 0).

(** [info] divides by [D], in [S] bits: the multiplier is a number of [S] bits and no
    intermediate result overflows. *)
Record sdiv_ok (D S : Z) (info : util_fast_sdiv_info) : Prop := {
  sok_multiplier : - 2 ^ (S - 1) < s_multiplier info < 2 ^ (S - 1);
  sok_shift : 0 <= s_shift info < S;
  sok_high : forall n, - 2 ^ (S - 1) <= n < 2 ^ (S - 1) ->
    - 2 ^ (S - 1) <= sdiv_high D S info n < 2 ^ (S - 1);
  sok_quotient : forall n, - 2 ^ (S - 1) <= n < 2 ^ (S - 1) -> fast_sdiv D S info n = Z.quot n D
}.

Lemma sign_extend_ok x w :
  0 < w <= 64 -> 0 <= x < 2 ^ w ->
  util_sign_extend x w = Ok (if x <? 2 ^ (w - 1) then x else x - 2 ^ w).
Proof.
  intros Hw Hx. pose proof (two_pow_64 w ltac:(lia)) as H64. unfold util_sign_extend.
  assert (E0 : (if w =? 64 then Ok true else let* p := shl64 1 w in Ok (x <? p)) = Ok true).
  { destruct (Z.eqb_spec w 64) as [->|Hne]; [done|]. rewrite shl64_one by lia. cbn [res_bind].
    by rewrite (proj2 (Z.ltb_lt _ _)) by lia. }
  rewrite E0. cbn [res_bind]. rewrite assert_bind_true by done. unfold util_mask_sign_extend.
  rewrite assert_bind_true by (rewrite andb_true_iff, Z.ltb_lt, Z.leb_le; lia). cbv zeta.
  unfold shl64. rewrite (proj2 (Z.ltb_lt _ _)) by lia. cbn [res_bind]. f_equal.
  rewrite Z.shiftl_mul_pow2, shiftr_div by lia.
  assert (Ew : 2 ^ w * 2 ^ (64 - w) = 2 ^ 64) by (rewrite <- Z.pow_add_r by lia; f_equal; lia).
  assert (Eh : 2 ^ (w - 1) * 2 ^ (64 - w) = 2 ^ 63) by (rewrite <- Z.pow_add_r by lia; f_equal; lia).
  assert (Eh2 : 2 ^ w = 2 * 2 ^ (w - 1)) by (rewrite <- Z.pow_succ_r by lia; f_equal; lia).
  assert (Hs : 0 < 2 ^ (64 - w)) by (apply Z.pow_pos_nonneg; lia).
  rewrite u64_small by (unfold in_u64; nia).
  unfold i64. destruct (Z.ltb_spec x (2 ^ (w - 1))) as [Hc|Hc].
  - rewrite Z.mod_small by nia. rewrite Z.add_simpl_r. apply Z.div_mul. lia.
  - replace ((x * 2 ^ (64 - w) + 2 ^ 63) mod 2 ^ 64) with (x * 2 ^ (64 - w) + 2 ^ 63 - 2 ^ 64).
    + replace (x * 2 ^ (64 - w) + 2 ^ 63 - 2 ^ 64 - 2 ^ 63) with ((x - 2 ^ w) * 2 ^ (64 - w)) by lia.
      apply Z.div_mul. lia.
    + apply (Z.mod_unique_pos _ _ 1); [nia|lia].
Qed.

(** What the high half is, for a multiplier [M] below [2^S] taken as a signed number. *)
Lemma sdiv_high_ok D S M sh n :
  0 < S -> 0 < M < 2 ^ S -> M <> 2 ^ (S - 1) -> D <> 0 -> - 2 ^ (S - 1) <= n < 2 ^ (S - 1) ->
  let m := if M <? 2 ^ (S - 1) then M else M - 2 ^ S in
  let high := sdiv_high D S (mk_sdiv (if D <? 0 then - m else m) sh) n in
  high = (if D <? 0 then - (M * n) else M * n) / 2 ^ S /\ - 2 ^ (S - 1) <= high < 2 ^ (S - 1).
Proof.
  intros HS HM Hne HD Hn m high.
  assert (E : high = (if D <? 0 then - (M * n) else M * n) / 2 ^ S).
  { unfold high, sdiv_high, m. cbn [s_multiplier s_shift].
    destruct (Z.ltb_spec M (2 ^ (S - 1))) as [Hc|Hc]; destruct (Z.ltb_spec D 0) as [H0|H0].
    - rewrite (proj2 (Z.ltb_ge 0 D)), (proj2 (Z.ltb_ge 0 (- M))) by lia. cbn. f_equal. lia.
    - rewrite (proj2 (Z.ltb_ge M 0)), andb_false_r by lia. done.
    - rewrite (proj2 (Z.ltb_ge 0 D)), (proj2 (Z.ltb_lt 0 (- (M - 2 ^ S)))) by lia. cbn.
      replace (- (M - 2 ^ S) * n) with (- (M * n) + n * 2 ^ S) by lia. rewrite Z.div_add by lia. lia.
    - rewrite (proj2 (Z.ltb_lt 0 D)), (proj2 (Z.ltb_lt (M - 2 ^ S) 0)) by lia. cbn.
      replace ((M - 2 ^ S) * n) with (M * n + - n * 2 ^ S) by lia. rewrite Z.div_add by lia. lia. }
  split; [done|]. rewrite E. assert (H2 : 2 ^ S = 2 * 2 ^ (S - 1)) by (rewrite <- Z.pow_succ_r by lia; f_equal; lia).
  assert (Hh : 0 < 2 ^ (S - 1)) by (apply Z.pow_pos_nonneg; lia).
  assert (Hb : - (2 ^ (S - 1) * 2 ^ S) <= M * n /\ M * n < 2 ^ S * 2 ^ (S - 1)
             /\ - (2 ^ (S - 1) * 2 ^ S) < M * n).
  { split; [nia|]. split; nia. }
  destruct (Z.ltb_spec D 0); (split; [apply Z.div_le_lower_bound|apply Z.div_lt_upper_bound]); lia.
Qed.

Lemma quot_sign n D d : D <> 0 -> d = Z.abs D -> Z.quot n D = Z.sgn D * (Z.sgn n * (Z.abs n / d)).
Proof. intros HD ->. rewrite Z.quot_div by done. lia. Qed.

(** Rounding towards zero, from the two roundings of [M x / 2^p]. *)
Lemma sdiv_quotient D S t M p n :
  let d := Z.abs D in
  t = 2 ^ (S - 1) + Z.b2z (D <? 0) -> 0 < S -> 1 < d -> S <= p -> 0 < M < 2 ^ S ->
  (forall x, 0 <= x < t -> M * x / 2 ^ p = x / d) ->
  (forall x, 0 < x < t \/ x = t /\ t = 2 ^ (S - 1) -> - (M * x) / 2 ^ p + 1 = - (x / d)) ->
  - 2 ^ (S - 1) <= n < 2 ^ (S - 1) ->
  let res := (if D <? 0 then - (M * n) else M * n) / 2 ^ S / 2 ^ (p - S) in
  res + Z.b2z (res <? 0) = Z.quot n D.
Proof.
  intros d Ht HS Hd Hp HM Hfloor Hceil Hn res.
  assert (Eres : res = (if D <? 0 then - (M * n) else M * n) / 2 ^ p).
  { unfold res. rewrite Z.div_div, <- Z.pow_add_r by (try apply Z.pow_nonzero; try apply Z.pow_pos_nonneg; lia).
    by replace (S + (p - S)) with p by lia. }
  assert (Hb : 0 < 2 ^ (S - 1)) by (apply Z.pow_pos_nonneg; lia).
  rewrite (quot_sign n D d) by (subst d; lia). rewrite Eres. clear Eres res. subst t.
  destruct (Z.ltb_spec D 0) as [HD|HD]; cbn [Z.b2z] in *.
  - rewrite (Z.sgn_neg D) by done. destruct (Z.lt_total n 0) as [H0|[->|H0]].
    + rewrite Z.sgn_neg, Z.abs_neq by lia. replace (- (M * n)) with (M * - n) by lia.
      rewrite (Hfloor (- n)) by lia. assert (0 <= - n / d) by (apply Z.div_pos; lia).
      rewrite (proj2 (Z.ltb_ge _ _)) by lia. cbn [Z.b2z]. lia.
    + rewrite Z.mul_0_r. cbn. by rewrite Zdiv_0_l.
    + rewrite Z.sgn_pos, Z.abs_eq by lia. pose proof (Hceil n ltac:(left; lia)) as Hc.
      assert (0 <= n / d) by (apply Z.div_pos; lia). rewrite (proj2 (Z.ltb_lt _ _)) by lia. cbn [Z.b2z]. lia.
  - rewrite (Z.sgn_pos D) by (subst d; lia). rewrite Z.add_0_r in *. destruct (Z.lt_total n 0) as [H0|[->|H0]].
    + rewrite Z.sgn_neg, Z.abs_neq by lia. pose proof (Hceil (- n) ltac:(lia)) as Hc.
      replace (- (M * - n)) with (M * n) in Hc by lia.
      assert (0 <= - n / d) by (apply Z.div_pos; lia). rewrite (proj2 (Z.ltb_lt _ _)) by lia. cbn [Z.b2z]. lia.
    + rewrite Z.mul_0_r. cbn. by rewrite Zdiv_0_l.
    + rewrite Z.sgn_pos, Z.abs_eq by lia. rewrite (Hfloor n) by lia.
      assert (0 <= n / d) by (apply Z.div_pos; lia). rewrite (proj2 (Z.ltb_ge _ _)) by lia. cbn [Z.b2z]. lia.
Qed.

#[local] Opaque smagic_loop util_sign_extend.

(** The whole computation, with the exponent the loop stops at. *)
Lemma sdiv_computes D S :
  let d := Z.abs D in
  let t := 2 ^ (S - 1) + Z.b2z (D <? 0) in
  2 < S <= 64 -> 2 < d < 2 ^ (S - 1) -> d <> 2 ^ Z.log2 d ->
  exists p, let M := 2 ^ p / d + 1 in let m := if M <? 2 ^ (S - 1) then M else M - 2 ^ S in
    util_compute_fast_sdiv_info D S = Ok (mk_sdiv (if D <? 0 then - m else m) (p - S)) /\
    S <= p <= 2 * S - 2 /\ enough d t p /\ (forall j, S <= j < p -> ~ enough d t j).
Proof.
  intros d t HS Hd HP.
  assert (Ht : 2 ^ (S - 1) <= t <= 2 ^ (S - 1) + 1) by (unfold t; destruct (D <? 0); cbn; lia).
  pose proof (two_pow_64 S ltac:(lia)) as H64.
  assert (Hh : 2 ^ S = 2 * 2 ^ (S - 1)) by (rewrite <- Z.pow_succ_r by lia; f_equal; lia).
  pose proof (nc_bounds S d t) as Hnc. specialize (Hnc HS Hd Ht).
  destruct (smagic_loop_ok S d t HS Hd HP Ht 64 (S - 1) ltac:(lia) ltac:(lia) ltac:(by left)) as (p & E & Hp & He & Hmin).
  exists p. intros M m.
  assert (HM : 0 < M < 2 ^ S).
  { split; [pose proof (Z.div_pos (2 ^ p) d ltac:(apply Z.pow_nonneg; lia) ltac:(lia)); lia|].
    apply (quotient_bound S d t); try done; [lia|]. destruct (decide (p = S)); [by left|right]. apply Hmin. lia. }
  split; [|split; [lia|split; [done|intros j Hj; apply Hmin; lia]]].
  unfold util_compute_fast_sdiv_info.
  rewrite !assert_bind_true by (rewrite ?andb_true_iff, ?negb_true_iff, ?Z.eqb_neq; lia).
  assert (Ed : u64 (if D <? 0 then - D else D) = d).
  { rewrite u64_small; destruct (Z.ltb_spec D 0); unfold in_u64; lia. }
  assert (Et : u64 (2 ^ (S - 1) + Z.b2z (D <? 0)) = t) by (apply u64_small; unfold in_u64; fold t; lia).
  assert (En : u64 (t - 1 - t mod d) = nc d t) by (apply u64_small; unfold in_u64; fold (nc d t); lia).
  assert (Ez : (nc d t =? 0) = false) by (apply Z.eqb_neq; clear -Hnc Hd; lia).
  cbv zeta. rewrite shl64_one by lia. cbn [res_bind]. rewrite Ed, Et, En.
  rewrite Ez, E. cbn [res_bind].
  assert (EM : u64 (2 ^ p / d + 1) = M) by (apply u64_small; fold M; unfold in_u64; clear -HM H64; lia).
  rewrite EM, (sign_extend_ok M S) by lia. cbn [res_bind]. reflexivity.
Qed.

Lemma sdiv_total D S :
  2 < S <= 64 -> 2 < Z.abs D < 2 ^ (S - 1) -> Z.abs D <> 2 ^ Z.log2 (Z.abs D) ->
  exists info, util_compute_fast_sdiv_info D S = Ok info /\ sdiv_ok D S info.
Proof.
  intros HS Hd HP. destruct (sdiv_computes D S HS Hd HP) as (p & -> & Hp & He & Hmin). eexists; split; [reflexivity|].
  set (d := Z.abs D) in *. set (t := 2 ^ (S - 1) + Z.b2z (D <? 0)) in *.
  assert (Ht : 2 ^ (S - 1) <= t <= 2 ^ (S - 1) + 1) by (unfold t; destruct (D <? 0); cbn; lia).
  assert (HM : 0 < 2 ^ p / d + 1 < 2 ^ S).
  { split; [pose proof (Z.div_pos (2 ^ p) d ltac:(apply Z.pow_nonneg; lia) ltac:(lia)); lia|].
    apply (quotient_bound S d t); try done; [lia|]. destruct (decide (p = S)); [by left|right]. apply Hmin. lia. }
  pose proof (multiplier_not_half S d HS Hd HP p ltac:(lia)) as Hne.
  pose proof (floor_exact S d t HS Hd HP Ht p ltac:(lia) He) as Hfloor.
  pose proof (ceil_exact S d t HS Hd HP Ht p ltac:(lia) He Hmin) as Hceil.
  set (M := 2 ^ p / d + 1) in *. clearbody M. clear He Hmin.
  assert (Hh : 2 ^ S = 2 * 2 ^ (S - 1)) by (rewrite <- Z.pow_succ_r by lia; f_equal; lia).
  assert (Hhigh : forall n, - 2 ^ (S - 1) <= n < 2 ^ (S - 1) -> _) by
    exact (fun n => sdiv_high_ok D S M (p - S) n ltac:(lia) HM Hne ltac:(lia)).
  cbv zeta in Hhigh. split; cbn [s_multiplier s_shift].
  - destruct (Z.ltb_spec M (2 ^ (S - 1))), (D <? 0); lia.
  - lia.
  - intros n Hn. apply (Hhigh n Hn).
  - intros n Hn. unfold fast_sdiv. rewrite (proj1 (Hhigh n Hn)). cbn [s_shift].
    apply (sdiv_quotient D S t M p n); try done; lia.
Qed.

(** C14: [util_compute_fast_sdiv_info] returns for every divisor that is not a power of two
    (no assertion fails, no shift or division is undefined, the loop ends), and what it
    returns divides exactly: the high half of the product, adjusted, shifted and rounded by
    its sign bit is the quotient rounded towards zero, for every dividend, and nothing
    overflows on the way. *)
Theorem fast_sdiv_exact D SINT_BITS :
  2 < SINT_BITS <= 64 -> 2 < Z.abs D < 2 ^ (SINT_BITS - 1) -> Z.abs D <> 2 ^ Z.log2 (Z.abs D) ->
  exists info, util_compute_fast_sdiv_info D SINT_BITS = Ok info /\ sdiv_ok D SINT_BITS info.
Proof. apply sdiv_total. Qed.

Lemma fast_sdiv_exact_witness :
  exists info, util_compute_fast_sdiv_info (-7) 32 = Ok info /\ sdiv_ok (-7) 32 info.
Proof. apply fast_sdiv_exact; [lia|lia|vm_compute; discriminate]. Defined.
