(* ===== verification/Nir.v ===== *)
(** The integer instructions of NIR ([compiler/nir]): the constant expressions of
    [nir_opcodes.py], which say what an instruction computes, and the builder of
    [nir_builder.h], which creates instructions and assigns their bit sizes. *)

From stdpp Require Import list.
From S2P Require Import Prelude.
From S2P Require Import CLib.
From S2P Require Import BigMath.
From S2P Require Import FastDiv.

(** ** Values

    A component of a [nir_const_value] is kept as an unsigned number of its bit size; an
    expression reads a source as [int<w>_t] or [uint<w>_t] and its result is converted back.
    The negation of the most negative number in [iabs] wraps around. *)

Definition c_uint (w x : Z) : Z := x mod 2 ^ w.
Definition c_int (w x : Z) : Z := (x + 2 ^ (w - 1)) mod 2 ^ w - 2 ^ (w - 1).
Definition int_min (w : Z) : Z := - 2 ^ (w - 1).
Definition uint_max (w : Z) : Z := 2 ^ w - 1.

Definition op_ineg w a := let src0 := c_int w a in c_uint w (if src0 =? int_min w then src0 else - src0).
Definition op_inot w a := c_uint w (Z.lnot (c_int w a)).
Definition op_iabs w a := let src0 := c_int w a in c_uint w (if src0 <? 0 then - src0 else src0).
Definition op_b2i dst_bit_size a := c_uint dst_bit_size (Z.b2z (negb (a =? 0))).

Definition op_iadd w a b := c_uint w (u64 (u64 (c_int w a) + u64 (c_int w b))).
Definition op_uadd_sat w a b := if uint_max w <? a + b then uint_max w else a + b.
Definition op_isub w a b := c_uint w (u64 (u64 (c_int w a) - u64 (c_int w b))).
Definition op_imul w a b := c_uint w (u64 (u64 (c_int w a) * u64 (c_int w b))).

Definition op_imul_high w a b :=
  if w =? 64 then
    let digits x := [u32 x; u32 (Z.shiftr x 32); u32 (Z.shiftr x 63); u32 (Z.shiftr x 63)] in
    let '(prod_u32, _) := _ubm_mul_u32arr 4 (digits (c_int w a)) (digits (c_int w b)) in
    c_uint w (Z.lor (prod_u32 !!! 2%nat) (u64 (Z.shiftl (prod_u32 !!! 3%nat) 32)))
  else c_uint w (Z.shiftr (u64 (u64 (c_int w a) * u64 (c_int w b))) w).

Definition op_umul_high w a b :=
  if w =? 64 then
    let digits x := [u32 x; u32 (Z.shiftr x 32)] in
    let '(prod_u32, _) := _ubm_mul_u32arr 4 (digits a) (digits b) in
    c_uint w (Z.lor (prod_u32 !!! 2%nat) (u64 (Z.shiftl (prod_u32 !!! 3%nat) 32)))
  else c_uint w (Z.shiftr (u64 (a * b)) w).

Definition op_idiv w a b :=
  let src0 := c_int w a in let src1 := c_int w b in
  c_uint w (if (src1 =? 0) || ((src0 =? int_min w) && (src1 =? -1)) then 0 else Z.quot src0 src1).
Definition op_udiv (w a b : Z) := if b =? 0 then 0 else a / b.
Definition op_umod (w a b : Z) := if b =? 0 then 0 else a mod b.
Definition op_irem w a b :=
  let src0 := c_int w a in let src1 := c_int w b in
  c_uint w (if (src1 =? 0) || ((src0 =? int_min w) && (src1 =? -1)) then 0 else Z.rem src0 src1).
Definition op_imod w a b :=
  let src0 := c_int w a in let src1 := c_int w b in
  c_uint w (if (src1 =? 0) || ((src0 =? int_min w) && (src1 =? -1)) then 0
            else if (Z.rem src0 src1 =? 0) || Bool.eqb (0 <=? src0) (0 <=? src1)
            then Z.rem src0 src1 else Z.rem src0 src1 + src1).

Definition op_ilt w a b := Z.b2z (c_int w a <? c_int w b).
Definition op_ige w a b := Z.b2z (c_int w b <=? c_int w a).
Definition op_ieq w a b := Z.b2z (c_int w a =? c_int w b).
Definition op_ult (w a b : Z) := Z.b2z (a <? b).
Definition op_uge (w a b : Z) := Z.b2z (b <=? a).

(** Shifts use the low bits of the shift count ([sizeof(src0) * 8 - 1]). *)
Definition op_ishl w a b := c_uint w (u64 (Z.shiftl (u64 (c_int w a)) (Z.land b (w - 1)))).
Definition op_ishr w a b := c_uint w (Z.shiftr (c_int w a) (Z.land b (w - 1))).
Definition op_ushr (w a b : Z) := Z.shiftr a (Z.land b (w - 1)).

Definition op_iand (w a b : Z) := Z.land a b.
Definition op_ior (w a b : Z) := Z.lor a b.
Definition op_bcsel (w a b c : Z) := if negb (a =? 0) then b else c.

(** ** Instructions *)

Inductive nir_op : Set :=
| nir_op_ineg | nir_op_inot | nir_op_iabs | nir_op_b2i (dst_bit_size : Z)
| nir_op_iadd | nir_op_uadd_sat | nir_op_isub | nir_op_imul | nir_op_imul_high | nir_op_umul_high
| nir_op_idiv | nir_op_udiv | nir_op_umod | nir_op_irem | nir_op_imod
| nir_op_ilt | nir_op_ige | nir_op_ieq | nir_op_ult | nir_op_uge
| nir_op_ishl | nir_op_ishr | nir_op_ushr | nir_op_iand | nir_op_ior | nir_op_bcsel.

#[global] Instance nir_op_eq_dec : EqDecision nir_op.
Proof. solve_decision. Defined.

(** The sizes of the output and of the inputs of an opcode; 0 for a type without size. *)
Definition output_type_size (op : nir_op) : Z :=
  match op with
  | nir_op_b2i w => w
  | nir_op_ilt | nir_op_ige | nir_op_ieq | nir_op_ult | nir_op_uge => 1
  | _ => 0
  end.

Definition input_type_sizes (op : nir_op) : list Z :=
  match op with
  | nir_op_ineg | nir_op_inot | nir_op_iabs | nir_op_b2i _ => [0]
  | nir_op_ishl | nir_op_ishr | nir_op_ushr => [0; 32]
  | nir_op_bcsel => [1; 0; 0]
  | _ => [0; 0]
  end.

(** [eval_const_<op>]: the expression of an opcode at a bit size. *)
Definition eval_const (op : nir_op) (bit_size : Z) (src : list Z) : Z :=
  match op, src with
  | nir_op_ineg, [a] => op_ineg bit_size a
  | nir_op_inot, [a] => op_inot bit_size a
  | nir_op_iabs, [a] => op_iabs bit_size a
  | nir_op_b2i w, [a] => op_b2i w a
  | nir_op_iadd, [a; b] => op_iadd bit_size a b
  | nir_op_uadd_sat, [a; b] => op_uadd_sat bit_size a b
  | nir_op_isub, [a; b] => op_isub bit_size a b
  | nir_op_imul, [a; b] => op_imul bit_size a b
  | nir_op_imul_high, [a; b] => op_imul_high bit_size a b
  | nir_op_umul_high, [a; b] => op_umul_high bit_size a b
  | nir_op_idiv, [a; b] => op_idiv bit_size a b
  | nir_op_udiv, [a; b] => op_udiv bit_size a b
  | nir_op_umod, [a; b] => op_umod bit_size a b
  | nir_op_irem, [a; b] => op_irem bit_size a b
  | nir_op_imod, [a; b] => op_imod bit_size a b
  | nir_op_ilt, [a; b] => op_ilt bit_size a b
  | nir_op_ige, [a; b] => op_ige bit_size a b
  | nir_op_ieq, [a; b] => op_ieq bit_size a b
  | nir_op_ult, [a; b] => op_ult bit_size a b
  | nir_op_uge, [a; b] => op_uge bit_size a b
  | nir_op_ishl, [a; b] => op_ishl bit_size a b
  | nir_op_ishr, [a; b] => op_ishr bit_size a b
  | nir_op_ushr, [a; b] => op_ushr bit_size a b
  | nir_op_iand, [a; b] => op_iand bit_size a b
  | nir_op_ior, [a; b] => op_ior bit_size a b
  | nir_op_bcsel, [a; b; c] => op_bcsel bit_size a b c
  | _, _ => 0
  end.

(** A scalar [nir_def], as the tree of the instructions that compute it; [nir_ssa] is a value
    from outside. *)
#[warnings="-register-all"]
Inductive nir_def : Set :=
| nir_ssa (bit_size : Z) (index : nat)
| nir_load_const (bit_size value : Z)
| nir_alu (op : nir_op) (bit_size : Z) (src : list nir_def).

Definition bit_size (d : nir_def) : Z :=
  match d with
  | nir_ssa w _ | nir_load_const w _ | nir_alu _ w _ => w
  end.

(** [nir_try_constant_fold_alu] of [nir_opt_constant_folding.c]: the bit size an instruction
    is evaluated at, from its output or else its first source without a size. *)
Fixpoint unsized_source (sizes : list Z) (src : list nir_def) (w : Z) : Z :=
  match sizes, src with
  | s :: sizes', d :: src' =>
      unsized_source sizes' src' (if (w =? 0) && (s =? 0) then bit_size d else w)
  | _, _ => w
  end.

Definition eval_bit_size (op : nir_op) (def_bit_size : Z) (src : list nir_def) : Z :=
  let w := unsized_source (input_type_sizes op) src (if output_type_size op =? 0 then def_bit_size else 0) in
  if w =? 0 then 32 else w.

(** The value of a [nir_def], given the values from outside. *)
Fixpoint eval (env : nat -> Z) (d : nir_def) : Z :=
  match d with
  | nir_ssa _ i => env i
  | nir_load_const _ v => v
  | nir_alu op w src => eval_const op (eval_bit_size op w src) (map (eval env) src)
  end.

(** ** The builder *)

(** The loop over the sources of [nir_builder_alu_instr_finish_and_insert]. *)
Fixpoint alu_bit_size (sizes : list Z) (src : list nir_def) (w : Z) : res Z :=
  match sizes, src with
  | s :: sizes', d :: src' =>
      if s =? 0 then
        if negb (w =? 0) then assert! bit_size d =? w in alu_bit_size sizes' src' w
        else alu_bit_size sizes' src' (bit_size d)
      else assert! bit_size d =? s in alu_bit_size sizes' src' w
  | _, _ => Ok w
  end.

Definition nir_build_alu (op : nir_op) (src : list nir_def) : res nir_def :=
  let* w := if output_type_size op =? 0 then alu_bit_size (input_type_sizes op) src 0
            else Ok (output_type_size op) in
  Ok (nir_alu op (if w =? 0 then 32 else w) src).

(** The functions of [nir_builder_opcodes.h]. *)
Definition nir_ineg a := nir_build_alu nir_op_ineg [a].
Definition nir_inot a := nir_build_alu nir_op_inot [a].
Definition nir_iabs a := nir_build_alu nir_op_iabs [a].
Definition nir_iadd a b := nir_build_alu nir_op_iadd [a; b].
Definition nir_uadd_sat a b := nir_build_alu nir_op_uadd_sat [a; b].
Definition nir_isub a b := nir_build_alu nir_op_isub [a; b].
Definition nir_imul a b := nir_build_alu nir_op_imul [a; b].
Definition nir_imul_high a b := nir_build_alu nir_op_imul_high [a; b].
Definition nir_umul_high a b := nir_build_alu nir_op_umul_high [a; b].
Definition nir_ilt a b := nir_build_alu nir_op_ilt [a; b].
Definition nir_ige a b := nir_build_alu nir_op_ige [a; b].
Definition nir_ieq a b := nir_build_alu nir_op_ieq [a; b].
Definition nir_ult a b := nir_build_alu nir_op_ult [a; b].
Definition nir_uge a b := nir_build_alu nir_op_uge [a; b].
Definition nir_ishl a b := nir_build_alu nir_op_ishl [a; b].
Definition nir_ishr a b := nir_build_alu nir_op_ishr [a; b].
Definition nir_ushr a b := nir_build_alu nir_op_ushr [a; b].
Definition nir_iand a b := nir_build_alu nir_op_iand [a; b].
Definition nir_ior a b := nir_build_alu nir_op_ior [a; b].
Definition nir_bcsel a b c := nir_build_alu nir_op_bcsel [a; b; c].

Definition nir_const_value_for_raw_uint (x bit_size : Z) : res Z :=
  if bit_size =? 1 then Ok (Z.b2z (negb (x =? 0)))
  else if (bit_size =? 8) || (bit_size =? 16) || (bit_size =? 32) then Ok (c_uint bit_size x)
  else if bit_size =? 64 then Ok x
  else Fault AssertFail (* unreachable *).

(** [x] is a [uint64_t]: what the callers pass is converted. *)
Definition nir_imm_intN_t (x bit_size : Z) : res nir_def :=
  let* v := nir_const_value_for_raw_uint (u64 x) bit_size in Ok (nir_load_const bit_size v).

Definition nir_imm_int (x : Z) : res nir_def := nir_imm_intN_t x 32.

Definition nir_b2iN (src : nir_def) (w : Z) : res nir_def := nir_build_alu (nir_op_b2i w) [src].

Definition nir_ilt_imm a x := let* c := nir_imm_intN_t x (bit_size a) in nir_ilt a c.
Definition nir_ieq_imm a x := let* c := nir_imm_intN_t x (bit_size a) in nir_ieq a c.
Definition nir_uge_imm a x := let* c := nir_imm_intN_t x (bit_size a) in nir_uge a c.

Definition nir_iadd_imm (x : nir_def) (y : Z) : res nir_def :=
  assert! bit_size x <=? 64 in
  let y := Z.land (u64 y) (BITFIELD64_MASK (bit_size x)) in
  if y =? 0 then Ok x else let* c := nir_imm_intN_t y (bit_size x) in nir_iadd x c.

(** [ffsll]: one more than the index of the lowest bit set. *)
Definition ffsll (x : Z) : Z := if x =? 0 then 0 else Z.log2 (Z.land x (- x)) + 1.

(** [amul] is [false] in every call here; [lower_bitops] is the compiler's option. *)
Definition nir_imul_imm (lower_bitops : bool) (x : nir_def) (y : Z) : res nir_def :=
  assert! bit_size x <=? 64 in
  let y := Z.land (u64 y) (BITFIELD64_MASK (bit_size x)) in
  if y =? 0 then nir_imm_intN_t 0 (bit_size x)
  else if y =? 1 then Ok x
  else if negb lower_bitops && util_is_power_of_two_or_zero64 y then
    let* c := nir_imm_int (ffsll y - 1) in nir_ishl x c
  else let* c := nir_imm_intN_t y (bit_size x) in nir_imul x c.

Definition nir_iand_imm (x : nir_def) (y : Z) : res nir_def :=
  assert! bit_size x <=? 64 in
  let y := Z.land (u64 y) (BITFIELD64_MASK (bit_size x)) in
  if y =? 0 then nir_imm_intN_t 0 (bit_size x)
  else if y =? BITFIELD64_MASK (bit_size x) then Ok x
  else let* c := nir_imm_intN_t y (bit_size x) in nir_iand x c.

Definition nir_ishr_imm (x : nir_def) (y : Z) : res nir_def :=
  if y =? 0 then Ok x else let* c := nir_imm_int y in nir_ishr x c.

Definition nir_ushr_imm (x : nir_def) (y : Z) : res nir_def :=
  if y =? 0 then Ok x else let* c := nir_imm_int y in nir_ushr x c.
