(* ===== verification/NirProofs.v ===== *)
(** What the builder's instructions compute: for each function of the builder, the value of
    the instruction it creates in terms of the integers its sources stand for. *)

From stdpp Require Import list.
From S2P Require Import Prelude.
From S2P Require Import CLib.
From S2P Require Import BigMath.
From S2P Require Import FastDiv.
From S2P Require Import FastDivProofs.
From S2P Require Import Nir.

Create HintDb nir.

(** ** Bit sizes and conversions *)

Definition width (w : Z) : Prop := w = 8 \/ w = 16 \/ w = 32 \/ w = 64.

Lemma width_pos w : width w -> 8 <= w <= 64.
Proof. unfold width. lia. Qed.

Lemma pow_half w : 0 < w -> 2 ^ w = 2 * 2 ^ (w - 1).
Proof. intros. rewrite <- Z.pow_succ_r by lia. f_equal. lia. Qed.

Lemma pow_pos w : 0 <= w -> 0 < 2 ^ w.
Proof. intros. apply Z.pow_pos_nonneg; lia. Qed.

Lemma c_uint_range w x : 0 <= w -> 0 <= c_uint w x < 2 ^ w.
Proof. intros. apply Z.mod_pos_bound, pow_pos. done. Qed.

Lemma c_uint_small w x : 0 <= x < 2 ^ w -> c_uint w x = x.
Proof. apply Z.mod_small. Qed.

Lemma c_uint_u64 w x : 0 <= w <= 64 -> c_uint w (u64 x) = c_uint w x.
Proof.
  intros Hw. unfold c_uint, u64. apply Z.mod_mod_divide.
  exists (2 ^ (64 - w)). rewrite <- Z.pow_add_r by lia. f_equal. lia.
Qed.

Lemma c_int_range w x : 0 < w -> - 2 ^ (w - 1) <= c_int w x < 2 ^ (w - 1).
Proof.
  intros Hw. unfold c_int. pose proof (Z.mod_pos_bound (x + 2 ^ (w - 1)) (2 ^ w) ltac:(apply pow_pos; lia)).
  pose proof (pow_half w Hw). lia.
Qed.

Lemma c_uint_c_int w x : 0 < w -> c_uint w (c_int w x) = c_uint w x.
Proof.
  intros Hw. unfold c_uint, c_int. rewrite Zminus_mod_idemp_l. f_equal. lia.
Qed.

Lemma c_int_c_uint w z : 0 < w -> - 2 ^ (w - 1) <= z < 2 ^ (w - 1) -> c_int w (c_uint w z) = z.
Proof.
  intros Hw Hz. unfold c_uint, c_int. rewrite Zplus_mod_idemp_l. pose proof (pow_half w Hw).
  rewrite Z.mod_small by lia. lia.
Qed.

(** Two numbers with the same signed value are the same. *)
Lemma c_int_inj w x y : 0 < w -> 0 <= x < 2 ^ w -> 0 <= y < 2 ^ w -> c_int w x = c_int w y -> x = y.
Proof.
  intros Hw Hx Hy E. rewrite <- (c_uint_small w x Hx), <- (c_uint_small w y Hy).
  by rewrite <- (c_uint_c_int w x), <- (c_uint_c_int w y), E.
Qed.

Lemma c_uint_add w x y : c_uint w (c_uint w x + c_uint w y) = c_uint w (x + y).
Proof. unfold c_uint. by rewrite Zplus_mod_idemp_l, Zplus_mod_idemp_r. Qed.

Lemma c_uint_sub w x y : c_uint w (c_uint w x - c_uint w y) = c_uint w (x - y).
Proof. unfold c_uint. by rewrite Zminus_mod_idemp_l, Zminus_mod_idemp_r. Qed.

Lemma c_uint_mul w x y : c_uint w (c_uint w x * c_uint w y) = c_uint w (x * y).
Proof. unfold c_uint. by rewrite Zmult_mod_idemp_l, Zmult_mod_idemp_r. Qed.

(** The low [w] bits of 64-bit arithmetic on sign-extended numbers. *)
Lemma low_bits (f : Z -> Z -> Z) w x y :
  0 < w <= 64 ->
  (forall v a b, c_uint v (f (c_uint v a) (c_uint v b)) = c_uint v (f a b)) ->
  c_uint w (u64 (f (u64 (c_int w x)) (u64 (c_int w y)))) = c_uint w (f x y).
Proof.
  intros Hw Hf. rewrite c_uint_u64 by lia. rewrite <- Hf, !c_uint_u64, !c_uint_c_int, Hf by lia. done.
Qed.

(** ** High halves of products *)

Lemma div_mod_pow z m n : 0 <= m -> 0 <= n -> (z mod 2 ^ (m + n)) / 2 ^ m = (z / 2 ^ m) mod 2 ^ n.
Proof.
  intros Hm Hn. rewrite Z.pow_add_r by done. pose proof (pow_pos m Hm). pose proof (pow_pos n Hn).
  rewrite Z.rem_mul_r by lia. symmetry. apply (Z.div_unique_pos _ _ _ (z mod 2 ^ m)); [apply Z.mod_pos_bound; lia|ring].
Qed.

(** The upper two of four digits. *)
Lemma upper_digits dst z :
  length dst = 4%nat -> Forall in_u32 dst -> value dst = z mod 2 ^ 128 ->
  c_uint 64 (Z.lor (dst !!! 2%nat) (u64 (Z.shiftl (dst !!! 3%nat) 32))) = (z / 2 ^ 64) mod 2 ^ 64.
Proof.
  intros HL HF HV. destruct dst as [|d0 [|d1 [|d2 [|d3 [|]]]]]; try done.
  rewrite !Forall_cons in HF. destruct HF as (H0 & H1 & H2 & H3 & _). unfold in_u32 in *.
  change ([d0; d1; d2; d3] !!! 2%nat) with d2. change ([d0; d1; d2; d3] !!! 3%nat) with d3.
  rewrite Z.shiftl_mul_pow2 by lia. rewrite (u64_small (d3 * 2 ^ 32)) by (unfold in_u64; lia). rewrite Z.lor_comm, lor_disjoint_add by lia.
  rewrite c_uint_small by lia.
  rewrite <- (div_mod_pow z 64 64) by lia. change (64 + 64) with 128. rewrite <- HV. cbn [value].
  apply (Z.div_unique_pos _ _ _ (d0 + 2 ^ 32 * d1)); lia.
Qed.

Lemma op_umul_high_ok w x y :
  0 < w -> w = 64 \/ w <= 32 -> 0 <= x < 2 ^ w -> 0 <= y < 2 ^ w -> op_umul_high w x y = x * y / 2 ^ w.
Proof.
  intros Hw Hc Hx Hy. assert (Hp : 0 <= x * y < 2 ^ w * 2 ^ w) by nia.
  assert (Hq : 0 <= x * y / 2 ^ w < 2 ^ w).
  { split; [apply Z.div_pos; [|apply pow_pos]; lia|apply Z.div_lt_upper_bound; [apply pow_pos|]; lia]. }
  unfold op_umul_high. destruct (Z.eqb_spec w 64) as [->|Hne].
  - cbv zeta. set (dg := fun x => [u32 x; u32 (Z.shiftr x 32)]).
    assert (Hdg : forall v, 0 <= v < 2 ^ 64 -> Forall in_u32 (dg v) /\ value (dg v) = v).
    { intros v Hv. split; [repeat constructor; apply u32_range|]. unfold dg. cbn [value]. rewrite shiftr_div by lia.
      rewrite (u32_small (v / 2 ^ 32)) by (split; [apply Z.div_pos; lia|apply Z.div_lt_upper_bound; lia]).
      unfold u32. pose proof (Z.div_mod v (2 ^ 32) ltac:(lia)). lia. }
    destruct (Hdg x Hx) as [Fx Vx]. destruct (Hdg y Hy) as [Fy Vy].
    pose proof (ubm_mul_ok 4 (dg x) (dg y) Fx Fy) as H. fold (dg x) (dg y).
    destruct (_ubm_mul_u32arr 4 (dg x) (dg y)) as [dst o]. destruct H as (L & F & V & _). rewrite Vx, Vy in V.
    rewrite (upper_digits dst (x * y) L F V). apply Z.mod_small. done.
  - assert (H64 : 2 ^ w * 2 ^ w <= 2 ^ 64) by (rewrite <- Z.pow_add_r by lia; apply Z.pow_le_mono_r; lia).
    rewrite u64_small by (unfold in_u64; lia). rewrite shiftr_div by lia. apply c_uint_small. done.
Qed.

Lemma op_imul_high_ok w x y :
  0 < w -> w = 64 \/ w <= 32 -> op_imul_high w x y = c_uint w (c_int w x * c_int w y / 2 ^ w).
Proof.
  intros Hw Hc. pose proof (c_int_range w x Hw) as Hx. pose proof (c_int_range w y Hw) as Hy.
  unfold op_imul_high. destruct (Z.eqb_spec w 64) as [->|Hne].
  - cbv zeta. set (X := c_int 64 x) in *. set (Y := c_int 64 y) in *.
    set (dg := fun x => [u32 x; u32 (Z.shiftr x 32); u32 (Z.shiftr x 63); u32 (Z.shiftr x 63)]).
    assert (Hdg : forall v, - 2 ^ 63 <= v < 2 ^ 63 -> Forall in_u32 (dg v) /\ value (dg v) = v mod 2 ^ 128).
    { intros v Hv. split; [repeat constructor; apply u32_range|]. unfold dg. cbn [value]. rewrite !shiftr_div by lia.
      unfold u32. pose proof (Z.div_mod v (2 ^ 32) ltac:(lia)) as E1. pose proof (Z.div_mod (v / 2 ^ 32) (2 ^ 32) ltac:(lia)) as E2.
      destruct (Z_lt_le_dec v 0) as [Hn|Hp].
      - assert (E3 : v / 2 ^ 63 = -1) by (symmetry; apply (Z.div_unique_pos _ _ _ (v + 2 ^ 63)); lia).
        assert (E4 : v / 2 ^ 32 / 2 ^ 32 = -1).
        { rewrite Z.div_div by lia. symmetry. apply (Z.div_unique_pos _ _ _ (v + 2 ^ 64)); lia. }
        rewrite E3. change ((-1) mod 2 ^ 32) with (2 ^ 32 - 1). apply (Z.mod_unique_pos _ _ (-1)); lia.
      - assert (E3 : v / 2 ^ 63 = 0) by (apply Z.div_small; lia).
        assert (E4 : v / 2 ^ 32 / 2 ^ 32 = 0) by (rewrite Z.div_div by lia; apply Z.div_small; lia).
        rewrite E3. change (0 mod 2 ^ 32) with 0. rewrite (Z.mod_small v (2 ^ 128)) by lia. lia. }
    destruct (Hdg X Hx) as [Fx Vx]. destruct (Hdg Y Hy) as [Fy Vy].
    pose proof (ubm_mul_ok 4 (dg X) (dg Y) Fx Fy) as H. fold (dg X) (dg Y).
    destruct (_ubm_mul_u32arr 4 (dg X) (dg Y)) as [dst o]. destruct H as (L & F & V & _).
    rewrite Vx, Vy, Zmult_mod_idemp_l, Zmult_mod_idemp_r in V. apply (upper_digits dst (X * Y) L F V).
  - assert (Hu : forall v, u64 v = c_uint 64 v) by done.
    rewrite !Hu, c_uint_mul, shiftr_div by lia. unfold c_uint.
    replace 64 with (w + (64 - w)) at 1 by lia. rewrite div_mod_pow by lia.
    apply Z.mod_mod_divide. exists (2 ^ (64 - w - w)). rewrite <- Z.pow_add_r by lia. f_equal. lia.
Qed.

(** ** Values of definitions *)

Section Env.
Context (env : nat -> Z).

(** [q] has [w] bits and the value [v]. *)
Definition holds (q : nir_def) (w v : Z) : Prop := bit_size q = w /\ eval env q = v /\ 0 <= v < 2 ^ w.

(** The builder succeeds, with a definition that has [w] bits and the value [v]. *)
Definition yields (m : res nir_def) (w v : Z) : Prop := exists q, m = Ok q /\ holds q w v.

Lemma yields_bind m k w v w' v' :
  yields m w v -> (forall q, holds q w v -> yields (k q) w' v') -> yields (let* q := m in k q) w' v'.
Proof. intros (q & -> & Hq) Hk. apply Hk, Hq. Qed.

Lemma yields_ok q w v : holds q w v -> yields (Ok q) w v.
Proof. intros. by exists q. Qed.

Lemma yields_eq m w v v' : yields m w v -> v = v' -> yields m w v'.
Proof. by intros ? <-. Qed.

(** Selects the bit size of an instruction. *)
Ltac sizes w :=
  cbn [alu_bit_size unsized_source Z.eqb Pos.eqb res_bind assert_ andb negb];
  repeat (rewrite (proj2 (Z.eqb_neq w 0)) by lia; cbn [andb negb]); rewrite ?Z.eqb_refl; cbn [assert_ res_bind].

Ltac known :=
  repeat match goal with
  | H : input_type_sizes ?op = _ |- _ => rewrite !H
  | H : output_type_size ?op = _ |- _ => rewrite !H
  | H : bit_size ?a = _ |- _ => rewrite !H
  | H : eval env ?a = _ |- _ => rewrite !H
  end.

Ltac built w :=
  unfold nir_build_alu, yields; do 3 (known; sizes w);
  eexists; split; [reflexivity|]; split; [reflexivity|]; split; [|assumption];
  cbn [eval map]; unfold eval_bit_size; do 3 (known; sizes w); reflexivity.

Lemma build1 op a w x :
  input_type_sizes op = [0] -> output_type_size op = 0 -> 0 < w -> holds a w x ->
  0 <= eval_const op w [x] < 2 ^ w ->
  yields (nir_build_alu op [a]) w (eval_const op w [x]).
Proof. intros Hi Ho Hw (Wa & Ea & _) Hr. built w. Qed.

Lemma build2 op a b w x y :
  input_type_sizes op = [0; 0] -> output_type_size op = 0 -> 0 < w -> holds a w x -> holds b w y ->
  0 <= eval_const op w [x; y] < 2 ^ w ->
  yields (nir_build_alu op [a; b]) w (eval_const op w [x; y]).
Proof. intros Hi Ho Hw (Wa & Ea & _) (Wb & Eb & _) Hr. built w. Qed.

Lemma build_shift op a b w x y :
  input_type_sizes op = [0; 32] -> output_type_size op = 0 -> 0 < w -> holds a w x -> holds b 32 y ->
  0 <= eval_const op w [x; y] < 2 ^ w ->
  yields (nir_build_alu op [a; b]) w (eval_const op w [x; y]).
Proof. intros Hi Ho Hw (Wa & Ea & _) (Wb & Eb & _) Hr. built w. Qed.

Lemma build_compare op a b w x y :
  input_type_sizes op = [0; 0] -> output_type_size op = 1 -> 0 < w -> holds a w x -> holds b w y ->
  0 <= eval_const op w [x; y] < 2 ^ 1 ->
  yields (nir_build_alu op [a; b]) 1 (eval_const op w [x; y]).
Proof. intros Hi Ho Hw (Wa & Ea & _) (Wb & Eb & _) Hr. built w. Qed.

Lemma build_bcsel c a b w t x y :
  0 < w -> holds c 1 (Z.b2z t) -> holds a w x -> holds b w y ->
  yields (nir_bcsel c a b) w (if t then x else y).
Proof.
  intros Hw (Wc & Ec & _) (Wa & Ea & Ra) (Wb & Eb & Rb). unfold nir_bcsel.
  assert (Hr : 0 <= (if t then x else y) < 2 ^ w) by (destruct t; done).
  assert (Hi : input_type_sizes nir_op_bcsel = [1; 0; 0]) by done. assert (Ho : output_type_size nir_op_bcsel = 0) by done.
  assert (E : (if t then x else y) = eval_const nir_op_bcsel w [Z.b2z t; x; y]) by (by destruct t).
  rewrite E in *. built w.
Qed.

Lemma build_b2i a w t : width w -> holds a 1 (Z.b2z t) -> yields (nir_b2iN a w) w (Z.b2z t).
Proof.
  intros Hw (Wa & Ea & _). apply width_pos in Hw. unfold nir_b2iN.
  assert (Hr : 0 <= Z.b2z t < 2 ^ w).
  { assert (2 ^ 1 <= 2 ^ w) by (apply Z.pow_le_mono_r; lia). destruct t; cbn; lia. }
  assert (E : Z.b2z t = eval_const (nir_op_b2i w) 1 [Z.b2z t]).
  { cbn. unfold op_b2i. destruct t; cbn; rewrite c_uint_small; cbn in Hr; lia. }
  rewrite E in Hr |- *. unfold nir_build_alu, yields. cbn [output_type_size]. do 2 sizes w.
  eexists; split; [reflexivity|]; split; [reflexivity|]; split; [|assumption].
  cbn [eval map]. unfold eval_bit_size. cbn [input_type_sizes output_type_size]. do 2 sizes w. rewrite Wa, Ea. reflexivity.
Qed.

(** ** Immediates *)

Lemma imm_ok x w : width w -> yields (nir_imm_intN_t x w) w (c_uint w x).
Proof.
  intros Hw. unfold nir_imm_intN_t, nir_const_value_for_raw_uint.
  assert (E : c_uint w (u64 x) = c_uint w x) by (apply c_uint_u64; apply width_pos in Hw; lia).
  pose proof (c_uint_range w x ltac:(apply width_pos in Hw; lia)) as Hr.
  destruct Hw as [->|[->|[->| ->]]]; cbn [Z.eqb Pos.eqb orb res_bind]; eexists; (split; [reflexivity|]); (split; [done|]);
    (split; [|done]); cbn [eval]; done.
Qed.

(** ** Arithmetic *)

Section Ops.
Context (a b : nir_def) (w x y : Z).
Hypothesis Hw : width w.
Hypothesis Ha : holds a w x.
Hypothesis Hb : holds b w y.

Let w_pos : 0 < w <= 64.
Proof. apply width_pos in Hw. lia. Qed.

Let x_range : 0 <= x < 2 ^ w.
Proof. apply Ha. Qed.

Let y_range : 0 <= y < 2 ^ w.
Proof. apply Hb. Qed.

Lemma iadd_ok : yields (nir_iadd a b) w (c_uint w (x + y)).
Proof.
  rewrite <- (low_bits Z.add) by (done || apply c_uint_add).
  apply (build2 nir_op_iadd); try done; [lia|]. apply c_uint_range. lia.
Qed.

Lemma isub_ok : yields (nir_isub a b) w (c_uint w (x - y)).
Proof.
  rewrite <- (low_bits Z.sub) by (done || apply c_uint_sub).
  apply (build2 nir_op_isub); try done; [lia|]. apply c_uint_range. lia.
Qed.

Lemma imul_ok : yields (nir_imul a b) w (c_uint w (x * y)).
Proof.
  rewrite <- (low_bits Z.mul) by (done || apply c_uint_mul).
  apply (build2 nir_op_imul); try done; [lia|]. apply c_uint_range. lia.
Qed.

Lemma uadd_sat_ok : yields (nir_uadd_sat a b) w (Z.min (uint_max w) (x + y)).
Proof.
  assert (E : Z.min (uint_max w) (x + y) = eval_const nir_op_uadd_sat w [x; y]).
  { cbn. unfold op_uadd_sat. destruct (Z.ltb_spec (uint_max w) (x + y)); lia. }
  rewrite E. apply build2; try done; [lia|]. rewrite <- E. unfold uint_max. lia.
Qed.

Lemma umul_high_ok : yields (nir_umul_high a b) w (x * y / 2 ^ w).
Proof.
  assert (E : x * y / 2 ^ w = eval_const nir_op_umul_high w [x; y]).
  { cbn. rewrite op_umul_high_ok; try done; [lia|]. destruct Hw as [|[|[|]]]; lia. }
  rewrite E. apply build2; try done; [lia|]. rewrite <- E.
  split; [apply Z.div_pos; [|apply pow_pos]; nia|apply Z.div_lt_upper_bound; [apply pow_pos|]; nia].
Qed.

Lemma imul_high_ok : yields (nir_imul_high a b) w (c_uint w (c_int w x * c_int w y / 2 ^ w)).
Proof.
  assert (E : c_uint w (c_int w x * c_int w y / 2 ^ w) = eval_const nir_op_imul_high w [x; y]).
  { cbn. rewrite op_imul_high_ok; try done; [lia|]. destruct Hw as [|[|[|]]]; lia. }
  rewrite E. apply build2; try done; [lia|]. rewrite <- E. apply c_uint_range. lia.
Qed.

(** ** Comparisons and bits *)

Lemma b2z_range t : 0 <= Z.b2z t < 2 ^ 1.
Proof. destruct t; cbn; lia. Qed.

Lemma ieq_ok : yields (nir_ieq a b) 1 (Z.b2z (x =? y)).
Proof.
  assert (E : Z.b2z (x =? y) = eval_const nir_op_ieq w [x; y]).
  { cbn. unfold op_ieq. f_equal. destruct (Z.eqb_spec x y) as [->|Hne]; [by rewrite Z.eqb_refl|].
    symmetry. apply Z.eqb_neq. intros Hc. apply Hne, (c_int_inj w); try done. lia. }
  rewrite E. apply build_compare; try done; [lia|]. rewrite <- E. apply b2z_range.
Qed.

Lemma ilt_ok : yields (nir_ilt a b) 1 (Z.b2z (c_int w x <? c_int w y)).
Proof. apply (build_compare nir_op_ilt); try done; [lia|]. apply b2z_range. Qed.

Lemma ige_ok : yields (nir_ige a b) 1 (Z.b2z (c_int w y <=? c_int w x)).
Proof. apply (build_compare nir_op_ige); try done; [lia|]. apply b2z_range. Qed.

Lemma ult_ok : yields (nir_ult a b) 1 (Z.b2z (x <? y)).
Proof. apply (build_compare nir_op_ult a b w); try done; [lia|]. apply b2z_range. Qed.

Lemma uge_ok : yields (nir_uge a b) 1 (Z.b2z (y <=? x)).
Proof. apply (build_compare nir_op_uge a b w); try done; [lia|]. apply b2z_range. Qed.

Lemma iand_ok : yields (nir_iand a b) w (Z.land x y).
Proof.
  apply (build2 nir_op_iand); try done; [lia|]. cbn. unfold op_iand.
  assert (E : Z.land x y = Z.land x y mod 2 ^ w).
  { rewrite <- Z.land_ones by lia. rewrite <- Z.land_assoc, (Z.land_ones y), (Z.mod_small y) by lia. done. }
  rewrite E. apply Z.mod_pos_bound, pow_pos. lia.
Qed.

Lemma ior_ok : yields (nir_ior a b) w (Z.lor x y).
Proof.
  apply (build2 nir_op_ior); try done; [lia|]. cbn. unfold op_ior.
  assert (E : Z.lor x y = Z.lor x y mod 2 ^ w).
  { rewrite <- Z.land_ones by lia. rewrite Z.land_lor_distr_l, (Z.land_ones x), (Z.land_ones y), (Z.mod_small x), (Z.mod_small y) by lia. done. }
  rewrite E. apply Z.mod_pos_bound, pow_pos. lia.
Qed.
End Ops.

Lemma inot_bool a t : holds a 1 (Z.b2z t) -> yields (nir_inot a) 1 (Z.b2z (negb t)).
Proof.
  intros Ha. replace (Z.b2z (negb t)) with (eval_const nir_op_inot 1 [Z.b2z t]) by (by destruct t).
  apply build1; try done. destruct t; split; vm_compute; easy.
Qed.

Lemma ior_bool a b s t : holds a 1 (Z.b2z s) -> holds b 1 (Z.b2z t) -> yields (nir_ior a b) 1 (Z.b2z (s || t)).
Proof.
  intros Ha Hb. replace (Z.b2z (s || t)) with (eval_const nir_op_ior 1 [Z.b2z s; Z.b2z t]) by (by destruct s, t).
  apply build2; try done. destruct s, t; split; vm_compute; easy.
Qed.

(** ** One operand, and functions with an immediate *)

Section Imm.
Context (a : nir_def) (w x : Z).
Hypothesis Hw : width w.
Hypothesis Ha : holds a w x.

Let w_pos : 0 < w <= 64.
Proof. apply width_pos in Hw. lia. Qed.

Let x_range : 0 <= x < 2 ^ w.
Proof. apply Ha. Qed.

Let a_size : bit_size a = w.
Proof. apply Ha. Qed.

Lemma ineg_ok : yields (nir_ineg a) w (c_uint w (- x)).
Proof.
  assert (E : c_uint w (- x) = eval_const nir_op_ineg w [x]).
  { cbn. unfold op_ineg. cbv zeta. pose proof (pow_half w ltac:(lia)) as Hh.
    rewrite <- (Z.sub_0_l x), <- (c_uint_sub w 0 x), <- (c_uint_c_int w x), c_uint_sub, Z.sub_0_l by lia.
    destruct (Z.eqb_spec (c_int w x) (int_min w)) as [->|]; [|done]. unfold int_min, c_uint.
    rewrite <- (Z_mod_plus_full (- 2 ^ (w - 1)) 1). f_equal. lia. }
  rewrite E. apply build1; try done; [lia|]. rewrite <- E. apply c_uint_range. lia.
Qed.

Lemma iabs_ok : yields (nir_iabs a) w (Z.abs (c_int w x)).
Proof.
  pose proof (c_int_range w x ltac:(lia)) as Hr. pose proof (pow_half w ltac:(lia)) as Hh.
  assert (E : Z.abs (c_int w x) = eval_const nir_op_iabs w [x]).
  { cbn. unfold op_iabs. cbv zeta. rewrite c_uint_small; destruct (Z.ltb_spec (c_int w x) 0); lia. }
  rewrite E. apply build1; try done; [lia|]. rewrite <- E. lia.
Qed.

(** A shift count below the width is not changed by the mask. *)
Lemma count_ok k : 0 <= k < w -> Z.land (c_uint 32 k) (w - 1) = k.
Proof.
  intros Hk. rewrite c_uint_small by lia.
  assert (E : exists l, 0 <= l /\ w - 1 = Z.ones l /\ w = 2 ^ l).
  { destruct Hw as [E|[E|[E|E]]]; rewrite E; [exists 3|exists 4|exists 5|exists 6]; done. }
  destruct E as (l & Hl & E1 & E2). rewrite E1, Z.land_ones, <- E2 by done. apply Z.mod_small. lia.
Qed.

Lemma ushr_imm_ok k : 0 <= k < w -> yields (nir_ushr_imm a k) w (x / 2 ^ k).
Proof.
  intros Hk. unfold nir_ushr_imm. destruct (Z.eqb_spec k 0) as [->|Hne].
  { rewrite Z.div_1_r. by apply yields_ok. }
  apply yields_bind with 32 (c_uint 32 k); [apply imm_ok; unfold width; lia|]. intros c Hc.
  assert (E : x / 2 ^ k = eval_const nir_op_ushr w [x; c_uint 32 k]).
  { cbn. unfold op_ushr. rewrite count_ok, shiftr_div by lia. done. }
  rewrite E. apply build_shift; try done; [lia|]. rewrite <- E. pose proof (pow_pos k ltac:(lia)).
  split; [apply Z.div_pos; lia|]. apply Z.div_lt_upper_bound; [lia|]. nia.
Qed.

Lemma ishr_imm_ok k : 0 <= k < w -> yields (nir_ishr_imm a k) w (c_uint w (c_int w x / 2 ^ k)).
Proof.
  intros Hk. unfold nir_ishr_imm. destruct (Z.eqb_spec k 0) as [->|Hne].
  { rewrite Z.div_1_r, c_uint_c_int, c_uint_small by lia. by apply yields_ok. }
  apply yields_bind with 32 (c_uint 32 k); [apply imm_ok; unfold width; lia|]. intros c Hc.
  assert (E : c_uint w (c_int w x / 2 ^ k) = eval_const nir_op_ishr w [x; c_uint 32 k]).
  { cbn. unfold op_ishr. rewrite count_ok, shiftr_div by lia. done. }
  rewrite E. apply build_shift; try done; [lia|]. rewrite <- E. apply c_uint_range. lia.
Qed.

Lemma ieq_imm_ok k : yields (nir_ieq_imm a k) 1 (Z.b2z (x =? c_uint w k)).
Proof.
  unfold nir_ieq_imm. rewrite a_size. apply yields_bind with w (c_uint w k); [by apply imm_ok|].
  intros c Hc. by apply ieq_ok with w.
Qed.

Lemma uge_imm_ok k : yields (nir_uge_imm a k) 1 (Z.b2z (c_uint w k <=? x)).
Proof.
  unfold nir_uge_imm. rewrite a_size. apply yields_bind with w (c_uint w k); [by apply imm_ok|].
  intros c Hc. by apply uge_ok with w.
Qed.

Lemma ilt_imm_ok k : - 2 ^ (w - 1) <= k < 2 ^ (w - 1) -> yields (nir_ilt_imm a k) 1 (Z.b2z (c_int w x <? k)).
Proof.
  intros Hk. unfold nir_ilt_imm. rewrite a_size. apply yields_bind with w (c_uint w k); [by apply imm_ok|].
  intros c Hc. apply yields_eq with (Z.b2z (c_int w x <? c_int w (c_uint w k))); [by apply ilt_ok|].
  rewrite c_int_c_uint by lia. done.
Qed.

Lemma mask_eq : BITFIELD64_MASK w = Z.ones w.
Proof. destruct Hw as [->|[->|[->| ->]]]; reflexivity. Qed.

Lemma masked k : Z.land (u64 k) (BITFIELD64_MASK w) = c_uint w k.
Proof. rewrite mask_eq, Z.land_ones by lia. apply c_uint_u64. lia. Qed.

Lemma width_le : (bit_size a <=? 64) = true.
Proof. apply Z.leb_le. rewrite a_size. lia. Qed.

Lemma iadd_imm_ok k : yields (nir_iadd_imm a k) w (c_uint w (x + k)).
Proof.
  unfold nir_iadd_imm. rewrite assert_bind_true by apply width_le. rewrite a_size, masked. cbv zeta.
  rewrite <- (c_uint_add w x k), (c_uint_small w x) by done. destruct (Z.eqb_spec (c_uint w k) 0) as [E|Hne].
  { rewrite E, Z.add_0_r, c_uint_small by done. by apply yields_ok. }
  apply yields_bind with w (c_uint w k); [|intros c Hc; by apply iadd_ok].
  apply yields_eq with (c_uint w (c_uint w k)); [by apply imm_ok|]. apply c_uint_small, c_uint_range. lia.
Qed.

Lemma iand_imm_ok k : yields (nir_iand_imm a k) w (Z.land x (c_uint w k)).
Proof.
  unfold nir_iand_imm. rewrite assert_bind_true by apply width_le. rewrite a_size, masked. cbv zeta.
  destruct (Z.eqb_spec (c_uint w k) 0) as [E|Hne].
  { rewrite E, Z.land_0_r. apply yields_eq with (c_uint w 0); [by apply imm_ok|]. apply c_uint_small. lia. }
  destruct (Z.eqb_spec (c_uint w k) (BITFIELD64_MASK w)) as [->|_].
  { rewrite mask_eq, Z.land_ones, Z.mod_small by lia. by apply yields_ok. }
  apply yields_bind with w (c_uint w k); [|intros c Hc; by apply iand_ok].
  apply yields_eq with (c_uint w (c_uint w k)); [by apply imm_ok|]. apply c_uint_small, c_uint_range. lia.
Qed.

Lemma ffsll_pow2 l : 0 <= l -> ffsll (2 ^ l) = l + 1.
Proof.
  intros Hl. unfold ffsll. pose proof (pow_pos l Hl). rewrite (proj2 (Z.eqb_neq (2 ^ l) 0)) by lia.
  assert (E : - 2 ^ l = Z.lnot (Z.ones l)) by (unfold Z.lnot; rewrite Z.ones_equiv; lia).
  rewrite E, <- Z.ldiff_land, Z.ldiff_ones_r, Z.shiftr_div_pow2, Z.div_same by lia.
  rewrite Z.shiftl_mul_pow2, Z.mul_1_l, Z.log2_pow2 by lia. done.
Qed.

Lemma imul_imm_ok lower_bitops k : yields (nir_imul_imm lower_bitops a k) w (c_uint w (x * k)).
Proof.
  unfold nir_imul_imm. rewrite assert_bind_true by apply width_le. rewrite a_size, masked. cbv zeta.
  rewrite <- (c_uint_mul w x k), (c_uint_small w x) by done.
  pose proof (c_uint_range w k ltac:(lia)) as Hr. set (y := c_uint w k) in *. clearbody y.
  destruct (Z.eqb_spec y 0) as [->|H0]; [rewrite Z.mul_0_r; by apply imm_ok|].
  destruct (Z.eqb_spec y 1) as [->|H1].
  { rewrite Z.mul_1_r, c_uint_small by done. by apply yields_ok. }
  pose proof (two_pow_64 w ltac:(lia)) as H64.
  destruct (negb lower_bitops && util_is_power_of_two_or_zero64 y) eqn:Et.
  - apply andb_true_iff in Et as [_ Et]. apply pow2_test in Et; [|lia]. pose proof (Z.log2_nonneg y) as Hl.
    assert (Hlw : Z.log2 y < w) by (apply Z.log2_lt_pow2; lia). rewrite Et at 1. rewrite ffsll_pow2, Z.add_simpl_r by lia.
    apply yields_bind with 32 (c_uint 32 (Z.log2 y)); [apply imm_ok; unfold width; lia|]. intros c Hc.
    assert (E : c_uint w (x * y) = eval_const nir_op_ishl w [x; c_uint 32 (Z.log2 y)]).
    { cbn. unfold op_ishl. rewrite count_ok by lia. rewrite Z.shiftl_mul_pow2, <- Et, c_uint_u64 by lia.
      rewrite <- (c_uint_mul w (u64 (c_int w x)) y), c_uint_u64, c_uint_c_int, c_uint_mul by lia. done. }
    rewrite E. apply build_shift; try done; [lia|]. rewrite <- E. apply c_uint_range. lia.
  - apply yields_bind with w y; [|intros c Hc; by apply imul_ok].
    apply yields_eq with (c_uint w y); [by apply imm_ok|]. by apply c_uint_small.
Qed.
End Imm.
End Env.
