(* ===== verification/IdivConst.v ===== *)
(** Integer division by constants in shaders ([compiler/nir/nir_opt_idiv_const.c]): the
    instructions that replace [udiv], [umod], [idiv], [irem] and [imod]. *)

From stdpp Require Import list.
From S2P Require Import Prelude.
From S2P Require Import FastDiv.
From S2P Require Import Nir.

Section Pass.
(** [shader->options->lower_bitops]. *)
Context (lower_bitops : bool).

Abbreviation nir_imul_imm := (nir_imul_imm lower_bitops).

(** [d] is a [uint64_t]. *)
Definition build_udiv (n : nir_def) (d : Z) : res nir_def :=
  let* uint_max := u_uintN_max (bit_size n) in
  if d =? 0 then nir_imm_intN_t 0 (bit_size n)
  else if d =? uint_max then
    let* c := nir_ieq_imm n uint_max in nir_b2iN c (bit_size n)
  else if uint_max / 2 <? d then
    let* c := nir_uge_imm n d in nir_b2iN c (bit_size n)
  else if util_is_power_of_two_or_zero64 d then nir_ushr_imm n (util_logbase2_64 d)
  else
    let* m := util_compute_fast_udiv_info d (bit_size n) (bit_size n) in
    let* n := if negb (pre_shift m =? 0) then nir_ushr_imm n (pre_shift m) else Ok n in
    let* n := if negb (increment m =? 0)
              then let* c := nir_imm_intN_t (increment m) (bit_size n) in nir_uadd_sat n c else Ok n in
    let* c := nir_imm_intN_t (multiplier m) (bit_size n) in
    let* n := nir_umul_high n c in
    if negb (post_shift m =? 0) then nir_ushr_imm n (post_shift m) else Ok n.

Definition build_umod (n : nir_def) (d : Z) : res nir_def :=
  if d =? 0 then nir_imm_intN_t 0 (bit_size n)
  else if util_is_power_of_two_or_zero64 d then nir_iand_imm n (d - 1)
  else
    let* q := build_udiv n d in
    let* p := nir_imul_imm q d in
    nir_isub n p.

(** [d] is an [int64_t]. *)
Definition build_idiv (n : nir_def) (d : Z) : res nir_def :=
  let* int_min := u_intN_min (bit_size n) in
  if d =? int_min then
    let* c := nir_ieq_imm n int_min in nir_b2iN c (bit_size n)
  else
    let abs_d := u64 (if d <? 0 then - d else d) in
    if d =? 0 then nir_imm_intN_t 0 (bit_size n)
    else if d =? 1 then Ok n
    else if d =? -1 then nir_ineg n
    else if util_is_power_of_two_or_zero64 abs_d then
      let* a := nir_iabs n in
      let* uq := nir_ushr_imm a (util_logbase2_64 abs_d) in
      let* n_neg := nir_ilt_imm n 0 in
      let* neg := if d <? 0 then nir_inot n_neg else Ok n_neg in
      let* nuq := nir_ineg uq in
      nir_bcsel neg nuq uq
    else
      let* m := util_compute_fast_sdiv_info d (bit_size n) in
      let* c := nir_imm_intN_t (s_multiplier m) (bit_size n) in
      let* res := nir_imul_high n c in
      let* res := if (0 <? d) && (s_multiplier m <? 0) then nir_iadd res n else Ok res in
      let* res := if (d <? 0) && (0 <? s_multiplier m) then nir_isub res n else Ok res in
      let* res := if negb (s_shift m =? 0) then nir_ishr_imm res (s_shift m) else Ok res in
      let* sign := nir_ushr_imm res (bit_size n - 1) in
      nir_iadd res sign.

Definition build_irem (n : nir_def) (d : Z) : res nir_def :=
  let* int_min := u_intN_min (bit_size n) in
  if d =? 0 then nir_imm_intN_t 0 (bit_size n)
  else if d =? int_min then
    let* c := nir_ieq_imm n int_min in
    let* z := nir_imm_intN_t 0 (bit_size n) in
    nir_bcsel c z n
  else
    let d := if d <? 0 then - d else d in
    if util_is_power_of_two_or_zero64 (u64 d) then
      let* c := nir_ilt_imm n 0 in
      let* s := nir_iadd_imm n (d - 1) in
      let* tmp := nir_bcsel c s n in
      let* a := nir_iand_imm tmp (- d) in
      nir_isub n a
    else
      let* q := build_idiv n d in
      let* p := nir_imul_imm q d in
      nir_isub n p.

Definition build_imod (n : nir_def) (d : Z) : res nir_def :=
  let* int_min := u_intN_min (bit_size n) in
  if d =? 0 then nir_imm_intN_t 0 (bit_size n)
  else if d =? int_min then
    let* int_min_def := nir_imm_intN_t int_min (bit_size n) in
    let* is_neg_not_int_min := nir_ult int_min_def n in
    let* is_zero := nir_ieq_imm n 0 in
    let* c := nir_ior is_neg_not_int_min is_zero in
    let* s := nir_iadd int_min_def n in
    nir_bcsel c n s
  else if (0 <? d) && util_is_power_of_two_or_zero64 (u64 d) then nir_iand_imm n (d - 1)
  else if (d <? 0) && util_is_power_of_two_or_zero64 (u64 (- d)) then
    let* d_def := nir_imm_intN_t d (bit_size n) in
    let* res := nir_ior n d_def in
    let* c := nir_ieq res d_def in
    let* z := nir_imm_intN_t 0 (bit_size n) in
    nir_bcsel c z res
  else
    let* rem := build_irem n d in
    let* zero := nir_imm_intN_t 0 (bit_size n) in
    let* sign_same := if d <? 0 then nir_ilt n zero else nir_ige n zero in
    let* rem_zero := nir_ieq rem zero in
    let* c := nir_ior rem_zero sign_same in
    let* s := nir_iadd_imm rem d in
    nir_bcsel c rem s.

(** ** The pass on one instruction *)

(** A vector instruction with two sources: [src0] lists the channels of the dividend and
    [src1] the constants of the divisor, if it is one; a swizzle lists the channel each
    component reads. *)
Record nir_alu_instr : Type := mk_alu {
  alu_op : nir_op; def_bit_size : Z;
  src0 : list nir_def; swizzle0 : list nat;
  src1 : option (list Z); src1_bit_size : Z; swizzle1 : list nat
}.

Definition nir_const_value_as_int (v bit_size : Z) : res Z :=
  if bit_size =? 1 then Ok (- v)
  else if (bit_size =? 8) || (bit_size =? 16) || (bit_size =? 32) || (bit_size =? 64) then Ok (c_int bit_size v)
  else Fault AssertFail (* unreachable *).

(** [nir_type_uint] is the type of the divisor. *)
Definition unsigned_op (op : nir_op) : bool := bool_decide (op = nir_op_udiv) || bool_decide (op = nir_op_umod).

(** One component: dividend [n], constant [v]. *)
Definition build_component (op : nir_op) (w : Z) (n : nir_def) (v : Z) : res nir_def :=
  let* d := nir_const_value_as_int v w in
  let* d := if unsigned_op op && (w <? 64)
            then let* p := shl64 1 w in Ok (Z.land d (p - 1)) else Ok d in
  match op with
  | nir_op_udiv => build_udiv n (u64 d)
  | nir_op_idiv => build_idiv n d
  | nir_op_umod => build_umod n (u64 d)
  | nir_op_imod => build_imod n d
  | nir_op_irem => build_irem n d
  | _ => Fault AssertFail (* unreachable *)
  end.

Fixpoint build_components (op : nir_op) (w : Z) (n : list nir_def) (v : list Z) (sw0 sw1 : list nat) : res (list nir_def) :=
  match sw0, sw1 with
  | i :: sw0', j :: sw1' =>
      match n !! i, v !! j with
      | Some ni, Some vj =>
          let* q := build_component op w ni vj in
          let* qs := build_components op w n v sw0' sw1' in Ok (q :: qs)
      | _, _ => Fault OutOfBounds
      end
  | _, _ => Ok []
  end.

Definition is_division (op : nir_op) : bool :=
  match op with
  | nir_op_udiv | nir_op_idiv | nir_op_umod | nir_op_imod | nir_op_irem => true
  | _ => false
  end.

(** [None] leaves the instruction alone. *)
Definition nir_opt_idiv_const_instr (min_bit_size : Z) (alu : nir_alu_instr) : res (option (list nir_def)) :=
  if negb (is_division (alu_op alu)) then Ok None
  else if def_bit_size alu <? min_bit_size then Ok None
  else match src1 alu with
  | None => Ok None
  | Some v =>
      let* q := build_components (alu_op alu) (src1_bit_size alu) (src0 alu) v (swizzle0 alu) (swizzle1 alu) in
      Ok (Some q)
  end.
End Pass.
