(* ===== verification/IdivConstProofs.v ===== *)
(** The replacement of a division by a constant computes the quotient or the remainder, at
    every bit size, for every dividend and every constant. *)

From stdpp Require Import list.
From S2P Require Import Prelude.
From S2P Require Import FastDiv.
From S2P Require Import FastDivProofs.
From S2P Require Import FastSdivProofs.
From S2P Require Import Nir.
From S2P Require Import NirProofs.
From S2P Require Import IdivConst.

Section Proofs.
Context (lower_bitops : bool) (env : nat -> Z).

Abbreviation yields := (yields env).
Abbreviation holds := (holds env).

Lemma shift_if n k : (if negb (k =? 0) then nir_ushr_imm n k else Ok n) = nir_ushr_imm n k.
Proof. unfold nir_ushr_imm. by destruct (k =? 0). Qed.

Lemma ishift_if n k : (if negb (k =? 0) then nir_ishr_imm n k else Ok n) = nir_ishr_imm n k.
Proof. unfold nir_ishr_imm. by destruct (k =? 0). Qed.

Lemma div_range p h a : 0 < p -> 0 < h -> - h <= a < h -> - h <= a / p < h.
Proof.
  intros. split; [apply Z.div_le_lower_bound; [done|nia]|apply Z.div_lt_upper_bound; [done|nia]].
Qed.

Lemma c_uint_land w a b : 0 <= w -> Z.land (c_uint w a) (c_uint w b) = c_uint w (Z.land a b).
Proof.
  intros Hw. unfold c_uint. rewrite <- !Z.land_ones by done. apply Z.bits_inj'. intros i Hi.
  rewrite !Z.land_spec. by destruct (Z.testbit a i), (Z.testbit b i), (Z.testbit (Z.ones w) i).
Qed.

Lemma c_uint_lor w a b : 0 <= w -> Z.lor (c_uint w a) (c_uint w b) = c_uint w (Z.lor a b).
Proof. intros Hw. unfold c_uint. rewrite <- !Z.land_ones by done. by rewrite Z.land_lor_distr_l. Qed.

(** Clearing and setting the low bits of a signed number. *)
Lemma neg_pow2 l : - 2 ^ l = Z.lnot (Z.ones l).
Proof. unfold Z.lnot. rewrite Z.ones_equiv. lia. Qed.

Lemma land_neg_pow2 a l : 0 <= l -> Z.land a (- 2 ^ l) = a - a mod 2 ^ l.
Proof.
  intros Hl. rewrite neg_pow2, <- Z.ldiff_land, Z.ldiff_ones_r, Z.shiftl_mul_pow2, Z.shiftr_div_pow2 by lia.
  pose proof (Z.div_mod a (2 ^ l) ltac:(apply Z.pow_nonzero; lia)). lia.
Qed.

Lemma lor_neg_pow2 a l : 0 <= l -> Z.lor a (- 2 ^ l) = a mod 2 ^ l - 2 ^ l.
Proof.
  intros Hl. pose proof (Z.add_lor_land a (- 2 ^ l)) as E. rewrite land_neg_pow2 in E by done. lia.
Qed.

(** The remainder with the sign of the divisor is Rocq's [mod]. *)
Lemma imod_floor y d :
  d <> 0 -> (if (Z.rem y d =? 0) || Bool.eqb (0 <=? y) (0 <=? d) then Z.rem y d else Z.rem y d + d) = y mod d.
Proof.
  intros Hd. pose proof (Z.quot_rem y d Hd) as E. pose proof (Z.rem_bound_abs y d Hd) as Hb.
  pose proof (Z.rem_sign_mul y d Hd) as Hs. set (r := Z.rem y d) in *. set (q := Z.quot y d) in *.
  destruct (Z.eqb_spec r 0) as [->|Hr]; cbn [orb].
  { symmetry. apply Z.mod_divide; [done|]. exists q. lia. }
  assert (Hsg : 0 < r /\ 0 < y \/ r < 0 /\ y < 0) by nia.
  destruct (Z.leb_spec 0 y), (Z.leb_spec 0 d); cbn [Bool.eqb]; try lia.
  - apply (Z.mod_unique_pos _ _ q); lia.
  - apply (Z.mod_unique_neg _ _ (q - 1)); lia.
  - apply (Z.mod_unique_pos _ _ (q - 1)); lia.
  - apply (Z.mod_unique_neg _ _ q); lia.
Qed.

(** Saturating the increment does not change the quotient. *)
Lemma saturated_quotient d w m x :
  1 < d -> 0 < w -> udiv_ok d w w m -> 0 <= x < 2 ^ w ->
  Z.min (uint_max w) (x / 2 ^ pre_shift m + increment m) * multiplier m / 2 ^ w / 2 ^ post_shift m = x / d.
Proof.
  intros Hd Hw [_ Hpre _ Hinc Hsat Hq] Hx. unfold fast_udiv in Hq. unfold uint_max.
  pose proof (Hq x Hx) as Hqx. revert Hqx. pose proof (pow_pos (pre_shift m) ltac:(lia)) as Hpp.
  assert (Hx1 : 0 <= x / 2 ^ pre_shift m <= x) by (split; [apply Z.div_pos; lia|apply Z.div_le_upper_bound; nia]).
  set (x1 := x / 2 ^ pre_shift m) in *. destruct (Z_lt_le_dec (x1 + increment m) (2 ^ w)) as [Hlt|Hge].
  { intros <-. by rewrite Z.min_r by lia. }
  intros _. clearbody x1. destruct Hinc as [Hi|[Hi Hp]]; rewrite Hi in *; [clear -Hge Hx1 Hx; lia|]. rewrite Z.min_l by (clear -Hge; lia).
  assert (Ex : x = 2 ^ w - 1) by lia. clear Hge Hpp Hx1 x1. pose proof (pow_half w Hw). pose proof (pow_pos (w - 1) ltac:(lia)).
  rewrite Ex, (Hsat Hd eq_refl), <- (Hq (2 ^ w - 2)) by lia. rewrite Hp, Z.pow_0_r, Z.div_1_r. do 3 f_equal. lia.
Qed.

Section Dividend.
Context (n : nir_def) (w x : Z).
Hypothesis Hw : width w.
Hypothesis Hn : holds n w x.

Let w_pos : 8 <= w <= 64.
Proof. apply width_pos in Hw. lia. Qed.

Let x_range : 0 <= x < 2 ^ w.
Proof. apply Hn. Qed.

Let n_size : bit_size n = w.
Proof. apply Hn. Qed.

Lemma uint_max_ok : u_uintN_max w = Ok (uint_max w).
Proof. destruct Hw as [->|[->|[->| ->]]]; reflexivity. Qed.

Lemma int_min_ok : u_intN_min w = Ok (int_min w).
Proof. destruct Hw as [->|[->|[->| ->]]]; reflexivity. Qed.

Lemma zero_ok : yields (nir_imm_intN_t 0 w) w 0.
Proof. apply yields_eq with (c_uint w 0); [by apply imm_ok|]. apply c_uint_small. lia. Qed.

(** ** Unsigned *)

Lemma build_udiv_ok d : 0 <= d < 2 ^ w -> yields (build_udiv n d) w (op_udiv w x d).
Proof.
  intros Hd. unfold build_udiv, op_udiv. rewrite n_size, uint_max_ok. cbn [res_bind].
  pose proof (pow_half w ltac:(lia)) as Hh. pose proof (two_pow_64 w ltac:(lia)) as H64.
  destruct (Z.eqb_spec d 0) as [->|H0]; [apply zero_ok|].
  destruct (Z.eqb_spec d (uint_max w)) as [->|H1].
  { apply yields_bind with 1 (Z.b2z (x =? c_uint w (uint_max w))); [by apply ieq_imm_ok|]. intros c Hc.
    apply yields_eq with (Z.b2z (x =? c_uint w (uint_max w))); [by apply build_b2i|].
    unfold uint_max in *. rewrite c_uint_small by lia. destruct (Z.eqb_spec x (2 ^ w - 1)) as [->|]; cbn [Z.b2z].
    - symmetry. apply Z.div_same. lia.
    - symmetry. apply Z.div_small. lia. }
  destruct (Z.ltb_spec (uint_max w / 2) d) as [H2|H2].
  { apply yields_bind with 1 (Z.b2z (c_uint w d <=? x)); [by apply uge_imm_ok|]. intros c Hc.
    apply yields_eq with (Z.b2z (c_uint w d <=? x)); [by apply build_b2i|].
    rewrite c_uint_small by lia. unfold uint_max in *.
    assert (2 ^ (w - 1) <= d) by (pose proof (Z.div_mod (2 ^ w - 1) 2 ltac:(lia)); pose proof (Z.mod_pos_bound (2 ^ w - 1) 2 ltac:(lia)); lia).
    destruct (Z.leb_spec d x); cbn [Z.b2z].
    - apply (Z.div_unique_pos _ _ _ (x - d)); lia.
    - symmetry. apply Z.div_small. lia. }
  destruct (util_is_power_of_two_or_zero64 d) eqn:Et.
  { apply pow2_test in Et; [|lia]. rewrite log2_odd by lia. rewrite Et at 2. apply ushr_imm_ok; try done.
    split; [apply Z.log2_nonneg|]. apply Z.log2_lt_pow2; lia. }
  assert (Hd1 : 1 < d).
  { destruct (decide (d = 1)) as [->|]; [|lia]. exfalso. cbn in Et. discriminate. }
  destruct (udiv_info_total d w w) as (m & E & Hok & _); try lia.
  pose proof Hok as [Hm Hpre Hpost Hinc _ _]. rewrite E. cbn [res_bind].
  set (x1 := x / 2 ^ pre_shift m) in *.
  pose proof (pow_pos (pre_shift m) ltac:(lia)) as Hpp. pose proof (pow_pos (post_shift m) ltac:(lia)) as Hpq.
  assert (Hx1 : 0 <= x1 <= x) by (split; [apply Z.div_pos; lia|apply Z.div_le_upper_bound; nia]).
  apply yields_bind with w x1.
  { rewrite shift_if. by apply ushr_imm_ok; try lia. }
  intros n1 Hn1. pose proof Hn1 as (W1 & _). rewrite !W1.
  set (x2 := Z.min (uint_max w) (x1 + increment m)).
  apply yields_bind with w x2.
  { destruct Hinc as [Hi|[Hi Hp]]; unfold x2; rewrite Hi; cbn [Z.eqb Pos.eqb negb].
    - rewrite Z.add_0_r, Z.min_r by (unfold uint_max; lia). by apply yields_ok.
    - apply yields_bind with w (c_uint w 1); [by apply imm_ok|]. intros c Hc.
      rewrite (c_uint_small w 1) in Hc by lia. by apply uadd_sat_ok. }
  intros n2 (W2 & E2 & R2). rewrite !W2.
  apply yields_bind with w (c_uint w (multiplier m)); [by apply imm_ok|]. intros c Hc. rewrite c_uint_small in Hc by lia.
  apply yields_bind with w (x2 * multiplier m / 2 ^ w); [by apply umul_high_ok|]. intros n3 Hn3.
  rewrite shift_if. apply yields_eq with (x2 * multiplier m / 2 ^ w / 2 ^ post_shift m).
  { by apply ushr_imm_ok; try lia. }
  apply saturated_quotient; done || lia.
Qed.

Lemma land_pred_ok d : 0 < d < 2 ^ w -> util_is_power_of_two_or_zero64 d = true ->
  yields (nir_iand_imm n (d - 1)) w (x mod d).
Proof.
  intros Hd Ht. pose proof (two_pow_64 w ltac:(lia)) as H64. apply pow2_test in Ht; [|lia].
  apply yields_eq with (Z.land x (c_uint w (d - 1))); [by apply iand_imm_ok|].
  rewrite c_uint_small by lia. pose proof (Z.log2_nonneg d) as Hl. rewrite Ht.
  replace (2 ^ Z.log2 d - 1) with (Z.ones (Z.log2 d)) by (rewrite Z.ones_equiv; lia). by rewrite Z.land_ones by lia.
Qed.

Lemma build_umod_ok d : 0 <= d < 2 ^ w -> yields (build_umod lower_bitops n d) w (op_umod w x d).
Proof.
  intros Hd. unfold build_umod, op_umod. rewrite n_size.
  destruct (Z.eqb_spec d 0) as [->|H0]; [apply zero_ok|].
  destruct (util_is_power_of_two_or_zero64 d) eqn:Et; [by apply land_pred_ok; try lia|].
  pose proof (build_udiv_ok d Hd) as Hu. unfold op_udiv in Hu. rewrite (proj2 (Z.eqb_neq d 0)) in Hu by done.
  apply yields_bind with w (x / d); [done|]. intros q Hq.
  apply yields_bind with w (c_uint w (x / d * d)); [by apply imul_imm_ok|]. intros p Hp.
  apply yields_eq with (c_uint w (x - c_uint w (x / d * d))); [by apply isub_ok|].
  rewrite <- (c_uint_small w x) at 1 by done. rewrite c_uint_sub.
  pose proof (Z.div_mod x d H0). pose proof (Z.mod_pos_bound x d ltac:(lia)).
  rewrite c_uint_small; [lia|]. split; [lia|]. lia.
Qed.

(** ** Signed *)

(** The dividend as a signed number. *)
Abbreviation X := (c_int w x).

Lemma X_range : - 2 ^ (w - 1) <= X < 2 ^ (w - 1).
Proof. apply c_int_range. lia. Qed.

Lemma x_of_X : x = c_uint w X.
Proof. rewrite c_uint_c_int, c_uint_small by lia. done. Qed.

Lemma x_of_X_sub z : c_uint w (x - c_uint w z) = c_uint w (X - z).
Proof. by rewrite <- (c_uint_sub w X), <- x_of_X. Qed.

Lemma x_of_X_add z : c_uint w (x + z) = c_uint w (X + z).
Proof. rewrite <- (c_uint_add w X), <- x_of_X. unfold c_uint. by rewrite Zplus_mod_idemp_r. Qed.

Lemma eq_int_min : (x =? c_uint w (int_min w)) = (X =? int_min w).
Proof.
  pose proof X_range as HX. pose proof (pow_half w ltac:(lia)) as Hh.
  destruct (Z.eqb_spec X (int_min w)) as [E|Hne].
  - apply Z.eqb_eq. by rewrite <- E, <- x_of_X.
  - apply Z.eqb_neq. intros E. apply Hne. rewrite E. apply c_int_c_uint; unfold int_min; lia.
Qed.

(** The sign bit. *)
Lemma sign_bit r : - 2 ^ (w - 1) <= r < 2 ^ (w - 1) -> c_uint w r / 2 ^ (w - 1) = Z.b2z (r <? 0).
Proof.
  intros Hr. pose proof (pow_half w ltac:(lia)) as Hh. destruct (Z.ltb_spec r 0) as [Hn0|Hp]; cbn [Z.b2z].
  - assert (E : c_uint w r = r + 2 ^ w) by (symmetry; apply (Z.mod_unique_pos _ _ (-1)); lia).
    rewrite E. symmetry. apply (Z.div_unique_pos _ _ _ (r + 2 ^ (w - 1))); lia.
  - rewrite c_uint_small by lia. apply Z.div_small. lia.
Qed.

(** Dividing by a constant that is not a power of two. *)
Lemma idiv_magic d :
  - 2 ^ (w - 1) < d < 2 ^ (w - 1) -> 2 < Z.abs d -> Z.abs d <> 2 ^ Z.log2 (Z.abs d) ->
  yields
    (let* m := util_compute_fast_sdiv_info d w in
     let* c := nir_imm_intN_t (s_multiplier m) w in
     let* res := nir_imul_high n c in
     let* res := if (0 <? d) && (s_multiplier m <? 0) then nir_iadd res n else Ok res in
     let* res := if (d <? 0) && (0 <? s_multiplier m) then nir_isub res n else Ok res in
     let* res := if negb (s_shift m =? 0) then nir_ishr_imm res (s_shift m) else Ok res in
     let* sign := nir_ushr_imm res (w - 1) in
     nir_iadd res sign) w (c_uint w (Z.quot X d)).
Proof.
  intros Hd Hd2 HP. pose proof X_range as HX.
  destruct (sdiv_total d w ltac:(lia) ltac:(lia) HP) as (m & -> & [Hm Hsh Hhigh Hq]). cbn [res_bind].
  specialize (Hhigh X HX). specialize (Hq X HX).
  apply yields_bind with w (c_uint w (s_multiplier m)); [by apply imm_ok|]. intros c Hc.
  set (h0 := s_multiplier m * X / 2 ^ w).
  apply yields_bind with w (c_uint w h0).
  { apply yields_eq with (c_uint w (c_int w x * c_int w (c_uint w (s_multiplier m)) / 2 ^ w)); [by apply imul_high_ok|].
    rewrite c_int_c_uint by lia. unfold h0. do 2 f_equal. lia. }
  intros q0 Hq0.
  set (h1 := if (0 <? d) && (s_multiplier m <? 0) then h0 + X else h0).
  apply yields_bind with w (c_uint w h1).
  { unfold h1. destruct (_ && _); [|by apply yields_ok].
    apply yields_eq with (c_uint w (c_uint w h0 + x)); [by apply iadd_ok|]. by rewrite <- (c_uint_add w h0 X), <- x_of_X. }
  intros q1 Hq1. apply yields_bind with w (c_uint w (sdiv_high d w m X)).
  { unfold sdiv_high. fold h0. cbv zeta. fold h1. clearbody h1. destruct (_ && _); [|by apply yields_ok].
    apply yields_eq with (c_uint w (c_uint w h1 - x)); [by apply isub_ok|]. by rewrite <- (c_uint_sub w h1 X), <- x_of_X. }
  intros q2 Hq2. rewrite ishift_if. set (r := sdiv_high d w m X / 2 ^ s_shift m).
  apply yields_bind with w (c_uint w r).
  { apply yields_eq with (c_uint w (c_int w (c_uint w (sdiv_high d w m X)) / 2 ^ s_shift m)); [by apply ishr_imm_ok; try lia|].
    by rewrite c_int_c_uint by lia. }
  intros q3 Hq3. pose proof (pow_pos (s_shift m) ltac:(lia)) as Hps.
  assert (Hr : - 2 ^ (w - 1) <= r < 2 ^ (w - 1)).
  { apply div_range; [done|apply pow_pos; lia|done]. }
  apply yields_bind with w (Z.b2z (r <? 0)).
  { rewrite <- sign_bit by done. by apply ushr_imm_ok; try lia. }
  intros q4 Hq4. apply yields_eq with (c_uint w (c_uint w r + Z.b2z (r <? 0))); [by apply iadd_ok|].
  rewrite <- Hq. unfold fast_sdiv. fold r. unfold c_uint. by rewrite Zplus_mod_idemp_l.
Qed.

Lemma quot_signs d l :
  0 <= l -> Z.abs d = 2 ^ l ->
  (if (if d <? 0 then negb (X <? 0) else X <? 0) then - (Z.abs X / 2 ^ l) else Z.abs X / 2 ^ l) = Z.quot X d.
Proof.
  intros Hl Hd. pose proof (pow_pos l Hl) as Hp. rewrite (quot_sign X d (2 ^ l)) by lia.
  destruct (Z.ltb_spec d 0), (Z.ltb_spec X 0); cbn [negb]; rewrite ?(Z.sgn_neg d), ?(Z.sgn_pos d), ?(Z.sgn_neg X) by lia; lia.
Qed.

Lemma build_idiv_ok d : - 2 ^ (w - 1) <= d < 2 ^ (w - 1) ->
  yields (build_idiv n d) w (c_uint w (if d =? 0 then 0 else Z.quot X d)).
Proof.
  intros Hd. unfold build_idiv. rewrite n_size, int_min_ok. cbn [res_bind].
  pose proof (pow_half w ltac:(lia)) as Hh. pose proof (pow_pos (w - 1) ltac:(lia)) as Hp. pose proof X_range as HX.
  pose proof (two_pow_64 (w - 1) ltac:(lia)) as H64. pose proof (two_pow_64 w ltac:(lia)) as H64w.
  destruct (Z.eqb_spec d (int_min w)) as [->|H1].
  { apply yields_bind with 1 (Z.b2z (x =? c_uint w (int_min w))); [by apply ieq_imm_ok|]. intros c Hc.
    apply yields_eq with (Z.b2z (x =? c_uint w (int_min w))); [by apply build_b2i|]. rewrite eq_int_min.
    unfold int_min in *. rewrite (proj2 (Z.eqb_neq (- 2 ^ (w - 1)) 0)) by lia.
    destruct (Z.eqb_spec X (- 2 ^ (w - 1))) as [E|Hne]; cbn [Z.b2z].
    - rewrite E, Z.quot_same, c_uint_small by lia. done.
    - rewrite (quot_sign _ _ (2 ^ (w - 1))), Z.div_small, !Z.mul_0_r, c_uint_small by lia. done. }
  cbv zeta. unfold int_min in H1.
  assert (Ea : u64 (if d <? 0 then - d else d) = Z.abs d).
  { rewrite u64_small; destruct (Z.ltb_spec d 0); unfold in_u64; lia. }
  rewrite Ea.
  destruct (Z.eqb_spec d 0) as [->|H0]; [by apply imm_ok|].
  destruct (Z.eqb_spec d 1) as [->|H2]; [rewrite Z.quot_1_r, <- x_of_X; by apply yields_ok|].
  destruct (Z.eqb_spec d (-1)) as [->|H3].
  { apply yields_eq with (c_uint w (- x)); [by apply ineg_ok|].
    replace (Z.quot X (-1)) with (0 - X) by (change (-1) with (- (1)); rewrite Z.quot_opp_r, Z.quot_1_r by lia; lia).
    rewrite <- (c_uint_sub w 0 X), <- x_of_X. unfold c_uint. rewrite Zminus_mod_idemp_l. f_equal. }
  destruct (util_is_power_of_two_or_zero64 (Z.abs d)) eqn:Et.
  - apply pow2_test in Et; [|lia]. rewrite log2_odd by lia. pose proof (Z.log2_nonneg (Z.abs d)) as Hl.
    assert (Hlw : Z.log2 (Z.abs d) < w) by (apply Z.log2_lt_pow2; lia).
    rewrite <- (quot_signs d _ Hl Et). set (l := Z.log2 (Z.abs d)) in *.
    apply yields_bind with w (Z.abs X); [by apply iabs_ok|]. intros a Ha.
    apply yields_bind with w (Z.abs X / 2 ^ l); [by apply ushr_imm_ok; try lia|]. intros uq Huq.
    apply yields_bind with 1 (Z.b2z (X <? 0)); [by apply ilt_imm_ok; try lia|]. intros nn Hnn.
    apply yields_bind with 1 (Z.b2z (if d <? 0 then negb (X <? 0) else X <? 0)).
    { destruct (d <? 0); [by apply inot_bool|by apply yields_ok]. }
    intros neg Hneg. apply yields_bind with w (c_uint w (- (Z.abs X / 2 ^ l))); [by apply ineg_ok|]. intros nuq Hnuq.
    assert (Hs : c_uint w (Z.abs X / 2 ^ l) = Z.abs X / 2 ^ l) by (apply c_uint_small, Huq).
    rewrite <- Hs in Huq at 1. apply yields_eq with
      (if (if d <? 0 then negb (X <? 0) else X <? 0) then c_uint w (- (Z.abs X / 2 ^ l)) else c_uint w (Z.abs X / 2 ^ l)).
    + by apply build_bcsel; [lia| | |].
    + by destruct (if d <? 0 then negb (X <? 0) else X <? 0).
  - apply idiv_magic; [lia| |].
    + assert (Z.abs d <> 2) by (intros E; rewrite E in Et; discriminate). lia.
    + intros E. apply pow2_test in E; [|lia]. congruence.
Qed.

(** ** Remainders *)

Lemma rem_pow2 l :
  0 <= l -> let T := if X <? 0 then X + (2 ^ l - 1) else X in
  X - (T - T mod 2 ^ l) = Z.sgn X * (Z.abs X mod 2 ^ l).
Proof.
  intros Hl T. pose proof (pow_pos l Hl) as Hp. unfold T. destruct (Z.ltb_spec X 0) as [H0|H0].
  - rewrite Z.sgn_neg, Z.abs_neq by lia.
    pose proof (Z.div_mod (- X) (2 ^ l) ltac:(lia)) as E. pose proof (Z.mod_pos_bound (- X) (2 ^ l) Hp) as Hr.
    rewrite <- (Z.mod_unique_pos (X + (2 ^ l - 1)) (2 ^ l) (- (- X / 2 ^ l)) (2 ^ l - 1 - - X mod 2 ^ l)) by lia. lia.
  - destruct (decide (X = 0)) as [->|]; [cbn; rewrite Zmod_0_l; lia|]. rewrite Z.sgn_pos, Z.abs_eq by lia. lia.
Qed.

Lemma build_irem_ok d : - 2 ^ (w - 1) <= d < 2 ^ (w - 1) ->
  yields (build_irem lower_bitops n d) w (c_uint w (if d =? 0 then 0 else Z.rem X d)).
Proof.
  intros Hd. unfold build_irem. rewrite n_size, int_min_ok. cbn [res_bind].
  pose proof (pow_half w ltac:(lia)) as Hh. pose proof (pow_pos (w - 1) ltac:(lia)) as Hp. pose proof X_range as HX.
  pose proof (two_pow_64 (w - 1) ltac:(lia)) as H64. pose proof (two_pow_64 w ltac:(lia)) as H64w.
  destruct (Z.eqb_spec d 0) as [->|H0]; [by apply imm_ok|].
  destruct (Z.eqb_spec d (int_min w)) as [->|H1].
  { apply yields_bind with 1 (Z.b2z (x =? c_uint w (int_min w))); [by apply ieq_imm_ok|]. intros c Hc.
    apply yields_bind with w 0; [apply zero_ok|]. intros z Hz. rewrite eq_int_min in Hc.
    apply yields_eq with (if X =? int_min w then 0 else x); [by apply build_bcsel; [lia| | |]|]. unfold int_min in *.
    rewrite Z.rem_mod, Z.abs_opp, (Z.abs_eq (2 ^ (w - 1))) by lia. destruct (Z.eqb_spec X (- 2 ^ (w - 1))) as [->|Hne].
    - rewrite Z.abs_opp, (Z.abs_eq (2 ^ (w - 1))), Z_mod_same_full, Z.mul_0_r, c_uint_small by lia. done.
    - rewrite Z.mod_small by lia. rewrite Z.mul_comm, Z.abs_sgn. apply x_of_X. }
  unfold int_min in H1. cbv zeta. rewrite Z.rem_mod by done.
  assert (Ed : (if d <? 0 then - d else d) = Z.abs d) by (destruct (Z.ltb_spec d 0); lia). rewrite Ed.
  rewrite u64_small by (unfold in_u64; lia). destruct (util_is_power_of_two_or_zero64 (Z.abs d)) eqn:Et.
  - apply pow2_test in Et; [|lia]. pose proof (Z.log2_nonneg (Z.abs d)) as Hl. set (l := Z.log2 (Z.abs d)) in *.
    rewrite Et. apply yields_bind with 1 (Z.b2z (X <? 0)); [by apply ilt_imm_ok; try lia|]. intros c Hc.
    apply yields_bind with w (c_uint w (x + (2 ^ l - 1))); [by apply iadd_imm_ok|]. intros s Hs.
    set (T := if X <? 0 then X + (2 ^ l - 1) else X).
    apply yields_bind with w (c_uint w T).
    { apply yields_eq with (if X <? 0 then c_uint w (x + (2 ^ l - 1)) else x); [by apply build_bcsel; [lia| | |]|].
      unfold T. destruct (X <? 0); [|by rewrite <- x_of_X].
      rewrite <- (c_uint_add w X), <- x_of_X. unfold c_uint. by rewrite Zplus_mod_idemp_r. }
    intros t Ht. apply yields_bind with w (c_uint w (T - T mod 2 ^ l)).
    { rewrite <- land_neg_pow2, <- c_uint_land by lia. by apply iand_imm_ok. }
    intros a Ha. apply yields_eq with (c_uint w (x - c_uint w (T - T mod 2 ^ l))); [by apply isub_ok|].
    by rewrite <- rem_pow2, x_of_X_sub by done.
  - apply yields_bind with w (c_uint w (Z.quot X (Z.abs d))).
    { apply yields_eq with (c_uint w (if Z.abs d =? 0 then 0 else Z.quot X (Z.abs d))); [apply build_idiv_ok; lia|].
      by rewrite (proj2 (Z.eqb_neq (Z.abs d) 0)) by lia. }
    intros q Hq. apply yields_bind with w (c_uint w (c_uint w (Z.quot X (Z.abs d)) * Z.abs d)); [by apply imul_imm_ok|].
    intros p Hp2. apply yields_eq with (c_uint w (x - c_uint w (c_uint w (Z.quot X (Z.abs d)) * Z.abs d))); [by apply isub_ok|].
    assert (E : c_uint w (c_uint w (Z.quot X (Z.abs d)) * Z.abs d) = c_uint w (Z.quot X (Z.abs d) * Z.abs d)).
    { unfold c_uint. by rewrite Zmult_mod_idemp_l. }
    rewrite E, x_of_X_sub. f_equal. pose proof (Z.quot_rem X (Z.abs d) ltac:(lia)).
    pose proof (Z.rem_mod X (Z.abs d) ltac:(lia)) as Hr. rewrite Z.abs_idemp in Hr. lia.
Qed.

Lemma c_uint_eqb a b :
  - 2 ^ (w - 1) <= a < 2 ^ (w - 1) -> - 2 ^ (w - 1) <= b < 2 ^ (w - 1) -> (c_uint w a =? c_uint w b) = (a =? b).
Proof.
  intros Ha Hb. destruct (Z.eqb_spec a b) as [->|Hne]; [apply Z.eqb_refl|]. apply Z.eqb_neq. intros E. apply Hne.
  by rewrite <- (c_int_c_uint w a), <- (c_int_c_uint w b), E by lia.
Qed.

(** The three cases of [build_imod] that need no division. *)
Lemma imod_int_min :
  yields
    (let* int_min_def := nir_imm_intN_t (int_min w) w in
     let* is_neg_not_int_min := nir_ult int_min_def n in
     let* is_zero := nir_ieq_imm n 0 in
     let* c := nir_ior is_neg_not_int_min is_zero in
     let* s := nir_iadd int_min_def n in
     nir_bcsel c n s) w (c_uint w (X mod int_min w)).
Proof.
  pose proof (pow_half w ltac:(lia)) as Hh. pose proof (pow_pos (w - 1) ltac:(lia)) as Hp. pose proof X_range as HX.
  apply yields_bind with w (c_uint w (int_min w)); [by apply imm_ok|]. intros m Hm.
  apply yields_bind with 1 (Z.b2z (c_uint w (int_min w) <? x)); [by apply ult_ok with w|]. intros c1 Hc1.
  apply yields_bind with 1 (Z.b2z (x =? c_uint w 0)); [by apply ieq_imm_ok|]. intros c2 Hc2.
  apply yields_bind with 1 (Z.b2z ((c_uint w (int_min w) <? x) || (x =? c_uint w 0))); [by apply ior_bool|]. intros c Hc.
  apply yields_bind with w (c_uint w (c_uint w (int_min w) + x)); [by apply iadd_ok|]. intros s Hs.
  apply yields_eq with (if (c_uint w (int_min w) <? x) || (x =? c_uint w 0) then x else c_uint w (c_uint w (int_min w) + x));
    [by apply build_bcsel; [lia| | |]|].
  assert (Em : c_uint w (int_min w) = 2 ^ (w - 1)).
  { symmetry. apply (Z.mod_unique_pos _ _ (-1)); unfold int_min; lia. }
  rewrite Z.add_comm, x_of_X_add, Em, (c_uint_small w 0) by lia. unfold int_min.
  assert (Ex : x = if X <? 0 then X + 2 ^ w else X).
  { rewrite x_of_X at 1. destruct (Z.ltb_spec X 0); symmetry; [apply (Z.mod_unique_pos _ _ (-1))|apply (Z.mod_unique_pos _ _ 0)]; lia. }
  revert HX Ex. generalize X. intros Y HX Ex. destruct (Z.ltb_spec Y 0) as [Hneg|Hpos]; rewrite Ex.
  - destruct (Z.ltb_spec (2 ^ (w - 1)) (Y + 2 ^ w)) as [Hl|Hl]; cbn [orb].
    + rewrite <- (Z.mod_unique_neg Y (- 2 ^ (w - 1)) 0 Y) by lia. apply (Z.mod_unique_pos _ _ (-1)); lia.
    + rewrite (proj2 (Z.eqb_neq (Y + 2 ^ w) 0)) by lia. assert (Y = - 2 ^ (w - 1)) as -> by lia.
      rewrite Z_mod_same_full. f_equal. lia.
  - rewrite (proj2 (Z.ltb_ge (2 ^ (w - 1)) Y)) by lia. cbn [orb]. destruct (Z.eqb_spec Y 0) as [->|Hne].
    { rewrite Zmod_0_l, c_uint_small by lia. done. }
    rewrite <- (Z.mod_unique_neg Y (- 2 ^ (w - 1)) (-1) (Y - 2 ^ (w - 1))) by lia.
    unfold c_uint. rewrite <- (Z_mod_plus_full (Y + 2 ^ (w - 1)) (-1)). f_equal. lia.
Qed.

Lemma imod_pow2_pos l : 0 <= l < w -> x mod 2 ^ l = c_uint w (X mod 2 ^ l).
Proof.
  intros Hl. pose proof (Z.mod_pos_bound X (2 ^ l) ltac:(apply pow_pos; lia)).
  assert (2 ^ l <= 2 ^ w) by (apply Z.pow_le_mono_r; lia). rewrite (c_uint_small w (X mod 2 ^ l)) by lia.
  rewrite x_of_X at 1. apply Z.mod_mod_divide. exists (2 ^ (w - l)). rewrite <- Z.pow_add_r by lia. f_equal. lia.
Qed.

Lemma imod_pow2_neg l :
  0 <= l < w - 1 ->
  yields
    (let* d_def := nir_imm_intN_t (- 2 ^ l) w in
     let* res := nir_ior n d_def in
     let* c := nir_ieq res d_def in
     let* z := nir_imm_intN_t 0 w in
     nir_bcsel c z res) w (c_uint w (X mod (- 2 ^ l))).
Proof.
  intros Hl. pose proof (pow_pos l ltac:(lia)) as Hp.
  assert (Hlt : 2 ^ l < 2 ^ (w - 1)) by (apply Z.pow_lt_mono_r; lia).
  pose proof (Z.mod_pos_bound X (2 ^ l) Hp) as Hr. set (r := X mod 2 ^ l) in *.
  apply yields_bind with w (c_uint w (- 2 ^ l)); [by apply imm_ok|]. intros c Hc.
  apply yields_bind with w (c_uint w (r - 2 ^ l)).
  { unfold r. rewrite <- lor_neg_pow2, <- c_uint_lor, <- x_of_X by lia. by apply ior_ok. }
  intros o Ho. apply yields_bind with 1 (Z.b2z (r =? 0)).
  { apply yields_eq with (Z.b2z (c_uint w (r - 2 ^ l) =? c_uint w (- 2 ^ l))); [by apply ieq_ok with w|].
    rewrite c_uint_eqb by lia. f_equal. destruct (Z.eqb_spec r 0), (Z.eqb_spec (r - 2 ^ l) (- 2 ^ l)); lia. }
  intros t Ht. apply yields_bind with w 0; [apply zero_ok|]. intros z Hz.
  apply yields_eq with (if r =? 0 then 0 else c_uint w (r - 2 ^ l)); [by apply build_bcsel; [lia| | |]|].
  pose proof (Z.div_mod X (2 ^ l) ltac:(lia)) as E. fold r in E. destruct (Z.eqb_spec r 0) as [E0|Hne].
  - rewrite <- (Z.mod_unique_neg X (- 2 ^ l) (- (X / 2 ^ l)) 0) by lia. rewrite c_uint_small by lia. done.
  - f_equal. apply (Z.mod_unique_neg _ _ (- (X / 2 ^ l) - 1)); lia.
Qed.

Lemma build_imod_ok d : - 2 ^ (w - 1) <= d < 2 ^ (w - 1) ->
  yields (build_imod lower_bitops n d) w (c_uint w (if d =? 0 then 0 else X mod d)).
Proof.
  intros Hd. unfold build_imod. rewrite n_size, int_min_ok. cbn [res_bind].
  pose proof (pow_half w ltac:(lia)) as Hh. pose proof (pow_pos (w - 1) ltac:(lia)) as Hp. pose proof X_range as HX.
  pose proof (two_pow_64 (w - 1) ltac:(lia)) as H64. pose proof (two_pow_64 w ltac:(lia)) as H64w.
  destruct (Z.eqb_spec d 0) as [->|H0]; [by apply imm_ok|].
  destruct (Z.eqb_spec d (int_min w)) as [->|H1]; [apply imod_int_min|]. unfold int_min in H1.
  destruct ((0 <? d) && util_is_power_of_two_or_zero64 (u64 d)) eqn:E1.
  { apply andb_true_iff in E1 as [Hd1%Z.ltb_lt Et]. rewrite u64_small in Et by (unfold in_u64; lia).
    apply yields_eq with (x mod d); [by apply land_pred_ok; try lia|]. apply pow2_test in Et; [|lia].
    rewrite Et. apply imod_pow2_pos. split; [apply Z.log2_nonneg|apply Z.log2_lt_pow2; lia]. }
  destruct ((d <? 0) && util_is_power_of_two_or_zero64 (u64 (- d))) eqn:E2.
  { apply andb_true_iff in E2 as [Hd1%Z.ltb_lt Et]. rewrite u64_small in Et by (unfold in_u64; lia).
    apply pow2_test in Et; [|lia]. replace d with (- 2 ^ Z.log2 (- d)) by lia. apply imod_pow2_neg.
    split; [apply Z.log2_nonneg|apply Z.log2_lt_pow2; lia]. }
  clear E1 E2. pose proof (build_irem_ok d Hd) as Hrem. rewrite (proj2 (Z.eqb_neq d 0)) in Hrem by done.
  pose proof (Z.rem_bound_abs X d H0) as Hb.
  apply yields_bind with w (c_uint w (Z.rem X d)); [done|]. intros r Hr.
  apply yields_bind with w 0; [apply zero_ok|]. intros z Hz.
  assert (E0 : c_int w 0 = 0) by (rewrite <- (c_uint_small w 0), c_int_c_uint by lia; done).
  apply yields_bind with 1 (Z.b2z (Bool.eqb (0 <=? X) (0 <=? d))).
  { destruct (Z.ltb_spec d 0) as [Hneg|Hpos].
    - apply yields_eq with (Z.b2z (c_int w x <? c_int w 0)); [by apply ilt_ok|]. rewrite E0. f_equal.
      rewrite (proj2 (Z.leb_gt 0 d)) by lia. destruct (Z.ltb_spec X 0), (Z.leb_spec 0 X); cbn; lia || done.
    - apply yields_eq with (Z.b2z (c_int w 0 <=? c_int w x)); [by apply ige_ok|]. rewrite E0. f_equal.
      rewrite (proj2 (Z.leb_le 0 d)) by lia. by destruct (Z.leb_spec 0 X). }
  intros ss Hss. apply yields_bind with 1 (Z.b2z (Z.rem X d =? 0)).
  { apply yields_eq with (Z.b2z (c_uint w (Z.rem X d) =? 0)); [by apply ieq_ok with w|].
    rewrite <- (c_uint_small w 0), c_uint_eqb by lia. done. }
  intros rz Hrz. apply yields_bind with 1 (Z.b2z ((Z.rem X d =? 0) || Bool.eqb (0 <=? X) (0 <=? d))); [by apply ior_bool|].
  intros c Hc. apply yields_bind with w (c_uint w (c_uint w (Z.rem X d) + d)); [by apply iadd_imm_ok|]. intros s Hs.
  rewrite <- (imod_floor X d H0).
  apply yields_eq with (if (Z.rem X d =? 0) || Bool.eqb (0 <=? X) (0 <=? d) then c_uint w (Z.rem X d) else c_uint w (c_uint w (Z.rem X d) + d));
    [by apply build_bcsel; [lia| | |]|].
  destruct (_ || _); [done|]. unfold c_uint. by rewrite Zplus_mod_idemp_l.
Qed.
End Dividend.

(** ** One component *)

(** The one division whose quotient does not fit. *)
Definition overflows (op : nir_op) (w x v : Z) : Prop :=
  op = nir_op_idiv /\ c_int w x = int_min w /\ c_int w v = -1.

Lemma unsigned_constant w v :
  width w -> 0 <= v < 2 ^ w ->
  exists d, (if w <? 64 then let* p := shl64 1 w in Ok (Z.land (c_int w v) (p - 1)) else Ok (c_int w v)) = Ok d /\ u64 d = v.
Proof.
  intros Hw Hv. pose proof (width_pos w Hw) as Hw'. pose proof (two_pow_64 w ltac:(lia)) as H64.
  destruct (Z.ltb_spec w 64) as [Hlt|Hge].
  - rewrite shl64_one by lia. cbn [res_bind]. eexists; split; [reflexivity|].
    replace (2 ^ w - 1) with (Z.ones w) by (rewrite Z.ones_equiv; lia). rewrite Z.land_ones by lia.
    change (c_int w v mod 2 ^ w) with (c_uint w (c_int w v)). rewrite c_uint_c_int, c_uint_small by lia.
    apply u64_small. unfold in_u64. lia.
  - eexists; split; [reflexivity|]. assert (w = 64) as -> by lia. change (u64 (c_int 64 v)) with (c_uint 64 (c_int 64 v)).
    by rewrite c_uint_c_int, c_uint_small by lia.
Qed.

Lemma component_value op w n x v :
  width w -> holds n w x -> 0 <= v < 2 ^ w -> is_division op = true ->
  yields (build_component lower_bitops op w n v) w
    (match op with
     | nir_op_udiv => op_udiv w x v
     | nir_op_umod => op_umod w x v
     | nir_op_idiv => c_uint w (if c_int w v =? 0 then 0 else Z.quot (c_int w x) (c_int w v))
     | nir_op_irem => c_uint w (if c_int w v =? 0 then 0 else Z.rem (c_int w x) (c_int w v))
     | _ => c_uint w (if c_int w v =? 0 then 0 else c_int w x mod c_int w v)
     end).
Proof.
  intros Hw Hn Hv Hop. pose proof (width_pos w Hw) as Hw'. unfold build_component.
  assert (Ec : nir_const_value_as_int v w = Ok (c_int w v)) by (destruct Hw as [->|[->|[->| ->]]]; reflexivity).
  rewrite Ec. cbn [res_bind]. pose proof (c_int_range w v ltac:(lia)) as Hd.
  destruct (unsigned_constant w v Hw Hv) as (d & Ed & Hu).
  destruct op; try discriminate Hop;
    match goal with
    | |- context [unsigned_op ?o] => let b := eval vm_compute in (unsigned_op o) in change (unsigned_op o) with b
    end; cbn [andb]; rewrite ?Ed; cbn [res_bind]; rewrite ?Hu.
  - by apply build_idiv_ok.
  - by apply build_udiv_ok.
  - by apply build_umod_ok.
  - by apply build_irem_ok.
  - by apply build_imod_ok.
Qed.

Lemma component_ok op w n x v :
  width w -> holds n w x -> 0 <= v < 2 ^ w -> is_division op = true -> ~ overflows op w x v ->
  yields (build_component lower_bitops op w n v) w (eval_const op w [x; v]).
Proof.
  intros Hw Hn Hv Hop Hno. pose proof (width_pos w Hw) as Hw'.
  eapply yields_eq; [by apply (component_value op w n x v)|]. pose proof (c_int_range w x ltac:(lia)) as HX.
  destruct op; try discriminate Hop; cbn [eval_const]; try done; unfold op_idiv, op_irem, op_imod; cbv zeta;
    destruct (Z.eqb_spec (c_int w v) 0) as [E0|H0]; cbn [orb]; try done;
    destruct ((c_int w x =? int_min w) && (c_int w v =? -1)) eqn:Eo; try done.
  - apply andb_true_iff in Eo as [E1%Z.eqb_eq E2%Z.eqb_eq]. destruct Hno. done.
  - apply andb_true_iff in Eo as [_ E2%Z.eqb_eq]. rewrite E2. change (-1) with (- (1)). rewrite Z.rem_opp_r, Z.rem_1_r by lia. done.
  - apply andb_true_iff in Eo as [_ E2%Z.eqb_eq]. rewrite E2. change (-1) with (- (1)). rewrite Z.mod_opp_r_z by (try rewrite Z.mod_1_r; lia). done.
  - by rewrite <- (imod_floor (c_int w x) (c_int w v) H0).
Qed.
End Proofs.

(** ** The pass *)

(** A division by constants: [src0] are scalars of the instruction's bit size, [v] the
    constants, and every component reads an existing channel. *)
Record divides_by (env : nat -> Z) (alu : nir_alu_instr) (v : list Z) : Prop := {
  db_op : is_division (alu_op alu) = true;
  db_width : width (def_bit_size alu);
  db_size : src1_bit_size alu = def_bit_size alu;
  db_const : src1 alu = Some v;
  db_src0 : Forall (fun n => bit_size n = def_bit_size alu /\ 0 <= eval env n < 2 ^ def_bit_size alu) (src0 alu);
  db_src1 : Forall (fun x => 0 <= x < 2 ^ def_bit_size alu) v;
  db_swizzle0 : Forall (fun i => i < length (src0 alu))%nat (swizzle0 alu);
  db_swizzle1 : Forall (fun j => j < length v)%nat (swizzle1 alu);
  db_components : length (swizzle0 alu) = length (swizzle1 alu)
}.

(** Component [k] divides the definition [n] by the constant [x]. *)
Definition component (alu : nir_alu_instr) (v : list Z) (k : nat) (n : nir_def) (x : Z) : Prop :=
  exists i j, swizzle0 alu !! k = Some i /\ swizzle1 alu !! k = Some j /\ src0 alu !! i = Some n /\ v !! j = Some x.

Lemma components_ok lower_bitops env op w ns v sw0 : forall sw1,
  width w -> is_division op = true -> length sw0 = length sw1 ->
  Forall (fun n => bit_size n = w /\ 0 <= eval env n < 2 ^ w) ns -> Forall (fun x => 0 <= x < 2 ^ w) v ->
  Forall (fun i => i < length ns)%nat sw0 -> Forall (fun j => j < length v)%nat sw1 ->
  exists qs, build_components lower_bitops op w ns v sw0 sw1 = Ok qs /\ length qs = length sw0 /\
    forall k i j n x, sw0 !! k = Some i -> sw1 !! k = Some j -> ns !! i = Some n -> v !! j = Some x ->
      exists q, qs !! k = Some q /\ bit_size q = w /\
        (~ overflows op w (eval env n) x -> eval env q = eval_const op w [eval env n; x]) /\
        (overflows op w (eval env n) x -> eval env q = 2 ^ (w - 1)).
Proof.
  induction sw0 as [|i sw0 IH]; intros [|j sw1] Hw Hop HL Hns Hv H0 H1; try discriminate HL; cbn [build_components].
  { exists []. split; [done|]. split; [done|]. intros k ? ? ? ? E. done. }
  inversion_clear H0 as [|? ? Hi H0']. inversion_clear H1 as [|? ? Hj H1'].
  destruct (lookup_lt_is_Some_2 ns i Hi) as [n En]. destruct (lookup_lt_is_Some_2 v j Hj) as [x Ex]. rewrite En, Ex.
  destruct (proj1 (Forall_lookup _ _) Hns _ _ En) as [Wn Rn]. pose proof (proj1 (Forall_lookup _ _) Hv _ _ Ex) as Rx.
  assert (Hn : holds env n w (eval env n)) by done.
  destruct (component_value lower_bitops env op w n _ x Hw Hn Rx Hop) as (q & Eq & Wq & Vq & _).
  destruct (IH sw1 Hw Hop ltac:(cbn in HL; lia) Hns Hv H0' H1') as (qs & Eqs & Lqs & Hqs).
  rewrite Eq, Eqs. cbn [res_bind]. exists (q :: qs). split; [done|]. split; [cbn; lia|].
  intros [|k] i' j' n' x' Ei Ej En' Ex'; [|by apply (Hqs k i' j' n' x')].
  injection Ei as <-. injection Ej as <-. rewrite En in En'. injection En' as <-. rewrite Ex in Ex'. injection Ex' as <-.
  exists q. split; [done|]. split; [done|]. split.
  - intros Hno. destruct (component_ok lower_bitops env op w n _ x Hw Hn Rx Hop Hno) as (q' & Eq' & _ & Vq' & _).
    rewrite Eq in Eq'. by injection Eq' as <-.
  - intros (-> & EX & Ed). rewrite Vq, EX, Ed. pose proof (width_pos w Hw). unfold int_min.
    replace (Z.quot (- 2 ^ (w - 1)) (-1)) with (2 ^ (w - 1)).
    + apply c_uint_small. pose proof (pow_half w ltac:(lia)). pose proof (pow_pos (w - 1) ltac:(lia)). lia.
    + change (-1) with (- (1)). rewrite Z.quot_opp_opp, Z.quot_1_r by lia. done.
Qed.

(** C5: replacing divisions by constants preserves the program.  For every division by
    constants of at least [min_bit_size] bits the pass succeeds (no assertion of the builder
    or of the computation of the multiplier fails), creates one definition of the same bit
    size per component, and each evaluates to the value of the constant expression of the
    opcode, for every dividend and every constant, zero included.  The one exception is
    [idiv] of the most negative number by -1, which overflows: the expression says 0, the
    pass leaves the most negative number. *)
Theorem idiv_const_preserves lower_bitops env min_bit_size alu v :
  divides_by env alu v -> min_bit_size <= def_bit_size alu ->
  exists qs, nir_opt_idiv_const_instr lower_bitops min_bit_size alu = Ok (Some qs) /\
    length qs = length (swizzle0 alu) /\
    forall k n x, component alu v k n x ->
      exists q, qs !! k = Some q /\ bit_size q = def_bit_size alu /\
        (~ overflows (alu_op alu) (def_bit_size alu) (eval env n) x ->
         eval env q = eval_const (alu_op alu) (def_bit_size alu) [eval env n; x]) /\
        (overflows (alu_op alu) (def_bit_size alu) (eval env n) x ->
         eval_const (alu_op alu) (def_bit_size alu) [eval env n; x] = 0 /\ eval env q = 2 ^ (def_bit_size alu - 1)).
Proof.
  intros [Hop Hw Hsz Hc H0 H1 Hs0 Hs1 HL] Hmin. unfold nir_opt_idiv_const_instr.
  rewrite Hop, (proj2 (Z.ltb_ge _ _) Hmin), Hc, Hsz. cbn [negb].
  destruct (components_ok lower_bitops env _ _ _ _ _ _ Hw Hop HL H0 H1 Hs0 Hs1) as (qs & -> & L & Hqs). cbn [res_bind].
  exists qs. split; [done|]. split; [done|]. intros k n x (i & j & Ei & Ej & En & Ex).
  destruct (Hqs k i j n x Ei Ej En Ex) as (q & Eq & Wq & Hq & Ho). exists q. do 3 (split; [done|]).
  intros Hov. split; [|by apply Ho]. destruct Hov as (-> & E1 & E2). cbn [eval_const]. unfold op_idiv. cbv zeta.
  by rewrite E1, E2, Z.eqb_refl.
Qed.

(** A division of a vector of two components by 7 and by -1. *)
Definition idiv_example : nir_alu_instr :=
  mk_alu nir_op_idiv 32 [nir_ssa 32 0; nir_ssa 32 1] [0%nat; 1%nat] (Some [7; 2 ^ 32 - 1]) 32 [0%nat; 1%nat].

Lemma idiv_const_preserves_witness :
  exists qs, nir_opt_idiv_const_instr false 8 idiv_example = Ok (Some qs) /\ length qs = 2%nat.
Proof.
  destruct (idiv_const_preserves false (fun i => match i with O => 100 | S _ => 2 ^ 31 end) 8 idiv_example [7; 2 ^ 32 - 1]) as (qs & E & L & _).
  - split; try done; [by right; right; left| | | |]; repeat constructor; cbn; lia.
  - cbn. lia.
  - exact (ex_intro _ qs (conj E L)).
Defined.
