(* ===== verification/InstanceDivisor.v ===== *)
(** Instanced vertex attributes ([radeonsi]): the driver turns the divisor of each vertex
    element into a multiplier and shifts in a buffer ([si_state.c]), from which the vertex
    shader computes the index of the element to fetch ([gfx/si_nir_lower_vs_inputs.c]).  The
    theorem joins the two sides: the shader divides. *)

From stdpp Require Import list.
From S2P Require Import Prelude.
From S2P Require Import FastDiv.
From S2P Require Import FastDivProofs.
From S2P Require Import Nir.
From S2P Require Import NirProofs.

(** ** The driver *)

Definition SI_MAX_ATTRIBS : nat := 16.
Definition SI_NUM_VERTEX_BUFFERS : Z := 16.

Record si_fast_udiv_info32 : Type := mk_udiv32 {
  f_multiplier : Z; f_pre_shift : Z; f_post_shift : Z; f_increment : Z
}.

Definition si_compute_fast_udiv_info32 (D num_bits : Z) : res si_fast_udiv_info32 :=
  let* info := util_compute_fast_udiv_info D num_bits 32 in
  Ok (mk_udiv32 (u32 (multiplier info)) (u32 (pre_shift info)) (u32 (post_shift info)) (u32 (increment info))).

(** The fields of [struct pipe_vertex_element] the divisors depend on. *)
Record pipe_vertex_element : Type := mk_element { vertex_buffer_index : Z; instance_divisor : Z }.

(** The fields of [struct si_vertex_elements] that describe the divisors; the buffer is
    listed as its words. *)
Record si_vertex_elements : Type := mk_velems {
  instance_divisor_is_one : Z;
  instance_divisor_is_fetched : Z;
  instance_divisor_factor_buffer : option (list Z)
}.

(** The part of the loop of [si_create_vertex_elements] that handles divisors, from element
    [i] on; [None] is the early return of [NULL]. *)
Fixpoint elements_loop (elements : list pipe_vertex_element) (i : nat) (is_one is_fetched : Z)
    (divisor_factors : list si_fast_udiv_info32) : res (option (Z * Z * list si_fast_udiv_info32)) :=
  match elements with
  | [] => Ok (Some (is_one, is_fetched, divisor_factors))
  | e :: elements' =>
      if SI_NUM_VERTEX_BUFFERS <=? vertex_buffer_index e then Ok None
      else if negb (instance_divisor e =? 0) then
        if instance_divisor e =? 1 then
          elements_loop elements' (S i) (u16 (Z.lor is_one (Z.shiftl 1 (Z.of_nat i)))) is_fetched divisor_factors
        else
          let* f := si_compute_fast_udiv_info32 (instance_divisor e) 32 in
          elements_loop elements' (S i) is_one (u16 (Z.lor is_fetched (Z.shiftl 1 (Z.of_nat i)))) (<[i := f]> divisor_factors)
      else elements_loop elements' (S i) is_one is_fetched divisor_factors
  end.

Definition util_last_bit (u : Z) : Z := if u =? 0 then 0 else Z.log2 u + 1.

Definition factor_words (f : si_fast_udiv_info32) : list Z :=
  [f_multiplier f; f_pre_shift f; f_post_shift f; f_increment f].

(** [buffer_create] says whether a buffer of that size can be allocated. *)
Definition si_create_vertex_elements (buffer_create : Z -> bool) (elements : list pipe_vertex_element) :
    res (option si_vertex_elements) :=
  assert! bool_decide (length elements <= SI_MAX_ATTRIBS)%nat in
  let* r := elements_loop elements 0 0 0 (replicate SI_MAX_ATTRIBS (mk_udiv32 0 0 0 0)) in
  match r with
  | None => Ok None
  | Some (is_one, is_fetched, divisor_factors) =>
      if negb (is_fetched =? 0) then
        let num_divisors := util_last_bit is_fetched in
        if buffer_create (num_divisors * 16)
        then Ok (Some (mk_velems is_one is_fetched
                  (Some (concat (map factor_words (take (Z.to_nat num_divisors) divisor_factors))))))
        else Ok None
      else Ok (Some (mk_velems is_one is_fetched None))
  end.

(** ** The vertex shader *)

(** Values the shader loads: system values, then the words of the constant buffer. *)
Definition nir_load_instance_id : nir_def := nir_ssa 32 0.
Definition nir_load_base_instance : nir_def := nir_ssa 32 1.
Definition nir_load_vertex_id_zero_base : nir_def := nir_ssa 32 2.
Definition nir_load_first_vertex : nir_def := nir_ssa 32 3.
Definition ubo_word (k : nat) : nat := (4 + k)%nat.
Definition nir_load_ubo (offset : nat) : list nir_def :=
  map (fun c => nir_ssa 32 (ubo_word (offset / 4 + c))) [0; 1; 2; 3]%nat.

(** [nir_iadd] with [no_unsigned_wrap] set: the sum must not wrap. *)
Definition nir_iadd_nuw (a b : nir_def) : res nir_def := nir_iadd a b.

Definition nir_channel (d : list nir_def) (c : nat) : res nir_def :=
  match d !! c with Some x => Ok x | None => Fault OutOfBounds end.

Definition fast_udiv_nuw (num : nir_def) (divisor : list nir_def) : res nir_def :=
  let* multiplier := nir_channel divisor 0 in
  let* pre_shift := nir_channel divisor 1 in
  let* post_shift := nir_channel divisor 2 in
  let* increment := nir_channel divisor 3 in
  let* num := nir_ushr num pre_shift in
  let* num := nir_iadd_nuw num increment in
  let* num := nir_umul_high num multiplier in
  nir_ushr num post_shift.

(** The masks of the shader key are those of the vertex elements
    ([si_vs_key_update_inputs]). *)
Definition get_vertex_index (key : si_vertex_elements) (input_index : nat) : res nir_def :=
  let divisor_is_one := negb (Z.land (instance_divisor_is_one key) (Z.shiftl 1 (Z.of_nat input_index)) =? 0) in
  let divisor_is_fetched := negb (Z.land (instance_divisor_is_fetched key) (Z.shiftl 1 (Z.of_nat input_index)) =? 0) in
  if divisor_is_one || divisor_is_fetched then
    let* index :=
      if divisor_is_one then Ok nir_load_instance_id
      else fast_udiv_nuw nir_load_instance_id (nir_load_ubo (input_index * 16)) in
    nir_iadd index nir_load_base_instance
  else nir_iadd nir_load_vertex_id_zero_base nir_load_first_vertex.

(** ** The masks and the factors *)

Lemma land_bit m i : negb (Z.land m (Z.shiftl 1 (Z.of_nat i)) =? 0) = Z.testbit m (Z.of_nat i).
Proof.
  rewrite Z.shiftl_1_l. assert (E : Z.land m (2 ^ Z.of_nat i) = if Z.testbit m (Z.of_nat i) then 2 ^ Z.of_nat i else 0).
  { apply Z.bits_inj'. intros j Hj. rewrite Z.land_spec, Z.pow2_bits_eqb by lia.
    destruct (Z.eqb_spec (Z.of_nat i) j) as [<-|Hne].
    - rewrite andb_true_r. destruct (Z.testbit m (Z.of_nat i)); [by rewrite Z.pow2_bits_true by lia|by rewrite Z.bits_0].
    - rewrite andb_false_r. destruct (Z.testbit m (Z.of_nat i)); [by rewrite Z.pow2_bits_false by lia|by rewrite Z.bits_0]. }
  rewrite E. assert (0 < 2 ^ Z.of_nat i) by (apply Z.pow_pos_nonneg; lia).
  destruct (Z.testbit m (Z.of_nat i)); [|done]. by rewrite (proj2 (Z.eqb_neq (2 ^ Z.of_nat i) 0)) by lia.
Qed.

Lemma set_bit m i j :
  (i < 16)%nat -> (j < 16)%nat ->
  Z.testbit (u16 (Z.lor m (Z.shiftl 1 (Z.of_nat i)))) (Z.of_nat j) = bool_decide (i = j) || Z.testbit m (Z.of_nat j).
Proof.
  intros Hi Hj. unfold u16. rewrite Z.mod_pow2_bits_low, Z.lor_spec, Z.shiftl_1_l, Z.pow2_bits_eqb by lia.
  rewrite orb_comm. f_equal. destruct (Z.eqb_spec (Z.of_nat i) (Z.of_nat j)), (bool_decide_reflect (i = j)); lia || done.
Qed.

(** The 32-bit fields hold the multiplier and shifts. *)
Definition factor_ok (d : Z) (f : si_fast_udiv_info32) : Prop :=
  exists info, util_compute_fast_udiv_info d 32 32 = Ok info /\ udiv_ok d 32 32 info /\
    f = mk_udiv32 (multiplier info) (pre_shift info) (post_shift info) (increment info).

Lemma factor_computed d : 0 < d < 2 ^ 32 -> exists f, si_compute_fast_udiv_info32 d 32 = Ok f /\ factor_ok d f.
Proof.
  intros Hd. destruct (udiv_info_total d 32 32 Hd ltac:(lia) ltac:(lia)) as (info & E & Hok & _).
  pose proof Hok as [Hm Hpre Hpost Hinc _ _]. unfold si_compute_fast_udiv_info32. rewrite E. cbn [res_bind].
  rewrite !u32_small by (unfold in_u32; lia). eexists; split; [reflexivity|]. by exists info.
Qed.

(** What the masks and factors say about an element. *)
Definition described (e : pipe_vertex_element) (i : nat) (is_one is_fetched : Z) (factors : list si_fast_udiv_info32) : Prop :=
  Z.testbit is_one (Z.of_nat i) = (instance_divisor e =? 1) /\
  Z.testbit is_fetched (Z.of_nat i) = (1 <? instance_divisor e) /\
  (1 < instance_divisor e -> exists f, factors !! i = Some f /\ factor_ok (instance_divisor e) f).

Lemma elements_loop_ok es : forall i one fet fs,
  (i + length es <= 16)%nat -> length fs = 16%nat ->
  Forall (fun e => 0 <= vertex_buffer_index e < SI_NUM_VERTEX_BUFFERS /\ in_u32 (instance_divisor e)) es ->
  (forall j, (i <= j < 16)%nat -> Z.testbit one (Z.of_nat j) = false /\ Z.testbit fet (Z.of_nat j) = false) ->
  0 <= fet < 2 ^ 16 ->
  exists one' fet' fs', elements_loop es i one fet fs = Ok (Some (one', fet', fs')) /\
    length fs' = 16%nat /\ 0 <= fet' < 2 ^ 16 /\
    (forall j, (j < i)%nat -> Z.testbit one' (Z.of_nat j) = Z.testbit one (Z.of_nat j) /\
       Z.testbit fet' (Z.of_nat j) = Z.testbit fet (Z.of_nat j) /\ fs' !! j = fs !! j) /\
    (forall k e, es !! k = Some e -> described e (i + k) one' fet' fs').
Proof.
  induction es as [|e es IH]; intros i one fet fs Hlen Hfs Hes Hz Hfet; cbn [elements_loop].
  { exists one, fet, fs. do 3 (split; [done|]). split; [done|]. intros k e E. by rewrite lookup_nil in E. }
  cbn [length] in Hlen. inversion_clear Hes as [|? ? [Hv Hd] Hes']. unfold in_u32 in Hd.
  rewrite (proj2 (Z.leb_gt _ _)) by lia. destruct (Hz i ltac:(lia)) as [Z1 Z2].
  set (d := instance_divisor e) in *.
  assert (Hstep : forall one1 fet1 fs1, length fs1 = 16%nat -> 0 <= fet1 < 2 ^ 16 -> described e i one1 fet1 fs1 ->
    (forall j, (j < 16)%nat -> j <> i -> Z.testbit one1 (Z.of_nat j) = Z.testbit one (Z.of_nat j) /\
       Z.testbit fet1 (Z.of_nat j) = Z.testbit fet (Z.of_nat j) /\ fs1 !! j = fs !! j) ->
    exists one' fet' fs', elements_loop es (S i) one1 fet1 fs1 = Ok (Some (one', fet', fs')) /\
      length fs' = 16%nat /\ 0 <= fet' < 2 ^ 16 /\
      (forall j, (j < i)%nat -> Z.testbit one' (Z.of_nat j) = Z.testbit one (Z.of_nat j) /\
         Z.testbit fet' (Z.of_nat j) = Z.testbit fet (Z.of_nat j) /\ fs' !! j = fs !! j) /\
      (forall k e', (e :: es) !! k = Some e' -> described e' (i + k) one' fet' fs')).
  { intros one1 fet1 fs1 L1 R1 D1 Hsame.
    destruct (IH (S i) one1 fet1 fs1) as (one' & fet' & fs' & E & L & R & Hlow & Hdesc); [lia|done|done| |done|].
    { intros j Hj. destruct (Hsame j ltac:(lia) ltac:(lia)) as (-> & -> & _). apply Hz. lia. }
    exists one', fet', fs'. split; [done|]. split; [done|]. split; [done|]. split.
    - intros j Hj. destruct (Hlow j ltac:(lia)) as (-> & -> & ->). apply Hsame; lia.
    - intros [|k] e' Ek; cbn in Ek.
      + injection Ek as <-. rewrite Nat.add_0_r. destruct (Hlow i ltac:(lia)) as (O1 & O2 & O3).
        unfold described in *. rewrite O1, O2, O3. done.
      + replace (i + S k)%nat with (S i + k)%nat by lia. by apply Hdesc. }
  assert (Hsb : forall m j, (j < 16)%nat -> j <> i ->
    Z.testbit (u16 (Z.lor m (Z.shiftl 1 (Z.of_nat i)))) (Z.of_nat j) = Z.testbit m (Z.of_nat j)).
  { intros m j Hj Hne. rewrite set_bit by lia. by rewrite bool_decide_eq_false_2 by done. }
  assert (Hbi : forall m, Z.testbit (u16 (Z.lor m (Z.shiftl 1 (Z.of_nat i)))) (Z.of_nat i) = true).
  { intros m. rewrite set_bit by lia. by rewrite bool_decide_eq_true_2 by done. }
  destruct (Z.eqb_spec d 0) as [E0|H0]; cbn [negb].
  { apply Hstep; try done. unfold described. fold d. rewrite Z1, Z2, E0. split; [done|]. split; [done|lia]. }
  destruct (Z.eqb_spec d 1) as [E1|H1].
  { apply Hstep; try done.
    - unfold described. fold d. rewrite Hbi, Z2, E1. split; [done|]. split; [done|lia].
    - intros j Hj Hne. by rewrite Hsb. }
  destruct (factor_computed d ltac:(lia)) as (f & -> & Hf). cbn [res_bind]. apply Hstep.
  - by rewrite length_insert.
  - apply Z.mod_pos_bound. lia.
  - unfold described. fold d. rewrite Hbi, Z1, (proj2 (Z.eqb_neq d 1)), (proj2 (Z.ltb_lt 1 d)) by lia.
    do 2 (split; [done|]). intros _. exists f. split; [|done]. apply list_lookup_insert_eq. lia.
  - intros j Hj Hne. rewrite Hsb by done. rewrite list_lookup_insert_ne by done. done.
Qed.

Lemma factor_words_lookup fs i c f x :
  fs !! i = Some f -> factor_words f !! c = Some x -> concat (map factor_words fs) !! (4 * i + c)%nat = Some x.
Proof.
  revert i. induction fs as [|g fs IH]; intros i Hf Hx; [done|]. destruct i as [|i]; cbn [map concat].
  - injection Hf as ->. rewrite lookup_app_l; [done|]. apply lookup_lt_Some in Hx. cbn in *. lia.
  - rewrite lookup_app_r by (cbn; lia). replace (4 * S i + c - length (factor_words g))%nat with (4 * i + c)%nat by (cbn; lia).
    by apply IH.
Qed.

(** ** The shader *)

Section Shader.
Context (env : nat -> Z).

Lemma ssa_holds i : in_u32 (env i) -> holds env (nir_ssa 32 i) 32 (env i).
Proof. done. Qed.

Lemma ushr_var_ok a b x k :
  holds env a 32 x -> holds env b 32 k -> 0 <= k < 32 -> yields env (nir_ushr a b) 32 (x / 2 ^ k).
Proof.
  intros Ha Hb Hk. assert (E : x / 2 ^ k = eval_const nir_op_ushr 32 [x; k]).
  { cbn [eval_const]. unfold op_ushr. change (32 - 1) with (Z.ones 5).
    rewrite Z.land_ones, Z.mod_small, shiftr_div by lia. done. }
  rewrite E. apply build_shift; try done. rewrite <- E. destruct Ha as (_ & _ & Hx).
  assert (0 < 2 ^ k) by (apply Z.pow_pos_nonneg; lia).
  split; [apply Z.div_pos; lia|]. apply Z.div_lt_upper_bound; [lia|nia].
Qed.

(** The division without carry, for a dividend below [UINT32_MAX]: the addition promised
    not to wrap does not. *)
Lemma fast_udiv_nuw_ok d info num divisor x :
  1 < d < 2 ^ 32 -> udiv_ok d 32 32 info -> holds env num 32 x -> x < 2 ^ 32 - 1 ->
  (forall c v, factor_words (mk_udiv32 (multiplier info) (pre_shift info) (post_shift info) (increment info)) !! c = Some v ->
     exists q, divisor !! c = Some q /\ holds env q 32 v) ->
  x / 2 ^ pre_shift info + increment info < 2 ^ 32 /\
  yields env (fast_udiv_nuw num divisor) 32 (x / d).
Proof.
  intros Hd Hok Hnum Hx Hdiv. pose proof Hok as [Hm Hpre Hpost Hinc _ Hq]. pose proof Hnum as (_ & _ & Hx0).
  pose proof (pow_pos (pre_shift info) ltac:(lia)) as Hpp.
  assert (Hx1 : 0 <= x / 2 ^ pre_shift info <= x) by (split; [apply Z.div_pos; lia|apply Z.div_le_upper_bound; [lia|nia]]).
  split; [lia|]. unfold fast_udiv_nuw, nir_channel.
  destruct (Hdiv 0%nat _ eq_refl) as (q0 & -> & H0). destruct (Hdiv 1%nat _ eq_refl) as (q1 & -> & H1).
  destruct (Hdiv 2%nat _ eq_refl) as (q2 & -> & H2). destruct (Hdiv 3%nat _ eq_refl) as (q3 & -> & H3).
  cbn [f_multiplier f_pre_shift f_post_shift f_increment] in *. cbn [res_bind].
  set (x1 := x / 2 ^ pre_shift info) in *.
  apply yields_bind with 32 x1; [by apply ushr_var_ok|]. intros n1 Hn1.
  apply yields_bind with 32 (x1 + increment info).
  { apply yields_eq with (c_uint 32 (x1 + increment info)).
    - apply iadd_ok; [unfold width; lia|done|done].
    - apply c_uint_small. lia. }
  intros n2 Hn2. apply yields_bind with 32 ((x1 + increment info) * multiplier info / 2 ^ 32).
  { apply umul_high_ok; [unfold width; lia|done|done]. }
  intros n3 Hn3. rewrite <- (Hq x) by lia. unfold fast_udiv. fold x1. by apply ushr_var_ok.
Qed.

(** The index of the element to fetch for an input with divisor [d]. *)
Definition vertex_index (d : Z) : Z :=
  if d =? 0 then env 2%nat + env 3%nat else env 0%nat / d + env 1%nat.

Lemma get_vertex_index_ok e i one fet factors buffer :
  in_u32 (instance_divisor e) -> (forall k, in_u32 (env k)) ->
  described e i one fet factors ->
  (forall f c x, 1 < instance_divisor e -> factors !! i = Some f -> factor_words f !! c = Some x ->
     env (ubo_word (4 * i + c)) = x) ->
  (1 < instance_divisor e -> env 0%nat < 2 ^ 32 - 1) ->
  yields env (get_vertex_index (mk_velems one fet buffer) i) 32 (c_uint 32 (vertex_index (instance_divisor e))).
Proof.
  intros Hd Henv (T1 & T2 & Hf) Hwords Hid. set (d := instance_divisor e) in *. unfold in_u32 in Hd.
  assert (Hw : width 32) by (unfold width; lia).
  unfold get_vertex_index. cbn [instance_divisor_is_one instance_divisor_is_fetched].
  rewrite !land_bit, T1, T2. unfold vertex_index.
  destruct (Z.eqb_spec d 0) as [E0|H0].
  { rewrite E0. cbn [Z.eqb Z.ltb Z.compare orb]. apply iadd_ok; try done; apply ssa_holds, Henv. }
  destruct (Z.eqb_spec d 1) as [E1|H1]; cbn [orb].
  { rewrite E1, Z.div_1_r. cbn [res_bind]. apply iadd_ok; try done; apply ssa_holds, Henv. }
  rewrite (proj2 (Z.ltb_lt 1 d)) by lia. destruct (Hf ltac:(lia)) as (f & Ef & info & _ & Hok & Hfi).
  apply yields_bind with 32 (env 0%nat / d).
  - destruct (fast_udiv_nuw_ok d info nir_load_instance_id (nir_load_ubo (i * 16)) (env 0%nat)) as [_ Hy];
      [lia|done|apply ssa_holds, Henv|apply Hid; lia| |done].
    intros c v Hc. rewrite <- Hfi in Hc. pose proof (lookup_lt_Some _ _ _ Hc) as Hlt. cbn in Hlt.
    pose proof (Hwords f c v ltac:(lia) Ef Hc) as Ev. exists (nir_ssa 32 (ubo_word (4 * i + c))). split.
    + unfold nir_load_ubo. rewrite list_lookup_fmap.
      assert (Ediv : (i * 16 / 4 = 4 * i)%nat) by (replace (i * 16)%nat with (4 * i * 4)%nat by lia; apply Nat.div_mul; lia).
      rewrite Ediv. destruct c as [|[|[|[|]]]]; try lia; reflexivity.
    + rewrite <- Ev. apply ssa_holds, Henv.
  - intros q Hq. apply iadd_ok; try done. apply ssa_holds, Henv.
Qed.
End Shader.

(** ** The theorem *)

(** The constant buffer of the shader holds the words of the driver's buffer. *)
Definition bound (v : si_vertex_elements) (env : nat -> Z) : Prop :=
  forall words k x, instance_divisor_factor_buffer v = Some words -> words !! k = Some x -> env (ubo_word k) = x.

(** C12: instanced attributes fetch the right element.  For at most 16 vertex elements the
    driver's state is created (if the buffer can be allocated), and the shader compiled for
    it computes, with that buffer bound, vertex id plus base for an input without a divisor
    and instance id divided by the divisor, plus base instance, for the others, for every
    32-bit divisor and every instance id but [UINT_MAX] (for which divisors 0 and 1 still
    work). *)
Theorem instance_divisor_fetch elements :
  (length elements <= SI_MAX_ATTRIBS)%nat ->
  Forall (fun e => 0 <= vertex_buffer_index e < SI_NUM_VERTEX_BUFFERS /\ in_u32 (instance_divisor e)) elements ->
  exists v, si_create_vertex_elements (fun _ => true) elements = Ok (Some v) /\
    forall env i e, elements !! i = Some e -> (forall k, in_u32 (env k)) -> bound v env ->
      (1 < instance_divisor e -> env 0%nat <> 2 ^ 32 - 1) ->
      exists q, get_vertex_index v i = Ok q /\ eval env q = u32 (vertex_index env (instance_divisor e)).
Proof.
  intros Hlen Hes. unfold si_create_vertex_elements. rewrite bool_decide_eq_true_2 by done. cbn [assert_ res_bind].
  destruct (elements_loop_ok elements 0 0 0 (replicate SI_MAX_ATTRIBS (mk_udiv32 0 0 0 0)))
    as (one & fet & fs & E & L & R & _ & Hdesc); try done.
  { intros j _. by rewrite !Z.bits_0. }
  rewrite E. cbn [res_bind]. set (fetched := negb (fet =? 0)).
  exists (mk_velems one fet (if fetched then Some (concat (map factor_words (take (Z.to_nat (util_last_bit fet)) fs))) else None)).
  split; [by destruct fetched|]. intros env i e Ei Henv Hb Hid.
  pose proof (proj1 (Forall_lookup _ _) Hes _ _ Ei) as [_ Hd]. pose proof (Hdesc i e Ei) as Hde. cbn [Nat.add] in Hde.
  destruct (get_vertex_index_ok env e i one fet fs
    (if fetched then Some (concat (map factor_words (take (Z.to_nat (util_last_bit fet)) fs))) else None)) as (q & Eq & _ & Ev & _); try done.
  - intros f c x Hd1 Ef Hc. destruct Hde as (_ & T2 & _).
    rewrite (proj2 (Z.ltb_lt 1 (instance_divisor e))) in T2 by done.
    assert (Hne : fet <> 0) by (intros ->; by rewrite Z.bits_0 in T2).
    eapply Hb; [cbn; unfold fetched; by rewrite (proj2 (Z.eqb_neq fet 0))|].
    apply factor_words_lookup with f; [|done]. rewrite lookup_take_lt; [done|].
    unfold util_last_bit. rewrite (proj2 (Z.eqb_neq fet 0)) by done.
    destruct (Z_lt_le_dec (Z.log2 fet) (Z.of_nat i)) as [Hgt|Hle]; [|pose proof (Z.log2_nonneg fet); lia].
    rewrite Z.bits_above_log2 in T2 by lia. done.
  - intros Hd1. pose proof (Hid Hd1). pose proof (Henv 0%nat). unfold in_u32 in *. lia.
  - by exists q.
Qed.

Lemma instance_divisor_fetch_witness :
  exists v, si_create_vertex_elements (fun _ => true) [mk_element 0 0; mk_element 1 7] = Ok (Some v).
Proof.
  destruct (instance_divisor_fetch [mk_element 0 0; mk_element 1 7]) as (v & E & _).
  - vm_compute. lia.
  - repeat constructor; vm_compute; easy.
  - exact (ex_intro _ v E).
Defined.
